(* ===== verification/_CoqProject ===== *)
-Q . S2P
Prelude.v
Counter.v
OrderStat.v
Heap.v
Heapq.v
Partition.v
Container.v
Reference.v
Bisect.v
IntegerContainer.v
Refinement.v
Tests.v
PyString.v
Strptime.v
FileStorage.v
FileStore.v
StoreInvariants.v
Numerals.v
