(* ===== verification/Prelude.v ===== *)
(** * Verification of the practice assessments

    The repository holds three small Python programs: two containers of
    integers with a running median, and an in-memory file store driven
    by a list of commands.  This library models the three programs, the
    library code they call and the unit tests of the containers as
    executable Rocq definitions.  It proves that both containers
    implement the same sorted-list reference, and it proves the
    behaviour of every operation of the file store and of its
    dispatcher.

    ** The program and where it is modelled

    - [src/practice_assessments/filesystem/container.py], class
      [Container]: a multiset of integers with [add], [delete] and
      [get_median], kept as two [heapq] heaps ([_low], a max-heap of
      negated values, and [_high], a min-heap), lazy deletion tallies
      ([_del_low], [_del_high]) and per-partition live counts.  Modelled
      in [Container.v], module [Container]: the object is the record
      [Container], every method is a computation in the
      state-and-exception monad of this file, written statement by
      statement; the two [while] loops are fuel-indexed fixpoints.
    - [src/practice_assessments/progressive_filesystem/integer_container_impl.py],
      class [IntegerContainerImpl]: a [defaultdict] of counts, the number
      of stored integers and the sorted list of distinct keys,
      maintained with [bisect].  Modelled in [IntegerContainer.v], module
      [IntegerContainerImpl], in the same style; the [for] loop of
      [get_median] is a fixpoint on the list of keys.
    - [src/practice_assessments/progressive_filesystem/integer_container.py],
      the interface: module [IntegerContainer] of [IntegerContainer.v].
      The class [IntegerContainer] is a class of Rocq whose fields are
      the three methods with the types of their annotations; the
      default methods are the instance [defaults], and the subclass
      [IntegerContainerImpl] is the instance [overrides].
    - [src/practice_assessments/progressive_filesystem/tests/level_2_tests.py],
      class [Level2Tests]: modelled in [Tests.v].  A test is the list of
      its lines, each a call on the container with the assertion on
      what it returns; [holds] is what each of the four assertions
      checks, with Python's [==] and truth value; a failed assertion
      raises [failureException] and ends the test; [setUp] gives each
      test a new container.
    - Python's [heapq] and [bisect] modules, which the containers call,
      are not part of the repository.  What the containers rely on is
      stated as a class of laws ([HeapLaws] in [Heap.v], [BisectLaws] in
      [Bisect.v]) and the containers are verified against the laws;
      CPython's algorithms ([heappush], [heappop], [_siftdown],
      [_siftup]; [bisect_left], [bisect_right], [insort]) are modelled
      in [Heapq.v] and [Bisect.v] and proved to satisfy them.
    - [collections.Counter] and [defaultdict(int)]: [Counter.v] models
      them as [gmap Z Z] with the idioms of the sources.
    - [src/practice_assessments/file_storage/simulation.py], function
      [simulate_coding_framework]: a dictionary [db_files] from names to
      [FileObj] (size string, creation time, optional lifetime), the flag
      [rollback_mode] and the list [out] of output lines, shared by the
      nested functions [convert_file_size], [parse_ts], [is_alive],
      [upload], [get], [copy], [search] and [rollback], and a loop that
      dispatches each operation on its first word.  Modelled in
      [FileStorage.v], module [simulation]: the three variables are the
      record [state], every nested function is a definition of the same
      name in the monad, the body of the loop is [dispatch] and the loop
      is [run].  The dictionary is an association list in insertion
      order ([dict_get], [dict_set]), since [search] iterates over it;
      the regular expression [_SIZE_RE] is the scanner [_SIZE_RE_match].
    - The methods of [str] and the functions [int] and [repr] that the
      file store calls are modelled in [PyString.v], on the strings
      whose characters have codes below 256.  Python has two classes
      of white space there: [isspace], the [\s] of [_SIZE_RE], and
      [int_isspace], what [int] skips around a literal, which leaves out
      the separators 28 to 31.  The order of [sorted] on names is the
      library's [String.le].
    - [datetime.strptime] and [timestamp]: the file store is written
      against the class [TimestampParser] of [Strptime.v]; the instance
      [cpython_timestamps] models CPython's parser for the one format
      that [parse_ts] uses.

    ** Files, in the order of their dependencies

    - [Prelude.v] (this file): Python exceptions, the monad [M] of
      computations that read and write an object and may raise, its
      notation (scope [py_scope]), the weakest-precondition calculus
      [wp] with its rules, the tactics [wp_step], [wp_steps], [wp_apply]
      and [wp_call], and lemmas on lists shared by the components.
    - [Counter.v]: count maps, the multiset [elements] of a count map,
      positivity, and the permutation lemmas for increment and
      decrement.
    - [OrderStat.v]: the specification of "the value at sorted position
      k" by counting ([is_kth]), the reference median [median_ref]
      computed by sorting, and the lemmas that connect the two.
    - [Heap.v]: the documented heap invariant [heap_inv] on a list, the
      classes [HeapOps] and [HeapLaws], and the consequences clients use
      (the first element of a heap is its minimum).
    - [Heapq.v]: CPython's heap algorithm and the instance of
      [HeapLaws].
    - [Partition.v]: what one heap with its tallies and size counter
      stands for ([partition_ok]), and how push, pop and marking for
      deletion keep it.
    - [Container.v]: the heap-based container, its invariant [Inv] (the
      specification's I1 to I4), the states that a method leaves
      ([tidy]: no stale entry at the top of a heap), the number of
      entries of the heaps ([heap_size]), and the specification of
      every method.
    - [Reference.v]: the sorted-list reference, the replay of a sequence
      of calls, the contract of the three methods ([Contract]) and the
      theorem that an implementation meeting it simulates the reference
      ([contract_refines], [refines_run]).
    - [Bisect.v]: the classes [BisectOps] and [BisectLaws], CPython's
      binary searches and the instance.
    - [IntegerContainer.v]: the interface and its default methods, the
      ordered-index container, its invariant and the specification of
      every method.
    - [Refinement.v]: the two containers as instances of [Contract], the
      driver of a class of the interface ([interface_impl]), and the
      theorems about whole runs.
    - [Tests.v]: the unit tests, which implementations they accept and
      which they reject.
    - [PyString.v]: [startswith], [join], the character classes of
      [_SIZE_RE], [lower], [int] and [repr]; [str] of an integer, and
      that [int] reads it back; the language of the literals of [int]
      ([int_literal]) and the proof that [int] reads exactly these.
    - [Strptime.v]: the class [TimestampParser], the parser of
      timestamps and the conversion of a date to epoch seconds; the
      calendar (years, months, ordinals), the order of timestamps, and
      the parser on the output of [isoformat].
    - [FileStorage.v]: dictionaries as association lists, the file
      store, the language of [_SIZE_RE], and the specification of every
      operation and of the dispatcher.
    - [FileStore.v]: the file store as a state machine on a finite map
      (module [FileStore]: [store], the transition relation [step], the
      runs [steps]), the decoded commands ([command], [decode], [exec]),
      and the proof that the simulation implements the state machine.
    - [StoreInvariants.v]: what every command of the file store keeps,
      whether it returns or raises: the outcomes of the core operations
      as rules, the changes a command can make to [db_files]
      ([changes], [exec_changes]), the type of the creation times
      ([typed]), the end of a lifetime, the guard [accepts] that
      computes whether a command has a step, and what a run never
      undoes.
    - [Numerals.v]: the numbers that the file store reads from strings:
      the value of [convert_file_size] on every string, by the table
      [unit_factor] of the units, and the sizes and lifetimes written
      as Python writes an integer.

    ** What the theorems show

    - Whole runs ([Refinement.v]): replaying any sequence of calls on a
      new [Container] or a new [IntegerContainerImpl] gives the replies
      of the reference; the two containers agree; every reachable state
      satisfies the invariant and has live tops on its heaps; the size
      counters count the calls of [add] minus the successful calls of
      [delete]; the heaps hold at least the live values and at most as
      many entries as there were calls of [add]; a container whose
      values have all been deleted is in the state of a new one, so
      every pending deletion is carried out in the end; [get_median]
      changes no attribute of a reachable container; every reply of
      [Container] has the type of the method's annotation.
    - Single calls ([Container.v], [IntegerContainer.v]): every method
      preserves the invariant, raises nothing but the documented
      [RuntimeError] of [Container.get_median] on an empty container,
      and changes the multiset of live values exactly as an insertion
      or a removal does; [get_median] returns the value at sorted
      position [(N - 1) / 2].
    - Loops: each ends within the fuel given to it.  The exception
      [OutOfFuel], which only the model can raise, is never the outcome.
    - Tests: the ten test cases pass on [IntegerContainerImpl], and on
      any implementation that refines the reference; every one of them
      fails on the default methods of the interface and on [Container];
      they pass on a class whose [delete] returns [1] and [0] for the
      two booleans.
    - File store ([FileStorage.v]): the scanner accepts exactly the
      language of [_SIZE_RE], and [convert_file_size] returns a number
      that is not negative or raises [ValueError]; [upload] is refused
      exactly for a name whose file is alive, and [get] after [upload]
      or [copy] returns the stored file while it is alive; [search]
      returns the ten first matching live files of the sorted order
      ([top_k], defined in this file), by name or by size; by size the
      larger file comes first, and among files of one size the name
      that is first in the order of strings, stated on the sizes
      themselves ([search_largest_first]); the alphabetical result does
      not depend on the insertion order;
      [rollback] resets every creation time and latches the rollback
      mode; the loop keeps the names of the dictionary distinct and
      appends one line of output for each operation; an unknown command
      raises [RuntimeError].  On CPython's parser, [parse_ts] reads
      every timestamp that [isoformat] writes, its values follow the
      order of the calendar, and they lie between the first second of
      the year 1 and the last of the year 9999.  The simulation refines
      the state machine of [FileStore.v]: the function returns exactly
      the lines of the run of the machine from the empty store and
      raises exactly when the machine has no run; every step of the
      machine is implemented, and a command raises exactly when the
      machine has no step for it.  Three theorems record behaviour that the
      specification leaves open: a size that [convert_file_size]
      rejects is accepted by [upload] and ends a later search, the
      operations without a timestamp ignore expiry, and [copy]
      replaces a live destination.
    - Every command of the file store ([StoreInvariants.v]): an
      operation that raises has changed neither [db_files] nor [out];
      every creation time of a reachable state is epoch seconds, on
      CPython's parser the seconds of a time of the calendar; a file is
      dead from the end of its lifetime on, and its name is free again;
      whether a command raises is computed by [accepts] before it runs;
      no run removes a file, reorders the names or resets the rollback
      mode, so that a rollback revives the files that had expired; the
      lines that the simulation returns do not depend on the order in
      which the files were stored, only the message of an exception
      can.
    - Numbers ([Numerals.v]): [convert_file_size] returns the value of
      the digits times the factor of the unit on the language of
      [_SIZE_RE] and raises [ValueError] elsewhere; it reads the
      decimal numeral of a number followed by a unit as the number
      times the factor.  The lifetime of an upload is read by [int]: it
      has a value exactly on the literals of [int_literal], signs,
      underscores and white space included, and raises [ValueError]
      elsewhere ([lifetime_literal] in [FileStore.v]).

    Each theorem about single calls of a container holds for every
    implementation of the library contract; the examples that follow
    it, and the theorems about whole runs, take CPython's.  The
    theorems of the file store hold for every [TimestampParser], except
    those that name [cpython_timestamps].

    ** Fuel

    [_prune_low] and [_prune_high] pop one heap entry per iteration, so
    the length of the heap plus one bounds the iterations.  [_siftdown]
    moves its position strictly towards the root and [_siftup] strictly
    away from it, so the position, respectively the length of the heap,
    bounds them.  The binary searches shrink the interval [lo, hi) in
    each iteration, so the length of the list plus one bounds them.
    The file store has no loop that needs fuel: its loops run over
    lists and are structural fixpoints.

    ** Integers

    Python integers are unbounded: the model uses [Z] and no overflow
    arises.  Positions in lists are natural numbers.  Timestamps are
    whole seconds since the epoch in UTC: the format of [parse_ts] has
    no fraction, so the [float] that [timestamp] returns is integral
    and is modelled in [Z].

    ** Not modelled

    - Characters with codes from 256 on: a string is a sequence of
      characters with codes below 256, and the classes of white space,
      digits and printable characters are Python's on these.  The
      digits and the white space of other scripts, which [int], [\d]
      and [\s] accept, are left out.  [lower] is [str.lower] on the
      codes below 128; the file store applies it to letters of
      [[a-zA-Z]] only.
    - The limit of 4300 digits on the conversion of a string to [int],
      and the forms of [int] other than that of a string in base 10.
    - Other versions of the interpreter: the messages of the
      exceptions of [strptime], of the [datetime] constructor and of
      [int] are those of CPython 3.11 and 3.12.
    - The [timeout] decorator of the unit tests, which bounds the
      wall-clock time of a test, the message of a failed assertion, and
      the discovery and reporting of the [unittest] runner.
    - Operations of the file store whose elements are not strings: the
      model takes a list of lists of strings, as the dispatcher's
      comments describe them.
    - The running time of the operations: the model has no cost.  What
      it proves of the lazy deletion is the bound on the entries of the
      heaps. *)

From stdpp Require Import base list sorting strings.
From Stdlib Require Import ZArith Lia.

(** ** Python exceptions and outcomes *)

(** The exceptions the modelled code can raise.  [Exception] is the
    base class itself, which the unit tests raise for a failed
    assertion.  [OutOfFuel] is not a Python exception: it is what a
    fuel-indexed loop of the model returns when its fuel runs out, and
    the theorems show it never happens. *)
Inductive exn : Type :=
| IndexError
| KeyError
| RuntimeError (msg : string)
| ValueError (msg : string)
| Exception
| OutOfFuel.

#[export] Instance exn_eq_dec : EqDecision exn.
Proof. solve_decision. Defined.

(** The result of running a method: a returned value or a raised
    exception. *)
Inductive outcome (A : Type) : Type :=
| Return (a : A)
| Raise (e : exn).
Arguments Return {A} a.
Arguments Raise {A} e.

#[export] Instance outcome_eq_dec `{EqDecision A} : EqDecision (outcome A).
Proof. solve_decision. Defined.

(** ** The monad of methods

    A method of an object with state [S] maps the state before the call
    to an outcome and the state after it.  A raised exception keeps the
    mutations made before it, as in Python. *)
Definition M (S A : Type) : Type := S → outcome A * S.

Definition ret {S A} (a : A) : M S A := λ s, (Return a, s).

Definition bind {S A B} (c : M S A) (k : A → M S B) : M S B :=
  λ s, match c s with
       | (Return a, s') => k a s'
       | (Raise e, s') => (Raise e, s')
       end.

Definition raise {S A} (e : exn) : M S A := λ s, (Raise e, s).

Definition gets {S A} (f : S → A) : M S A := λ s, (Return (f s), s).

Definition modify {S} (f : S → S) : M S unit := λ s, (Return tt, f s).

(** [lift_option e o]: the value of [o], or the exception [e]. *)
Definition lift_option {S A} (e : exn) (o : option A) : M S A :=
  match o with
  | Some a => ret a
  | None => raise e
  end.

(** The outcome [o] of a function that does not touch the object. *)
Definition lift_outcome {S A} (o : outcome A) : M S A := λ s, (o, s).

Declare Scope py_scope.
Delimit Scope py_scope with py.
Notation "'let*' x := c 'in' k" := (bind c (λ x, k))
  (at level 10, x name, c at level 100, k at level 200) : py_scope.
Notation "c ;; k" := (bind c (λ _, k))
  (at level 100, k at level 200, right associativity) : py_scope.
Open Scope py_scope.

(** ** Weakest preconditions

    [wp c Q E s]: running [c] from [s] either returns [a] in a state [s']
    with [Q a s'], or raises [e] in a state [s'] with [E e s']. *)
Definition wp {S A} (c : M S A) (Q : A → S → Prop) (E : exn → S → Prop)
    (s : S) : Prop :=
  match c s with
  | (Return a, s') => Q a s'
  | (Raise e, s') => E e s'
  end.

(** The exceptional postcondition of a method that does not raise. *)
Definition no_exn {S} : exn → S → Prop := λ _ _, False.

(** * List helpers *)

(** [list.pop()]: the last element and the list without it. *)
Definition list_pop {A} (l : list A) : option (A * list A) :=
  match last l with
  | Some x => Some (x, removelast l)
  | None => None
  end.

(** The longest prefix of [l] whose elements satisfy [p], and the rest:
    what a greedy scanner consumes and what it leaves. *)
Fixpoint takewhile {A} (p : A → bool) (l : list A) : list A :=
  match l with
  | [] => []
  | x :: l' => if p x then x :: takewhile p l' else []
  end.

Fixpoint dropwhile {A} (p : A → bool) (l : list A) : list A :=
  match l with
  | [] => []
  | x :: l' => if p x then dropwhile p l' else l
  end.

(** * Rules of the calculus *)

Section wp_rules.
Context {S : Type}.
Implicit Types (s : S) (E : exn → S → Prop).

Lemma wp_ret {A} (a : A) (Q : A → S → Prop) E s :
  Q a s → wp (ret a) Q E s.
Proof. done. Qed.

Lemma wp_raise {A} (e : exn) (Q : A → S → Prop) E s :
  E e s → wp (raise e) Q E s.
Proof. done. Qed.

Lemma wp_gets {A} (f : S → A) (Q : A → S → Prop) E s :
  Q (f s) s → wp (gets f) Q E s.
Proof. done. Qed.

Lemma wp_modify (f : S → S) (Q : unit → S → Prop) E s :
  Q tt (f s) → wp (modify f) Q E s.
Proof. done. Qed.

Lemma wp_bind {A B} (c : M S A) (k : A → M S B) (Q : B → S → Prop) E s :
  wp c (λ a s', wp (k a) Q E s') E s → wp (bind c k) Q E s.
Proof. unfold wp, bind. by destruct (c s) as [[a|e] s']. Qed.

Lemma wp_bind_inv {A B} (c : M S A) (k : A → M S B) (Q : B → S → Prop) E s :
  wp (bind c k) Q E s → wp c (λ a s', wp (k a) Q E s') E s.
Proof. unfold wp, bind. by destruct (c s) as [[a|e] s']. Qed.

Lemma wp_mono {A} (c : M S A) (Q Q' : A → S → Prop) E E' s :
  wp c Q E s →
  (∀ a s', Q a s' → Q' a s') →
  (∀ e s', E e s' → E' e s') →
  wp c Q' E' s.
Proof. unfold wp. destruct (c s) as [[a|e] s']; eauto. Qed.

Lemma wp_no_exn_mono {A} (c : M S A) (Q Q' : A → S → Prop) E s :
  wp c Q no_exn s →
  (∀ a s', Q a s' → Q' a s') →
  wp c Q' E s.
Proof. intros H HQ. eapply wp_mono; [exact H|exact HQ|]. by intros ?? []. Qed.

Lemma wp_lift_option_Some {A} (e : exn) (o : option A) (a : A)
    (Q : A → S → Prop) E s :
  o = Some a → Q a s → wp (lift_option e o) Q E s.
Proof. by intros ->. Qed.

Lemma wp_lift_option_None {A} (e : exn) (o : option A)
    (Q : A → S → Prop) E s :
  o = None → E e s → wp (lift_option e o) Q E s.
Proof. by intros ->. Qed.

Lemma wp_lift_outcome {A} (o : outcome A) (a : A) (Q : A → S → Prop) E s :
  o = Return a → Q a s → wp (lift_outcome o) Q E s.
Proof. by intros ->. Qed.

(** What [wp] says of a run: the two readings used to state results
    about [c s] directly. *)
Lemma wp_returns {A} (c : M S A) (Q : A → S → Prop) s :
  wp c Q no_exn s → ∃ a s', c s = (Return a, s') ∧ Q a s'.
Proof. unfold wp. destruct (c s) as [[a|e] s']; [eauto|done]. Qed.

Lemma wp_of_run {A} (c : M S A) (Q : A → S → Prop) E s a s' :
  c s = (Return a, s') → Q a s' → wp c Q E s.
Proof. unfold wp. by intros ->. Qed.

End wp_rules.

(** * Tactics *)

(** One step of symbolic execution of the goal's computation. *)
Ltac wp_step :=
  lazymatch goal with
  | |- wp (bind _ _) _ _ _ => apply wp_bind
  | |- wp (ret _) _ _ _ => apply wp_ret
  | |- wp (raise _) _ _ _ => apply wp_raise
  | |- wp (gets _) _ _ _ => apply wp_gets
  | |- wp (modify _) _ _ _ => apply wp_modify
  end.

Ltac wp_steps := repeat wp_step.

(** Use the specification [H] of the computation at the head of the goal;
    the continuation is left with the postcondition of [H] as a
    hypothesis to introduce. *)
Ltac wp_focus :=
  lazymatch goal with
  | |- wp (bind _ _) _ _ _ => apply wp_bind
  | |- _ => idtac
  end.

Ltac wp_apply H :=
  wp_focus;
  eapply wp_no_exn_mono; [eapply H|].

(** Call a helper whose specification [lem] has the precondition [H] and
    a postcondition [∃ x y, s' = _ ∧ P ∧ R]: [H] becomes the proof of
    [P] for the state after the call, [x] and [y] name the new
    components of the state and the pattern [HR] takes the proof of
    [R]. *)
Tactic Notation "wp_call" uconstr(lem) "with" hyp(H)
    "as" ident(x) ident(y) simple_intropattern(HR) :=
  wp_focus;
  eapply wp_no_exn_mono; [eapply lem; first [exact H|tc_solve]|];
  clear H; intros [] ? (x & y & -> & H & HR).

(** * Lemmas on lists *)

Create HintDb py_list discriminated.

Section list_lemmas.
Context {A : Type}.
Implicit Types (l : list A) (x y : A) (i j : nat).

Lemma list_pop_nil : list_pop (@nil A) = None.
Proof. done. Qed.

Lemma list_pop_snoc l x : list_pop (l ++ [x]) = Some (x, l).
Proof. unfold list_pop. by rewrite last_snoc, removelast_last. Qed.

Lemma list_pop_Some l x l' : list_pop l = Some (x, l') ↔ l = l' ++ [x].
Proof.
  split; [|intros ->; apply list_pop_snoc].
  destruct l as [|y l _] using rev_ind; [done|].
  rewrite list_pop_snoc. by intros [= -> ->].
Qed.

Lemma list_pop_None l : list_pop l = None ↔ l = [].
Proof.
  split; [|by intros ->].
  destruct l as [|y l _] using rev_ind; [done|]. by rewrite list_pop_snoc.
Qed.

Lemma takewhile_dropwhile (p : A → bool) l :
  takewhile p l ++ dropwhile p l = l.
Proof. induction l as [|x l IH]; simpl; [done|]. destruct (p x); by f_equal/=. Qed.

Lemma Forall_takewhile (p : A → bool) l : Forall (λ x, p x = true) (takewhile p l).
Proof.
  induction l as [|x l IH]; simpl; [constructor|].
  destruct (p x) eqn:Hx; by constructor.
Qed.

Lemma head_dropwhile (p : A → bool) l x :
  head (dropwhile p l) = Some x → p x = false.
Proof.
  induction l as [|y l IH]; simpl; [done|].
  destruct (p y) eqn:Hy; [done|]. by intros [= <-].
Qed.

(** A prefix that satisfies [p], followed by nothing or by an element
    that does not, is what [takewhile] takes. *)
Lemma takewhile_app (p : A → bool) l1 l2 :
  Forall (λ x, p x = true) l1 → (∀ x, head l2 = Some x → p x = false) →
  takewhile p (l1 ++ l2) = l1 ∧ dropwhile p (l1 ++ l2) = l2.
Proof.
  intros Hl1 Hl2. induction Hl1 as [|x l1 Hx _ [IH1 IH2]]; simpl.
  - destruct l2 as [|y l2]; [done|]. simpl. by rewrite (Hl2 y).
  - rewrite Hx. by rewrite IH1, IH2.
Qed.

Lemma takewhile_all (p : A → bool) l :
  Forall (λ x, p x = true) l → takewhile p l = l ∧ dropwhile p l = [].
Proof.
  intros Hl. destruct (takewhile_app p l [] Hl) as [H1 H2]; [done|].
  by rewrite app_nil_r in H1, H2.
Qed.

(** Sorted lists: a sublist is sorted, and positions are ordered as
    their entries. *)
Lemma StronglySorted_sublist (R : relation A) l1 l2 :
  l1 `sublist_of` l2 → StronglySorted R l2 → StronglySorted R l1.
Proof.
  induction 1 as [|x l1 l2 Hl IH|x l1 l2 Hl IH]; intros Hs; [done| |].
  - apply StronglySorted_inv in Hs as [Hs Hx]. constructor; [by apply IH|].
    apply Forall_forall. intros y Hy.
    eapply Forall_forall; [exact Hx|]. by eapply elem_of_sublist.
  - apply StronglySorted_inv in Hs as [Hs _]. by apply IH.
Qed.

Lemma StronglySorted_lookup (R : relation A) l i j x y :
  StronglySorted R l → (i < j)%nat →
  l !! i = Some x → l !! j = Some y → R x y.
Proof.
  intros Hs Hij Hi Hj. rewrite <-(take_drop_middle l j y Hj) in Hs.
  apply (StronglySorted_app_1_elem_of R _ _ x y Hs); [|by left].
  apply list_elem_of_lookup. exists i. by apply lookup_take_Some.
Qed.

(** [res] is the first [k] elements of [l] in the order [R]: it is
    sorted, has [k] elements or all of them, and the elements of [l] it
    leaves out come after its own. *)
Definition top_k (R : relation A) (k : nat) (l res : list A) : Prop :=
  ∃ rest, res ++ rest ≡ₚ l ∧ StronglySorted R (res ++ rest) ∧
          length res = (k `min` length l)%nat.

Lemma top_k_merge_sort (R : relation A) `{!RelDecision R}
    `{!Transitive R} `{!Total R} k l :
  top_k R k l (take k (merge_sort R l)).
Proof.
  exists (drop k (merge_sort R l)). rewrite take_drop. split_and!.
  - apply merge_sort_Permutation.
  - by apply StronglySorted_merge_sort.
  - by rewrite length_take, merge_sort_Permutation.
Qed.

(** What [top_k] gives: the result is sorted, not longer than [k], made
    of elements of [l], and below what it leaves out. *)
Lemma top_k_sorted (R : relation A) k l res :
  top_k R k l res → StronglySorted R res.
Proof. intros (rest & _ & Hs & _). by apply StronglySorted_app_1_l in Hs. Qed.

Lemma top_k_length (R : relation A) k l res :
  top_k R k l res → (length res ≤ k)%nat.
Proof. intros (rest & _ & _ & ->). lia. Qed.

Lemma top_k_elem_of (R : relation A) k l res x :
  top_k R k l res → x ∈ res → x ∈ l.
Proof. intros (rest & <- & _) Hx. apply elem_of_app. by left. Qed.

Lemma top_k_lookup (R : relation A) k l res i j x y :
  top_k R k l res → (i < j)%nat →
  res !! i = Some x → res !! j = Some y → R x y.
Proof. intros Htop. apply StronglySorted_lookup. by eapply top_k_sorted. Qed.

Lemma top_k_cut (R : relation A) k l res x y :
  top_k R k l res → x ∈ res → y ∈ l → y ∉ res → R x y.
Proof.
  intros (rest & Hp & Hs & _) Hx Hy Hny.
  rewrite <-Hp, elem_of_app in Hy. destruct Hy as [?|Hy]; [done|].
  by apply (StronglySorted_app_1_elem_of R res rest).
Qed.

Lemma top_k_all (R : relation A) k l res :
  top_k R k l res → (length l ≤ k)%nat → res ≡ₚ l.
Proof.
  intros (rest & Hp & _ & Hlen) Hk.
  assert (length (res ++ rest) = length l) as Hl by by rewrite Hp.
  rewrite length_app in Hl. destruct rest; [by rewrite app_nil_r in Hp|].
  simpl in *. lia.
Qed.

(** With an antisymmetric order the first [k] are determined by the
    elements of [l], whatever their order in [l]. *)
(** The order of the list does not matter. *)
Lemma top_k_Permutation (R : relation A) k l l' res :
  l ≡ₚ l' → top_k R k l res → top_k R k l' res.
Proof.
  intros Hl (rest & Hp & Hs & Hlen). exists rest. by rewrite <-Hl.
Qed.

Lemma top_k_unique (R : relation A) `{!AntiSymm eq R} k l l' res res' :
  l ≡ₚ l' → top_k R k l res → top_k R k l' res' → res = res'.
Proof.
  intros Hl (rest & Hp & Hs & Hlen) (rest' & Hp' & Hs' & Hlen').
  assert (res ++ rest = res' ++ rest') as Heq.
  { apply (StronglySorted_unique R); [done..|]. by rewrite Hp, Hp', Hl. }
  rewrite Hl in Hlen. rewrite <-Hlen' in Hlen.
  by apply app_inj_1 in Heq as [? _].
Qed.

End list_lemmas.
