(* ===== verification/Counter.v ===== *)
(** * Count maps: [collections.Counter] and [defaultdict(int)]

    Both containers keep maps from an integer to a count.  In the source
    they are a [Counter] ([_count], [_count_low], [_count_high]) or a
    [defaultdict(int)] ([_del_low], [_del_high], [_counts]); the model is
    a [gmap Z Z] with the three ways the source uses them: a read that
    gives 0 for a missing key, [m[k] += 1], and [m[k] -= 1] followed by
    [if m[k] == 0: del m[k]].

    [elements] is the multiset a count map stands for (Python's
    [Counter.elements()]): the specifications of the containers are
    stated on it, up to permutation. *)

From stdpp Require Import gmap list sorting.
From S2P Require Import Prelude.

Local Open Scope Z_scope.

(** [m[k]] on a [Counter], [m.get(k, 0)] on any dict: 0 when [k] is
    missing, and the map is not changed. *)
Definition cget (m : gmap Z Z) (k : Z) : Z := default 0 (m !! k).

(** [m[k] += 1]. *)
Definition cincr (m : gmap Z Z) (k : Z) : gmap Z Z :=
  <[k := cget m k + 1]> m.

(** [m[k] -= 1; if m[k] == 0: del m[k]].  The key is present when [del]
    runs, since the assignment has just stored it, so [del] cannot raise
    [KeyError]. *)
Definition cdecr_del (m : gmap Z Z) (k : Z) : gmap Z Z :=
  let m1 := <[k := cget m k - 1]> m in
  if decide (cget m1 k = 0) then delete k m1 else m1.

(** [m[k]] on a [defaultdict(int)]: a missing key is first stored with
    the default 0, so the read changes the map. *)
Definition dgetitem (m : gmap Z Z) (k : Z) : Z * gmap Z Z :=
  match m !! k with
  | Some n => (n, m)
  | None => (0, <[k := 0]> m)
  end.

(** [m[k] -= 1], without the test that follows it. *)
Definition cdecr (m : gmap Z Z) (k : Z) : gmap Z Z :=
  <[k := cget m k - 1]> m.

(** The multiset of a count map: each key as often as its count says,
    keys with a count below 1 not at all. *)
Definition elements (m : gmap Z Z) : list Z :=
  map_to_list m ≫= λ '(v, n), replicate (Z.to_nat n) v.

(** Every stored count is positive: no key is kept with count 0. *)
Definition positive (m : gmap Z Z) : Prop :=
  map_Forall (λ _ n, 0 < n) m.

#[export] Instance positive_dec m : Decision (positive m).
Proof. unfold positive. apply _. Defined.

(** The multiset of [m] is the disjoint union of those of [ml] and [mr]:
    how [_count] relates to [_count_low] and [_count_high]. *)
Definition splits (m ml mr : gmap Z Z) : Prop :=
  elements m ≡ₚ elements ml ++ elements mr.

(** Every value of [ml] is at most every value of [mr]. *)
Definition ordered (ml mr : gmap Z Z) : Prop :=
  Forall (λ a, Forall (λ b, a ≤ b) (elements mr)) (elements ml).

#[export] Instance splits_dec m ml mr : Decision (splits m ml mr).
Proof. unfold splits. apply _. Defined.

#[export] Instance ordered_dec ml mr : Decision (ordered ml mr).
Proof. unfold ordered. apply _. Defined.

(** The values of the keys [ks], each as often as its count says, in
    the order of [ks]: what a walk over a list of keys accumulates. *)
Definition expand (m : gmap Z Z) (ks : list Z) : list Z :=
  ks ≫= λ k, replicate (Z.to_nat (cget m k)) k.

Section counter_lemmas.
Implicit Types (m : gmap Z Z) (k v : Z).

Lemma cget_empty k : cget ∅ k = 0.
Proof. unfold cget. by rewrite lookup_empty. Qed.

Lemma cget_insert m k v n :
  cget (<[k:=n]> m) v = if decide (k = v) then n else cget m v.
Proof. unfold cget. rewrite lookup_insert. by case_decide. Qed.

Lemma cget_insert_eq m k n : cget (<[k:=n]> m) k = n.
Proof. unfold cget. by rewrite lookup_insert_eq. Qed.

Lemma cget_delete m k v :
  cget (delete k m) v = if decide (k = v) then 0 else cget m v.
Proof. unfold cget. rewrite lookup_delete. by case_decide. Qed.

Lemma cget_cincr m k v :
  cget (cincr m k) v = if decide (k = v) then cget m k + 1 else cget m v.
Proof. apply cget_insert. Qed.

Lemma cget_cdecr_del m k v :
  cget (cdecr_del m k) v = if decide (k = v) then cget m k - 1 else cget m v.
Proof.
  unfold cdecr_del. cbv zeta. rewrite cget_insert_eq.
  destruct (decide (cget m k - 1 = 0)) as [Hz|Hz];
    rewrite ?cget_delete, ?cget_insert; case_decide; congruence.
Qed.

Lemma positive_cget m k : positive m → 0 ≤ cget m k.
Proof.
  intros Hm. unfold cget. destruct (m !! k) as [n|] eqn:Hk; [|done].
  apply Hm in Hk. simpl. lia.
Qed.

Lemma positive_lookup m k n : positive m → m !! k = Some n → cget m k = n ∧ 0 < n.
Proof. intros Hm Hk. unfold cget. rewrite Hk. split; [done|]. by apply Hm in Hk. Qed.

Lemma positive_empty : positive ∅.
Proof. apply map_Forall_empty. Qed.

Lemma positive_cincr m k : positive m → positive (cincr m k).
Proof.
  intros Hm. apply map_Forall_insert_2; [|done].
  pose proof (positive_cget m k Hm). lia.
Qed.

Lemma positive_cdecr_del m k : positive m → 0 < cget m k → positive (cdecr_del m k).
Proof.
  intros Hm Hk. unfold cdecr_del. cbv zeta.
  rewrite cget_insert_eq. case_decide.
  - rewrite delete_insert_eq. by apply map_Forall_delete.
  - apply map_Forall_insert_2; [lia|done].
Qed.

(** ** The multiset of a count map *)

Lemma elements_empty : elements ∅ = [].
Proof. unfold elements. by rewrite map_to_list_empty. Qed.

Lemma elements_insert_fresh m k n :
  m !! k = None → elements (<[k:=n]> m) ≡ₚ replicate (Z.to_nat n) k ++ elements m.
Proof.
  intros Hk. unfold elements. by rewrite (map_to_list_insert m k n Hk), bind_cons.
Qed.

(** The occurrences of one key split off. *)
Lemma elements_split m k :
  elements m ≡ₚ replicate (Z.to_nat (cget m k)) k ++ elements (delete k m).
Proof.
  unfold cget. destruct (m !! k) as [n|] eqn:Hk; simpl.
  - rewrite <-(insert_delete_id m k n Hk) at 1.
    apply elements_insert_fresh, lookup_delete_eq.
  - by rewrite delete_id.
Qed.

Lemma elements_insert m k n :
  elements (<[k:=n]> m) ≡ₚ replicate (Z.to_nat n) k ++ elements (delete k m).
Proof.
  by rewrite (elements_split _ k), cget_insert_eq, delete_insert_eq.
Qed.

Lemma elements_delete_zero m k : cget m k ≤ 0 → elements (delete k m) ≡ₚ elements m.
Proof.
  intros Hk. rewrite (elements_split m k).
  by replace (Z.to_nat (cget m k)) with 0%nat by lia.
Qed.

(** [m[k] += 1] adds one occurrence of [k]. *)
Lemma elements_cincr m k :
  0 ≤ cget m k → elements (cincr m k) ≡ₚ k :: elements m.
Proof.
  intros Hk. unfold cincr. rewrite elements_insert, (elements_split m k).
  by replace (Z.to_nat (cget m k + 1)) with (S (Z.to_nat (cget m k))) by lia.
Qed.

(** The decrement removes one occurrence of [k], when there is one. *)
Lemma elements_cdecr_del m k :
  0 < cget m k → k :: elements (cdecr_del m k) ≡ₚ elements m.
Proof.
  intros Hk. rewrite (elements_split m k), (elements_split (cdecr_del m k) k).
  rewrite cget_cdecr_del, (decide_True (P:=k = k)) by done.
  replace (Z.to_nat (cget m k)) with (S (Z.to_nat (cget m k - 1))) by lia.
  simpl. do 2 f_equiv. unfold cdecr_del. cbv zeta. case_decide.
  - by rewrite delete_delete_eq, delete_insert_eq.
  - by rewrite delete_insert_eq.
Qed.

Lemma elem_of_elements m v : v ∈ elements m ↔ 0 < cget m v.
Proof.
  unfold elements, cget. rewrite list_elem_of_bind. split.
  - intros [[k n] [Hv Hkn]]. apply elem_of_replicate in Hv as [-> Hn].
    apply elem_of_map_to_list in Hkn. rewrite Hkn. simpl. lia.
  - destruct (m !! v) as [n|] eqn:Hv; simpl; [|lia]. intros Hn.
    exists (v, n). rewrite elem_of_replicate, elem_of_map_to_list.
    split; [split; [done|lia]|done].
Qed.

Lemma elements_nil_cget m v : elements m = [] → cget m v ≤ 0.
Proof.
  intros Hm. destruct (decide (0 < cget m v)) as [Hv|]; [|lia].
  apply elem_of_elements in Hv. rewrite Hm in Hv. by apply not_elem_of_nil in Hv.
Qed.

(** A count map without stored zeros that stands for no value is the
    empty dict. *)
Lemma positive_elements_nil m : positive m → elements m = [] → m = ∅.
Proof.
  intros Hpos Hnil. apply map_empty. intros k.
  destruct (m !! k) as [n|] eqn:Hk; [|done].
  destruct (positive_lookup m k n Hpos Hk) as [Hget Hn].
  pose proof (elements_nil_cget m k Hnil). lia.
Qed.

Lemma length_elements_cincr m k :
  0 ≤ cget m k → length (elements (cincr m k)) = S (length (elements m)).
Proof. intros Hk. by rewrite (elements_cincr m k Hk). Qed.

Lemma length_elements_cdecr_del m k :
  0 < cget m k → S (length (elements (cdecr_del m k))) = length (elements m).
Proof. intros Hk. by rewrite <-(elements_cdecr_del m k Hk). Qed.

(** ** A count map split in two *)

Lemma splits_cget m ml mr v :
  splits m ml mr → 0 < cget m v ↔ 0 < cget ml v ∨ 0 < cget mr v.
Proof.
  unfold splits. intros Hs.
  by rewrite <-!elem_of_elements, Hs, elem_of_app.
Qed.

Lemma splits_empty : splits ∅ ∅ ∅.
Proof. unfold splits. by rewrite elements_empty. Qed.

Lemma splits_cincr_l m ml mr v :
  0 ≤ cget m v → 0 ≤ cget ml v →
  splits m ml mr → splits (cincr m v) (cincr ml v) mr.
Proof. unfold splits. intros ?? Hs. by rewrite !elements_cincr, Hs. Qed.

Lemma splits_cincr_r m ml mr v :
  0 ≤ cget m v → 0 ≤ cget mr v →
  splits m ml mr → splits (cincr m v) ml (cincr mr v).
Proof.
  unfold splits. intros ?? Hs.
  by rewrite !elements_cincr, Hs, Permutation_middle.
Qed.

Lemma splits_cdecr_l m ml mr v :
  0 < cget ml v → splits m ml mr →
  splits (cdecr_del m v) (cdecr_del ml v) mr.
Proof.
  intros Hv Hs. assert (0 < cget m v) by (apply (splits_cget _ _ _ _ Hs); auto).
  unfold splits in *. apply (Permutation_cons_inv (a:=v)).
  by rewrite app_comm_cons, !elements_cdecr_del.
Qed.

Lemma splits_cdecr_r m ml mr v :
  0 < cget mr v → splits m ml mr →
  splits (cdecr_del m v) ml (cdecr_del mr v).
Proof.
  intros Hv Hs. assert (0 < cget m v) by (apply (splits_cget _ _ _ _ Hs); auto).
  unfold splits in *. apply (Permutation_cons_inv (a:=v)).
  by rewrite Permutation_middle, !elements_cdecr_del.
Qed.

(** One occurrence of [v] moves from the left part to the right one. *)
Lemma splits_move_lr m ml mr v :
  0 < cget ml v → 0 ≤ cget mr v →
  splits m ml mr → splits m (cdecr_del ml v) (cincr mr v).
Proof.
  unfold splits. intros ?? ->.
  by rewrite elements_cincr, <-Permutation_middle, app_comm_cons,
    elements_cdecr_del.
Qed.

Lemma splits_move_rl m ml mr v :
  0 < cget mr v → 0 ≤ cget ml v →
  splits m ml mr → splits m (cincr ml v) (cdecr_del mr v).
Proof.
  unfold splits. intros ?? ->.
  by rewrite elements_cincr, <-app_comm_cons, Permutation_middle,
    elements_cdecr_del.
Qed.

(** ** Two count maps in order *)

Lemma ordered_spec ml mr :
  ordered ml mr ↔ ∀ a b, 0 < cget ml a → 0 < cget mr b → a ≤ b.
Proof.
  unfold ordered. rewrite Forall_forall. setoid_rewrite Forall_forall.
  setoid_rewrite elem_of_elements. naive_solver.
Qed.

Lemma ordered_empty_r ml mr : elements mr = [] → ordered ml mr.
Proof.
  intros Hr. apply ordered_spec. intros a b _ Hb.
  pose proof (elements_nil_cget mr b Hr). lia.
Qed.

Lemma ordered_cincr_l ml mr v :
  ordered ml mr → (∀ b, 0 < cget mr b → v ≤ b) → ordered (cincr ml v) mr.
Proof.
  rewrite !ordered_spec. intros Ho Hv a b. rewrite cget_cincr.
  case_decide; subst; auto.
Qed.

Lemma ordered_cincr_r ml mr v :
  ordered ml mr → (∀ a, 0 < cget ml a → a ≤ v) → ordered ml (cincr mr v).
Proof.
  rewrite !ordered_spec. intros Ho Hv a b ?. rewrite cget_cincr.
  case_decide; subst; auto.
Qed.

Lemma ordered_cdecr_l ml mr v : ordered ml mr → ordered (cdecr_del ml v) mr.
Proof.
  rewrite !ordered_spec. intros Ho a b. rewrite cget_cdecr_del.
  case_decide; subst; intros; apply Ho; lia.
Qed.

Lemma ordered_cdecr_r ml mr v : ordered ml mr → ordered ml (cdecr_del mr v).
Proof.
  rewrite !ordered_spec. intros Ho a b ?. rewrite cget_cdecr_del.
  case_decide; subst; intros; apply Ho; lia.
Qed.

(** ** The inserting read and the plain decrement *)

Lemma dgetitem_fst m k : (dgetitem m k).1 = cget m k.
Proof. unfold dgetitem, cget. by destruct (m !! k). Qed.

Lemma dgetitem_present m k : is_Some (m !! k) → dgetitem m k = (cget m k, m).
Proof. unfold dgetitem, cget. by intros [n ->]. Qed.

(** The assignment of [m[k] += 1] overwrites what the read stored. *)
Lemma cincr_dgetitem m k : cincr (dgetitem m k).2 k = cincr m k.
Proof.
  unfold dgetitem. destruct (m !! k) eqn:Hk; simpl; [done|].
  unfold cincr, cget. by rewrite lookup_insert_eq, Hk, insert_insert_eq.
Qed.

Lemma cdecr_del_cdecr m k :
  cdecr_del m k =
  if decide (cget (cdecr m k) k = 0) then delete k (cdecr m k) else cdecr m k.
Proof. done. Qed.

Lemma cget_cdecr m k : cget (cdecr m k) k = cget m k - 1.
Proof. apply cget_insert_eq. Qed.

(** ** Walking the keys *)

Lemma expand_cons m k ks :
  expand m (k :: ks) = replicate (Z.to_nat (cget m k)) k ++ expand m ks.
Proof. done. Qed.

Lemma expand_delete m k ks : k ∉ ks → expand (delete k m) ks = expand m ks.
Proof.
  intros Hk. unfold expand. apply Forall_bind_ext, Forall_forall.
  intros k' Hk'. rewrite cget_delete, decide_False; [done|]. by intros ->.
Qed.

(** Walking each key once enumerates the multiset. *)
Lemma expand_elements m ks :
  NoDup ks → (∀ k, k ∈ ks ↔ is_Some (m !! k)) → expand m ks ≡ₚ elements m.
Proof.
  intros Hnd. revert m. induction Hnd as [|k ks Hk Hnd IH]; intros m Hdom.
  - rewrite (proj2 (map_empty m)); [by rewrite elements_empty|].
    intros k. apply eq_None_not_Some. rewrite <-Hdom. apply not_elem_of_nil.
  - rewrite expand_cons, (elements_split m k), <-(expand_delete m k ks Hk).
    f_equiv. apply IH. intros k'. rewrite lookup_delete_is_Some, <-Hdom.
    rewrite elem_of_cons. split; [intros Hk'; split; [by intros ->|by right]|].
    by intros [Hne [->|?]].
Qed.

(** Walking sorted keys enumerates the values in ascending order. *)
Lemma expand_sorted m ks :
  StronglySorted Z.le ks → StronglySorted Z.le (expand m ks).
Proof.
  induction 1 as [|k ks Hs IH Hk]; [constructor|]. rewrite expand_cons.
  apply StronglySorted_app. split_and!; [|clear; induction (Z.to_nat _)|done].
  - intros x y ->%elem_of_replicate_inv
      (k' & (-> & _)%elem_of_replicate & Hk')%list_elem_of_bind.
    by eapply Forall_forall in Hk.
  - constructor.
  - simpl. constructor; [done|]. apply Forall_forall.
    by intros ? ->%elem_of_replicate_inv.
Qed.

End counter_lemmas.

#[export] Hint Resolve positive_empty positive_cincr positive_cdecr_del
  positive_cget : py_list.
