(* ===== verification/OrderStat.v ===== *)
(** * Order statistics: the specification of the median

    The contract of both containers is "the value at sorted position
    [(N - 1) / 2] of the live values".  This file states it twice and
    proves the two statements equal:

    - [median_ref]: sort the list and index it (the naive reference of
      the differential test);
    - [is_kth l k m]: fewer than or [k] elements are below [m] and more
      than [k] are below or equal to it.  This form needs no sorting, is
      stable under permutation, and is what the implementations are
      proved against. *)

From stdpp Require Import list sorting.
From S2P Require Import Prelude.

(** Elements of [l] strictly below [m], below or equal to [m]. *)
Definition count_lt (l : list Z) (m : Z) : nat :=
  length (filter (λ x, (x < m)%Z) l).

Definition count_le (l : list Z) (m : Z) : nat :=
  length (filter (λ x, (x ≤ m)%Z) l).

(** [m] is at position [k] (from 0) of [l] sorted ascending. *)
Definition is_kth (l : list Z) (k : nat) (m : Z) : Prop :=
  count_lt l m ≤ k < count_le l m.

#[export] Instance is_kth_dec l k m : Decision (is_kth l k m).
Proof. unfold is_kth. apply _. Defined.

(** The reference: the live values sorted ascending. *)
Definition sorted_ref (l : list Z) : list Z := merge_sort Z.le l.

(** The position of the median among [n] sorted values: the middle one,
    the left of the two middle ones when [n] is even. *)
Definition median_index (n : nat) : nat := (n - 1) / 2.

(** The reference median: [None] for no values. *)
Definition median_ref (l : list Z) : option Z :=
  sorted_ref l !! median_index (length l).

#[export] Instance count_lt_Permutation :
  Proper (Permutation ==> eq ==> eq) count_lt.
Proof. intros l1 l2 Hl m ? <-. unfold count_lt. by rewrite Hl. Qed.

#[export] Instance count_le_Permutation :
  Proper (Permutation ==> eq ==> eq) count_le.
Proof. intros l1 l2 Hl m ? <-. unfold count_le. by rewrite Hl. Qed.

#[export] Instance is_kth_Permutation :
  Proper (Permutation ==> eq ==> eq ==> iff) is_kth.
Proof. intros l1 l2 Hl k ? <- m ? <-. unfold is_kth. by rewrite Hl. Qed.

Section order_stat.
Implicit Types (l : list Z) (m : Z) (k : nat).

Lemma median_index_lt n : 0 < n → median_index n < n.
Proof. unfold median_index. intros Hn. apply Nat.Div0.div_lt_upper_bound. lia. Qed.

(** The index as the sources compute it, on integers:
    [(size - 1) // 2]. *)
Lemma median_index_Z n :
  0 < n → Z.to_nat ((Z.of_nat n - 1) `div` 2) = median_index n.
Proof.
  intros Hn. unfold median_index.
  replace (Z.of_nat n - 1)%Z with (Z.of_nat (n - 1)) by lia.
  change 2%Z with (Z.of_nat 2). by rewrite <-Nat2Z.inj_div, Nat2Z.id.
Qed.

(** With [n] values split into a lower part of [a] and an upper part of
    [b] values, [b ≤ a ≤ b + 1], the median is the last of the lower part. *)
Lemma median_index_balanced a b : b ≤ a ≤ b + 1 → median_index (a + b) = a - 1.
Proof.
  intros Hab. unfold median_index.
  destruct (decide (a = b)) as [->|]; [|replace a with (b + 1) by lia].
  - destruct b as [|b]; [done|].
    replace (S b + S b - 1) with (1 + b * 2) by lia.
    rewrite Nat.div_add; simpl; lia.
  - replace (b + 1 + b - 1) with (b * 2) by lia. rewrite Nat.div_mul; lia.
Qed.

Lemma count_lt_app l1 l2 m : count_lt (l1 ++ l2) m = count_lt l1 m + count_lt l2 m.
Proof. unfold count_lt. by rewrite filter_app, length_app. Qed.

Lemma count_le_app l1 l2 m : count_le (l1 ++ l2) m = count_le l1 m + count_le l2 m.
Proof. unfold count_le. by rewrite filter_app, length_app. Qed.

Lemma count_lt_cons l x m :
  count_lt (x :: l) m = (if decide (x < m)%Z then 1 else 0) + count_lt l m.
Proof. unfold count_lt. rewrite filter_cons. by case_decide. Qed.

Lemma count_le_cons l x m :
  count_le (x :: l) m = (if decide (x ≤ m)%Z then 1 else 0) + count_le l m.
Proof. unfold count_le. rewrite filter_cons. by case_decide. Qed.

Lemma count_lt_length l m : count_lt l m ≤ length l.
Proof. apply length_filter. Qed.

(** All of [l] at or above [m]: nothing is below [m]. *)
Lemma count_lt_above l m : Forall (λ x, (m ≤ x)%Z) l → count_lt l m = 0.
Proof.
  induction 1 as [|x l Hx _ IH]; [done|].
  rewrite count_lt_cons, IH. case_decide; lia.
Qed.

(** All of [l] at or below [m]: everything is counted. *)
Lemma count_le_below l m : Forall (λ x, (x ≤ m)%Z) l → count_le l m = length l.
Proof.
  induction 1 as [|x l Hx _ IH]; [done|].
  rewrite count_le_cons, IH. case_decide; simpl; lia.
Qed.

Lemma count_lt_elem l m : m ∈ l → count_lt l m < length l.
Proof. intros Hm. apply (length_filter_lt _ l m Hm). lia. Qed.

(** Counting is monotone in the bound. *)
Lemma count_le_lt_mono l m m' : (m < m')%Z → count_le l m ≤ count_lt l m'.
Proof.
  intros Hm. induction l as [|x l IH]; [done|].
  rewrite count_le_cons, count_lt_cons. repeat case_decide; lia.
Qed.

(** The value at a sorted position is unique. *)
Lemma is_kth_unique l k m m' : is_kth l k m → is_kth l k m' → m = m'.
Proof.
  intros [H1 H2] [H1' H2'].
  destruct (Z.lt_trichotomy m m') as [Hlt|[?|Hlt]]; [|done|];
    apply (count_le_lt_mono l) in Hlt; lia.
Qed.

(** Reading a sorted list at [k] gives the [k]-th value. *)
Lemma sorted_lookup_is_kth l k m :
  StronglySorted Z.le l → l !! k = Some m → is_kth l k m.
Proof.
  intros Hl Hk. pose proof (lookup_lt_Some _ _ _ Hk) as Hlen.
  rewrite <-(take_drop_middle l k m Hk) in Hl |- *.
  apply StronglySorted_app in Hl as (Hlr & _ & [Hr _]%StronglySorted_cons).
  assert (Forall (λ x, (x ≤ m)%Z) (take k l)) as Hbelow.
  { apply Forall_forall. intros x Hx. apply (Hlr x m Hx). by left. }
  unfold is_kth. rewrite count_lt_app, count_le_app, count_le_below by done.
  rewrite (count_lt_above (m :: _)) by (constructor; [lia|done]).
  pose proof (count_lt_length (take k l) m).
  rewrite count_le_cons, decide_True by lia. rewrite length_take in *. lia.
Qed.

(** The maximum of the lower part of a split is at position
    [length A - 1]: the argument for the top of the low heap. *)
Lemma is_kth_partition l A B m :
  l ≡ₚ A ++ B → m ∈ A →
  Forall (λ x, (x ≤ m)%Z) A → Forall (λ x, (m ≤ x)%Z) B →
  is_kth l (length A - 1) m.
Proof.
  intros -> Hm HA HB. unfold is_kth.
  rewrite count_lt_app, count_le_app, (count_lt_above B), (count_le_below A) by done.
  pose proof (count_lt_elem A m Hm). lia.
Qed.

Lemma sorted_ref_Permutation l : sorted_ref l ≡ₚ l.
Proof. apply merge_sort_Permutation. Qed.

Lemma sorted_ref_sorted l : StronglySorted Z.le (sorted_ref l).
Proof. apply StronglySorted_merge_sort; apply _. Qed.

Lemma length_sorted_ref l : length (sorted_ref l) = length l.
Proof. by rewrite sorted_ref_Permutation. Qed.

(** A sorted enumeration of [l] is the sorted reference. *)
Lemma sorted_ref_unique l l' :
  StronglySorted Z.le l' → l' ≡ₚ l → sorted_ref l = l'.
Proof.
  intros Hs Hp. apply (StronglySorted_unique Z.le); [|done|].
  - apply sorted_ref_sorted.
  - by rewrite sorted_ref_Permutation.
Qed.

(** The reference median is the value at the median position. *)
Lemma median_ref_is_kth l m :
  median_ref l = Some m ↔ l ≠ [] ∧ is_kth l (median_index (length l)) m.
Proof.
  unfold median_ref. split.
  - intros Hm. split; [by intros ->|].
    rewrite <-(sorted_ref_Permutation l) at 1.
    by apply sorted_lookup_is_kth; [apply sorted_ref_sorted|].
  - intros [Hl Hm].
    destruct (lookup_lt_is_Some_2 (sorted_ref l) (median_index (length l)))
      as [m' Hm'].
    { rewrite length_sorted_ref. apply median_index_lt.
      destruct l; [done|simpl; lia]. }
    rewrite Hm'. f_equal. apply (is_kth_unique l (median_index (length l))); [|done].
    rewrite <-(sorted_ref_Permutation l) at 1.
    by apply sorted_lookup_is_kth; [apply sorted_ref_sorted|].
Qed.

Lemma median_ref_nil : median_ref [] = None.
Proof. done. Qed.

Lemma median_ref_Permutation_Some l1 l2 m :
  l1 ≡ₚ l2 → median_ref l1 = Some m → median_ref l2 = Some m.
Proof.
  intros Hl [Hne Hk]%median_ref_is_kth. apply median_ref_is_kth.
  split; [intros ->; by apply Permutation_nil_r in Hl|].
  by rewrite <-Hl.
Qed.

Lemma median_ref_Permutation l1 l2 : l1 ≡ₚ l2 → median_ref l1 = median_ref l2.
Proof.
  intros Hl. destruct (median_ref l1) as [m|] eqn:H1.
  - symmetry. by apply (median_ref_Permutation_Some l1).
  - destruct (median_ref l2) as [m|] eqn:H2; [|done].
    symmetry in Hl. apply (median_ref_Permutation_Some _ _ _ Hl) in H2. congruence.
Qed.

End order_stat.
