(* ===== verification/Heap.v ===== *)
(** * The heap contract

    [Container] keeps its two partitions in Python lists managed by the
    [heapq] module and reads the smallest entry as [heap[0]].  This file
    states what it relies on:

    - [heap_inv]: the invariant [heapq] documents, "[heap[k] <=
      heap[2*k+1]] and [heap[k] <= heap[2*k+2]] for all [k], counting
      elements from zero";
    - [HeapOps]: the two operations [Container] calls;
    - [HeapLaws]: what the operations promise.  [Container] is verified
      against this class; [Heapq.v] proves CPython's algorithm is an
      instance.

    The consequence clients use is [heap_inv_head_le]: the first element
    of a heap is a minimum. *)

From stdpp Require Import list.
From S2P Require Import Prelude.

Local Open Scope Z_scope.

(** The parent of position [j] in the array layout of a binary tree. *)
Definition parent (j : nat) : nat := ((j - 1) / 2)%nat.

(** The entry at [i] is at most the entry at [j], when both exist. *)
Definition le_at (h : list Z) (i j : nat) : Prop :=
  match h !! i, h !! j with
  | Some x, Some y => x ≤ y
  | _, _ => True
  end.

(** The heap invariant as [heapq] documents it. *)
Definition heap_inv (h : list Z) : Prop :=
  ∀ k : nat, le_at h k (2 * k + 1) ∧ le_at h k (2 * k + 2).

(** The operations of [heapq] that [Container] calls.  [heappop] of an
    empty list raises [IndexError]: [None]. *)
Class HeapOps := {
  heappush : list Z → Z → list Z;
  heappop : list Z → option (Z * list Z)
}.

(** Their contract. *)
Class HeapLaws (ops : HeapOps) : Prop := {
  heappush_heap_inv h x : heap_inv h → heap_inv (heappush h x);
  heappush_Permutation h x : heappush h x ≡ₚ x :: h;
  heappop_nil : heappop [] = None;
  heappop_cons x h :
    ∃ h', heappop (x :: h) = Some (x, h') ∧ h' ≡ₚ h ∧
          (heap_inv (x :: h) → heap_inv h')
}.

#[export] Instance le_at_dec h i j : Decision (le_at h i j).
Proof. unfold le_at. destruct (h !! i), (h !! j); apply _. Defined.

Section heap_inv.
Implicit Types (h : list Z) (i j k : nat) (x y : Z).

Lemma parent_lt j : (0 < j)%nat → (parent j < j)%nat.
Proof. unfold parent. intros Hj. apply Nat.Div0.div_lt_upper_bound. lia. Qed.

Lemma parent_child j :
  (0 < j)%nat → j = (2 * parent j + 1)%nat ∨ j = (2 * parent j + 2)%nat.
Proof.
  unfold parent. intros Hj.
  pose proof (Nat.div_mod_eq (j - 1) 2).
  pose proof (Nat.mod_upper_bound (j - 1) 2). lia.
Qed.

Lemma parent_left k : parent (2 * k + 1) = k.
Proof.
  unfold parent. replace (2 * k + 1 - 1)%nat with (k * 2)%nat by lia.
  by rewrite Nat.div_mul.
Qed.

Lemma parent_right k : parent (2 * k + 2) = k.
Proof.
  unfold parent. replace (2 * k + 2 - 1)%nat with (1 + k * 2)%nat by lia.
  by rewrite Nat.div_add.
Qed.

Lemma le_at_lookup h i j x y :
  le_at h i j → h !! i = Some x → h !! j = Some y → x ≤ y.
Proof. unfold le_at. intros H Hi Hj. by rewrite Hi, Hj in H. Qed.

Lemma le_at_intro h i j :
  (∀ x y, h !! i = Some x → h !! j = Some y → x ≤ y) → le_at h i j.
Proof. unfold le_at. intros H. destruct (h !! i), (h !! j); auto. Qed.

Lemma le_at_ge h i j : (length h ≤ j)%nat → le_at h i j.
Proof.
  intros Hj. apply le_at_intro. intros x y _ Hy.
  apply lookup_lt_Some in Hy. lia.
Qed.

(** The invariant read from the child's side. *)
Lemma heap_inv_parent h :
  heap_inv h ↔ ∀ j, (0 < j)%nat → le_at h (parent j) j.
Proof.
  split.
  - intros Hh j Hj. destruct (Hh (parent j)) as [Hl Hr].
    by destruct (parent_child j Hj) as [Heq|Heq]; rewrite Heq at 2.
  - intros Hh k. split.
    + rewrite <-(parent_left k) at 1. apply Hh. lia.
    + rewrite <-(parent_right k) at 1. apply Hh. lia.
Qed.

(** Only the positions of the list matter. *)
Lemma heap_inv_bounded h :
  heap_inv h ↔ ∀ j, (0 < j < length h)%nat → le_at h (parent j) j.
Proof.
  rewrite heap_inv_parent. split; [by auto with lia|].
  intros Hh j Hj. destruct (decide (j < length h)%nat); [by auto with lia|].
  apply le_at_ge. lia.
Qed.

Lemma heap_inv_nil : heap_inv [].
Proof. apply heap_inv_bounded. simpl. lia. Qed.

Lemma heap_inv_singleton x : heap_inv [x].
Proof. apply heap_inv_bounded. simpl. lia. Qed.

(** The root is below every entry. *)
Lemma heap_inv_root_le h x :
  heap_inv h → h !! 0%nat = Some x → ∀ j y, h !! j = Some y → x ≤ y.
Proof.
  intros Hh Hx j. induction (lt_wf j) as [j _ IH]. intros y Hy.
  destruct (decide (j = 0%nat)) as [->|Hj]; [by simplify_eq|].
  pose proof (parent_lt j ltac:(lia)) as Hp.
  destruct (lookup_lt_is_Some_2 h (parent j)) as [z Hz].
  { apply lookup_lt_Some in Hy. lia. }
  pose proof (proj1 (heap_inv_parent h) Hh j ltac:(lia)) as Hle.
  pose proof (le_at_lookup _ _ _ _ _ Hle Hz Hy). pose proof (IH _ Hp z Hz). lia.
Qed.

(** The first element of a heap is a minimum. *)
Lemma heap_inv_head_le x h : heap_inv (x :: h) → Forall (λ y, x ≤ y) (x :: h).
Proof.
  intros Hh. apply Forall_forall. intros y [j Hj]%list_elem_of_lookup.
  by apply (heap_inv_root_le (x :: h) x Hh eq_refl j).
Qed.

End heap_inv.

(** The invariant is decidable: check each position of the list. *)
Lemma heap_inv_Forall (h : list Z) :
  heap_inv h ↔ Forall (λ j, le_at h (parent j) j) (seq 1 (length h - 1)).
Proof.
  rewrite heap_inv_bounded, Forall_forall. setoid_rewrite elem_of_seq.
  split; intros H j Hj; apply H; lia.
Qed.

#[export] Instance heap_inv_dec h : Decision (heap_inv h).
Proof.
  refine (cast_if (decide (Forall (λ j, le_at h (parent j) j)
                                  (seq 1 (length h - 1)))));
    abstract (by rewrite heap_inv_Forall).
Defined.

(** Consequences of the contract for a client. *)
Section heap_laws.
Context {ops : HeapOps} {laws : HeapLaws ops}.

Lemma length_heappush h x : length (heappush h x) = S (length h).
Proof. by rewrite heappush_Permutation. Qed.

Lemma heappop_Some h x h' :
  heappop h = Some (x, h') → head h = Some x ∧ h' ≡ₚ tail h ∧ S (length h') = length h.
Proof.
  destruct h as [|y h]; [by rewrite heappop_nil|].
  destruct (heappop_cons y h) as (h'' & -> & Hp & _). intros [= <- <-].
  simpl. by rewrite Hp.
Qed.

Lemma heappop_heap_inv h x h' :
  heappop h = Some (x, h') → heap_inv h → heap_inv h'.
Proof.
  destruct h as [|y h]; [by rewrite heappop_nil|].
  destruct (heappop_cons y h) as (h'' & -> & _ & Hh). by intros [= <- <-].
Qed.

Lemma heappop_is_Some h : h ≠ [] → is_Some (heappop h).
Proof.
  destruct h as [|y h]; [done|]. intros _.
  destruct (heappop_cons y h) as (h'' & -> & _). eauto.
Qed.

End heap_laws.
