(* ===== verification/Heapq.v ===== *)
(** * CPython's [heapq]

    [Container] pushes and pops with [heapq.heappush] and
    [heapq.heappop].  The module is not part of the repository; it is
    modelled here from CPython's [Lib/heapq.py], function by function, as
    the module [heapq]:

    - a heap is the Python list itself, here a [list Z];
    - [_siftdown] and [_siftup] keep the item being placed in a local
      variable and move the others into the hole it leaves; the [while]
      loops are the fixpoints [_siftdown_loop] and [_siftup_loop], whose
      fuel is the position, respectively the length of the list;
    - reads [heap[i]] are always in range in these functions; [item]
      gives 0 out of range, and no theorem depends on that value.

    The theorems show that the functions keep the heap invariant and the
    multiset of entries, that the loops end by their own exit condition
    and not for lack of fuel, and so that [heapq_ops] satisfies
    [HeapLaws]. *)

From stdpp Require Import list.
From S2P Require Import Prelude Heap.

Local Open Scope Z_scope.

Module heapq.

(** [heap[i]] for [i] in range. *)
Definition item (heap : list Z) (i : nat) : Z := default 0 (heap !! i).

(** The loop of [_siftdown]: follow the path to the root, moving parents
    down until finding a place [newitem] fits.  Returns the list and the
    position of the hole. *)
Fixpoint _siftdown_loop (fuel : nat) (heap : list Z) (startpos pos : nat)
    (newitem : Z) : list Z * nat :=
  match fuel with
  | O => (heap, pos)
  | S fuel =>
    if decide (startpos < pos)%nat then
      let parentpos := Nat.shiftr (pos - 1) 1 in
      let parent := item heap parentpos in
      if decide (newitem < parent) then
        _siftdown_loop fuel (<[pos := parent]> heap) startpos parentpos newitem
      else (heap, pos)
    else (heap, pos)
  end.

Definition _siftdown (heap : list Z) (startpos pos : nat) : list Z :=
  let newitem := item heap pos in
  let '(heap, pos) := _siftdown_loop pos heap startpos pos newitem in
  <[pos := newitem]> heap.

(** The loop of [_siftup]: bubble up the smaller child until hitting a
    leaf. *)
Fixpoint _siftup_loop (fuel : nat) (heap : list Z) (endpos pos : nat)
    : list Z * nat :=
  match fuel with
  | O => (heap, pos)
  | S fuel =>
    let childpos := (2 * pos + 1)%nat in
    if decide (childpos < endpos)%nat then
      let rightpos := (childpos + 1)%nat in
      let childpos :=
        if decide ((rightpos < endpos)%nat ∧
                   ¬ item heap childpos < item heap rightpos)
        then rightpos else childpos in
      _siftup_loop fuel (<[pos := item heap childpos]> heap) endpos childpos
    else (heap, pos)
  end.

Definition _siftup (heap : list Z) (pos : nat) : list Z :=
  let endpos := length heap in
  let startpos := pos in
  let newitem := item heap pos in
  let '(heap, pos) := _siftup_loop endpos heap endpos pos in
  let heap := <[pos := newitem]> heap in
  _siftdown heap startpos pos.

(** [heappush(heap, item)]: append, then sift the new leaf towards the
    root. *)
Definition heappush (heap : list Z) (x : Z) : list Z :=
  let heap := heap ++ [x] in
  _siftdown heap 0 (length heap - 1).

(** [heappop(heap)]: [None] is the [IndexError] of [heap.pop()] on an
    empty list. *)
Definition heappop (heap : list Z) : option (Z * list Z) :=
  match list_pop heap with
  | None => None
  | Some (lastelt, heap) =>
    match heap with
    | [] => Some (lastelt, heap)
    | returnitem :: _ =>
      let heap := <[0%nat := lastelt]> heap in
      Some (returnitem, _siftup heap 0)
    end
  end.

(** ** The state of a sift: a list with a hole

    During a sift the list has a stale entry at the hole [p] while the
    item [x] is held aside.  [hole_ok h p x]: every parent-child pair
    that does not touch [p] is in order, [x] is at most the children of
    [p], and so is the parent of [p]. *)
Record hole_ok (h : list Z) (p : nat) (x : Z) : Prop := {
  hole_lt : (p < length h)%nat;
  hole_others j :
    (0 < j < length h)%nat → j ≠ p → parent j ≠ p →
    item h (parent j) ≤ item h j;
  hole_children j :
    (0 < j < length h)%nat → parent j = p → x ≤ item h j;
  hole_grand j :
    (0 < j < length h)%nat → parent j = p → (0 < p)%nat →
    item h (parent p) ≤ item h j
}.

(** The state of the bubbling loop of [_siftup]: as above, but nothing
    is known of the children of [p] against an item held aside. *)
Record bubble_ok (h : list Z) (p : nat) : Prop := {
  bubble_lt : (p < length h)%nat;
  bubble_others j :
    (0 < j < length h)%nat → parent j ≠ p → item h (parent j) ≤ item h j;
  bubble_grand j :
    (0 < j < length h)%nat → parent j = p → (0 < p)%nat →
    item h (parent p) ≤ item h j
}.

Section item.
Implicit Types (h : list Z) (i j p : nat) (x y : Z).

Lemma lookup_item h i : (i < length h)%nat → h !! i = Some (item h i).
Proof.
  intros Hi. unfold item.
  by destruct (lookup_lt_is_Some_2 h i Hi) as [x ->].
Qed.

Lemma item_insert h i j x :
  (i < length h)%nat →
  item (<[i:=x]> h) j = if decide (i = j) then x else item h j.
Proof.
  intros Hi. unfold item. rewrite list_lookup_insert.
  destruct (decide (i = j)) as [->|]; [by rewrite decide_True|].
  by rewrite decide_False by (by intros [??]).
Qed.

Lemma item_insert_eq h i x : (i < length h)%nat → item (<[i:=x]> h) i = x.
Proof. intros Hi. by rewrite item_insert, decide_True. Qed.

Lemma item_insert_ne h i j x : i ≠ j → item (<[i:=x]> h) j = item h j.
Proof. intros Hij. unfold item. by rewrite list_lookup_insert_ne. Qed.

Lemma insert_item h i : <[i:=item h i]> h = h.
Proof.
  destruct (decide (i < length h)%nat).
  - by apply list_insert_id, lookup_item.
  - apply list_insert_ge. lia.
Qed.

Lemma item_app_l h1 h2 i : (i < length h1)%nat → item (h1 ++ h2) i = item h1 i.
Proof. intros Hi. unfold item. by rewrite lookup_app_l. Qed.

Lemma item_snoc h x : item (h ++ [x]) (length h) = x.
Proof. unfold item. by rewrite list_lookup_middle. Qed.

Lemma le_at_item h i j :
  (i < length h)%nat → (j < length h)%nat →
  le_at h i j ↔ item h i ≤ item h j.
Proof. intros Hi Hj. unfold le_at. by rewrite !lookup_item. Qed.

(** The heap invariant on the entries. *)
Lemma heap_inv_item h :
  heap_inv h ↔ ∀ j, (0 < j < length h)%nat → item h (parent j) ≤ item h j.
Proof.
  rewrite heap_inv_bounded. split; intros H j Hj.
  - apply le_at_item; [pose proof (parent_lt j)|..]; auto with lia.
  - apply le_at_item; [pose proof (parent_lt j)|..]; auto with lia.
Qed.

Lemma shiftr_parent p : Nat.shiftr (p - 1) 1 = parent p.
Proof. by rewrite Nat.shiftr_div_pow2. Qed.

(** Moving the hole from [p] to [q]: the entry of [q] goes to [p]. *)
Lemma hole_move_Permutation h p q x :
  p ≠ q → (p < length h)%nat → (q < length h)%nat →
  <[q:=x]> (<[p:=item h q]> h) ≡ₚ <[p:=x]> h.
Proof.
  intros Hpq Hp Hq.
  rewrite <-(Permutation_insert_swap (<[p:=x]> h) p q x (item h q)).
  - by rewrite list_insert_insert_eq.
  - by apply list_lookup_insert_eq.
  - rewrite list_lookup_insert_ne by done. by apply lookup_item.
Qed.

End item.

(** ** [_siftdown] *)

Section siftdown.
Implicit Types (h : list Z) (i j p : nat) (x y : Z).

Lemma siftdown_loop_S fuel h startpos p x :
  _siftdown_loop (S fuel) h startpos p x =
  if decide (startpos < p)%nat then
    if decide (x < item h (parent p)) then
      _siftdown_loop fuel (<[p:=item h (parent p)]> h) startpos (parent p) x
    else (h, p)
  else (h, p).
Proof. unfold _siftdown_loop at 1; fold _siftdown_loop. by rewrite shiftr_parent. Qed.

(** The loop moves the hole and keeps the multiset of the list with the
    item in the hole, for any start position. *)
Lemma siftdown_loop_Permutation fuel h startpos p x :
  (p < length h)%nat →
  ∀ h' p', _siftdown_loop fuel h startpos p x = (h', p') →
  (p' < length h')%nat ∧ <[p':=x]> h' ≡ₚ <[p:=x]> h.
Proof.
  revert h p. induction fuel as [|fuel IH]; intros h p Hp h' p' Hrun;
    [by simplify_eq/=|].
  rewrite siftdown_loop_S in Hrun.
  repeat case_decide; simplify_eq; [|done..]. pose proof (parent_lt p).
  apply IH in Hrun as [? ->]; [|rewrite length_insert; lia].
  split; [done|]. apply hole_move_Permutation; lia.
Qed.

(** One iteration: the parent moves down into the hole. *)
Lemma hole_ok_up h p x :
  hole_ok h p x → (0 < p)%nat → x < item h (parent p) →
  hole_ok (<[p:=item h (parent p)]> h) (parent p) x.
Proof.
  intros [Hlt Ho Hc Hg] Hp Hx. pose proof (parent_lt p Hp).
  split; rewrite ?length_insert; [lia|intros j Hj..];
    pose proof (parent_lt j); rewrite !item_insert by done.
  - intros ??. rewrite (decide_False (P:=p = j)) by (intros ->; lia).
    case_decide; [subst; apply Hg|apply Ho]; auto with lia.
  - intros Hjp. case_decide; [lia|].
    specialize (Ho j). rewrite Hjp in Ho. lia.
  - intros Hjp Hpp. pose proof (parent_lt (parent p)).
    rewrite (decide_False (P:=p = parent (parent p))) by lia.
    pose proof (Ho (parent p)). case_decide; [lia|].
    specialize (Ho j). rewrite Hjp in Ho. lia.
Qed.

(** With enough fuel the loop stops by its own condition: at the root,
    or below a parent that is not above the item. *)
Lemma siftdown_loop_hole_ok fuel h p x :
  (p ≤ fuel)%nat → hole_ok h p x →
  ∀ h' p', _siftdown_loop fuel h 0 p x = (h', p') →
  hole_ok h' p' x ∧ (p' = 0%nat ∨ item h' (parent p') ≤ x).
Proof.
  revert h p. induction fuel as [|fuel IH]; intros h p Hfuel Hh h' p' Hrun;
    [simplify_eq/=; auto with lia|].
  rewrite siftdown_loop_S in Hrun.
  repeat case_decide; simplify_eq; [|auto with lia..]. pose proof (parent_lt p).
  apply IH in Hrun; [done|lia|]. by apply hole_ok_up.
Qed.

(** Putting the item into the hole where the loop stopped gives a
    heap. *)
Lemma hole_ok_fill h p x :
  hole_ok h p x → p = 0%nat ∨ item h (parent p) ≤ x → heap_inv (<[p:=x]> h).
Proof.
  intros [Hlt Ho Hc Hg] Hstop. apply heap_inv_item. intros j.
  rewrite length_insert. intros Hj. pose proof (parent_lt j).
  rewrite !item_insert by done.
  destruct (decide (p = j)) as [->|];
    [rewrite decide_False by lia; lia|].
  case_decide; [apply Hc|apply Ho]; auto with lia.
Qed.

Lemma siftdown_heap_inv h p :
  hole_ok h p (item h p) → heap_inv (_siftdown h 0 p).
Proof.
  intros Hh. unfold _siftdown.
  destruct (_siftdown_loop p h 0 p (item h p)) as [h' p'] eqn:Hrun.
  apply siftdown_loop_hole_ok in Hrun as [??]; [|done..].
  by apply hole_ok_fill.
Qed.

Lemma siftdown_Permutation h startpos p :
  (p < length h)%nat → _siftdown h startpos p ≡ₚ h.
Proof.
  intros Hp. unfold _siftdown.
  destruct (_siftdown_loop p h startpos p (item h p)) as [h' p'] eqn:Hrun.
  apply siftdown_loop_Permutation in Hrun as [_ ->]; [|done].
  by rewrite insert_item.
Qed.

End siftdown.

(** ** [_siftup] *)

Section siftup.
Implicit Types (h : list Z) (i j p c : nat) (x y : Z).

(** The child the loop moves up: the right one when it exists and the
    left one is not smaller. *)
Lemma siftup_loop_S fuel h endpos p :
  _siftup_loop (S fuel) h endpos p =
  if decide (2 * p + 1 < endpos)%nat then
    let c := if decide ((2 * p + 1 + 1 < endpos)%nat ∧
                        ¬ item h (2 * p + 1) < item h (2 * p + 1 + 1))
             then (2 * p + 1 + 1)%nat else (2 * p + 1)%nat in
    _siftup_loop fuel (<[p:=item h c]> h) endpos c
  else (h, p).
Proof. done. Qed.

Lemma siftup_loop_Permutation fuel h endpos p x :
  endpos = length h → (p < length h)%nat →
  ∀ h' p', _siftup_loop fuel h endpos p = (h', p') →
  (p' < length h')%nat ∧ <[p':=x]> h' ≡ₚ <[p:=x]> h.
Proof.
  revert h p. induction fuel as [|fuel IH]; intros h p -> Hp h' p' Hrun;
    [by simplify_eq/=|].
  rewrite siftup_loop_S in Hrun. cbv zeta in Hrun.
  case_decide; simplify_eq; [|done].
  set (c := if decide (_ ∧ _) then _ else _) in Hrun.
  assert (p < c < length h)%nat by (unfold c; case_decide; lia).
  apply IH in Hrun as [? ->]; rewrite ?length_insert; [|lia..].
  split; [done|]. apply hole_move_Permutation; lia.
Qed.

(** One iteration: the smallest child [c] of the hole moves up. *)
Lemma bubble_ok_down h p c :
  bubble_ok h p → (c < length h)%nat → (0 < c)%nat → parent c = p →
  (∀ j, (0 < j < length h)%nat → parent j = p → item h c ≤ item h j) →
  bubble_ok (<[p:=item h c]> h) c.
Proof.
  intros [Hlt Ho Hg] Hc Hc0 Hcp Hmin. pose proof (parent_lt c Hc0).
  split; rewrite ?length_insert; [lia|intros j Hj..];
    pose proof (parent_lt j); rewrite !item_insert by done.
  - intros Hjc. destruct (decide (p = j)) as [->|].
    + rewrite decide_False by lia. apply Hg; lia.
    + case_decide; [apply Hmin|apply Ho]; auto with lia.
  - intros Hjc _. rewrite Hcp, decide_True, decide_False by lia.
    specialize (Ho j). rewrite Hjc in Ho. apply Ho; lia.
Qed.

(** With enough fuel the loop stops at a leaf. *)
Lemma siftup_loop_bubble_ok fuel h endpos p :
  endpos = length h → (length h ≤ fuel + p)%nat → bubble_ok h p →
  ∀ h' p', _siftup_loop fuel h endpos p = (h', p') →
  bubble_ok h' p' ∧ (length h' ≤ 2 * p' + 1)%nat.
Proof.
  revert h p. induction fuel as [|fuel IH]; intros h p -> Hfuel Hh h' p' Hrun.
  { destruct Hh. simpl in *. lia. }
  rewrite siftup_loop_S in Hrun. cbv zeta in Hrun.
  replace (2 * p + 1 + 1)%nat with (2 * p + 2)%nat in Hrun by lia.
  case_decide; simplify_eq; [|auto with lia].
  set (c := if decide (_ ∧ _) then _ else _) in Hrun.
  assert (parent c = p ∧ (p < c < length h)%nat) as [Hcp ?].
  { unfold c. case_decide; rewrite ?parent_left, ?parent_right; lia. }
  apply IH in Hrun; rewrite ?length_insert; [done|lia..|].
  apply bubble_ok_down; [done|lia..|done|]. intros j Hj Hjp.
  destruct (parent_child j) as [Hj'|Hj']; [lia|..];
    rewrite Hjp in Hj'; subst j; unfold c; case_decide; lia.
Qed.

(** At a leaf every pair is in order, and the item can go into the hole
    to be sifted towards the root. *)
Lemma bubble_ok_leaf h p x :
  bubble_ok h p → (length h ≤ 2 * p + 1)%nat → hole_ok (<[p:=x]> h) p x.
Proof.
  intros [Hlt Ho Hg] Hleaf.
  split; rewrite ?length_insert; [done|intros j Hj..].
  - intros ??. rewrite !item_insert_ne by done. by apply Ho.
  - intros Hjp. destruct (parent_child j); lia.
  - intros Hjp. destruct (parent_child j); lia.
Qed.

Lemma siftup_heap_inv h : bubble_ok h 0 → heap_inv (_siftup h 0).
Proof.
  intros Hh. unfold _siftup. cbv zeta.
  destruct (_siftup_loop (length h) h (length h) 0) as [h' p'] eqn:Hrun.
  apply siftup_loop_bubble_ok in Hrun as [Hh' Hleaf]; [|done|lia|done].
  apply siftdown_heap_inv. rewrite item_insert_eq by apply Hh'.
  by apply bubble_ok_leaf.
Qed.

Lemma siftup_Permutation h p : (p < length h)%nat → _siftup h p ≡ₚ h.
Proof.
  intros Hp. unfold _siftup. cbv zeta.
  destruct (_siftup_loop (length h) h (length h) p) as [h' p'] eqn:Hrun.
  apply (siftup_loop_Permutation _ _ _ _ (item h p)) in Hrun as [? Hperm];
    [|done..].
  rewrite siftdown_Permutation by (by rewrite length_insert).
  by rewrite Hperm, insert_item.
Qed.

End siftup.

(** ** [heappush] and [heappop] *)

Section push_pop.
Implicit Types (h g t : list Z) (x y : Z).

(** The appended leaf is the only place out of order. *)
Lemma snoc_hole_ok g x : heap_inv g → hole_ok (g ++ [x]) (length g) x.
Proof.
  intros Hg. pose proof (proj1 (heap_inv_item g) Hg) as Hle.
  split; rewrite length_app; simpl; [lia|intros j Hj..].
  - intros ??. pose proof (parent_lt j). rewrite !item_app_l by lia.
    apply Hle. lia.
  - intros Hjp. destruct (parent_child j); lia.
  - intros Hjp. destruct (parent_child j); lia.
Qed.

Lemma heappush_heap_inv g x : heap_inv g → heap_inv (heappush g x).
Proof.
  intros Hg. unfold heappush. cbv zeta. rewrite length_app. simpl.
  replace (length g + 1 - 1)%nat with (length g) by lia.
  apply siftdown_heap_inv. rewrite item_snoc. by apply snoc_hole_ok.
Qed.

Lemma heappush_Permutation g x : heappush g x ≡ₚ x :: g.
Proof.
  unfold heappush. cbv zeta.
  rewrite siftdown_Permutation by (rewrite length_app; simpl; lia).
  by rewrite Permutation_app_comm.
Qed.

Lemma heappop_nil : heappop [] = None.
Proof. done. Qed.

Lemma heappop_singleton x : heappop [x] = Some (x, []).
Proof. done. Qed.

(** On two entries or more the root is returned and the last entry is
    sifted from the root. *)
Lemma heappop_snoc x t y :
  heappop (x :: t ++ [y]) = Some (x, _siftup (y :: t) 0).
Proof. unfold heappop. by rewrite app_comm_cons, list_pop_snoc. Qed.

(** After the root is replaced, only the pairs under the root can be
    out of order. *)
Lemma replace_root_bubble_ok x t y :
  heap_inv (x :: t ++ [y]) → bubble_ok (y :: t) 0.
Proof.
  intros Hg. pose proof (proj1 (heap_inv_item _) Hg) as Hle.
  split; simpl; [lia| |lia]. intros j Hj Hjp.
  destruct j as [|j]; [lia|]. destruct (parent (S j)) as [|k] eqn:Hk; [done|].
  pose proof (parent_lt (S j)).
  specialize (Hle (S j)). rewrite Hk in Hle. unfold item in *. simpl in *.
  rewrite length_app, !lookup_app_l in Hle by lia. apply Hle. simpl. lia.
Qed.

Lemma heappop_cons x h :
  ∃ h', heappop (x :: h) = Some (x, h') ∧ h' ≡ₚ h ∧
        (heap_inv (x :: h) → heap_inv h').
Proof.
  destruct h as [|y t _] using rev_ind.
  { exists []. split_and!; [done..|]. intros _. apply heap_inv_nil. }
  exists (_siftup (y :: t) 0). split_and!.
  - apply heappop_snoc.
  - rewrite siftup_Permutation by (simpl; lia). apply Permutation_cons_append.
  - intros Hg. by apply siftup_heap_inv, (replace_root_bubble_ok x).
Qed.

End push_pop.

End heapq.

(** * The instance: CPython's [heapq] satisfies the contract *)

#[export] Instance heapq_ops : HeapOps :=
  {| heappush := heapq.heappush; heappop := heapq.heappop |}.

#[export] Instance heapq_laws : HeapLaws heapq_ops.
Proof.
  split.
  - apply heapq.heappush_heap_inv.
  - apply heapq.heappush_Permutation.
  - apply heapq.heappop_nil.
  - apply heapq.heappop_cons.
Qed.
