(* ===== verification/Partition.v ===== *)
(** * One partition of the container

    [Container] keeps each half of its values in three attributes: a
    heap (with entries possibly stale), the live count of each value and
    the tally of deletions not yet carried out on the heap, plus a size
    counter.  [partition_ok] says how they fit together (the spec's I3
    and I4 for one partition); the lemmas are the effect of each group
    of statements of the source on it.

    The lower half stores negated values and the upper half the values
    themselves: [key] is the map between a value and its heap entry,
    [Z.opp] for [_low] and the identity for [_high]. *)

From stdpp Require Import gmap list.
From S2P Require Import Prelude Counter Heap.

Local Open Scope Z_scope.

(** The heap holds the entries of the live values and of the values
    whose deletion is pending, and nothing else; the size counter counts
    the live ones. *)
Record partition_ok (key : Z → Z) (heap : list Z) (live del : gmap Z Z)
    (n : Z) : Prop := {
  part_heap : heap_inv heap;
  part_live_pos : positive live;
  part_del_pos : positive del;
  part_entries : heap ≡ₚ key <$> (elements live ++ elements del);
  part_size : n = Z.of_nat (length (elements live))
}.

(** No stale entry is at the top of the heap. *)
Definition pruned (key : Z → Z) (heap : list Z) (del : gmap Z Z) : Prop :=
  match heap with
  | [] => True
  | top :: _ => cget del (key top) ≤ 0
  end.

Lemma partition_ok_alt key heap live del n :
  partition_ok key heap live del n ↔
  heap_inv heap ∧ positive live ∧ positive del ∧
  heap ≡ₚ key <$> (elements live ++ elements del) ∧
  n = Z.of_nat (length (elements live)).
Proof. split; [by intros []|by intros (?&?&?&?&?)]. Qed.

#[export] Instance partition_ok_dec key heap live del n :
  Decision (partition_ok key heap live del n).
Proof.
  refine (cast_if (decide (heap_inv heap ∧ positive live ∧ positive del ∧
            heap ≡ₚ key <$> (elements live ++ elements del) ∧
            n = Z.of_nat (length (elements live)))));
    abstract (by rewrite partition_ok_alt).
Defined.

#[export] Instance pruned_dec key heap del : Decision (pruned key heap del).
Proof. destruct heap; simpl; apply _. Defined.

Section partition.
Context {ops : HeapOps} {laws : HeapLaws ops}.
Context (key : Z → Z) (key_invol : ∀ x, key (key x) = x).
Implicit Types (heap rest : list Z) (live del : gmap Z Z) (n v top : Z).

Lemma partition_ok_empty : partition_ok key [] ∅ ∅ 0.
Proof.
  split; auto using heap_inv_nil, positive_empty.
  all: by rewrite elements_empty.
Qed.

(** [heappush(heap, key v); live[v] += 1; n += 1]. *)
Lemma partition_ok_push heap live del n v :
  partition_ok key heap live del n →
  partition_ok key (heappush heap (key v)) (cincr live v) del (n + 1).
Proof.
  intros [Hh Hl Hd He Hn]. pose proof (positive_cget live v Hl).
  split; [by apply heappush_heap_inv|by apply positive_cincr|done|..].
  - by rewrite heappush_Permutation, He, elements_cincr.
  - rewrite length_elements_cincr by done. lia.
Qed.

(** [del[v] += 1; live[v] -= 1 (deleting a zero); n -= 1]: a live value
    becomes a pending deletion, and the heap is not touched. *)
Lemma partition_ok_mark heap live del n v :
  partition_ok key heap live del n → 0 < cget live v →
  partition_ok key heap (cdecr_del live v) (cincr del v) (n - 1).
Proof.
  intros [Hh Hl Hd He Hn] Hv. pose proof (positive_cget del v Hd).
  split; [done|by apply positive_cdecr_del|by apply positive_cincr|..].
  - rewrite He, elements_cincr, <-Permutation_middle by done.
    by rewrite app_comm_cons, elements_cdecr_del.
  - rewrite <-(length_elements_cdecr_del live v) in Hn by done. lia.
Qed.

(** Popping the top when its entry is the entry of [v]. *)
Lemma pop_entries top rest heap' l :
  top :: rest ≡ₚ key <$> (key top :: l) →
  heappop (top :: rest) = Some (top, heap') → heap' ≡ₚ key <$> l.
Proof.
  rewrite fmap_cons, key_invol. intros He%Permutation_cons_inv Hpop.
  by apply heappop_Some in Hpop as (_ & -> & _).
Qed.

Lemma heappop_top top rest x heap' :
  heappop (top :: rest) = Some (x, heap') → x = top.
Proof. intros (Hx & _)%heappop_Some. by simplify_eq/=. Qed.

(** [heappop(heap); del[v] -= 1 (deleting a zero)] for a stale top. *)
Lemma partition_ok_pop_stale top rest live del n heap' :
  partition_ok key (top :: rest) live del n → 0 < cget del (key top) →
  heappop (top :: rest) = Some (top, heap') →
  partition_ok key heap' live (cdecr_del del (key top)) n.
Proof.
  intros [Hh Hl Hd He Hn] Hv Hpop.
  split; [by eapply heappop_heap_inv|done|by apply positive_cdecr_del| |done].
  apply (pop_entries top rest); [|done].
  by rewrite He, <-(elements_cdecr_del del (key top)), <-Permutation_middle.
Qed.

(** The top of a pruned heap is live, and it is the least entry. *)
Lemma partition_ok_top top rest live del n :
  partition_ok key (top :: rest) live del n → cget del (key top) ≤ 0 →
  0 < cget live (key top) ∧ Forall (λ v, top ≤ key v) (elements live).
Proof.
  intros [Hh Hl Hd He Hn] Hv. split.
  - assert (top ∈ key <$> (elements live ++ elements del)) as Hin
      by (rewrite <-He; left).
    apply list_elem_of_fmap in Hin as (v & -> & Hin). rewrite key_invol in *.
    apply elem_of_app in Hin as [Hin|Hin]; apply elem_of_elements in Hin; lia.
  - apply Forall_forall. intros v Hin.
    pose proof (heap_inv_head_le top rest Hh) as Hle.
    rewrite Forall_forall in Hle. apply Hle. rewrite He.
    apply list_elem_of_fmap. exists v. split; [done|]. apply elem_of_app. by left.
Qed.

(** [heappop(heap); live[v] -= 1 (deleting a zero); n -= 1] for a live
    top: the move of [_rebalance]. *)
Lemma partition_ok_pop_live top rest live del n heap' :
  partition_ok key (top :: rest) live del n → cget del (key top) ≤ 0 →
  heappop (top :: rest) = Some (top, heap') →
  partition_ok key heap' (cdecr_del live (key top)) del (n - 1).
Proof.
  intros Hp Hv Hpop. destruct (partition_ok_top _ _ _ _ _ Hp Hv) as [Hlive _].
  destruct Hp as [Hh Hl Hd He Hn].
  split; [by eapply heappop_heap_inv|by apply positive_cdecr_del|done|..].
  - apply (pop_entries top rest); [|done].
    by rewrite He, <-(elements_cdecr_del live (key top)).
  - rewrite <-(length_elements_cdecr_del live (key top)) in Hn by done. lia.
Qed.

(** A partition with a live value has a non-empty heap. *)
Lemma partition_ok_cons heap live del n :
  partition_ok key heap live del n → 0 < n → ∃ top rest, heap = top :: rest.
Proof.
  intros [Hh Hl Hd He Hn] Hpos. destruct heap as [|top rest]; [|eauto].
  apply Permutation_length in He. rewrite length_fmap, length_app in He.
  simpl in He. lia.
Qed.

Lemma partition_ok_size_nonneg heap live del n :
  partition_ok key heap live del n → 0 ≤ n.
Proof. intros [_ _ _ _ ->]. lia. Qed.

Lemma partition_ok_size_zero heap live del n :
  partition_ok key heap live del n → n = 0 → elements live = [].
Proof. intros [_ _ _ _ ->] Hn. apply length_zero_iff_nil. lia. Qed.

(** The heap holds at least the entries of the live values. *)
Lemma partition_ok_length heap live del n :
  partition_ok key heap live del n → n ≤ Z.of_nat (length heap).
Proof.
  intros [_ _ _ He ->]. rewrite He, length_fmap, length_app. lia.
Qed.

(** A pruned partition without live values is as [__init__] leaves it:
    no entry in the heap, no pending deletion, no stored count. *)
Lemma partition_ok_drained heap live del n :
  partition_ok key heap live del n → pruned key heap del →
  elements live = [] →
  heap = [] ∧ live = ∅ ∧ del = ∅ ∧ n = 0.
Proof.
  intros Hp Hpr Hnil. destruct heap as [|top rest].
  - destruct Hp as [_ Hl Hd He ->]. rewrite Hnil in *. simpl in He.
    apply Permutation_nil_l in He. symmetry in He. apply fmap_nil_inv in He.
    split_and!; auto using positive_elements_nil.
  - destruct (partition_ok_top _ _ _ _ _ Hp Hpr) as [Hlive _].
    pose proof (elements_nil_cget live (key top) Hnil). lia.
Qed.

End partition.

Lemma Z_opp_invol (x : Z) : - - x = x.
Proof. lia. Qed.

Lemma id_invol (x : Z) : id (id x) = x.
Proof. done. Qed.
