(* ===== verification/Container.v ===== *)
(** * The heap-based container

    Model of [src/practice_assessments/filesystem/container.py], class
    [Container].  The object is the record [Container], with the
    attributes of the class as fields under their own names; a method is
    a computation in the monad [M Container], one line of the model per
    statement of the source.

    - The two heaps are Python lists handled through [heapq]: the model
      calls the operations of the class [HeapOps] and is verified
      against [HeapLaws].  [_low] holds the negated values of the lower
      half, so that its first entry is the negated maximum.
    - The [while] loops of [_prune_low] and [_prune_high] pop one entry
      per iteration: they are fixpoints on a fuel of the length of the
      heap plus one, and raise [OutOfFuel] should it run out.
    - [self._low[0]] raises [IndexError] on an empty list, and so does
      [heappop]; the specifications show that neither happens.
    - The specifications are stated on the invariant [Inv], on the
      multiset [contents] of live values, on [tidy] (no stale entry is
      at the top of a heap, which holds whenever a method has returned)
      and on [heap_size] (the entries that the heaps hold).  On a tidy
      state the purges and [_rebalance] change nothing, and
      [get_median] only reads. *)

From stdpp Require Import gmap list strings.
From S2P Require Import Prelude Counter OrderStat Heap Heapq Partition.

Local Open Scope Z_scope.
Local Open Scope py_scope.

Module Container.

(** The attributes set by [__init__]. *)
Record Container : Type := mkContainer {
  _low : list Z;
  _high : list Z;
  _del_low : gmap Z Z;
  _del_high : gmap Z Z;
  _count : gmap Z Z;
  _count_low : gmap Z Z;
  _count_high : gmap Z Z;
  _n_low : Z;
  _n_high : Z
}.

(** Assignment to one attribute. *)
Definition set_low (f : list Z → list Z) (c : Container) : Container :=
  mkContainer (f (_low c)) (_high c) (_del_low c) (_del_high c) (_count c)
    (_count_low c) (_count_high c) (_n_low c) (_n_high c).
Definition set_high (f : list Z → list Z) (c : Container) : Container :=
  mkContainer (_low c) (f (_high c)) (_del_low c) (_del_high c) (_count c)
    (_count_low c) (_count_high c) (_n_low c) (_n_high c).
Definition set_del_low (f : gmap Z Z → gmap Z Z) (c : Container) : Container :=
  mkContainer (_low c) (_high c) (f (_del_low c)) (_del_high c) (_count c)
    (_count_low c) (_count_high c) (_n_low c) (_n_high c).
Definition set_del_high (f : gmap Z Z → gmap Z Z) (c : Container) : Container :=
  mkContainer (_low c) (_high c) (_del_low c) (f (_del_high c)) (_count c)
    (_count_low c) (_count_high c) (_n_low c) (_n_high c).
Definition set_count (f : gmap Z Z → gmap Z Z) (c : Container) : Container :=
  mkContainer (_low c) (_high c) (_del_low c) (_del_high c) (f (_count c))
    (_count_low c) (_count_high c) (_n_low c) (_n_high c).
Definition set_count_low (f : gmap Z Z → gmap Z Z) (c : Container) : Container :=
  mkContainer (_low c) (_high c) (_del_low c) (_del_high c) (_count c)
    (f (_count_low c)) (_count_high c) (_n_low c) (_n_high c).
Definition set_count_high (f : gmap Z Z → gmap Z Z) (c : Container) : Container :=
  mkContainer (_low c) (_high c) (_del_low c) (_del_high c) (_count c)
    (_count_low c) (f (_count_high c)) (_n_low c) (_n_high c).
Definition set_n_low (f : Z → Z) (c : Container) : Container :=
  mkContainer (_low c) (_high c) (_del_low c) (_del_high c) (_count c)
    (_count_low c) (_count_high c) (f (_n_low c)) (_n_high c).
Definition set_n_high (f : Z → Z) (c : Container) : Container :=
  mkContainer (_low c) (_high c) (_del_low c) (_del_high c) (_count c)
    (_count_low c) (_count_high c) (_n_low c) (f (_n_high c)).

Arguments set_low f !c /.
Arguments set_high f !c /.
Arguments set_del_low f !c /.
Arguments set_del_high f !c /.
Arguments set_count f !c /.
Arguments set_count_low f !c /.
Arguments set_count_high f !c /.
Arguments set_n_low f !c /.
Arguments set_n_high f !c /.

(** [Container()]. *)
Definition __init__ : Container :=
  mkContainer [] [] ∅ ∅ ∅ ∅ ∅ 0 0.

Section methods.
Context {ops : HeapOps}.

(** [self._low[0]]: [IndexError] on an empty list. *)
Definition low0 : M Container Z :=
  let* h := gets _low in lift_option IndexError (h !! 0%nat).

(** [heapq.heappop(self._low)] and [heapq.heappop(self._high)]: the list
    is updated in place and the popped entry returned. *)
Definition heappop_low : M Container Z :=
  let* h := gets _low in
  match heappop h with
  | None => raise IndexError
  | Some (x, h') => modify (set_low (λ _, h')) ;; ret x
  end.
Definition heappop_high : M Container Z :=
  let* h := gets _high in
  match heappop h with
  | None => raise IndexError
  | Some (x, h') => modify (set_high (λ _, h')) ;; ret x
  end.

Fixpoint _prune_low_loop (fuel : nat) : M Container unit :=
  match fuel with
  | O => raise OutOfFuel
  | S fuel =>
    let* low := gets _low in
    match low with
    | [] => ret tt
    | top :: _ =>
      let v := - top in
      let* d := gets (λ c, cget (_del_low c) v) in
      if decide (d > 0) then
        heappop_low ;;
        modify (set_del_low (λ m, cdecr_del m v)) ;;
        _prune_low_loop fuel
      else ret tt
    end
  end.

Definition _prune_low : M Container unit :=
  let* low := gets _low in _prune_low_loop (S (length low)).

Fixpoint _prune_high_loop (fuel : nat) : M Container unit :=
  match fuel with
  | O => raise OutOfFuel
  | S fuel =>
    let* high := gets _high in
    match high with
    | [] => ret tt
    | top :: _ =>
      let v := top in
      let* d := gets (λ c, cget (_del_high c) v) in
      if decide (d > 0) then
        heappop_high ;;
        modify (set_del_high (λ m, cdecr_del m v)) ;;
        _prune_high_loop fuel
      else ret tt
    end
  end.

Definition _prune_high : M Container unit :=
  let* high := gets _high in _prune_high_loop (S (length high)).

Definition _rebalance : M Container unit :=
  _prune_low ;;
  _prune_high ;;
  let* n_low := gets _n_low in
  let* n_high := gets _n_high in
  if decide (n_low > n_high + 1) then
    _prune_low ;;
    let* top := heappop_low in
    let x := - top in
    modify (set_count_low (λ m, cdecr_del m x)) ;;
    modify (set_n_low (λ n, n - 1)) ;;
    modify (set_high (λ h, heappush h x)) ;;
    modify (set_count_high (λ m, cincr m x)) ;;
    modify (set_n_high (λ n, n + 1)) ;;
    _prune_low ;;
    _prune_high
  else if decide (n_low < n_high) then
    _prune_high ;;
    let* x := heappop_high in
    modify (set_count_high (λ m, cdecr_del m x)) ;;
    modify (set_n_high (λ n, n - 1)) ;;
    modify (set_low (λ h, heappush h (- x))) ;;
    modify (set_count_low (λ m, cincr m x)) ;;
    modify (set_n_low (λ n, n + 1)) ;;
    _prune_low ;;
    _prune_high
  else ret tt.

Definition add (value : Z) : M Container unit :=
  modify (set_count (λ m, cincr m value)) ;;
  let* n_low := gets _n_low in
  (if decide (n_low = 0) then
     modify (set_low (λ h, heappush h (- value))) ;;
     modify (set_count_low (λ m, cincr m value)) ;;
     modify (set_n_low (λ n, n + 1))
   else
     _prune_low ;;
     let* top := low0 in
     let median := - top in
     if decide (value ≤ median) then
       modify (set_low (λ h, heappush h (- value))) ;;
       modify (set_count_low (λ m, cincr m value)) ;;
       modify (set_n_low (λ n, n + 1))
     else
       modify (set_high (λ h, heappush h value)) ;;
       modify (set_count_high (λ m, cincr m value)) ;;
       modify (set_n_high (λ n, n + 1))) ;;
  _rebalance.

Definition delete (value : Z) : M Container bool :=
  let* cnt := gets (λ c, cget (_count c) value) in
  if decide (cnt = 0) then ret false
  else
    modify (set_count (λ m, cdecr_del m value)) ;;
    _prune_low ;;
    _prune_high ;;
    let* cl := gets (λ c, cget (_count_low c) value) in
    (if decide (cl > 0) then
       modify (set_del_low (λ m, cincr m value)) ;;
       modify (set_count_low (λ m, cdecr_del m value)) ;;
       modify (set_n_low (λ n, n - 1))
     else
       modify (set_del_high (λ m, cincr m value)) ;;
       modify (set_count_high (λ m, cdecr_del m value)) ;;
       modify (set_n_high (λ n, n - 1))) ;;
    _prune_low ;;
    _prune_high ;;
    _rebalance ;;
    ret true.

Definition get_median : M Container Z :=
  let* n_low := gets _n_low in
  let* n_high := gets _n_high in
  if decide (n_low + n_high = 0) then
    raise (RuntimeError "Container is empty"%string)
  else
    _prune_low ;;
    _prune_high ;;
    _rebalance ;;
    _prune_low ;;
    let* top := low0 in
    ret (- top).

End methods.

(** * The invariant *)

(** I3 and I4 for each partition. *)
Definition low_ok (c : Container) : Prop :=
  partition_ok Z.opp (_low c) (_count_low c) (_del_low c) (_n_low c).
Definition high_ok (c : Container) : Prop :=
  partition_ok id (_high c) (_count_high c) (_del_high c) (_n_high c).

(** What holds between any two statements of a method that are not in
    the middle of an update: the partitions are well formed, the live
    values are split between them, and the lower half is below the
    upper one. *)
Record Inv0 (c : Container) : Prop := {
  inv_low : low_ok c;
  inv_high : high_ok c;
  inv_count_pos : positive (_count c);
  inv_count : splits (_count c) (_count_low c) (_count_high c);
  inv_order : ordered (_count_low c) (_count_high c)
}.

(** I1: the lower half has as many live values as the upper half, or one
    more. *)
Definition balanced (c : Container) : Prop :=
  _n_high c ≤ _n_low c ≤ _n_high c + 1.

(** The invariant of the class: what holds when a method returns. *)
Definition Inv (c : Container) : Prop := Inv0 c ∧ balanced c.

(** The multiset of live values: what the container stands for. *)
Definition contents (c : Container) : list Z := elements (_count c).

(** The lazy part of I4: the entry at the top of a heap is not pending
    deletion.  Every method that changes the container ends with the
    two purges, so this holds whenever a method has returned. *)
Definition tidy (c : Container) : Prop :=
  pruned Z.opp (_low c) (_del_low c) ∧ pruned id (_high c) (_del_high c).

(** The entries that the two heaps hold, the stale ones included. *)
Definition heap_size (c : Container) : nat :=
  (length (_low c) + length (_high c))%nat.

(** The other attributes are those of [c]: what a helper that works on
    one heap and its tally leaves alone. *)
Definition same_but_low (c c' : Container) : Prop :=
  c' = set_del_low (λ _, _del_low c') (set_low (λ _, _low c') c).
Definition same_but_high (c c' : Container) : Prop :=
  c' = set_del_high (λ _, _del_high c') (set_high (λ _, _high c') c).

(** ** States used in the examples *)

(** A container reached by [add(30); add(20); add(10); add(20);
    delete(30)] with CPython's heaps: the entry 30 is still in [_high],
    accounted for in [_del_high]. *)
Definition sample : Container :=
  Eval vm_compute in
    snd ((add 30 ;; add 20 ;; add 10 ;; add 20 ;; delete 30) __init__).

(** [sample] after [add(5)] up to, not including, its call of
    [_rebalance]: the lower partition has three of the four live values,
    two more than the upper one, and [_rebalance] moves its greatest
    value up. *)
Definition sample_skewed : Container :=
  set_n_low (λ n, n + 1) (set_count_low (λ m, cincr m 5)
    (set_low (λ h, heappush h (- 5)) (set_count (λ m, cincr m 5) sample))).

(** [sample] with the top of [_low] marked for deletion. *)
Definition sample_stale : Container :=
  set_n_low (λ n, n - 1) (set_count_low (λ m, cdecr_del m 20)
    (set_del_low (λ m, cincr m 20) (set_count (λ m, cdecr_del m 20) sample))).

Lemma Inv0_alt c :
  Inv0 c ↔ low_ok c ∧ high_ok c ∧ positive (_count c) ∧
    splits (_count c) (_count_low c) (_count_high c) ∧
    ordered (_count_low c) (_count_high c).
Proof. split; [by intros []|by intros (?&?&?&?&?)]. Qed.

#[export] Instance Inv0_dec c : Decision (Inv0 c).
Proof.
  refine (cast_if (decide (low_ok c ∧ high_ok c ∧ positive (_count c) ∧
    splits (_count c) (_count_low c) (_count_high c) ∧
    ordered (_count_low c) (_count_high c))));
    abstract (by rewrite Inv0_alt).
Defined.

#[export] Instance Inv_dec c : Decision (Inv c).
Proof. unfold Inv, balanced. apply _. Defined.

#[export] Instance tidy_dec c : Decision (tidy c).
Proof. unfold tidy. apply _. Defined.

(** Reduce the projections and assignments of a state. *)
Ltac state_simpl :=
  cbn [_low _high _del_low _del_high _count _count_low _count_high _n_low
       _n_high set_low set_high set_del_low set_del_high set_count
       set_count_low set_count_high set_n_low set_n_high] in *.

Ltac wp_run := repeat (wp_step; state_simpl).

(** The arithmetic of the lengths of the heaps. *)
Ltac heap_size_lia :=
  unfold heap_size in *; state_simpl;
  rewrite ?length_heappush in *; simpl in *; lia.

(** * The helpers *)

Section helpers.
Context {ops : HeapOps} {laws : HeapLaws ops}.
Implicit Types (lo hi : list Z) (dl dh cnt cl ch : gmap Z Z) (nl nh : Z).

(** [_prune_low] pops stale entries until the top is live or the heap is
    empty; it touches [_low] and [_del_low] only, and does not raise. *)
Lemma prune_low_loop_spec fuel lo hi dl dh cnt cl ch nl nh :
  (length lo < fuel)%nat →
  partition_ok Z.opp lo cl dl nl →
  wp (_prune_low_loop fuel)
    (λ _ c', ∃ lo' dl', c' = mkContainer lo' hi dl' dh cnt cl ch nl nh ∧
       partition_ok Z.opp lo' cl dl' nl ∧
       (pruned Z.opp lo' dl' ∧ (length lo' ≤ length lo)%nat))
    no_exn (mkContainer lo hi dl dh cnt cl ch nl nh).
Proof.
  revert lo dl. induction fuel as [|fuel IH]; intros lo dl Hfuel Hp; [lia|].
  cbn [_prune_low_loop]. wp_run. destruct lo as [|top rest].
  { wp_run. by exists [], dl. }
  wp_run. case_decide as Hd.
  - unfold heappop_low. wp_run.
    destruct (heappop_cons top rest) as (lo' & Hpop & Hperm & _).
    rewrite Hpop. wp_run. eapply wp_no_exn_mono; [apply IH|].
    + rewrite Hperm. simpl in Hfuel. lia.
    + apply (partition_ok_pop_stale _ Z_opp_invol top rest); [done|lia|done].
    + intros [] c' (lo'' & dl'' & -> & ? & ? & Hlen). exists lo'', dl''.
      rewrite Hperm in Hlen. split_and!; [done..|simpl; lia].
  - wp_run. exists (top :: rest), dl. split_and!; [done..|simpl; lia|done].
Qed.

Lemma prune_low_spec lo hi dl dh cnt cl ch nl nh :
  partition_ok Z.opp lo cl dl nl →
  wp _prune_low
    (λ _ c', ∃ lo' dl', c' = mkContainer lo' hi dl' dh cnt cl ch nl nh ∧
       partition_ok Z.opp lo' cl dl' nl ∧
       (pruned Z.opp lo' dl' ∧ (length lo' ≤ length lo)%nat))
    no_exn (mkContainer lo hi dl dh cnt cl ch nl nh).
Proof. intros Hp. unfold _prune_low. wp_run. apply prune_low_loop_spec; [lia|done]. Qed.

(** [_prune_high], likewise on [_high] and [_del_high]. *)
Lemma prune_high_loop_spec fuel lo hi dl dh cnt cl ch nl nh :
  (length hi < fuel)%nat →
  partition_ok id hi ch dh nh →
  wp (_prune_high_loop fuel)
    (λ _ c', ∃ hi' dh', c' = mkContainer lo hi' dl dh' cnt cl ch nl nh ∧
       partition_ok id hi' ch dh' nh ∧
       (pruned id hi' dh' ∧ (length hi' ≤ length hi)%nat))
    no_exn (mkContainer lo hi dl dh cnt cl ch nl nh).
Proof.
  revert hi dh. induction fuel as [|fuel IH]; intros hi dh Hfuel Hp; [lia|].
  cbn [_prune_high_loop]. wp_run. destruct hi as [|top rest].
  { wp_run. by exists [], dh. }
  wp_run. case_decide as Hd.
  - unfold heappop_high. wp_run.
    destruct (heappop_cons top rest) as (hi' & Hpop & Hperm & _).
    rewrite Hpop. wp_run. eapply wp_no_exn_mono; [apply IH|].
    + rewrite Hperm. simpl in Hfuel. lia.
    + apply (partition_ok_pop_stale _ id_invol top rest); [done|simpl; lia|done].
    + intros [] c' (hi'' & dh'' & -> & ? & ? & Hlen). exists hi'', dh''.
      rewrite Hperm in Hlen. split_and!; [done..|simpl; lia].
  - wp_run. exists (top :: rest), dh. split_and!; [done..|simpl; lia|done].
Qed.

Lemma prune_high_spec lo hi dl dh cnt cl ch nl nh :
  partition_ok id hi ch dh nh →
  wp _prune_high
    (λ _ c', ∃ hi' dh', c' = mkContainer lo hi' dl dh' cnt cl ch nl nh ∧
       partition_ok id hi' ch dh' nh ∧
       (pruned id hi' dh' ∧ (length hi' ≤ length hi)%nat))
    no_exn (mkContainer lo hi dl dh cnt cl ch nl nh).
Proof. intros Hp. unfold _prune_high. wp_run. apply prune_high_loop_spec; [lia|done]. Qed.

End helpers.

(** * [_rebalance] *)

Section rebalance.
Context {ops : HeapOps} {laws : HeapLaws ops}.
Implicit Types (lo hi : list Z) (dl dh cnt cl ch : gmap Z Z) (nl nh : Z).

(** The live top of [_low] is the greatest live value of the lower
    half. *)
Lemma low_top_max top rest cl dl nl :
  partition_ok Z.opp (top :: rest) cl dl nl → cget dl (- top) ≤ 0 →
  0 < cget cl (- top) ∧ ∀ a, 0 < cget cl a → a ≤ - top.
Proof.
  intros Hp Hd.
  destruct (partition_ok_top _ Z_opp_invol _ _ _ _ _ Hp Hd) as [? Hle].
  split; [done|]. intros a Ha%elem_of_elements.
  rewrite Forall_forall in Hle. specialize (Hle a Ha). lia.
Qed.

(** The live top of [_high] is the least live value of the upper half. *)
Lemma high_top_min top rest ch dh nh :
  partition_ok id (top :: rest) ch dh nh → cget dh top ≤ 0 →
  0 < cget ch top ∧ ∀ b, 0 < cget ch b → top ≤ b.
Proof.
  intros Hp Hd.
  destruct (partition_ok_top _ id_invol _ _ _ _ _ Hp Hd) as [? Hle].
  split; [done|]. intros b Hb%elem_of_elements.
  rewrite Forall_forall in Hle. by apply Hle.
Qed.

(** The first branch: the greatest value of the lower half moves up. *)
Lemma move_low_to_high top rest lo' hi dl dh cnt cl ch nl nh :
  partition_ok Z.opp (top :: rest) cl dl nl → partition_ok id hi ch dh nh →
  splits cnt cl ch → ordered cl ch → cget dl (- top) ≤ 0 →
  heappop (top :: rest) = Some (top, lo') →
  partition_ok Z.opp lo' (cdecr_del cl (- top)) dl (nl - 1) ∧
  partition_ok id (heappush hi (- top)) (cincr ch (- top)) dh (nh + 1) ∧
  splits cnt (cdecr_del cl (- top)) (cincr ch (- top)) ∧
  ordered (cdecr_del cl (- top)) (cincr ch (- top)).
Proof.
  intros Hlow Hhigh Hcnt Hord Hd Hpop.
  destruct (low_top_max _ _ _ _ _ Hlow Hd) as [Hlive Hmax].
  pose proof (positive_cget ch (- top) (part_live_pos _ _ _ _ _ Hhigh)).
  split_and!.
  - by apply (partition_ok_pop_live _ Z_opp_invol top rest).
  - by apply (partition_ok_push id).
  - by apply splits_move_lr.
  - apply ordered_cincr_r; [by apply ordered_cdecr_l|]. intros a.
    rewrite cget_cdecr_del. case_decide; [lia|apply Hmax].
Qed.

(** The second branch: the least value of the upper half moves down. *)
Lemma move_high_to_low top rest hi' lo dl dh cnt cl ch nl nh :
  partition_ok Z.opp lo cl dl nl → partition_ok id (top :: rest) ch dh nh →
  splits cnt cl ch → ordered cl ch → cget dh top ≤ 0 →
  heappop (top :: rest) = Some (top, hi') →
  partition_ok Z.opp (heappush lo (- top)) (cincr cl top) dl (nl + 1) ∧
  partition_ok id hi' (cdecr_del ch top) dh (nh - 1) ∧
  splits cnt (cincr cl top) (cdecr_del ch top) ∧
  ordered (cincr cl top) (cdecr_del ch top).
Proof.
  intros Hlow Hhigh Hcnt Hord Hd Hpop.
  destruct (high_top_min _ _ _ _ _ Hhigh Hd) as [Hlive Hmin].
  pose proof (positive_cget cl top (part_live_pos _ _ _ _ _ Hlow)).
  split_and!.
  - by apply (partition_ok_push Z.opp).
  - by apply (partition_ok_pop_live _ id_invol top rest).
  - by apply splits_move_rl.
  - apply ordered_cincr_l; [by apply ordered_cdecr_r|]. intros b.
    rewrite cget_cdecr_del. case_decide; [lia|apply Hmin].
Qed.

(** [_rebalance] restores I1 when the sizes differ by at most one move,
    keeps the rest of the invariant and the live values, and does not
    raise. *)
Lemma rebalance_spec c :
  Inv0 c → -1 ≤ _n_low c - _n_high c ≤ 2 →
  wp _rebalance
    (λ _ c', Inv c' ∧ tidy c' ∧ _count c' = _count c ∧
             (heap_size c' ≤ heap_size c)%nat)
    no_exn c.
Proof.
  destruct c as [lo hi dl dh cnt cl ch nl nh].
  intros [Hlow Hhigh Hpos Hcnt Hord] Hbal. unfold low_ok, high_ok in *.
  state_simpl. unfold _rebalance.
  wp_call prune_low_spec with Hlow as lo1 dl1 [Hprl Hlenl].
  wp_call prune_high_spec with Hhigh as hi1 dh1 [Hprh Hlenh]. wp_run.
  pose proof (partition_ok_size_nonneg _ _ _ _ _ Hlow).
  pose proof (partition_ok_size_nonneg _ _ _ _ _ Hhigh).
  repeat case_decide.
  - wp_call prune_low_spec with Hlow as lo2 dl2 [Hprl2 Hlenl2].
    destruct (partition_ok_cons _ _ _ _ _ Hlow) as (top & rest & ->); [lia|].
    unfold heappop_low. wp_run.
    destruct (heappop_cons top rest) as (lo' & Hpop & Hperm & _).
    rewrite Hpop. wp_run.
    destruct (move_low_to_high top rest lo' hi1 dl2 dh1 cnt cl ch nl nh)
      as (Hlow' & Hhigh' & ? & ?); [done..|].
    wp_call prune_low_spec with Hlow' as lo3 dl3 [Hprl3 Hlenl3].
    wp_call prune_high_spec with Hhigh' as hi3 dh3 [Hprh3 Hlenh3].
    rewrite Hperm in Hlenl3. split_and!; [|done..|heap_size_lia].
    split; [by split|]. unfold balanced. state_simpl. lia.
  - wp_call prune_high_spec with Hhigh as hi2 dh2 [Hprh2 Hlenh2].
    destruct (partition_ok_cons _ _ _ _ _ Hhigh) as (top & rest & ->); [lia|].
    unfold heappop_high. wp_run.
    destruct (heappop_cons top rest) as (hi' & Hpop & Hperm & _).
    rewrite Hpop. wp_run.
    destruct (move_high_to_low top rest hi' lo1 dl1 dh2 cnt cl ch nl nh)
      as (Hlow' & Hhigh' & ? & ?); [done..|].
    wp_call prune_low_spec with Hlow' as lo3 dl3 [Hprl3 Hlenl3].
    wp_call prune_high_spec with Hhigh' as hi3 dh3 [Hprh3 Hlenh3].
    rewrite Hperm in Hlenh3. split_and!; [|done..|heap_size_lia].
    split; [by split|]. unfold balanced. state_simpl. lia.
  - wp_run. split_and!; [|done..|heap_size_lia].
    split; [by split|]. unfold balanced. state_simpl. lia.
Qed.

End rebalance.

(** * [add] *)

Section add.
Context {ops : HeapOps} {laws : HeapLaws ops}.
Implicit Types (lo hi : list Z) (dl dh cnt cl ch : gmap Z Z) (nl nh v : Z).

(** The three statements that insert [v] into the lower half. *)
Lemma Inv0_add_low lo hi dl dh cnt cl ch nl nh v :
  Inv0 (mkContainer lo hi dl dh cnt cl ch nl nh) →
  (∀ b, 0 < cget ch b → v ≤ b) →
  Inv0 (mkContainer (heappush lo (- v)) hi dl dh (cincr cnt v) (cincr cl v) ch
          (nl + 1) nh).
Proof.
  intros [Hlow Hhigh Hpos Hcnt Hord] Hv. unfold low_ok, high_ok in *.
  state_simpl. pose proof (part_live_pos _ _ _ _ _ Hlow).
  split; unfold low_ok, high_ok; state_simpl;
    [by apply (partition_ok_push Z.opp)|done|..];
    auto using positive_cincr, splits_cincr_l, positive_cget, ordered_cincr_l.
Qed.

(** The three statements that insert [v] into the upper half. *)
Lemma Inv0_add_high lo hi dl dh cnt cl ch nl nh v :
  Inv0 (mkContainer lo hi dl dh cnt cl ch nl nh) →
  (∀ a, 0 < cget cl a → a ≤ v) →
  Inv0 (mkContainer lo (heappush hi v) dl dh (cincr cnt v) cl (cincr ch v)
          nl (nh + 1)).
Proof.
  intros [Hlow Hhigh Hpos Hcnt Hord] Hv. unfold low_ok, high_ok in *.
  state_simpl. pose proof (part_live_pos _ _ _ _ _ Hhigh).
  split; unfold low_ok, high_ok; state_simpl;
    [done|by apply (partition_ok_push id)|..];
    auto using positive_cincr, splits_cincr_r, positive_cget, ordered_cincr_r.
Qed.

(** [add] keeps the invariant, adds one occurrence of the value to the
    live values, and does not raise. *)
Lemma add_spec c v :
  Inv c →
  wp (add v)
    (λ _ c', Inv c' ∧ tidy c' ∧ contents c' ≡ₚ v :: contents c ∧
             (heap_size c' ≤ S (heap_size c))%nat)
    no_exn c.
Proof.
  destruct c as [lo hi dl dh cnt cl ch nl nh]. intros [HInv Hbal].
  pose proof HInv as [Hlow Hhigh Hpos Hcnt Hord].
  unfold low_ok, high_ok, balanced, contents in *. state_simpl.
  pose proof (partition_ok_size_nonneg _ _ _ _ _ Hlow).
  pose proof (partition_ok_size_nonneg _ _ _ _ _ Hhigh).
  unfold add. wp_run.
  apply (wp_no_exn_mono _ (λ _ c1, Inv0 c1 ∧ -1 ≤ _n_low c1 - _n_high c1 ≤ 2 ∧
                                   _count c1 = cincr cnt v ∧
                                   (heap_size c1 ≤ S (length lo + length hi))%nat)).
  - case_decide.
    + wp_run. split; [|state_simpl; split; [lia|split; [done|heap_size_lia]]].
      apply Inv0_add_low; [done|]. intros b Hb.
      pose proof (partition_ok_size_zero _ _ _ _ _ Hhigh ltac:(lia)) as Hnil.
      pose proof (elements_nil_cget ch b Hnil). lia.
    + wp_call prune_low_spec with Hlow as lo1 dl1 [Hprl Hlenl].
      destruct (partition_ok_cons _ _ _ _ _ Hlow) as (top & rest & ->); [lia|].
      destruct (low_top_max _ _ _ _ _ Hlow Hprl) as [Htop Hmax].
      assert (Inv0 (mkContainer (top :: rest) hi dl1 dh cnt cl ch nl nh))
        by (by split).
      rewrite ordered_spec in Hord.
      unfold low0. wp_run. simpl. wp_run. case_decide.
      * wp_run. split; [|state_simpl; split; [lia|split; [done|heap_size_lia]]].
        apply Inv0_add_low; [done|]. intros b Hb.
        specialize (Hord (- top) b Htop Hb). lia.
      * wp_run. split; [|state_simpl; split; [lia|split; [done|heap_size_lia]]].
        apply Inv0_add_high; [done|]. intros a Ha. specialize (Hmax a Ha). lia.
  - intros [] c1 (HInv1 & Hbal1 & Hcnt1 & Hsize1).
    wp_apply rebalance_spec; [done..|]. intros [] c' (HInv' & ? & Hcnt' & ?).
    split_and!; [done..| |heap_size_lia].
    unfold contents. rewrite Hcnt', Hcnt1. by apply elements_cincr, positive_cget.
Qed.

End add.

(** * [delete] *)

Section delete.
Context {ops : HeapOps} {laws : HeapLaws ops}.
Implicit Types (lo hi : list Z) (dl dh cnt cl ch : gmap Z Z) (nl nh v : Z).

(** The statements that mark one occurrence of [v] deleted in the lower
    half. *)
Lemma Inv0_delete_low lo hi dl dh cnt cl ch nl nh v :
  Inv0 (mkContainer lo hi dl dh cnt cl ch nl nh) → 0 < cget cl v →
  Inv0 (mkContainer lo hi (cincr dl v) dh (cdecr_del cnt v) (cdecr_del cl v) ch
          (nl - 1) nh).
Proof.
  intros [Hlow Hhigh Hpos Hcnt Hord] Hv. unfold low_ok, high_ok in *.
  state_simpl. assert (0 < cget cnt v) by (apply (splits_cget _ _ _ _ Hcnt); auto).
  split; unfold low_ok, high_ok; state_simpl;
    [by apply partition_ok_mark|done|..];
    auto using positive_cdecr_del, splits_cdecr_l, ordered_cdecr_l.
Qed.

(** The same in the upper half. *)
Lemma Inv0_delete_high lo hi dl dh cnt cl ch nl nh v :
  Inv0 (mkContainer lo hi dl dh cnt cl ch nl nh) → 0 < cget ch v →
  Inv0 (mkContainer lo hi dl (cincr dh v) (cdecr_del cnt v) cl (cdecr_del ch v)
          nl (nh - 1)).
Proof.
  intros [Hlow Hhigh Hpos Hcnt Hord] Hv. unfold low_ok, high_ok in *.
  state_simpl. assert (0 < cget cnt v) by (apply (splits_cget _ _ _ _ Hcnt); auto).
  split; unfold low_ok, high_ok; state_simpl;
    [done|by apply partition_ok_mark|..];
    auto using positive_cdecr_del, splits_cdecr_r, ordered_cdecr_r.
Qed.

(** Deleting a value that is not live returns [False] and changes
    nothing. *)
Lemma delete_absent c v :
  cget (_count c) v = 0 → delete v c = (Return false, c).
Proof. intros Hv. unfold delete, bind, gets. simpl. by rewrite decide_True. Qed.

(** Deleting a live value returns [True], removes one occurrence of it,
    keeps the invariant, and does not raise. *)
Lemma delete_present c v :
  Inv c → 0 < cget (_count c) v →
  wp (delete v)
    (λ b c', b = true ∧ Inv c' ∧ tidy c' ∧ v :: contents c' ≡ₚ contents c ∧
             (heap_size c' ≤ heap_size c)%nat)
    no_exn c.
Proof.
  destruct c as [lo hi dl dh cnt cl ch nl nh]. intros [HInv Hbal] Hv.
  pose proof HInv as [Hlow Hhigh Hpos Hcnt Hord].
  unfold low_ok, high_ok, balanced, contents in *. state_simpl.
  unfold delete. wp_run. rewrite decide_False by lia. wp_run.
  wp_call prune_low_spec with Hlow as lo1 dl1 [Hprl Hlenl].
  wp_call prune_high_spec with Hhigh as hi1 dh1 [Hprh Hlenh]. wp_run.
  assert (Inv0 (mkContainer lo1 hi1 dl1 dh1 cnt cl ch nl nh)) by (by split).
  apply (wp_no_exn_mono _ (λ _ c1, Inv0 c1 ∧ -1 ≤ _n_low c1 - _n_high c1 ≤ 2 ∧
                                   _count c1 = cdecr_del cnt v ∧
                                   heap_size c1 = (length lo1 + length hi1)%nat)).
  - case_decide.
    + wp_run. split; [|state_simpl; split; [lia|by split]].
      apply Inv0_delete_low; [done|lia].
    + wp_run. split; [|state_simpl; split; [lia|by split]].
      apply Inv0_delete_high; [done|].
      apply (splits_cget _ _ _ _ Hcnt) in Hv. lia.
  - intros [] [lo2 hi2 dl2 dh2 cnt2 cl2 ch2 nl2 nh2]
      ([Hlow2 Hhigh2 ???] & ? & ? & Hsize2).
    unfold low_ok, high_ok in *. state_simpl.
    wp_call prune_low_spec with Hlow2 as lo3 dl3 [Hprl3 Hlenl3].
    wp_call prune_high_spec with Hhigh2 as hi3 dh3 [Hprh3 Hlenh3].
    wp_apply rebalance_spec; [by split|done|].
    intros [] c' (HInv' & ? & Hcnt' & Hsize').
    wp_run. split_and!; [done..| |heap_size_lia]. state_simpl. subst.
    unfold contents. rewrite Hcnt'. by apply elements_cdecr_del.
Qed.

End delete.

(** * [get_median] *)

Section get_median.
Context {ops : HeapOps} {laws : HeapLaws ops}.
Implicit Types (lo hi : list Z) (dl dh cnt cl ch : gmap Z Z) (nl nh v : Z).

(** The size counters add up to the number of live values. *)
Lemma Inv0_size c :
  Inv0 c → _n_low c + _n_high c = Z.of_nat (length (contents c)).
Proof.
  intros [Hlow Hhigh _ Hcnt _]. unfold contents, splits in *.
  rewrite Hcnt, length_app.
  rewrite (part_size _ _ _ _ _ Hlow), (part_size _ _ _ _ _ Hhigh). lia.
Qed.

(** In a balanced container whose lower heap has a live top, the negated
    top is the median of the live values. *)
Lemma Inv_top_median top rest hi dl dh cnt cl ch nl nh :
  Inv (mkContainer (top :: rest) hi dl dh cnt cl ch nl nh) →
  cget dl (- top) ≤ 0 →
  median_ref (elements cnt) = Some (- top).
Proof.
  intros [[Hlow Hhigh Hpos Hcnt Hord] Hbal] Hd.
  unfold low_ok, high_ok, balanced in *. state_simpl.
  destruct (low_top_max _ _ _ _ _ Hlow Hd) as [Htop Hmax].
  rewrite ordered_spec in Hord.
  apply median_ref_is_kth. split.
  { intros Hnil. pose proof (elements_nil_cget cnt (- top) Hnil).
    pose proof (proj2 (splits_cget _ _ _ (- top) Hcnt)). lia. }
  unfold splits in Hcnt. rewrite Hcnt at 2.
  rewrite length_app, median_index_balanced.
  - apply (is_kth_partition _ (elements cl) (elements ch));
      [done|by apply elem_of_elements|..];
      apply Forall_forall; intros x Hx%elem_of_elements; auto.
  - rewrite (part_size _ _ _ _ _ Hlow), (part_size _ _ _ _ _ Hhigh) in Hbal. lia.
Qed.

(** [get_median] of a container with no live value raises
    [RuntimeError] and changes nothing. *)
Lemma get_median_empty c :
  _n_low c + _n_high c = 0 →
  get_median c = (Raise (RuntimeError "Container is empty"), c).
Proof. intros Hn. unfold get_median, bind, gets. simpl. by rewrite decide_True. Qed.

(** [get_median] of a container with a live value returns the median of
    the live values as the sorted reference computes it, keeps the
    invariant and the live values, and does not raise. *)
Lemma get_median_spec c :
  Inv c → contents c ≠ [] →
  wp get_median
    (λ m c', median_ref (contents c) = Some m ∧ Inv c' ∧ tidy c' ∧
             _count c' = _count c ∧ (heap_size c' ≤ heap_size c)%nat)
    no_exn c.
Proof.
  intros [HInv Hbal] Hne. pose proof (Inv0_size c HInv) as Hsize.
  destruct c as [lo hi dl dh cnt cl ch nl nh].
  pose proof HInv as [Hlow Hhigh Hpos Hcnt Hord].
  unfold low_ok, high_ok, balanced, contents in *. state_simpl.
  unfold get_median. wp_run.
  rewrite decide_False by (destruct (elements cnt); simpl in *; [done|lia]).
  wp_call prune_low_spec with Hlow as lo0 dl0 [Hprl0 Hlenl0].
  wp_call prune_high_spec with Hhigh as hi0 dh0 [Hprh0 Hlenh0].
  wp_apply rebalance_spec; [by split|state_simpl; lia|].
  intros [] [lo1 hi1 dl1 dh1 cnt1 cl1 ch1 nl1 nh1]
    ([HInv1 Hbal1] & [_ Hprh1] & Hcnt1 & Hlen1).
  pose proof (Inv0_size _ HInv1) as Hsize1.
  pose proof HInv1 as [Hlow1 Hhigh1 ???].
  unfold low_ok, high_ok, balanced, contents in *. state_simpl. subst cnt1.
  pose proof (partition_ok_size_nonneg _ _ _ _ _ Hhigh1).
  wp_call prune_low_spec with Hlow1 as lo2 dl2 [Hprl2 Hlenl2].
  destruct (partition_ok_cons _ _ _ _ _ Hlow1) as (top & rest & ->).
  { destruct (elements cnt); simpl in *; [done|lia]. }
  unfold low0. wp_run. simpl. wp_run.
  assert (Inv (mkContainer (top :: rest) hi1 dl2 dh1 cnt cl1 ch1 nl1 nh1))
    as HInv2 by (split; [by split|done]).
  split_and!; [|done..|heap_size_lia].
  by apply (Inv_top_median _ _ _ _ _ _ _ _ _ _ HInv2).
Qed.

End get_median.

(** * The contract of the class

    The specifications above, read as statements about a call: what it
    returns and the state it leaves.  Each holds for any heap
    implementation that satisfies [HeapLaws]; the examples that follow
    each apply it to CPython's [heapq] on [sample], a container with a
    deletion pending in [_high]. *)

Section contract.
Context {ops : HeapOps} {laws : HeapLaws ops}.
Implicit Types (c : Container) (v m : Z).

Lemma Inv_initial : Inv0 __init__ ∧ balanced __init__.
Proof.
  split; [|by unfold balanced]. split; unfold low_ok, high_ok; simpl.
  - apply partition_ok_empty.
  - apply partition_ok_empty.
  - apply positive_empty.
  - apply splits_empty.
  - by apply ordered_empty_r, elements_empty.
Qed.

Lemma contents_nil_size c : Inv c → contents c = [] → _n_low c + _n_high c = 0.
Proof. intros [HInv _] Hnil. by rewrite (Inv0_size c HInv), Hnil. Qed.

Lemma not_elem_of_contents c v : Inv c → v ∉ contents c → cget (_count c) v = 0.
Proof.
  intros [[_ _ Hpos _ _] _] Hv. unfold contents in Hv.
  rewrite elem_of_elements in Hv. pose proof (positive_cget _ v Hpos). lia.
Qed.

(** The heaps hold at least the live values. *)
Lemma heap_size_live c :
  Inv0 c → _n_low c + _n_high c ≤ Z.of_nat (heap_size c).
Proof.
  intros [Hlow Hhigh _ _ _].
  apply (partition_ok_length Z.opp) in Hlow.
  apply (partition_ok_length id) in Hhigh. unfold heap_size. lia.
Qed.

(** A container that a method has left without live values is in the
    state of a new one: the lazy deletions have all been carried out. *)
Lemma Inv_tidy_drained c : Inv c → tidy c → contents c = [] → c = __init__.
Proof.
  intros [[Hlow Hhigh Hpos Hsplit _] _] [Hprl Hprh] Hnil.
  unfold contents, splits in *. rewrite Hnil in Hsplit.
  apply Permutation_nil_l in Hsplit. symmetry in Hsplit.
  apply app_eq_nil in Hsplit as [Hl Hh].
  destruct (partition_ok_drained Z.opp Z_opp_invol _ _ _ _ Hlow Hprl Hl)
    as (? & ? & ? & ?).
  destruct (partition_ok_drained id id_invol _ _ _ _ Hhigh Hprh Hh)
    as (? & ? & ? & ?).
  apply positive_elements_nil in Hnil; [|done].
  destruct c. unfold __init__. simpl in *. by subst.
Qed.

(** ** Settled states

    A purge finds nothing to pop on a heap whose top is live, and
    [_rebalance] nothing to move between balanced halves: on the states
    that a method has left, the helpers and [get_median] change no
    attribute.  The laws of the heap are not needed: no entry is pushed
    or popped. *)

Lemma prune_low_pruned c :
  pruned Z.opp (_low c) (_del_low c) → _prune_low c = (Return tt, c).
Proof.
  destruct c as [[|top rest] hi dl dh cnt cl ch nl nh]; [done|].
  unfold _prune_low, bind, gets, pruned. simpl. unfold bind, gets. simpl.
  intros Htop. by rewrite decide_False by lia.
Qed.

Lemma prune_high_pruned c :
  pruned id (_high c) (_del_high c) → _prune_high c = (Return tt, c).
Proof.
  destruct c as [lo [|top rest] dl dh cnt cl ch nl nh]; [done|].
  unfold _prune_high, bind, gets, pruned. simpl. unfold bind, gets. simpl.
  intros Htop. by rewrite decide_False by lia.
Qed.

Lemma rebalance_settled c :
  balanced c → tidy c → _rebalance c = (Return tt, c).
Proof.
  intros Hbal [Hprl Hprh]. unfold _rebalance, bind at 1.
  rewrite (prune_low_pruned c Hprl). unfold bind at 1.
  rewrite (prune_high_pruned c Hprh). unfold bind, gets, balanced in *.
  by rewrite !decide_False by lia.
Qed.

(** On a settled container with a live value [get_median] only reads:
    it returns the negated top of [_low]. *)
Lemma get_median_settled c :
  Inv c → tidy c → contents c ≠ [] →
  ∃ top rest, _low c = top :: rest ∧ get_median c = (Return (- top), c).
Proof.
  intros [HInv Hbal] Htidy Hne. pose proof (Inv0_size c HInv) as Hsize.
  assert (0 < _n_low c) as Hpos.
  { unfold balanced in Hbal. destruct (contents c); simpl in *; [done|lia]. }
  destruct (partition_ok_cons _ _ _ _ _ (inv_low c HInv) Hpos)
    as (top & rest & Hlow).
  exists top, rest. split; [done|]. unfold get_median, bind at 1 2, gets.
  rewrite decide_False by (unfold balanced in Hbal; lia). unfold bind at 1.
  rewrite (prune_low_pruned c (proj1 Htidy)). unfold bind at 1.
  rewrite (prune_high_pruned c (proj2 Htidy)). unfold bind at 1.
  rewrite (rebalance_settled c Hbal Htidy). unfold bind at 1.
  rewrite (prune_low_pruned c (proj1 Htidy)).
  unfold low0, bind, gets. by rewrite Hlow.
Qed.

End contract.

Section claims.
Context {ops : HeapOps} {laws : HeapLaws ops}.
Implicit Types (c : Container) (v m : Z).

(** C7: on a container that satisfies the invariant and holds at least
    one live value, [get_median] returns, without raising, the value at
    sorted position [(N - 1) / 2] of the live values, as the sorted
    reference [median_ref] computes it; the invariant still holds, the
    tops of the heaps are live, the live values are unchanged and the
    heaps have not grown. *)
Theorem get_median_correct c :
  Inv c → contents c ≠ [] →
  ∃ m c', get_median c = (Return m, c') ∧
    median_ref (contents c) = Some m ∧ Inv c' ∧ tidy c' ∧
    contents c' = contents c ∧ (heap_size c' ≤ heap_size c)%nat.
Proof.
  intros HInv Hne.
  destruct (wp_returns _ _ _ (get_median_spec c HInv Hne))
    as (m & c' & Hrun & Hm & HInv' & Htidy & Hcnt & Hsize).
  exists m, c'. unfold contents. by rewrite Hcnt.
Qed.

(** C8: [add(value)] on a container that satisfies the invariant returns
    without raising, in a state that satisfies the invariant, whose
    heaps have live tops and one entry more at most, and whose live
    values are those before plus one occurrence of [value]. *)
Theorem add_correct c v :
  Inv c →
  ∃ c', add v c = (Return tt, c') ∧ Inv c' ∧ tidy c' ∧
    contents c' ≡ₚ v :: contents c ∧ (heap_size c' ≤ S (heap_size c))%nat.
Proof.
  intros HInv.
  destruct (wp_returns _ _ _ (add_spec c v HInv)) as ([] & c' & Hrun & Hpost).
  by exists c'.
Qed.

(** C9: [delete(value)] of a live value returns [True] without raising,
    in a state that satisfies the invariant, whose heaps have live tops
    and have not grown, and whose live values are those before minus
    one occurrence of [value]. *)
Theorem delete_present_correct c v :
  Inv c → v ∈ contents c →
  ∃ c', delete v c = (Return true, c') ∧ Inv c' ∧ tidy c' ∧
    v :: contents c' ≡ₚ contents c ∧ (heap_size c' ≤ heap_size c)%nat.
Proof.
  intros HInv Hv%elem_of_elements.
  destruct (wp_returns _ _ _ (delete_present c v HInv Hv))
    as (b & c' & Hrun & -> & Hpost).
  by exists c'.
Qed.

(** [delete(value)] of a value that is not live returns [False] and
    leaves every attribute as it was. *)
Theorem delete_absent_unchanged c v :
  Inv c → v ∉ contents c → delete v c = (Return false, c).
Proof. intros HInv Hv. by apply delete_absent, not_elem_of_contents. Qed.

(** C32: [get_median] of a container with no live value raises
    [RuntimeError("Container is empty")] and leaves every attribute as
    it was. *)
Theorem get_median_empty_raises c :
  Inv c → contents c = [] →
  get_median c = (Raise (RuntimeError "Container is empty"), c).
Proof. intros HInv Hnil. by apply get_median_empty, contents_nil_size. Qed.

(** C10: when the partitions are well formed and ordered and the sizes
    differ by at most one move ([-1 <= n_low - n_high <= 2]),
    [_rebalance] returns without raising in a state where the full
    invariant holds, I1 included, with live tops, the same live values
    and no more entries in the heaps. *)
Theorem rebalance_restores_balance c :
  Inv0 c → -1 ≤ _n_low c - _n_high c ≤ 2 →
  ∃ c', _rebalance c = (Return tt, c') ∧ Inv c' ∧ tidy c' ∧
    contents c' = contents c ∧ (heap_size c' ≤ heap_size c)%nat.
Proof.
  intros HInv Hbal.
  destruct (wp_returns _ _ _ (rebalance_spec c HInv Hbal))
    as ([] & c' & Hrun & HInv' & Htidy & Hcnt & Hsize).
  exists c'. unfold contents. by rewrite Hcnt.
Qed.

(** C11: the loop of [_prune_low] ends within its fuel ([OutOfFuel] is
    not the outcome) and does not raise [IndexError]; afterwards the
    lower partition is still well formed, its heap is empty or has a
    top that is not pending deletion, only [_low] and [_del_low] have
    changed, and the heap has not grown. *)
Theorem prune_low_terminates c :
  low_ok c →
  ∃ c', _prune_low c = (Return tt, c') ∧ low_ok c' ∧
    pruned Z.opp (_low c') (_del_low c') ∧ same_but_low c c' ∧
    (length (_low c') ≤ length (_low c))%nat.
Proof.
  destruct c as [lo hi dl dh cnt cl ch nl nh]. intros Hlow.
  destruct (wp_returns _ _ _ (prune_low_spec lo hi dl dh cnt cl ch nl nh Hlow))
    as ([] & c' & Hrun & lo' & dl' & -> & Hlow' & Hpr & Hlen).
  by eexists.
Qed.

(** The same for [_prune_high] on [_high] and [_del_high]. *)
Theorem prune_high_terminates c :
  high_ok c →
  ∃ c', _prune_high c = (Return tt, c') ∧ high_ok c' ∧
    pruned id (_high c') (_del_high c') ∧ same_but_high c c' ∧
    (length (_high c') ≤ length (_high c))%nat.
Proof.
  destruct c as [lo hi dl dh cnt cl ch nl nh]. intros Hhigh.
  destruct (wp_returns _ _ _ (prune_high_spec lo hi dl dh cnt cl ch nl nh Hhigh))
    as ([] & c' & Hrun & hi' & dh' & -> & Hhigh' & Hpr & Hlen).
  by eexists.
Qed.

(** The two size counters add up to the number of live values, and
    the lower half holds the larger half of them: [n_low] is [N / 2]
    rounded up. *)
Theorem size_accounting c :
  Inv c →
  _n_low c + _n_high c = Z.of_nat (length (contents c)) ∧
  _n_low c = (Z.of_nat (length (contents c)) + 1) / 2.
Proof.
  intros [HInv Hbal]. pose proof (Inv0_size c HInv) as Hsize.
  split; [done|]. unfold balanced in Hbal. rewrite <-Hsize.
  apply Z.div_unique with (r := _n_low c + _n_high c + 1 - 2 * _n_low c); lia.
Qed.

(** C34: calling [get_median] again, with no call between, returns the
    same value and changes no attribute: the first call has left live
    tops and balanced halves, so the second finds nothing to purge or
    to move. *)
Theorem get_median_idempotent c m c' :
  Inv c → get_median c = (Return m, c') → get_median c' = (Return m, c').
Proof.
  intros HInv Hrun. destruct (decide (contents c = [])) as [Hnil|Hne].
  { by rewrite (get_median_empty c (contents_nil_size c HInv Hnil)) in Hrun. }
  pose proof (get_median_spec c HInv Hne) as Hwp. unfold wp in Hwp.
  rewrite Hrun in Hwp. destruct Hwp as (Hm & HInv' & Htidy' & Hcnt & _).
  assert (contents c' = contents c) as Hc by (unfold contents; by rewrite Hcnt).
  destruct (get_median_settled c' HInv' Htidy' ltac:(by rewrite Hc))
    as (top & rest & _ & Hrun').
  pose proof (get_median_spec c' HInv' ltac:(by rewrite Hc)) as Hwp'.
  unfold wp in Hwp'. rewrite Hrun' in Hwp'. destruct Hwp' as [Hm' _].
  rewrite Hrun'. rewrite Hc in Hm'. by simplify_eq.
Qed.

End claims.

(** A new container satisfies the invariant and has no live
    value. *)
Theorem init_Inv : Inv __init__ ∧ contents __init__ = [].
Proof. split; [apply Inv_initial|]. unfold contents. apply elements_empty. Qed.

(** ** The theorems at work on CPython's heaps *)

Lemma get_median_correct_witness :
  ∃ m c', get_median sample = (Return m, c') ∧
    median_ref (contents sample) = Some m ∧ Inv c' ∧ tidy c' ∧
    contents c' = contents sample ∧ (heap_size c' ≤ heap_size sample)%nat.
Proof. apply (get_median_correct (laws:=heapq_laws)); compute_done. Defined.

Lemma add_correct_witness :
  ∃ c', add 15 sample = (Return tt, c') ∧ Inv c' ∧ tidy c' ∧
    contents c' ≡ₚ 15 :: contents sample ∧
    (heap_size c' ≤ S (heap_size sample))%nat.
Proof. apply (add_correct (laws:=heapq_laws)). compute_done. Defined.

Lemma delete_present_correct_witness :
  ∃ c', delete 20 sample = (Return true, c') ∧ Inv c' ∧ tidy c' ∧
    20 :: contents c' ≡ₚ contents sample ∧
    (heap_size c' ≤ heap_size sample)%nat.
Proof. apply (delete_present_correct (laws:=heapq_laws)); compute_done. Defined.

Lemma delete_absent_unchanged_witness :
  delete (ops:=heapq_ops) 30 sample = (Return false, sample).
Proof. apply (delete_absent_unchanged (ops:=heapq_ops)); compute_done. Defined.

Lemma get_median_empty_raises_witness :
  get_median (ops:=heapq_ops) __init__ =
  (Raise (RuntimeError "Container is empty"), __init__).
Proof. apply (get_median_empty_raises (ops:=heapq_ops)); compute_done. Defined.

Lemma rebalance_restores_balance_witness :
  ∃ c', _rebalance sample_skewed = (Return tt, c') ∧ Inv c' ∧ tidy c' ∧
    contents c' = contents sample_skewed ∧
    (heap_size c' ≤ heap_size sample_skewed)%nat.
Proof. apply (rebalance_restores_balance (laws:=heapq_laws)); compute_done. Defined.

(** On [sample_skewed] the first branch of [_rebalance] runs: a value
    leaves the lower partition for the upper one. *)
Example rebalance_moves_up :
  (_n_low sample_skewed, _n_high sample_skewed) = (3, 1) ∧
  let c' := (_rebalance sample_skewed).2 in
  (_n_low c', _n_high c') = (2, 2) ∧ contents c' = [5; 10; 20; 20].
Proof. by vm_compute. Qed.

Lemma prune_low_terminates_witness :
  ∃ c', _prune_low sample_stale = (Return tt, c') ∧
    low_ok c' ∧ pruned Z.opp (_low c') (_del_low c') ∧
    same_but_low sample_stale c' ∧
    (length (_low c') ≤ length (_low sample_stale))%nat.
Proof.
  apply (prune_low_terminates (laws:=heapq_laws)). unfold low_ok. compute_done.
Defined.

Lemma prune_high_terminates_witness :
  ∃ c', _prune_high sample = (Return tt, c') ∧
    high_ok c' ∧ pruned id (_high c') (_del_high c') ∧ same_but_high sample c' ∧
    (length (_high c') ≤ length (_high sample))%nat.
Proof.
  apply (prune_high_terminates (laws:=heapq_laws)). unfold high_ok. compute_done.
Defined.

Lemma size_accounting_witness :
  _n_low sample + _n_high sample = Z.of_nat (length (contents sample)) ∧
  _n_low sample = (Z.of_nat (length (contents sample)) + 1) / 2.
Proof. apply size_accounting. compute_done. Defined.

Lemma get_median_idempotent_witness :
  get_median (snd (get_median sample)) = (Return 20, snd (get_median sample)).
Proof.
  apply (get_median_idempotent (laws:=heapq_laws) sample); [compute_done|].
  by vm_compute.
Defined.

End Container.
