(* ===== verification/Reference.v ===== *)
(** * The reference container and what it means to implement it

    The contract of both containers is given by a reference that keeps
    the live values as a sorted list and reads the median by direct
    indexing.  This file holds

    - the operations a driver issues ([op]) and the values it observes
      ([value], [reply]);
    - the reference ([Reference.step], [Reference.run]) with the lemmas
      that show it keeps its list sorted and computes [median_ref];
    - the interface [implementation] of a container under test, the
      class [Refines] of those that simulate the reference, and the
      lemma [refines_run]: such an implementation gives, on every
      sequence of operations, the replies of the reference;
    - the class [Contract], the specification of the three methods on
      an invariant and a multiset of live values, and the instance
      [contract_refines]: meeting the contract is enough to refine the
      reference;
    - the size accounting of a run ([run_length]). *)

From stdpp Require Import list sorting.
From S2P Require Import Prelude OrderStat.

Local Open Scope Z_scope.
Local Open Scope py_scope.

(** The calls of a driver. *)
Inductive op : Type :=
| Add (v : Z)
| Delete (v : Z)
| GetMedian.

(** The Python values the three methods return. *)
Inductive value : Type :=
| VNone
| VInt (n : Z)
| VBool (b : bool).

(** What the driver observes of a call: the value returned or the
    exception raised. *)
Abbreviation reply := (outcome value).

#[export] Instance op_eq_dec : EqDecision op.
Proof. solve_decision. Defined.
#[export] Instance value_eq_dec : EqDecision value.
Proof. solve_decision. Defined.

Module Reference.

(** The state: the live values, sorted ascending. *)
Definition state : Type := list Z.

(** Insert before the first element that is not below [v]. *)
Fixpoint insert (v : Z) (l : list Z) : list Z :=
  match l with
  | [] => [v]
  | x :: l' => if decide (v ≤ x) then v :: l else x :: insert v l'
  end.

(** Remove the first occurrence of [v]. *)
Fixpoint remove (v : Z) (l : list Z) : list Z :=
  match l with
  | [] => []
  | x :: l' => if decide (x = v) then l' else x :: remove v l'
  end.

(** The median by direct indexing; [None] when there is no value. *)
Definition median (l : list Z) : option Z := l !! median_index (length l).

Definition of_median (o : option Z) : value :=
  match o with
  | Some m => VInt m
  | None => VNone
  end.

(** One call: [add] returns the new size, [delete] whether the value was
    there, [get_median] the median or [None]. *)
Definition step (o : op) (l : state) : reply * state :=
  match o with
  | Add v =>
    let l' := insert v l in (Return (VInt (Z.of_nat (length l'))), l')
  | Delete v =>
    if decide (v ∈ l) then (Return (VBool true), remove v l)
    else (Return (VBool false), l)
  | GetMedian => (Return (of_median (median l)), l)
  end.

(** A sequence of calls: the replies in order and the final state. *)
Fixpoint run (os : list op) (l : state) : list reply * state :=
  match os with
  | [] => ([], l)
  | o :: os =>
    let '(r, l') := step o l in
    let '(rs, l'') := run os l' in
    (r :: rs, l'')
  end.

End Reference.

(** ** Implementations *)

(** A container under test: its state, the state of a new object, and a
    call of each method as the driver makes it.  [impl_expect o r] is
    the reply the implementation documents for [o] where the reference
    replies [r]. *)
Record implementation : Type := {
  impl_state : Type;
  impl_init : impl_state;
  impl_call : op → M impl_state value;
  impl_expect : op → reply → reply
}.

(** The reference is an implementation of itself. *)
Definition reference_impl : implementation := {|
  impl_state := Reference.state;
  impl_init := [];
  impl_call := Reference.step;
  impl_expect := λ _ r, r
|}.

(** Replay a sequence of calls on an implementation. *)
Fixpoint impl_run (I : implementation) (os : list op) (s : impl_state I) :
    list reply * impl_state I :=
  match os with
  | [] => ([], s)
  | o :: os =>
    let '(r, s') := impl_call I o s in
    let '(rs, s'') := impl_run I os s' in
    (r :: rs, s'')
  end.

(** [I] simulates the reference: a relation between its states and
    states of the reference holds initially and is kept by every call,
    whose reply is the expected one. *)
Class Refines (I : implementation) : Type := {
  abs : impl_state I → list Z → Prop;
  abs_init : abs (impl_init I) [];
  abs_step o s l :
    abs s l → StronglySorted Z.le l →
    ∃ s', impl_call I o s = (impl_expect I o (Reference.step o l).1, s') ∧
          abs s' (Reference.step o l).2
}.

(** The contract of the three methods, stated on an invariant and on
    the multiset of live values of a state.  An implementation that
    meets it simulates the reference ([contract_refines]). *)
Class Contract (I : implementation) : Type := {
  c_Inv : impl_state I → Prop;
  c_contents : impl_state I → list Z;
  c_init : c_Inv (impl_init I) ∧ c_contents (impl_init I) = [];
  c_add s v :
    c_Inv s →
    ∃ s', impl_call I (Add v) s =
            (impl_expect I (Add v)
               (Return (VInt (Z.of_nat (length (c_contents s)) + 1))), s') ∧
          c_Inv s' ∧ c_contents s' ≡ₚ v :: c_contents s;
  c_delete_present s v :
    c_Inv s → v ∈ c_contents s →
    ∃ s', impl_call I (Delete v) s =
            (impl_expect I (Delete v) (Return (VBool true)), s') ∧
          c_Inv s' ∧ v :: c_contents s' ≡ₚ c_contents s;
  c_delete_absent s v :
    c_Inv s → v ∉ c_contents s →
    impl_call I (Delete v) s =
      (impl_expect I (Delete v) (Return (VBool false)), s);
  c_get_median s :
    c_Inv s →
    ∃ s', impl_call I GetMedian s =
            (impl_expect I GetMedian
               (Return (Reference.of_median (median_ref (c_contents s)))), s') ∧
          c_Inv s' ∧ c_contents s' = c_contents s
}.

(** * The reference *)

Section reference.
Import Reference.
Implicit Types (l : list Z) (v m : Z) (o : op).

Lemma insert_Permutation v l : insert v l ≡ₚ v :: l.
Proof.
  induction l as [|x l IH]; simpl; [done|].
  case_decide; [done|]. by rewrite IH, Permutation_swap.
Qed.

Lemma insert_sorted v l :
  StronglySorted Z.le l → StronglySorted Z.le (insert v l).
Proof.
  induction 1 as [|x l Hl IH Hx]; simpl; [by repeat constructor|].
  case_decide.
  - constructor; [by constructor|]. constructor; [done|].
    eapply Forall_impl; [exact Hx|]. intros; simpl in *; lia.
  - constructor; [done|]. rewrite insert_Permutation. constructor; [lia|done].
Qed.

Lemma length_insert v l : length (insert v l) = S (length l).
Proof. by rewrite insert_Permutation. Qed.

Lemma remove_Permutation v l : v ∈ l → v :: remove v l ≡ₚ l.
Proof.
  induction l as [|x l IH]; simpl; [by intros ?%elem_of_nil|].
  case_decide as Hx; [by subst|].
  intros [?|Hv]%elem_of_cons; [done|]. by rewrite Permutation_swap, IH.
Qed.

Lemma remove_submseteq v l : remove v l ⊆+ l.
Proof.
  induction l as [|x l IH]; simpl; [done|].
  case_decide; [by apply submseteq_cons|by apply submseteq_skip].
Qed.

Lemma remove_sorted v l :
  StronglySorted Z.le l → StronglySorted Z.le (remove v l).
Proof.
  induction 1 as [|x l Hl IH Hx]; simpl; [constructor|].
  case_decide; [done|]. constructor; [done|].
  eapply Forall_forall. intros y Hy.
  eapply Forall_forall; [exact Hx|]. by eapply elem_of_submseteq, remove_submseteq.
Qed.

(** Indexing a sorted list at the median position is the reference
    median of [OrderStat.v]. *)
Lemma median_sorted l : StronglySorted Z.le l → median l = median_ref l.
Proof.
  intros Hl. unfold median. destruct (l !! _) as [m|] eqn:Hm.
  - symmetry. apply median_ref_is_kth. split; [by intros ->|].
    by apply sorted_lookup_is_kth.
  - apply lookup_ge_None in Hm. destruct l as [|x l]; [done|].
    pose proof (median_index_lt (length (x :: l))). simpl in *. lia.
Qed.

Lemma step_sorted o l :
  StronglySorted Z.le l → StronglySorted Z.le (step o l).2.
Proof.
  intros Hl. destruct o as [v|v|]; simpl; [by apply insert_sorted| |done].
  case_decide; [by apply remove_sorted|done].
Qed.

Lemma run_sorted os l :
  StronglySorted Z.le l → StronglySorted Z.le (run os l).2.
Proof.
  revert l. induction os as [|o os IH]; intros l Hl; simpl; [done|].
  pose proof (step_sorted o l Hl) as Hstep. destruct (step o l) as [r l'].
  specialize (IH l' Hstep). by destruct (run os l').
Qed.

Lemma length_run os l : length (run os l).1 = length os.
Proof.
  revert l. induction os as [|o os IH]; intros l; simpl; [done|].
  destruct (step o l) as [r l']. specialize (IH l').
  destruct (run os l'). simpl in *. by rewrite IH.
Qed.

(** An implementation that expects the replies of the reference as
    they are. *)
Lemma zip_with_run_id os l : zip_with (λ _ r, r) os (run os l).1 = (run os l).1.
Proof.
  pose proof (length_run os l) as Hlen. revert Hlen.
  generalize (run os l).1. clear l.
  induction os as [|o os IH]; intros [|r rs] Hlen; simplify_eq/=; [done|].
  by rewrite IH.
Qed.

End reference.

(** * Implementations that refine the reference *)

Section contract.
Context (I : implementation) `{!Contract I}.
Implicit Types (s : impl_state I) (l : list Z).

(** A state stands for the states of the reference that enumerate its
    live values. *)
Definition contract_abs s l : Prop := c_Inv s ∧ c_contents s ≡ₚ l.

Lemma contract_step_add s l v :
  contract_abs s l →
  ∃ s', impl_call I (Add v) s =
          (impl_expect I (Add v) (Reference.step (Add v) l).1, s') ∧
        contract_abs s' (Reference.step (Add v) l).2.
Proof.
  intros [HInv Hl]. destruct (c_add s v HInv) as (s' & Hrun & HInv' & Hc).
  exists s'. simpl. split.
  - rewrite Hrun, length_insert, <-Hl. do 4 f_equal. lia.
  - split; [done|]. by rewrite insert_Permutation, Hc, Hl.
Qed.

Lemma contract_step_delete s l v :
  contract_abs s l →
  ∃ s', impl_call I (Delete v) s =
          (impl_expect I (Delete v) (Reference.step (Delete v) l).1, s') ∧
        contract_abs s' (Reference.step (Delete v) l).2.
Proof.
  intros [HInv Hl]. simpl. case_decide as Hv; rewrite <-Hl in Hv.
  - destruct (c_delete_present s v HInv Hv) as (s' & Hrun & HInv' & Hc).
    exists s'. split; [done|]. split; [done|].
    apply (Permutation_cons_inv (a:=v)).
    rewrite Hc, Hl. symmetry. apply remove_Permutation. by rewrite <-Hl.
  - exists s. by rewrite (c_delete_absent s v HInv Hv).
Qed.

Lemma contract_step_get_median s l :
  contract_abs s l → StronglySorted Z.le l →
  ∃ s', impl_call I GetMedian s =
          (impl_expect I GetMedian (Reference.step GetMedian l).1, s') ∧
        contract_abs s' l.
Proof.
  intros [HInv Hl] Hs. simpl. rewrite (median_sorted l Hs).
  rewrite <-(median_ref_Permutation _ _ Hl).
  destruct (c_get_median s HInv) as (s' & Hrun & HInv' & Hc).
  exists s'. split; [done|]. split; [done|]. by rewrite Hc.
Qed.

#[export] Instance contract_refines : Refines I.
Proof.
  refine (Build_Refines I contract_abs _ _).
  - destruct c_init as [HInv Hc]. split; [done|]. by rewrite Hc.
  - intros [v|v|] s l Habs Hs.
    + by apply contract_step_add.
    + by apply contract_step_delete.
    + by apply contract_step_get_median.
Defined.

End contract.

Section refines.
Context (I : implementation) `{!Refines I}.

(** From related states, the implementation replies as expected to
    every call of a sequence and ends in a related state. *)
Lemma refines_run_from os s l :
  abs s l → StronglySorted Z.le l →
  (impl_run I os s).1 =
    zip_with (impl_expect I) os (Reference.run os l).1 ∧
  abs (impl_run I os s).2 (Reference.run os l).2.
Proof.
  revert s l. induction os as [|o os IH]; intros s l Habs Hl; simpl; [done|].
  destruct (abs_step o s l Habs Hl) as (s' & Hcall & Habs').
  pose proof (step_sorted o l Hl) as Hl'.
  rewrite Hcall. destruct (Reference.step o l) as [r l']. simpl in *.
  destruct (IH s' l' Habs' Hl') as [Hrs Hfin].
  destruct (impl_run I os s'), (Reference.run os l'). simpl in *.
  by rewrite Hrs.
Qed.

(** From a new object, the implementation replies to every sequence of
    calls as the reference does, and ends in a related state. *)
Lemma refines_run os :
  (impl_run I os (impl_init I)).1 =
    zip_with (impl_expect I) os (Reference.run os []).1 ∧
  abs (impl_run I os (impl_init I)).2 (Reference.run os []).2.
Proof. apply refines_run_from; [apply abs_init|constructor]. Qed.

End refines.

(** ** Size accounting *)

(** The calls of [add] in a sequence, and the replies [True] of
    [delete]. *)
Definition is_add (o : op) : bool := if o is Add _ then true else false.

Definition adds (os : list op) : Z :=
  Z.of_nat (length (filter (λ o, is_add o) os)).

Definition deleted (rs : list reply) : Z :=
  Z.of_nat (length (filter (λ r, r = Return (VBool true)) rs)).

Section accounting.
Import Reference.
Implicit Types (l : list Z) (os : list op) (rs : list reply).

Lemma adds_cons o os :
  adds (o :: os) = (if is_add o then 1 else 0) + adds os.
Proof. unfold adds. rewrite filter_cons. destruct o; simpl; lia. Qed.

Lemma deleted_cons r rs :
  deleted (r :: rs) = (if decide (r = Return (VBool true)) then 1 else 0) + deleted rs.
Proof. unfold deleted. rewrite filter_cons. repeat case_decide; simpl; lia. Qed.

(** One call changes the size by what it counts for. *)
Lemma step_length o l :
  Z.of_nat (length (step o l).2) =
  Z.of_nat (length l) + (if is_add o then 1 else 0)
  - (if decide ((step o l).1 = Return (VBool true)) then 1 else 0).
Proof.
  destruct o as [v|v|]; simpl.
  - rewrite length_insert. lia.
  - case_decide as Hv; simpl; [|lia].
    apply remove_Permutation in Hv. rewrite <-Hv at 2. simpl. lia.
  - case_decide; [by destruct (median l)|lia].
Qed.

(** The size after a sequence of calls is the number of calls of [add]
    minus the number of successful calls of [delete]. *)
Lemma run_length os l :
  Z.of_nat (length (run os l).2) =
  Z.of_nat (length l) + adds os - deleted (run os l).1.
Proof.
  revert l. induction os as [|o os IH]; intros l; simpl.
  { unfold adds, deleted. simpl. lia. }
  pose proof (step_length o l) as Hstep. destruct (step o l) as [r l'].
  specialize (IH l'). destruct (run os l') as [rs l'']. simpl in *.
  rewrite adds_cons, deleted_cons, IH, Hstep. lia.
Qed.

End accounting.
