(* ===== verification/Bisect.v ===== *)
(** * Binary search in sorted lists: the contract and CPython's [bisect]

    [IntegerContainerImpl] keeps its distinct keys in a sorted Python
    list, inserts with [bisect.insort] and finds the position of a key
    with [bisect.bisect_left].  This file states what it relies on
    ([BisectOps], [BisectLaws]) and proves that the algorithm of
    CPython's [Lib/bisect.py] (module [bisect] below) provides it.

    The two loops halve the interval [lo, hi): they are fixpoints on a
    fuel of the length of the list plus one, which the interval's
    length never exceeds.  [a[mid]] raises [IndexError] out of range;
    the laws show that neither [IndexError] nor [OutOfFuel] is the
    outcome. *)

From stdpp Require Import list sorting.
From S2P Require Import Prelude.

Local Open Scope Z_scope.

(** ** The contract *)

(** The operations [IntegerContainerImpl] calls.  [insort] returns the
    list after the insertion in place. *)
Class BisectOps := {
  bisect_left : list Z → Z → outcome nat;
  insort : list Z → Z → outcome (list Z)
}.

(** [k] splits [a] into the entries that satisfy [P] and those that do
    not. *)
Record split_at (P : Z → Prop) (a : list Z) (k : nat) : Prop := {
  split_le : (k ≤ length a)%nat;
  split_below : Forall P (take k a);
  split_above : Forall (λ y, ¬ P y) (drop k a)
}.

Class BisectLaws (ops : BisectOps) : Prop := {
  bisect_left_sorted a x :
    StronglySorted Z.le a →
    ∃ k, bisect_left a x = Return k ∧ split_at (λ y, y < x) a k;
  insort_sorted a x :
    StronglySorted Z.le a →
    ∃ a', insort a x = Return a' ∧ a' ≡ₚ x :: a ∧ StronglySorted Z.le a'
}.

(** ** CPython's algorithm *)

Module bisect.

(** The loop of [bisect_right]: the first position whose entry is above
    [x]. *)
Fixpoint bisect_right_loop (fuel : nat) (a : list Z) (x : Z) (lo hi : nat) :
    outcome nat :=
  match fuel with
  | O => Raise OutOfFuel
  | S fuel =>
    if decide (lo < hi)%nat then
      let mid := ((lo + hi) / 2)%nat in
      match a !! mid with
      | None => Raise IndexError
      | Some a_mid =>
        if decide (x < a_mid) then bisect_right_loop fuel a x lo mid
        else bisect_right_loop fuel a x (mid + 1) hi
      end
    else Return lo
  end.

(** [bisect_right(a, x)] with the default [lo = 0], [hi = len(a)]. *)
Definition bisect_right (a : list Z) (x : Z) : outcome nat :=
  bisect_right_loop (S (length a)) a x 0 (length a).

(** The loop of [bisect_left]: the first position whose entry is not
    below [x]. *)
Fixpoint bisect_left_loop (fuel : nat) (a : list Z) (x : Z) (lo hi : nat) :
    outcome nat :=
  match fuel with
  | O => Raise OutOfFuel
  | S fuel =>
    if decide (lo < hi)%nat then
      let mid := ((lo + hi) / 2)%nat in
      match a !! mid with
      | None => Raise IndexError
      | Some a_mid =>
        if decide (a_mid < x) then bisect_left_loop fuel a x (mid + 1) hi
        else bisect_left_loop fuel a x lo mid
      end
    else Return lo
  end.

Definition bisect_left (a : list Z) (x : Z) : outcome nat :=
  bisect_left_loop (S (length a)) a x 0 (length a).

(** [a.insert(i, x)] for [i <= len(a)]. *)
Definition list_insert (a : list Z) (i : nat) (x : Z) : list Z :=
  take i a ++ x :: drop i a.

(** [insort(a, x)], that is [insort_right]: insert [x] after the
    entries that are not above it. *)
Definition insort (a : list Z) (x : Z) : outcome (list Z) :=
  match bisect_right a x with
  | Return lo => Return (list_insert a lo x)
  | Raise e => Raise e
  end.

(** Both loops are the search for the boundary of a predicate that
    holds on a prefix of the list. *)
Fixpoint search (P : Z → Prop) `{!∀ y, Decision (P y)} (fuel : nat)
    (a : list Z) (lo hi : nat) : outcome nat :=
  match fuel with
  | O => Raise OutOfFuel
  | S fuel =>
    if decide (lo < hi)%nat then
      let mid := ((lo + hi) / 2)%nat in
      match a !! mid with
      | None => Raise IndexError
      | Some a_mid =>
        if decide (P a_mid) then search P fuel a (mid + 1) hi
        else search P fuel a lo mid
      end
    else Return lo
  end.

(** Invariant of the search: [P] holds below [lo] and fails from [hi]. *)
Record bracket (P : Z → Prop) (a : list Z) (lo hi : nat) : Prop := {
  bracket_le : (lo ≤ hi ≤ length a)%nat;
  bracket_below : ∀ i y, (i < lo)%nat → a !! i = Some y → P y;
  bracket_above : ∀ i y, (hi ≤ i)%nat → a !! i = Some y → ¬ P y
}.

Section search.
Context (P : Z → Prop) `{!∀ y, Decision (P y)}.
Context (P_down : ∀ y y', y' ≤ y → P y → P y').
Implicit Types (a : list Z) (lo hi mid k : nat).

Lemma mid_bounds lo hi : (lo < hi → lo ≤ (lo + hi) / 2 < hi)%nat.
Proof.
  intros Hlt. split.
  - apply Nat.div_le_lower_bound; lia.
  - apply Nat.Div0.div_lt_upper_bound; lia.
Qed.

Lemma bracket_right a lo hi mid y :
  StronglySorted Z.le a → bracket P a lo hi →
  a !! mid = Some y → P y → (mid < hi)%nat → bracket P a (mid + 1) hi.
Proof.
  intros Hs [Hle Hb Ha] Hmid Hy Hlt. split; [lia| |done].
  intros i z Hi Hz. destruct (decide (i = mid)) as [->|]; [by simplify_eq|].
  apply (P_down y); [|done].
  apply (StronglySorted_lookup Z.le a i mid z y Hs); [lia|done..].
Qed.

Lemma bracket_left a lo hi mid y :
  StronglySorted Z.le a → bracket P a lo hi →
  a !! mid = Some y → ¬ P y → (lo ≤ mid)%nat → bracket P a lo mid.
Proof.
  intros Hs [Hle Hb Ha] Hmid Hy Hlt.
  pose proof (lookup_lt_Some _ _ _ Hmid). split; [lia|done|].
  intros i z Hi Hz HP. destruct (decide (i = mid)) as [->|]; [by simplify_eq|].
  apply Hy, (P_down z); [|done].
  apply (StronglySorted_lookup Z.le a mid i y z Hs); [lia|done..].
Qed.

(** The search ends within its fuel, in range, at the boundary. *)
Lemma search_bracket fuel a lo hi :
  StronglySorted Z.le a → bracket P a lo hi → (hi - lo < fuel)%nat →
  ∃ k, search P fuel a lo hi = Return k ∧ bracket P a k k.
Proof.
  intros Hs. revert lo hi.
  induction fuel as [|fuel IH]; intros lo hi Hb Hfuel; [lia|]. cbn [search].
  pose proof (bracket_le _ _ _ _ Hb) as Hle. case_decide as Hlt.
  - pose proof (mid_bounds lo hi Hlt) as Hmid.
    destruct (lookup_lt_is_Some_2 a ((lo + hi) / 2)) as [y Hy]; [lia|].
    rewrite Hy. case_decide.
    + apply IH; [eapply bracket_right; [done..|lia]|lia].
    + apply IH; [eapply bracket_left; [done..|lia]|lia].
  - exists lo. split; [done|]. destruct Hb as [? Hbelow Habove].
    split; [lia|done|]. intros i y Hi. apply Habove. lia.
Qed.

Lemma bracket_split_at a k : bracket P a k k → split_at P a k.
Proof.
  intros [Hle Hb Ha]. split; [lia| |].
  - apply Forall_lookup. intros i y [Hy Hi]%lookup_take_Some. eauto.
  - apply Forall_lookup. intros i y Hy. rewrite lookup_drop in Hy.
    apply (Ha (k + i)%nat y); [lia|done].
Qed.

Lemma search_split_at a :
  StronglySorted Z.le a →
  ∃ k, search P (S (length a)) a 0 (length a) = Return k ∧ split_at P a k.
Proof.
  intros Hs. destruct (search_bracket (S (length a)) a 0 (length a) Hs)
    as (k & Hk & Hb); [|lia|by eauto using bracket_split_at].
  split; [lia|lia|]. intros i y Hi Hy%lookup_lt_Some. lia.
Qed.

End search.

Lemma bisect_left_loop_search fuel a x lo hi :
  bisect_left_loop fuel a x lo hi = search (λ y, y < x) fuel a lo hi.
Proof.
  revert lo hi. induction fuel as [|fuel IH]; intros lo hi; [done|].
  cbn [bisect_left_loop search].
  case_decide; [|done]. destruct (a !! _); [|done]. by rewrite !IH.
Qed.

Lemma bisect_right_loop_search fuel a x lo hi :
  bisect_right_loop fuel a x lo hi = search (λ y, y ≤ x) fuel a lo hi.
Proof.
  revert lo hi. induction fuel as [|fuel IH]; intros lo hi; [done|].
  cbn [bisect_right_loop search].
  case_decide; [|done]. destruct (a !! _); [|done].
  rewrite !IH. repeat case_decide; done || lia.
Qed.

Lemma bisect_left_sorted a x :
  StronglySorted Z.le a →
  ∃ k, bisect_left a x = Return k ∧ split_at (λ y, y < x) a k.
Proof.
  intros Hs. unfold bisect_left. rewrite bisect_left_loop_search.
  apply search_split_at; [|done]. intros; lia.
Qed.

Lemma bisect_right_sorted a x :
  StronglySorted Z.le a →
  ∃ k, bisect_right a x = Return k ∧ split_at (λ y, y ≤ x) a k.
Proof.
  intros Hs. unfold bisect_right. rewrite bisect_right_loop_search.
  apply search_split_at; [|done]. intros; lia.
Qed.

Lemma list_insert_Permutation a k x : list_insert a k x ≡ₚ x :: a.
Proof.
  unfold list_insert. rewrite <-Permutation_middle. by rewrite take_drop.
Qed.

(** Inserting at the boundary of [<= x] keeps the list sorted. *)
Lemma list_insert_sorted a k x :
  StronglySorted Z.le a → split_at (λ y, y ≤ x) a k →
  StronglySorted Z.le (list_insert a k x).
Proof.
  intros Hs [_ Hb Ha]. rewrite <-(take_drop k a) in Hs.
  apply StronglySorted_app in Hs as (Hlr & Hl & Hr).
  apply StronglySorted_app. split_and!; [|done|].
  - intros y z Hy [->|Hz]%elem_of_cons; [|by auto].
    by eapply Forall_forall in Hb.
  - constructor; [done|]. eapply Forall_impl; [exact Ha|]. intros; simpl in *; lia.
Qed.

Lemma insort_sorted a x :
  StronglySorted Z.le a →
  ∃ a', insort a x = Return a' ∧ a' ≡ₚ x :: a ∧ StronglySorted Z.le a'.
Proof.
  intros Hs. unfold insort.
  destruct (bisect_right_sorted a x Hs) as (k & -> & Hk).
  eauto using list_insert_Permutation, list_insert_sorted.
Qed.

End bisect.

#[export] Instance bisect_ops : BisectOps :=
  {| bisect_left := bisect.bisect_left; insort := bisect.insort |}.

#[export] Instance bisect_laws : BisectLaws bisect_ops.
Proof.
  split; [apply bisect.bisect_left_sorted|apply bisect.insort_sorted].
Qed.

(** ** Consequences of the contract *)

Section bisect_laws.
Context {ops : BisectOps} {laws : BisectLaws ops}.

(** In a sorted list that holds [x], [bisect_left] finds a position of
    [x]: the first one. *)
Lemma bisect_left_elem_of a x :
  StronglySorted Z.le a → x ∈ a →
  ∃ k, bisect_left a x = Return k ∧ a !! k = Some x.
Proof.
  intros Hs [j Hj]%list_elem_of_lookup.
  destruct (bisect_left_sorted a x Hs) as (k & Hk & [Hle Hb Ha]).
  exists k. split; [done|].
  assert (k ≤ j)%nat as Hkj.
  { destruct (decide (k ≤ j)%nat); [done|].
    cut (x < x); [lia|]. apply (proj1 (Forall_lookup _ _) Hb j x).
    apply lookup_take_Some. split; [done|lia]. }
  destruct (lookup_lt_is_Some_2 a k) as [y Hy].
  { apply lookup_lt_Some in Hj. lia. }
  rewrite Forall_lookup in Ha. specialize (Ha 0%nat y).
  rewrite lookup_drop, Nat.add_0_r in Ha. specialize (Ha Hy).
  destruct (decide (k = j)) as [->|]; [done|].
  pose proof (StronglySorted_lookup Z.le a k j y x Hs ltac:(lia) Hy Hj).
  rewrite Hy. f_equal. lia.
Qed.

End bisect_laws.
