(* ===== verification/IntegerContainer.v ===== *)
(** * The ordered-index container

    Model of [src/practice_assessments/progressive_filesystem]:

    - [integer_container.py], the interface [IntegerContainer] (module
      [IntegerContainer]): a class of Rocq with the three methods, typed
      as they are annotated, and the default methods as the instance
      [defaults];
    - [integer_container_impl.py], class [IntegerContainerImpl] (module
      [IntegerContainerImpl]): a [defaultdict(int)] of counts, the
      number of stored integers, and the sorted list of the distinct
      keys, maintained with [bisect.insort] and [bisect.bisect_left];
      the subclass is the instance [overrides] of the interface.

    The object is a record with the attributes of the class; a method
    is a computation in the monad of [Prelude.v], one line per
    statement.  Reading [self._counts[k]] stores the default for a
    missing key, as a [defaultdict] does ([counts_getitem]).  The [for]
    loop of [get_median] is a fixpoint on the list of keys.  The calls
    of [bisect] go through the class [BisectOps]; the proofs use
    [BisectLaws] only. *)

From stdpp Require Import gmap list sorting.
From S2P Require Import Prelude Counter OrderStat Bisect.

Local Open Scope Z_scope.
Local Open Scope py_scope.

(** ** The interface and its default methods *)

Module IntegerContainer.

(** [class IntegerContainer(ABC)]: an object with attributes [S] that has
    the three methods.  The annotations are the types: [add] returns an
    [int], [delete] a [bool] and [get_median] an [int] or [None].  A
    call [self.container.add(1)] of the tests is a call of the field of
    the instance of the object's class. *)
Class IntegerContainer (S : Type) : Type := {
  add : Z → M S Z;
  delete : Z → M S bool;
  get_median : M S (option Z)
}.

(** The default methods, which a subclass inherits where it overrides
    nothing: they return a constant and touch no attribute. *)
Definition defaults {S : Type} : IntegerContainer S := {|
  add value := ret 0;
  delete value := ret false;
  get_median := ret None
|}.

End IntegerContainer.

(** ** The implementation *)

Module IntegerContainerImpl.

(** The attributes set by [__init__]. *)
Record IntegerContainerImpl : Type := mkIntegerContainerImpl {
  _counts : gmap Z Z;
  _size : Z;
  _keys : list Z
}.

(** Assignment to one attribute. *)
Definition set_counts (f : gmap Z Z → gmap Z Z) (s : IntegerContainerImpl) :
    IntegerContainerImpl :=
  mkIntegerContainerImpl (f (_counts s)) (_size s) (_keys s).
Definition set_size (f : Z → Z) (s : IntegerContainerImpl) :
    IntegerContainerImpl :=
  mkIntegerContainerImpl (_counts s) (f (_size s)) (_keys s).
Definition set_keys (f : list Z → list Z) (s : IntegerContainerImpl) :
    IntegerContainerImpl :=
  mkIntegerContainerImpl (_counts s) (_size s) (f (_keys s)).

Arguments set_counts f !s /.
Arguments set_size f !s /.
Arguments set_keys f !s /.

(** [IntegerContainerImpl()]. *)
Definition __init__ : IntegerContainerImpl :=
  mkIntegerContainerImpl ∅ 0 [].

Section methods.
Context {ops : BisectOps}.

(** [self._counts[k]]: the read of a [defaultdict]. *)
Definition counts_getitem (k : Z) : M IntegerContainerImpl Z :=
  let* m := gets _counts in
  modify (set_counts (λ _, (dgetitem m k).2)) ;;
  ret (dgetitem m k).1.

(** [self._keys.pop(i)]: [IndexError] when [i] is not a position. *)
Definition keys_pop (i : nat) : M IntegerContainerImpl Z :=
  let* keys := gets _keys in
  match keys !! i with
  | Some k => modify (set_keys (λ ks, delete i ks)) ;; ret k
  | None => raise IndexError
  end.

Definition add (value : Z) : M IntegerContainerImpl Z :=
  let* c := counts_getitem value in
  (if decide (c = 0) then
     let* keys := gets _keys in
     let* keys' := lift_outcome (insort keys value) in
     modify (set_keys (λ _, keys'))
   else ret tt) ;;
  modify (set_counts (λ m, cincr m value)) ;;
  modify (set_size (λ n, n + 1)) ;;
  gets _size.

Definition delete (value : Z) : M IntegerContainerImpl bool :=
  let* c := gets (λ s, cget (_counts s) value) in
  if decide (c = 0) then ret false
  else
    modify (set_counts (λ m, cdecr m value)) ;;
    modify (set_size (λ n, n - 1)) ;;
    let* c' := counts_getitem value in
    (if decide (c' = 0) then
       modify (set_counts (λ m, base.delete value m)) ;;
       let* keys := gets _keys in
       let* i := lift_outcome (bisect_left keys value) in
       keys_pop i ;; ret tt
     else ret tt) ;;
    ret true.

(** The [for] loop of [get_median] over the remaining keys; falling off
    its end leads to the final [return None]. *)
Fixpoint get_median_loop (keys : list Z) (target running : Z) :
    M IntegerContainerImpl (option Z) :=
  match keys with
  | [] => ret None
  | val :: keys =>
    let* c := counts_getitem val in
    let running := running + c in
    if decide (running > target) then ret (Some val)
    else get_median_loop keys target running
  end.

Definition get_median : M IntegerContainerImpl (option Z) :=
  let* size := gets _size in
  if decide (size = 0) then ret None
  else
    let target := (size - 1) `div` 2 in
    let* keys := gets _keys in
    get_median_loop keys target 0.

(** [class IntegerContainerImpl(IntegerContainer)]: the subclass
    overrides the three methods of the interface. *)
#[export] Instance overrides :
    IntegerContainer.IntegerContainer IntegerContainerImpl := {|
  IntegerContainer.add := add;
  IntegerContainer.delete := delete;
  IntegerContainer.get_median := get_median
|}.

End methods.

(** ** The invariant *)

(** No key is stored with a count below 1; the list of keys is sorted,
    without duplicates, and holds the keys of the count map; [_size] is
    the number of stored integers. *)
Record Inv (s : IntegerContainerImpl) : Prop := {
  inv_counts_pos : positive (_counts s);
  inv_keys_sorted : StronglySorted Z.le (_keys s);
  inv_keys_NoDup : NoDup (_keys s);
  inv_keys_dom : dom (_counts s) = list_to_set (_keys s);
  inv_size : _size s = Z.of_nat (length (elements (_counts s)))
}.

(** The multiset of stored integers. *)
Definition contents (s : IntegerContainerImpl) : list Z :=
  elements (_counts s).

(** A container reached by [add(30); add(20); add(10); add(20);
    delete(30)] with CPython's [bisect]. *)
Definition sample : IntegerContainerImpl :=
  Eval vm_compute in
    snd ((add 30 ;; add 20 ;; add 10 ;; add 20 ;; delete 30) __init__).

Lemma Inv_alt s :
  Inv s ↔ positive (_counts s) ∧ StronglySorted Z.le (_keys s) ∧
    NoDup (_keys s) ∧ dom (_counts s) = list_to_set (_keys s) ∧
    _size s = Z.of_nat (length (elements (_counts s))).
Proof. split; [by intros []|by intros (?&?&?&?&?)]. Qed.

#[export] Instance Inv_dec s : Decision (Inv s).
Proof.
  refine (cast_if (decide (positive (_counts s) ∧
    StronglySorted Z.le (_keys s) ∧ NoDup (_keys s) ∧
    dom (_counts s) = list_to_set (_keys s) ∧
    _size s = Z.of_nat (length (elements (_counts s))))));
    abstract (by rewrite Inv_alt).
Defined.

(** Reduce the projections and assignments of a state. *)
Ltac state_simpl :=
  cbn [_counts _size _keys set_counts set_size set_keys] in *.

Ltac wp_run := repeat (wp_step; state_simpl).

(** * The methods *)

Section specs.
Context {ops : BisectOps} {laws : BisectLaws ops}.
Implicit Types (s : IntegerContainerImpl) (m : gmap Z Z) (ks : list Z).
Implicit Types (v k n : Z).

(** Reading the count of a stored key changes nothing. *)
Lemma counts_getitem_present m n ks k :
  is_Some (m !! k) →
  counts_getitem k (mkIntegerContainerImpl m n ks) =
    (Return (cget m k), mkIntegerContainerImpl m n ks).
Proof.
  intros Hk. unfold counts_getitem, bind, gets, modify, ret. simpl.
  by rewrite (dgetitem_present m k Hk).
Qed.

Lemma wp_counts_getitem_present m n ks k (Q : Z → _ → Prop) E :
  is_Some (m !! k) →
  Q (cget m k) (mkIntegerContainerImpl m n ks) →
  wp (counts_getitem k) Q E (mkIntegerContainerImpl m n ks).
Proof. intros Hk HQ. unfold wp. by rewrite counts_getitem_present. Qed.

Lemma Inv_keys s k : Inv s → k ∈ _keys s ↔ is_Some (_counts s !! k).
Proof.
  intros [_ _ _ Hdom _]. by rewrite <-elem_of_dom, Hdom, elem_of_list_to_set.
Qed.

Lemma Inv_cget s k : Inv s → cget (_counts s) k = 0 ↔ _counts s !! k = None.
Proof.
  intros [Hpos _ _ _ _]. unfold cget. destruct (_ !! k) as [n|] eqn:Hk; [|done].
  apply Hpos in Hk. simpl in *. split; [lia|done].
Qed.

(** ** [add] *)

(** The state after [add] of a key that is not stored, and of one that
    is: the invariant holds again. *)
Lemma Inv_add_new m n ks ks' v :
  Inv (mkIntegerContainerImpl m n ks) → m !! v = None →
  ks' ≡ₚ v :: ks → StronglySorted Z.le ks' →
  Inv (mkIntegerContainerImpl (cincr m v) (n + 1) ks').
Proof.
  intros HInv Hv Hperm Hs'. pose proof HInv as [Hpos Hs Hnd Hdom Hsize].
  simpl in *. split; simpl; [by apply positive_cincr|done| | |].
  - rewrite Hperm. constructor; [|done].
    rewrite (Inv_keys _ v HInv). simpl. rewrite Hv. apply is_Some_None.
  - unfold cincr. rewrite dom_insert_L, Hdom, (list_to_set_perm_L _ _ Hperm).
    by rewrite list_to_set_cons.
  - rewrite length_elements_cincr by by apply positive_cget. lia.
Qed.

Lemma Inv_add_old m n ks v :
  Inv (mkIntegerContainerImpl m n ks) → is_Some (m !! v) →
  Inv (mkIntegerContainerImpl (cincr m v) (n + 1) ks).
Proof.
  intros [Hpos Hs Hnd Hdom Hsize] Hv. simpl in *.
  split; simpl; [by apply positive_cincr|done|done| |].
  - unfold cincr. rewrite dom_insert_L, <-Hdom.
    apply elem_of_dom in Hv.
    rewrite subseteq_union_1_L; [done|by apply singleton_subseteq_l].
  - rewrite length_elements_cincr by by apply positive_cget. lia.
Qed.

Lemma impl_add_spec s v :
  Inv s →
  wp (add v)
    (λ r s', r = _size s + 1 ∧ Inv s' ∧ contents s' ≡ₚ v :: contents s)
    no_exn s.
Proof.
  destruct s as [m n ks]. intros HInv.
  pose proof (inv_counts_pos _ HInv) as Hpos.
  pose proof (inv_keys_sorted _ HInv) as Hs. simpl in *.
  assert (contents (mkIntegerContainerImpl (cincr m v) (n + 1) ks)
            ≡ₚ v :: elements m) as Hc.
  { apply elements_cincr. by apply positive_cget. }
  unfold add, counts_getitem. wp_run. rewrite dgetitem_fst.
  case_decide as Hv.
  - apply (Inv_cget _ v HInv) in Hv. simpl in Hv.
    destruct (insort_sorted ks v Hs) as (ks' & Hins & Hperm & Hs').
    wp_run. eapply wp_lift_outcome; [exact Hins|]. wp_run.
    rewrite cincr_dgetitem. eauto using Inv_add_new.
  - wp_run. rewrite cincr_dgetitem. split_and!; [done| |done].
    apply Inv_add_old; [done|]. rewrite (Inv_cget _ v HInv) in Hv.
    by apply not_eq_None_Some.
Qed.

(** ** [delete] *)

(** The state after [delete] of the last occurrence of a key, and of
    one of several: the invariant holds again. *)
Lemma Inv_delete_last m n ks v (i : nat) :
  Inv (mkIntegerContainerImpl m n ks) → cget m v = 1 → ks !! i = Some v →
  Inv (mkIntegerContainerImpl (cdecr_del m v) (n - 1) (base.delete i ks)).
Proof.
  intros [Hpos Hs Hnd Hdom Hsize] Hv Hi. simpl in *.
  pose proof (delete_Permutation ks i v Hi) as Hperm.
  assert (cdecr_del m v = base.delete v (cdecr m v)) as Hm.
  { by rewrite cdecr_del_cdecr, cget_cdecr, Hv. }
  split; simpl.
  - apply positive_cdecr_del; [done|lia].
  - eapply StronglySorted_sublist; [apply sublist_delete|done].
  - eapply sublist_NoDup; [done|apply sublist_delete].
  - rewrite Hperm in Hnd. apply NoDup_cons in Hnd as [Hv' _].
    rewrite Hm. unfold cdecr. rewrite dom_delete_L, dom_insert_L, Hdom.
    rewrite (list_to_set_perm_L _ _ Hperm), list_to_set_cons.
    apply (not_elem_of_list_to_set (C:=gset Z)) in Hv'.
    rewrite difference_union_distr_l_L, difference_diag_L, union_empty_l_L.
    rewrite !difference_union_distr_l_L, difference_diag_L, union_empty_l_L.
    by apply difference_disjoint_L, disjoint_singleton_r.
  - pose proof (length_elements_cdecr_del m v ltac:(lia)). lia.
Qed.

Lemma Inv_delete_more m n ks v :
  Inv (mkIntegerContainerImpl m n ks) → 1 < cget m v →
  Inv (mkIntegerContainerImpl (cdecr_del m v) (n - 1) ks).
Proof.
  intros [Hpos Hs Hnd Hdom Hsize] Hv. simpl in *.
  assert (cdecr_del m v = cdecr m v) as Hm.
  { rewrite cdecr_del_cdecr, cget_cdecr. case_decide; [lia|done]. }
  split; simpl; [|done|done| |].
  - apply positive_cdecr_del; [done|lia].
  - rewrite Hm. unfold cdecr. rewrite dom_insert_L, <-Hdom.
    rewrite subseteq_union_1_L; [done|].
    apply singleton_subseteq_l, elem_of_dom. unfold cget in Hv.
    destruct (m !! v); [done|simpl in *; lia].
  - pose proof (length_elements_cdecr_del m v ltac:(lia)). lia.
Qed.

Lemma impl_delete_absent s v :
  cget (_counts s) v = 0 → delete v s = (Return false, s).
Proof.
  intros Hv. unfold delete, bind, gets. rewrite Hv.
  by rewrite decide_True.
Qed.

Lemma impl_delete_present s v :
  Inv s → 0 < cget (_counts s) v →
  wp (delete v)
    (λ b s', b = true ∧ Inv s' ∧ v :: contents s' ≡ₚ contents s) no_exn s.
Proof.
  destruct s as [m n ks]. intros HInv Hv. simpl in *.
  pose proof (elements_cdecr_del m v Hv) as Hc.
  unfold delete. wp_run. rewrite decide_False by lia. wp_run.
  wp_focus. apply wp_counts_getitem_present.
  { unfold cdecr. by rewrite lookup_insert_eq. }
  rewrite cget_cdecr. wp_focus. case_decide as Hv1.
  - assert (v ∈ ks) as Hin.
    { apply (Inv_keys _ v HInv). simpl. unfold cget in Hv.
      destruct (m !! v); [done|simpl in *; lia]. }
    destruct (bisect_left_elem_of ks v (inv_keys_sorted _ HInv) Hin)
      as (i & Hbis & Hi).
    wp_run. eapply wp_lift_outcome; [exact Hbis|]. unfold keys_pop. wp_run.
    rewrite Hi. wp_run. split_and!; [done| |].
    + replace (base.delete v (cdecr m v)) with (cdecr_del m v).
      * apply Inv_delete_last; [done|lia|done].
      * by rewrite cdecr_del_cdecr, cget_cdecr, decide_True.
    + unfold contents. simpl. rewrite <-Hc. do 2 f_equiv.
      by rewrite cdecr_del_cdecr, cget_cdecr, decide_True.
  - assert (cdecr m v = cdecr_del m v) as ->.
    { by rewrite cdecr_del_cdecr, cget_cdecr, decide_False. }
    wp_run. split_and!; [done| |done]. apply Inv_delete_more; [done|lia].
Qed.

(** ** [get_median] *)

(** The walk over stored keys, started with [running] values behind it,
    returns the value at position [target - running] of the values of
    the remaining keys, and changes nothing. *)
Lemma get_median_loop_spec m n ks0 ks target running :
  positive m → (∀ k, k ∈ ks → is_Some (m !! k)) → 0 ≤ running ≤ target →
  get_median_loop ks target running (mkIntegerContainerImpl m n ks0) =
    (Return (expand m ks !! Z.to_nat (target - running)),
     mkIntegerContainerImpl m n ks0).
Proof.
  intros Hpos. revert running.
  induction ks as [|k ks IH]; intros running Hks Hrun; [done|].
  destruct (Hks k ltac:(by left)) as [c Hk].
  pose proof (positive_lookup m k c Hpos Hk) as [Hc Hc0].
  cbn [get_median_loop]. unfold bind.
  rewrite counts_getitem_present, Hc, expand_cons, Hc by done.
  case_decide.
  - rewrite lookup_app_l by (rewrite length_replicate; lia).
    unfold ret. do 2 f_equal. symmetry. apply lookup_replicate_2. lia.
  - rewrite IH; [|by intros; apply Hks; right|lia].
    rewrite lookup_app_r, length_replicate by (rewrite length_replicate; lia).
    do 3 f_equal. lia.
Qed.

Lemma impl_get_median_spec s :
  Inv s → get_median s = (Return (median_ref (contents s)), s).
Proof.
  destruct s as [m n ks]. intros HInv.
  pose proof HInv as [Hpos Hs Hnd Hdom Hsize]. simpl in *.
  unfold get_median, bind, gets, contents. simpl. case_decide as Hn.
  - assert (elements m = []) as ->; [|done]. apply length_zero_iff_nil. lia.
  - rewrite get_median_loop_spec; [|done| |].
    + do 2 f_equal. unfold median_ref.
      rewrite (sorted_ref_unique (elements m) (expand m ks)).
      * f_equal. rewrite Z.sub_0_r, Hsize. apply median_index_Z. lia.
      * by apply expand_sorted.
      * apply expand_elements; [done|]. intros k. apply (Inv_keys _ k HInv).
    + intros k. apply (Inv_keys _ k HInv).
    + split; [done|]. apply Z.div_pos; lia.
Qed.

Lemma impl_Inv_initial : Inv __init__.
Proof.
  split; simpl; [apply positive_empty|constructor|constructor| |].
  - by rewrite dom_empty_L.
  - by rewrite elements_empty.
Qed.

Lemma impl_not_elem_of_contents s v :
  Inv s → v ∉ contents s → cget (_counts s) v = 0.
Proof.
  intros [Hpos _ _ _ _] Hv. unfold contents in Hv.
  rewrite elem_of_elements in Hv. pose proof (positive_cget _ v Hpos). lia.
Qed.

(** A container without stored integers is in the state of a new one:
    the last deletion of a key has removed it from [_counts] and from
    [_keys]. *)
Lemma impl_Inv_drained s : Inv s → contents s = [] → s = __init__.
Proof.
  intros [Hpos _ _ Hdom Hsize] Hnil. unfold contents in Hnil.
  rewrite Hnil in Hsize. apply positive_elements_nil in Hnil; [|done].
  destruct s as [m n ks]. simpl in *. subst m.
  rewrite dom_empty_L in Hdom. unfold __init__. f_equal; [done|].
  destruct ks as [|k ks]; [done|].
  assert (k ∈ (∅ : gset Z)) as []%not_elem_of_empty.
  rewrite Hdom. apply elem_of_list_to_set. by left.
Qed.

(** * The contract of the class *)

(** C13: [add(value)] on a container that satisfies the invariant
    returns the number of stored integers after the addition, without
    raising; the invariant holds again ([_keys] sorted and distinct,
    [_size] the number of stored integers) and the stored integers are
    those before plus one occurrence of [value]. *)
Theorem impl_add_correct s v :
  Inv s →
  ∃ s', add v s = (Return (Z.of_nat (length (contents s)) + 1), s') ∧
        Inv s' ∧ contents s' ≡ₚ v :: contents s.
Proof.
  intros HInv.
  destruct (wp_returns _ _ _ (impl_add_spec s v HInv))
    as (r & s' & Hrun & -> & Hpost).
  exists s'. unfold contents in *. by rewrite <-(inv_size s HInv).
Qed.

(** C14: [delete(value)] of a stored integer returns [True] without
    raising, keeps the invariant and removes one occurrence of
    [value]; when it was the last one, [bisect_left] finds its position
    in [_keys] and [pop] removes it. *)
Theorem impl_delete_present_correct s v :
  Inv s → v ∈ contents s →
  ∃ s', delete v s = (Return true, s') ∧ Inv s' ∧
        v :: contents s' ≡ₚ contents s.
Proof.
  intros HInv Hv%elem_of_elements.
  destruct (wp_returns _ _ _ (impl_delete_present s v HInv Hv))
    as (b & s' & Hrun & -> & Hpost).
  by exists s'.
Qed.

(** [delete(value)] of an integer that is not stored returns
    [False] and changes no attribute. *)
Theorem impl_delete_absent_unchanged s v :
  Inv s → v ∉ contents s → delete v s = (Return false, s).
Proof.
  intros HInv Hv. by apply impl_delete_absent, impl_not_elem_of_contents.
Qed.

(** C12: [get_median] returns the value at sorted position
    [(N - 1) / 2] of the stored integers, [None] when there is none,
    and changes no attribute: the reads of [self._counts[val]] in the
    loop find every key of [_keys] stored. *)
Theorem impl_get_median_correct s :
  Inv s → get_median s = (Return (median_ref (contents s)), s).
Proof. intros HInv. by apply impl_get_median_spec. Qed.

End specs.

(** A new container satisfies the invariant and stores nothing. *)
Theorem impl_init_Inv : Inv __init__ ∧ contents __init__ = [].
Proof. split; [apply impl_Inv_initial|]. unfold contents. apply elements_empty. Qed.

(** ** The theorems at work on CPython's [bisect] *)

Lemma impl_add_correct_witness :
  ∃ s', add 15 sample = (Return (Z.of_nat (length (contents sample)) + 1), s') ∧
        Inv s' ∧ contents s' ≡ₚ 15 :: contents sample.
Proof. apply (impl_add_correct (laws:=bisect_laws)). compute_done. Defined.

Lemma impl_delete_present_correct_witness :
  ∃ s', delete 10 sample = (Return true, s') ∧ Inv s' ∧
        10 :: contents s' ≡ₚ contents sample.
Proof.
  apply (impl_delete_present_correct (laws:=bisect_laws)); compute_done.
Defined.

Lemma impl_delete_absent_unchanged_witness :
  delete (ops:=bisect_ops) 30 sample = (Return false, sample).
Proof.
  apply (impl_delete_absent_unchanged (ops:=bisect_ops)); compute_done.
Defined.

Lemma impl_get_median_correct_witness :
  get_median sample = (Return (median_ref (contents sample)), sample).
Proof. apply impl_get_median_correct. compute_done. Defined.

End IntegerContainerImpl.
