(* ===== verification/Refinement.v ===== *)
(** * The containers implement the reference

    Both containers are implementations in the sense of [Reference.v]
    and meet the contract of its class [Contract]; so each refines the
    sorted-list reference, and they agree with each other:

    - [IntegerContainerImpl] on CPython's [bisect] gives exactly the
      replies of the reference;
    - [Container] on CPython's [heapq] gives them with [None] for the
      size that the reference returns from [add], and
      [RuntimeError] for the median of no values;
    - the default methods of the interface [IntegerContainer] do
      not.

    A class of the interface is driven through [interface_impl], which
    calls the fields of its instance.  The theorems about [Container]
    that need more than the contract (the entries of the heaps, the
    state of an emptied container, the replies allowed by the
    annotations) are proved on the runs directly. *)

From stdpp Require Import gmap list sorting strings.
From S2P Require Import Prelude Counter OrderStat Heap Heapq Container.
From S2P Require Import Reference Bisect IntegerContainer.

Local Open Scope Z_scope.
Local Open Scope py_scope.

(** ** [Container] as an implementation *)

Section container.
Import Container.
Context {ops : HeapOps}.

(** A call of a method of [Container] and the Python value it returns. *)
Definition container_call (o : op) : M Container value :=
  match o with
  | Add v => add v ;; ret VNone
  | Delete v => let* b := delete v in ret (VBool b)
  | GetMedian => let* m := get_median in ret (VInt m)
  end.

(** What [Container] documents where it departs from the reference:
    [add] returns [None], and [get_median] raises on an empty
    container. *)
Definition container_expect (o : op) (r : reply) : reply :=
  match o, r with
  | Add _, _ => Return VNone
  | GetMedian, Return VNone => Raise (RuntimeError "Container is empty")
  | _, _ => r
  end.

Definition container_impl : implementation := {|
  impl_state := Container;
  impl_init := __init__;
  impl_call := container_call;
  impl_expect := container_expect
|}.

Context {laws : HeapLaws ops}.
Implicit Types (c : Container) (l : list Z) (v : Z).

Lemma container_get_median c :
  Inv c ∧ tidy c →
  ∃ c', container_call GetMedian c =
          (container_expect GetMedian
             (Return (Reference.of_median (median_ref (contents c)))), c') ∧
        (Inv c' ∧ tidy c') ∧ contents c' = contents c.
Proof.
  intros [HInv Htidy]. simpl. unfold bind.
  destruct (decide (contents c = [])) as [Hnil|Hne].
  - exists c. rewrite Hnil, median_ref_nil.
    by rewrite (get_median_empty c (contents_nil_size c HInv Hnil)).
  - destruct (wp_returns _ _ _ (get_median_spec c HInv Hne))
      as (m & c' & -> & -> & ? & ? & Hc & _).
    exists c'. split; [done|]. split; [done|]. unfold contents. by rewrite Hc.
Qed.

#[export] Instance container_contract : Contract container_impl.
Proof.
  refine (Build_Contract container_impl (λ c, Inv c ∧ tidy c) contents
            _ _ _ _ _).
  - split; [split; [apply Inv_initial|done]|]. unfold contents.
    apply elements_empty.
  - intros c v [HInv _].
    destruct (wp_returns _ _ _ (add_spec c v HInv))
      as ([] & c' & Hrun & ? & ? & ? & _).
    exists c'. simpl. unfold bind. by rewrite Hrun.
  - intros c v [HInv _] Hv%elem_of_elements.
    destruct (wp_returns _ _ _ (delete_present c v HInv Hv))
      as (b & c' & Hrun & -> & ? & ? & ? & _).
    exists c'. simpl. unfold bind. by rewrite Hrun.
  - intros c v [HInv _] Hv. simpl. unfold bind.
    by rewrite (delete_absent c v (not_elem_of_contents c v HInv Hv)).
  - apply container_get_median.
Defined.

(** One call leaves the invariant and the live tops, and only a call of
    [add] adds an entry to the heaps, one at most. *)
Lemma container_call_size o c :
  Inv c → tidy c →
  ∃ r c', container_call o c = (r, c') ∧ Inv c' ∧ tidy c' ∧
    Z.of_nat (heap_size c') ≤
      Z.of_nat (heap_size c) + (if is_add o then 1 else 0).
Proof.
  intros HInv Htidy. destruct o as [v|v|]; simpl; unfold bind.
  - destruct (wp_returns _ _ _ (add_spec c v HInv))
      as ([] & c' & -> & ? & ? & _ & ?).
    eexists _, c'. split_and!; [done..|lia].
  - destruct (decide (0 < cget (_count c) v)) as [Hv|Hv].
    + destruct (wp_returns _ _ _ (delete_present c v HInv Hv))
        as (b & c' & -> & _ & ? & ? & _ & ?).
      eexists _, c'. split_and!; [done..|lia].
    + rewrite <-elem_of_elements in Hv.
      rewrite (delete_absent c v (not_elem_of_contents c v HInv Hv)).
      eexists _, c. split_and!; [done..|lia].
  - destruct (decide (contents c = [])) as [Hnil|Hne].
    + rewrite (get_median_empty c (contents_nil_size c HInv Hnil)).
      eexists _, c. split_and!; [done..|lia].
    + destruct (wp_returns _ _ _ (get_median_spec c HInv Hne))
        as (m & c' & -> & _ & ? & ? & _ & ?).
      eexists _, c'. split_and!; [done..|lia].
Qed.

(** A sequence of calls adds to the heaps as many entries as it has
    calls of [add], at most. *)
Lemma container_run_size os c :
  Inv c → tidy c →
  Z.of_nat (heap_size (impl_run container_impl os c).2) ≤
    Z.of_nat (heap_size c) + adds os.
Proof.
  revert c. induction os as [|o os IH]; intros c HInv Htidy.
  { unfold adds. simpl. lia. }
  destruct (container_call_size o c HInv Htidy)
    as (r & c' & Hcall & HInv' & Htidy' & Hsize).
  specialize (IH c' HInv' Htidy'). rewrite adds_cons.
  simpl. rewrite Hcall. destruct (impl_run container_impl os c').
  simpl in *. lia.
Qed.

End container.

(** ** The classes of the interface as implementations *)

Section interface.
Context {S : Type} `{!IntegerContainer.IntegerContainer S}.

(** A call of a method of an object of the interface and the Python
    value it returns. *)
Definition integer_container_call (o : op) : M S value :=
  match o with
  | Add v => let* n := IntegerContainer.add v in ret (VInt n)
  | Delete v => let* b := IntegerContainer.delete v in ret (VBool b)
  | GetMedian =>
    let* m := IntegerContainer.get_median in ret (Reference.of_median m)
  end.

(** A class of the interface, with the object its constructor makes:
    the interface documents the replies of the reference. *)
Definition interface_impl (init : S) : implementation := {|
  impl_state := S;
  impl_init := init;
  impl_call := integer_container_call;
  impl_expect := λ _ r, r
|}.

End interface.

(** ** [IntegerContainerImpl] as an implementation *)

Section integer_container.
Import IntegerContainerImpl.
Context {ops : BisectOps}.

Definition integer_container_impl : implementation :=
  interface_impl __init__.

Context {laws : BisectLaws ops}.

#[export] Instance integer_container_contract : Contract integer_container_impl.
Proof.
  refine (Build_Contract integer_container_impl Inv contents _ _ _ _ _).
  - split; [apply impl_Inv_initial|]. unfold contents. apply elements_empty.
  - intros s v HInv.
    destruct (wp_returns _ _ _ (impl_add_spec s v HInv))
      as (r & s' & Hrun & -> & ?).
    exists s'. simpl. unfold bind. rewrite Hrun.
    unfold contents. by rewrite <-(inv_size s HInv).
  - intros s v HInv Hv%elem_of_elements.
    destruct (wp_returns _ _ _ (impl_delete_present s v HInv Hv))
      as (b & s' & Hrun & -> & ?).
    exists s'. simpl. unfold bind. by rewrite Hrun.
  - intros s v HInv Hv. simpl. unfold bind.
    by rewrite (impl_delete_absent s v (impl_not_elem_of_contents s v HInv Hv)).
  - intros s HInv. exists s. simpl. unfold bind.
    by rewrite (impl_get_median_spec s HInv).
Defined.

End integer_container.

(** ** The default methods of the interface *)

(** An object of a subclass that overrides nothing. *)
Definition default_impl : implementation :=
  interface_impl (H:=IntegerContainer.defaults) tt.

(** The replies [True] of [delete] are those of the reference. *)
Lemma deleted_container_expect os l :
  deleted (zip_with container_expect os (Reference.run os l).1) =
  deleted (Reference.run os l).1.
Proof.
  revert l. induction os as [|o os IH]; intros l; simpl; [done|].
  destruct (Reference.step o l) as [r l'] eqn:Hstep. specialize (IH l').
  destruct (Reference.run os l') as [rs l'']. simpl in *.
  rewrite !deleted_cons, IH. f_equal.
  destruct o as [v|v|]; simpl in *; [by simplify_eq|done|].
  simplify_eq. by destruct (Reference.median _).
Qed.

(** The replies of [Container] on CPython's [heapq]: the shared form of
    the refinement, for rewriting. *)
Lemma container_refines_run (os : list op) :
  (impl_run (container_impl (ops:=heapq_ops)) os Container.__init__).1 =
  zip_with container_expect os (Reference.run os []).1.
Proof. by destruct (refines_run (container_impl (ops:=heapq_ops)) os). Qed.

(** ** The program: [Container] on CPython's [heapq] *)

(** C1: replaying any sequence of calls of [add], [delete] and
    [get_median] on a new [Container] gives, call by call, the replies
    of the sorted-list reference: the same booleans from [delete] and
    the same medians from [get_median], with [None] where the reference
    returns the size from [add] and [RuntimeError("Container is empty")]
    where it has no median.  No call raises anything else, and no loop
    runs out of fuel. *)
Theorem container_refines_reference (os : list op) :
  (impl_run (container_impl (ops:=heapq_ops)) os Container.__init__).1 =
  zip_with container_expect os (Reference.run os []).1.
Proof.
  destruct (refines_run (container_impl (ops:=heapq_ops)) os) as [Hrs _].
  exact Hrs.
Qed.

(** C4: every state reached from a new [Container] by a sequence of
    calls satisfies the invariant of the class (I1 to I4), no stale
    entry is at the top of a heap, and its live values are those of the
    reference after the same calls. *)
Theorem container_reachable_Inv (os : list op) :
  let c := (impl_run (container_impl (ops:=heapq_ops)) os Container.__init__).2 in
  Container.Inv c ∧ Container.tidy c ∧
  Container.contents c ≡ₚ (Reference.run os []).2.
Proof.
  destruct (refines_run (container_impl (ops:=heapq_ops)) os)
    as [_ [[HInv Htidy] Hc]].
  done.
Qed.

(** C33: after any sequence of calls on a new [Container], the two size
    counters add up to the number of calls of [add] minus the number of
    calls of [delete] that returned [True]. *)
Theorem container_size_accounting (os : list op) :
  let '(rs, c) := impl_run (container_impl (ops:=heapq_ops)) os Container.__init__ in
  Container._n_low c + Container._n_high c = adds os - deleted rs.
Proof.
  destruct (refines_run (container_impl (ops:=heapq_ops)) os)
    as [Hrs [[[HInv _] _] Hc]].
  destruct (impl_run _ os _) as [rs c]. simpl in *.
  rewrite (Container.Inv0_size c HInv), Hrs, deleted_container_expect.
  unfold Container.contents in Hc. rewrite Hc, run_length. simpl. lia.
Qed.

(** C6: the lazy deletion of [Container] does not let the heaps grow
    without bound: after any sequence of calls on a new [Container] the
    two heaps together hold at least the live values and at most as
    many entries as there were calls of [add]. *)
Theorem container_heap_bounded (os : list op) :
  let c := (impl_run (container_impl (ops:=heapq_ops)) os Container.__init__).2 in
  Z.of_nat (length (Container.contents c)) ≤ Z.of_nat (Container.heap_size c) ∧
  Z.of_nat (Container.heap_size c) ≤ adds os.
Proof.
  destruct (refines_run (container_impl (ops:=heapq_ops)) os)
    as [_ [[[HInv _] _] _]].
  cbv zeta. split.
  - pose proof (Container.Inv0_size _ HInv).
    pose proof (Container.heap_size_live _ HInv). simpl in *. lia.
  - apply (container_run_size (ops:=heapq_ops) os Container.__init__);
      [apply Container.Inv_initial|done].
Qed.

(** C5: every pending deletion is carried out in the end: when the
    calls made on a new [Container] have deleted every value they
    added, the container is again in the state of a new one, with
    empty heaps, no tally of deletions and no stored count. *)
Theorem container_drained_is_new (os : list op) :
  (Reference.run os []).2 = [] →
  (impl_run (container_impl (ops:=heapq_ops)) os Container.__init__).2 =
  Container.__init__.
Proof.
  intros Hnil.
  destruct (refines_run (container_impl (ops:=heapq_ops)) os)
    as [_ [[HInv Htidy] Hc]].
  apply Container.Inv_tidy_drained; [done..|].
  rewrite Hnil in Hc. by apply Permutation_nil_r in Hc.
Qed.

Lemma container_drained_is_new_witness :
  (impl_run (container_impl (ops:=heapq_ops))
     [Add 5; Add 3; Add 9; Delete 5; GetMedian; Delete 9; Delete 3]
     Container.__init__).2 = Container.__init__.
Proof. by apply container_drained_is_new. Defined.

(** On every state that a sequence of calls has reached, [get_median]
    is a query: it changes no attribute of the container, whether it
    returns the median or raises for a container without values. *)
Theorem container_get_median_read_only (os : list op) :
  let c := (impl_run (container_impl (ops:=heapq_ops)) os Container.__init__).2 in
  (Container.get_median (ops:=heapq_ops) c).2 = c.
Proof.
  destruct (refines_run (container_impl (ops:=heapq_ops)) os)
    as [_ [[HInv Htidy] _]].
  cbv zeta. simpl in HInv, Htidy.
  set (c := (impl_run (container_impl (ops:=heapq_ops)) os
               Container.__init__).2) in *.
  destruct (decide (Container.contents c = [])) as [Hnil|Hne].
  - by rewrite (Container.get_median_empty c
                  (Container.contents_nil_size c HInv Hnil)).
  - by destruct (Container.get_median_settled (ops:=heapq_ops) c
                   HInv Htidy Hne) as (top & rest & _ & ->).
Qed.

(** ** The annotations of [Container] *)

(** What the annotations and the docstrings of [Container] allow a call
    to reply: [add] returns [None], [delete] a [bool], and [get_median]
    an [int] or raises [RuntimeError]. *)
Definition annotated (o : op) (r : reply) : bool :=
  match o, r with
  | Add _, Return VNone => true
  | Delete _, Return (VBool _) => true
  | GetMedian, Return (VInt _) => true
  | GetMedian, Raise (RuntimeError _) => true
  | _, _ => false
  end.

Lemma annotated_container_expect os l :
  Forall2 (λ o r, annotated o r) os
    (zip_with container_expect os (Reference.run os l).1).
Proof.
  revert l. induction os as [|o os IH]; intros l; simpl; [constructor|].
  destruct (Reference.step o l) as [r l'] eqn:Hstep. specialize (IH l').
  destruct (Reference.run os l') as [rs l'']. simpl in *.
  constructor; [|done]. destruct o as [v|v|]; simpl in *; [done| |].
  - by case_decide; simplify_eq.
  - simplify_eq. by destruct (Reference.median _).
Qed.

(** Every reply of [Container] is one that its annotations allow: no
    call raises [IndexError] from a read of [self._low[0]] or from a pop
    of an empty heap, and none returns a value of another type. *)
Theorem container_replies_annotated (os : list op) :
  Forall2 (λ o r, annotated o r) os
    (impl_run (container_impl (ops:=heapq_ops)) os Container.__init__).1.
Proof.
  rewrite container_refines_run. apply annotated_container_expect.
Qed.

(** ** The program: [IntegerContainerImpl] on CPython's [bisect] *)

(** C2: replaying any sequence of calls on a new
    [IntegerContainerImpl] gives exactly the replies of the sorted-list
    reference: the size from [add], the boolean from [delete], the
    median or [None] from [get_median].  No call raises, and no loop of
    [bisect] runs out of fuel. *)
Theorem integer_container_refines_reference (os : list op) :
  (impl_run (integer_container_impl (ops:=bisect_ops)) os
     IntegerContainerImpl.__init__).1 =
  (Reference.run os []).1.
Proof.
  destruct (refines_run (integer_container_impl (ops:=bisect_ops)) os)
    as [Hrs _].
  etrans; [exact Hrs|]. apply zip_with_run_id.
Qed.

(** An [IntegerContainerImpl] whose integers have all been deleted is
    in the state of a new one. *)
Theorem integer_container_drained_is_new (os : list op) :
  (Reference.run os []).2 = [] →
  (impl_run (integer_container_impl (ops:=bisect_ops)) os
     IntegerContainerImpl.__init__).2 = IntegerContainerImpl.__init__.
Proof.
  intros Hnil.
  destruct (refines_run (integer_container_impl (ops:=bisect_ops)) os)
    as [_ [HInv Hc]].
  apply IntegerContainerImpl.impl_Inv_drained; [done|].
  rewrite Hnil in Hc. by apply Permutation_nil_r in Hc.
Qed.

(** C3: the two containers agree: on every sequence of calls,
    [Container] replies what [IntegerContainerImpl] replies, but for
    [None] from [add] and the exception for the median of no values. *)
Theorem implementations_agree (os : list op) :
  (impl_run (container_impl (ops:=heapq_ops)) os Container.__init__).1 =
  zip_with container_expect os
    (impl_run (integer_container_impl (ops:=bisect_ops)) os
       IntegerContainerImpl.__init__).1.
Proof.
  destruct (refines_run (integer_container_impl (ops:=bisect_ops)) os)
    as [Hi _].
  destruct (refines_run (container_impl (ops:=heapq_ops)) os) as [Hc _].
  etrans; [exact Hc|]. f_equal. symmetry.
  etrans; [exact Hi|]. apply zip_with_run_id.
Qed.

(** The default methods of the interface do not implement the
    reference: the first call of [add] returns 0 where the reference
    returns 1. *)
Theorem default_methods_differ :
  (impl_run default_impl [Add 1] tt).1 = [Return (VInt 0)] ∧
  (Reference.run [Add 1] []).1 = [Return (VInt 1)].
Proof. split; reflexivity. Qed.
