(* ===== verification/Tests.v ===== *)
(** * The level 2 unit tests

    Model of
    [src/practice_assessments/progressive_filesystem/tests/level_2_tests.py],
    the class [Level2Tests] of [unittest.TestCase]:

    - a line [self.assertEqual(self.container.add(1), 1)] of a test is
      a pair of the call and the assertion on what it returns
      ([assert_call]); the four assertions the tests use are the
      constructors of [assertion], and [holds] is what each checks, with
      Python's [==] between a returned object and a number and Python's
      truth value of an object;
    - a failed assertion raises [failureException], which the class
      sets to [Exception], and ends the test; so does an exception of
      the call ([test_body]);
    - [setUp] gives every test a new container; a test passes when its
      body returns ([passes]).

    The tests pass on every implementation that refines the reference
    and on [IntegerContainerImpl] in particular; they fail on the
    default methods of the interface and on [Container], and they pass
    on a class whose [delete] returns [1] and [0] for the two
    booleans.  The [timeout] decorator
    bounds the running time of a test, which the model does not
    measure. *)

From stdpp Require Import gmap list sorting strings.
From S2P Require Import Prelude OrderStat Reference Bisect IntegerContainer.
From S2P Require Import Heap Heapq Container Refinement.

Local Open Scope Z_scope.
Local Open Scope py_scope.

(** ** The assertions of [unittest.TestCase] *)

(** The assertions that the tests use, each with its arguments other
    than the returned object: [assertEqual(first, second)] with a
    number for [second], [assertTrue(expr)], [assertFalse(expr)] and
    [assertIsNone(obj)]. *)
Inductive assertion : Type :=
| assertEqual (second : Z)
| assertTrue
| assertFalse
| assertIsNone.

#[export] Instance assertion_eq_dec : EqDecision assertion.
Proof. solve_decision. Defined.

(** [bool(x)], the truth value of an object: [None] and [0] are
    false. *)
Definition truth (x : value) : bool :=
  match x with
  | VNone => false
  | VInt n => bool_decide (n ≠ 0)
  | VBool b => b
  end.

(** [first == second] for a number [second]: [bool] is a subclass of
    [int] with [True == 1] and [False == 0], and [None] equals no
    number. *)
Definition eq_int (first : value) (second : Z) : bool :=
  match first with
  | VNone => false
  | VInt n => bool_decide (n = second)
  | VBool b => bool_decide ((if b then 1 else 0) = second)
  end.

(** What an assertion checks of the object [x]. *)
Definition holds (a : assertion) (x : value) : bool :=
  match a with
  | assertEqual second => eq_int x second
  | assertTrue => truth x
  | assertFalse => negb (truth x)
  | assertIsNone => bool_decide (x = VNone)
  end.

(** [failureException = Exception]: what a failed assertion raises. *)
Definition failureException : exn := Exception.

(** ** The tests *)

(** The body of a test: its lines in order, each a call on the
    container with the assertion on what it returns. *)
Definition test_case : Type := list (op * assertion).

(** [setUp]: the container of a test is a new object of the class. *)
Definition setUp (I : implementation) : impl_state I := impl_init I.

Section test.
Context (I : implementation).

(** One line of a test.  The call is evaluated first, and an exception
    it raises leaves the test; then the assertion returns or raises. *)
Definition assert_call (o : op) (a : assertion) : M (impl_state I) unit :=
  let* x := impl_call I o in
  if holds a x then ret tt else raise failureException.

Fixpoint test_body (t : test_case) : M (impl_state I) unit :=
  match t with
  | [] => ret tt
  | (o, a) :: t => assert_call o a ;; test_body t
  end.

(** The outcome of a test: [setUp], then the body. *)
Definition run_test (t : test_case) : outcome unit :=
  (test_body t (setUp I)).1.

(** The runner reports success when the body has returned. *)
Definition passes (t : test_case) : bool :=
  bool_decide (run_test t = Return tt).

End test.

(** [from integer_container_impl import IntegerContainerImpl]: the class
    that [setUp] of the source instantiates, on CPython's [bisect]. *)
Definition container : implementation :=
  integer_container_impl (ops:=bisect_ops).

Definition test_level_2_case_01_simple_median_odd_length : test_case :=
  [(Add 1, assertEqual 1); (Add 2, assertEqual 2); (Add 5, assertEqual 3);
   (Add 7, assertEqual 4); (Add 9, assertEqual 5); (GetMedian, assertEqual 5);
   (Add 11, assertEqual 6); (Add 15, assertEqual 7); (GetMedian, assertEqual 7)].

Definition test_level_2_case_02_simple_median_even_length : test_case :=
  [(Add 10, assertEqual 1); (Add 20, assertEqual 2); (GetMedian, assertEqual 10);
   (Add 30, assertEqual 3); (Add 40, assertEqual 4); (GetMedian, assertEqual 20);
   (GetMedian, assertEqual 20); (Add 50, assertEqual 5); (Add 60, assertEqual 6);
   (Add 70, assertEqual 7); (Add 80, assertEqual 8); (GetMedian, assertEqual 40)].

Definition test_level_2_case_03_median_of_empty_container : test_case :=
  [(GetMedian, assertIsNone); (Add 1, assertEqual 1); (GetMedian, assertEqual 1)].

Definition test_level_2_case_04_median_of_non_sorted_container : test_case :=
  [(Add 3, assertEqual 1); (Add 2, assertEqual 2); (Add 5, assertEqual 3);
   (Add 4, assertEqual 4); (Add 1, assertEqual 5); (GetMedian, assertEqual 3);
   (Add 8, assertEqual 6); (Add 6, assertEqual 7); (Add 7, assertEqual 8);
   (GetMedian, assertEqual 4)].

Definition test_level_2_case_05_median_of_container_with_duplicates : test_case :=
  [(Add 5, assertEqual 1); (Add 3, assertEqual 2); (Add 5, assertEqual 3);
   (Add 5, assertEqual 4); (Add 10, assertEqual 5); (Add 3, assertEqual 6);
   (GetMedian, assertEqual 5); (Add 3, assertEqual 7); (Add 3, assertEqual 8);
   (Add 3, assertEqual 9); (GetMedian, assertEqual 3)].

Definition test_level_2_case_06_median_with_deletions : test_case :=
  [(Add 30, assertEqual 1); (Add 20, assertEqual 2); (Add 10, assertEqual 3);
   (GetMedian, assertEqual 20); (Delete 30, assertTrue); (GetMedian, assertEqual 10);
   (Delete 10, assertTrue); (GetMedian, assertEqual 20); (Delete 20, assertTrue);
   (GetMedian, assertIsNone)].

Definition test_level_2_case_07_double_median_and_deletions : test_case :=
  [(GetMedian, assertIsNone); (GetMedian, assertIsNone); (Delete 239, assertFalse);
   (GetMedian, assertIsNone); (GetMedian, assertIsNone); (Add 239, assertEqual 1);
   (GetMedian, assertEqual 239); (GetMedian, assertEqual 239); (Delete 239, assertTrue);
   (Delete 239, assertFalse); (GetMedian, assertIsNone); (GetMedian, assertIsNone)].

Definition test_level_2_case_08_median_of_container_with_negative_integers : test_case :=
  [(Add (-20), assertEqual 1); (Add (-10), assertEqual 2); (Add 10, assertEqual 3);
   (Add 20, assertEqual 4); (Add 0, assertEqual 5); (GetMedian, assertEqual 0);
   (Add (-30), assertEqual 6); (GetMedian, assertEqual (-10)); (Add 30, assertEqual 7);
   (GetMedian, assertEqual 0); (Add 40, assertEqual 8); (Add 50, assertEqual 9);
   (GetMedian, assertEqual 10)].

Definition test_level_2_case_09_mixed_operations_1 : test_case :=
  [(GetMedian, assertIsNone); (Add 5, assertEqual 1); (Add 3, assertEqual 2);
   (Add 5, assertEqual 3); (Add 7, assertEqual 4); (Add 8, assertEqual 5);
   (Add 9, assertEqual 6); (GetMedian, assertEqual 5); (Delete 5, assertTrue);
   (Delete 8, assertTrue); (GetMedian, assertEqual 5); (Delete 5, assertTrue);
   (Delete 5, assertFalse); (GetMedian, assertEqual 7); (Add 5, assertEqual 4);
   (GetMedian, assertEqual 5); (Delete 5, assertTrue); (Delete 5, assertFalse);
   (Delete 7, assertTrue); (Delete 3, assertTrue); (GetMedian, assertEqual 9);
   (Delete 9, assertTrue); (GetMedian, assertIsNone); (Delete 9, assertFalse);
   (GetMedian, assertIsNone)].

Definition test_level_2_case_10_mixed_operations_2 : test_case :=
  [(GetMedian, assertIsNone); (Add 1, assertEqual 1); (Add 1, assertEqual 2);
   (Add 2, assertEqual 3); (Add 2, assertEqual 4); (Add 3, assertEqual 5);
   (Add 3, assertEqual 6); (Add 4, assertEqual 7); (Add 4, assertEqual 8);
   (Add 5, assertEqual 9); (Add 5, assertEqual 10); (GetMedian, assertEqual 3);
   (Delete 1, assertTrue); (Delete 1, assertTrue); (Delete 1, assertFalse);
   (GetMedian, assertEqual 3); (Delete 2, assertTrue); (Delete 2, assertTrue);
   (Delete 2, assertFalse); (GetMedian, assertEqual 4); (Delete 3, assertTrue);
   (Delete 4, assertTrue); (Delete 5, assertTrue); (GetMedian, assertEqual 4)].

(** The test class [Level2Tests]. *)
Definition Level2Tests : list test_case :=
  [test_level_2_case_01_simple_median_odd_length;
   test_level_2_case_02_simple_median_even_length;
   test_level_2_case_03_median_of_empty_container;
   test_level_2_case_04_median_of_non_sorted_container;
   test_level_2_case_05_median_of_container_with_duplicates;
   test_level_2_case_06_median_with_deletions;
   test_level_2_case_07_double_median_and_deletions;
   test_level_2_case_08_median_of_container_with_negative_integers;
   test_level_2_case_09_mixed_operations_1;
   test_level_2_case_10_mixed_operations_2].

(** An implementation whose methods return the [int] that a [bool]
    equals: [1] for [True] and [0] for [False]. *)
Definition as_int (x : value) : value :=
  match x with
  | VBool b => VInt (if b then 1 else 0)
  | _ => x
  end.

Definition returns_int (I : implementation) : implementation := {|
  impl_state := impl_state I;
  impl_init := impl_init I;
  impl_call o := let* x := impl_call I o in ret (as_int x);
  impl_expect := impl_expect I
|}.

(** ** What the tests accept *)

(** The tests check the replies of the reference: each of them passes
    on the reference itself. *)
Lemma Level2Tests_expect_reference :
  Forall (λ t, passes reference_impl t) Level2Tests.
Proof.
  unfold Level2Tests. repeat (apply Forall_cons_2; [by vm_compute|]).
  apply Forall_nil_2.
Qed.

(** From related states, the body of a test has the same outcome on an
    implementation that refines the reference, and documents no
    departure from it, as on the reference. *)
Lemma test_body_refines (I : implementation) `{!Refines I} t s l :
  (∀ o r, impl_expect I o r = r) → abs s l → StronglySorted Z.le l →
  (test_body I t s).1 = (test_body reference_impl t l).1.
Proof.
  intros Hid. revert s l.
  induction t as [|[o a] t IH]; intros s l Habs Hl; [done|].
  destruct (abs_step o s l Habs Hl) as (s' & Hcall & Habs').
  pose proof (step_sorted o l Hl) as Hl'.
  cbn [test_body]. unfold assert_call, bind. simpl. rewrite Hcall, Hid.
  destruct (Reference.step o l) as [[x|e] l']; simpl in *; [|done].
  destruct (holds a x); simpl; [|done]. by apply IH.
Qed.

(** C35: the ten test cases of [Level2Tests] pass on every
    implementation that refines the reference and expects its replies
    unchanged: no assertion fails and no call raises. *)
Theorem Level2Tests_pass_on_refinement (I : implementation) `{!Refines I} :
  (∀ o r, impl_expect I o r = r) → Forall (λ t, passes I t) Level2Tests.
Proof.
  intros Hid. eapply Forall_impl; [apply Level2Tests_expect_reference|].
  intros t Ht%bool_decide_unpack. apply bool_decide_pack.
  unfold run_test, setUp. rewrite <-Ht.
  apply (test_body_refines I); [done|apply abs_init|constructor].
Qed.

(** The ten test cases pass on [IntegerContainerImpl] with CPython's
    [bisect], by running them. *)
Theorem Level2Tests_pass : Forall (λ t, passes container t) Level2Tests.
Proof.
  unfold Level2Tests. repeat (apply Forall_cons_2; [by vm_compute|]).
  apply Forall_nil_2.
Qed.

(** The tests tell an implementation from the default methods of
    the interface: on an object that overrides nothing every test ends
    with [failureException], raised by an [assertEqual] on what [add]
    returns. *)
Theorem Level2Tests_reject_defaults :
  Forall (λ t, run_test default_impl t = Raise failureException) Level2Tests.
Proof.
  unfold Level2Tests. repeat (apply Forall_cons_2; [by vm_compute|]).
  apply Forall_nil_2.
Qed.

(** The tests are not those of [Container]: every one of them fails on
    it, with [failureException] where [add] returns [None] and with
    [RuntimeError] where the median of no values is asked for first. *)
Theorem Level2Tests_reject_Container :
  Forall (λ t, passes (container_impl (ops:=heapq_ops)) t = false) Level2Tests.
Proof.
  unfold Level2Tests. repeat (apply Forall_cons_2; [by vm_compute|]).
  apply Forall_nil_2.
Qed.

(** Scenarios A and D of the specification on [Container]: the sizes
    that the specification expects from [add] are not returned, and the
    median of the emptied container is an exception. *)
Example scenario_A_on_Container :
  (impl_run (container_impl (ops:=heapq_ops))
     [Add 1; Add 2; Add 5; Add 7; Add 9; GetMedian; Add 11; Add 15; GetMedian]
     Container.__init__).1 =
  [Return VNone; Return VNone; Return VNone; Return VNone; Return VNone;
   Return (VInt 5); Return VNone; Return VNone; Return (VInt 7)].
Proof. by vm_compute. Qed.

Example scenario_D_on_Container :
  (impl_run (container_impl (ops:=heapq_ops))
     [Add 30; Add 20; Add 10; GetMedian; Delete 30; GetMedian; Delete 10;
      GetMedian; Delete 20; GetMedian]
     Container.__init__).1 =
  [Return VNone; Return VNone; Return VNone; Return (VInt 20);
   Return (VBool true); Return (VInt 10); Return (VBool true);
   Return (VInt 20); Return (VBool true);
   Raise (RuntimeError "Container is empty")].
Proof. by vm_compute. Qed.

(** The tests do not check the type of what [delete] returns: they pass
    on the class whose [delete] returns [1] for [True] and [0] for
    [False]. *)
Example Level2Tests_pass_with_int_replies :
  Forall (λ t, passes (returns_int container) t) Level2Tests.
Proof.
  unfold Level2Tests. repeat (apply Forall_cons_2; [by vm_compute|]).
  apply Forall_nil_2.
Qed.

Lemma Level2Tests_pass_on_refinement_witness :
  Forall (λ t, passes container t) Level2Tests.
Proof.
  apply (Level2Tests_pass_on_refinement container). reflexivity.
Defined.
