(* ===== verification/PyString.v ===== *)
(** * Python strings

    The operations on [str] that [simulation.py] uses, on Rocq strings:
    [startswith], [join], the character classes of the regular
    expression [_SIZE_RE], [lower], [repr], and [int] of a string, with
    the language of its literals ([int_literal], [py_int_literal]).

    A Rocq string is a Python [str] whose characters have codes below
    256, and the classes are those of Python on these characters.  There
    are two classes of white space: [isspace], the [\s] of [re] and
    [str.isspace], and [int_isspace], what [int] skips around a literal,
    which leaves out the separators 28 to 31.  [lower] is applied to
    letters of [[a-zA-Z]] only, and is [str.lower] on the codes below
    128. *)

From Stdlib Require Import Ascii.
From stdpp Require Import strings list sorting pretty.
From S2P Require Import Prelude.

Local Open Scope N_scope.

(** The order of [list.sort] on names is [String.le], lexicographic on
    the codes; the library proves it a total order. *)

(** ** [startswith] and [join] *)

(** [s.startswith(p)]. *)
Fixpoint startswith (s p : string) {struct p} : bool :=
  match p with
  | EmptyString => true
  | String a p =>
    match s with
    | EmptyString => false
    | String b s => if decide (a = b) then startswith s p else false
    end
  end.

(** [sep.join(l)]. *)
Definition join (sep : string) (l : list string) : string :=
  String.concat sep l.

(** ** Character classes *)

(** [\s], [\d] and [[a-zA-Z]] of the [re] module on a [str] pattern.
    [\s] is [str.isspace] of the character: tab to carriage return, the
    separators 28 to 31, the space, the next-line character 133 and the
    no-break space 160. *)
Definition isspace (c : ascii) : bool :=
  let n := N_of_ascii c in
  bool_decide (9 ≤ n ≤ 13 ∨ 28 ≤ n ≤ 32 ∨ n = 133 ∨ n = 160).

Definition isdigit (c : ascii) : bool :=
  let n := N_of_ascii c in bool_decide (48 ≤ n ≤ 57).

Definition isalpha (c : ascii) : bool :=
  let n := N_of_ascii c in
  bool_decide (65 ≤ n ≤ 90 ∨ 97 ≤ n ≤ 122).

(** [str.lower] on one character and on a string. *)
Definition lower_char (c : ascii) : ascii :=
  let n := N_of_ascii c in
  if bool_decide (65 ≤ n ≤ 90) then ascii_of_N (n + 32) else c.

Fixpoint lower (s : string) : string :=
  match s with
  | EmptyString => EmptyString
  | String c s => String (lower_char c) (lower s)
  end.

(** [int(ds)] for a string of decimal digits. *)
Definition digit_value (c : ascii) : Z := Z.of_N (N_of_ascii c) - 48.

Definition int_of_digits (ds : list ascii) : Z :=
  foldl (λ acc c, 10 * acc + digit_value c)%Z 0%Z ds.

(** ** [repr] and [int] *)

(** The two hexadecimal digits of a code, in lower case. *)
Definition hex_digit (n : N) : ascii :=
  ascii_of_N (if bool_decide (n < 10) then 48 + n else 87 + n).

(** One character of a [repr]: the quote in use and the backslash are
    escaped, tab, line feed and carriage return by letter, and by code
    the characters that are not printable: the control characters below
    32 and from 127 to 159, the no-break space and the soft hyphen. *)
Definition repr_char (quote c : ascii) : list ascii :=
  let n := N_of_ascii c in
  if bool_decide (c = quote ∨ n = 92) then ["\"%char; c]
  else if bool_decide (n = 9) then ["\"%char; "t"%char]
  else if bool_decide (n = 10) then ["\"%char; "n"%char]
  else if bool_decide (n = 13) then ["\"%char; "r"%char]
  else if bool_decide (n < 32 ∨ 127 ≤ n ≤ 160 ∨ n = 173) then
    ["\"%char; "x"%char; hex_digit (n / 16); hex_digit (n mod 16)]
  else [c].

(** [repr(s)]: in single quotes, unless [s] holds a single quote and no
    double quote. *)
Definition repr (s : string) : string :=
  let cs := String.list_ascii_of_string s in
  let dquote := ascii_of_N 34 in
  let quote : ascii :=
    if bool_decide ("'"%char ∈ cs ∧ dquote ∉ cs) then dquote
    else "'"%char in
  String.string_of_list_ascii ([quote] ++ (cs ≫= repr_char quote) ++ [quote]).

(** The digits of an integer literal after the sign: digits, with
    single underscores between them.  [None] for anything else. *)
Fixpoint int_digits (cs : list ascii) (after_digit : bool) :
    option (list ascii) :=
  match cs with
  | [] => if after_digit then Some [] else None
  | c :: cs =>
    if isdigit c then (c ::.) <$> int_digits cs true
    else if bool_decide (c = "_"%char) && after_digit then int_digits cs false
    else None
  end.

(** The white space that [int] skips around a literal.  Among the
    codes below 127 it is that of C's [isspace], tab to carriage return
    and the space; [int] replaces a character from 127 on that
    [str.isspace] accepts by a space before it reads the literal, so 133
    and 160 are skipped as well.  The separators 28 to 31 are white
    space for [re] and [str.strip] and not for [int]. *)
Definition int_isspace (c : ascii) : bool :=
  let n := N_of_ascii c in
  bool_decide (9 ≤ n ≤ 13 ∨ n = 32 ∨ n = 133 ∨ n = 160).

(** The characters between the white space [p] at the two ends. *)
Definition strip (p : ascii → bool) (cs : list ascii) : list ascii :=
  reverse (dropwhile p (reverse (dropwhile p cs))).

(** The sign of a literal, and the characters after it. *)
Definition int_sign (cs : list ascii) : Z * list ascii :=
  match cs with
  | c :: cs' =>
    if decide (c = "-"%char) then ((-1)%Z, cs')
    else if decide (c = "+"%char) then (1%Z, cs')
    else (1%Z, cs)
  | [] => (1%Z, [])
  end.

(** [int(s)] for a string: white space around an optional sign and the
    digits; [ValueError] for anything else, with the first 200
    characters of [repr(s)] in the message. *)
Definition py_int (s : string) : outcome Z :=
  let cs := strip int_isspace (String.list_ascii_of_string s) in
  let '(sign, cs) := int_sign cs in
  match int_digits cs false with
  | Some ds => Return (sign * int_of_digits ds)%Z
  | None =>
    Raise (ValueError ("invalid literal for int() with base 10: "
                       +:+ String.substring 0 200 (repr s)))
  end.

(** * The character classes are disjoint *)

Lemma isspace_not_isdigit c : isspace c = true → isdigit c = false.
Proof.
  unfold isspace, isdigit. rewrite bool_decide_eq_true, bool_decide_eq_false. lia.
Qed.

Lemma isspace_not_isalpha c : isspace c = true → isalpha c = false.
Proof.
  unfold isspace, isalpha. rewrite bool_decide_eq_true, bool_decide_eq_false. lia.
Qed.

Lemma isdigit_not_isspace c : isdigit c = true → isspace c = false.
Proof.
  unfold isspace, isdigit. rewrite bool_decide_eq_true, bool_decide_eq_false. lia.
Qed.

Lemma isalpha_not_isspace c : isalpha c = true → isspace c = false.
Proof.
  unfold isspace, isalpha. rewrite bool_decide_eq_true, bool_decide_eq_false. lia.
Qed.

Lemma int_isspace_isspace c : int_isspace c = true → isspace c = true.
Proof. unfold int_isspace, isspace. rewrite !bool_decide_eq_true. lia. Qed.

Lemma isdigit_not_int_isspace c : isdigit c = true → int_isspace c = false.
Proof.
  unfold int_isspace, isdigit. rewrite bool_decide_eq_true, bool_decide_eq_false.
  lia.
Qed.

Lemma isalpha_not_isdigit c : isalpha c = true → isdigit c = false.
Proof.
  unfold isdigit, isalpha. rewrite bool_decide_eq_true, bool_decide_eq_false. lia.
Qed.

(** * Digits *)

Lemma digit_value_nonneg c : isdigit c = true → (0 ≤ digit_value c ≤ 9)%Z.
Proof. unfold isdigit, digit_value. rewrite bool_decide_eq_true. lia. Qed.

Lemma int_of_digits_snoc ds c :
  int_of_digits (ds ++ [c]) = (10 * int_of_digits ds + digit_value c)%Z.
Proof. unfold int_of_digits. by rewrite foldl_snoc. Qed.

Lemma int_of_digits_nonneg ds :
  Forall (λ c, isdigit c = true) ds → (0 ≤ int_of_digits ds)%Z.
Proof.
  induction ds as [|c ds IH] using rev_ind; [done|].
  intros [Hds Hc]%Forall_app. rewrite Forall_singleton in Hc.
  rewrite int_of_digits_snoc. pose proof (digit_value_nonneg c Hc).
  specialize (IH Hds). lia.
Qed.

(** * [startswith] *)

Lemma startswith_spec (s p : string) :
  startswith s p = true ↔ ∃ t, s = p +:+ t.
Proof.
  revert s. induction p as [|a p IH]; intros s; simpl.
  { split; [intros _; exists s|intros _]; reflexivity. }
  destruct s as [|b s]; [split; [done|by intros [? ?]]|].
  case_decide as Hab; [subst b|].
  - rewrite IH. split; intros [t Ht]; exists t.
    + by rewrite Ht.
    + by injection Ht.
  - split; [done|]. intros [t Ht]. by injection Ht.
Qed.

Lemma startswith_empty (s : string) : startswith s "" = true.
Proof. done. Qed.

(** * [int] reads what [str] writes

    Python's [str] of an integer is its decimal numeral, which is the
    library's [pretty]: no leading zero, a minus sign for a negative
    number.  [int] reads every such numeral back. *)

Definition str_int (n : Z) : string := pretty n.

Section decimal.
Local Open Scope Z_scope.
Implicit Types (x : N) (s : string) (ds : list ascii).

Lemma pretty_N_char_digit x :
  (x < 10)%N →
  isdigit (pretty_N_char x) = true ∧ digit_value (pretty_N_char x) = Z.of_N x.
Proof.
  intros Hx.
  assert (x = 0 ∨ x = 1 ∨ x = 2 ∨ x = 3 ∨ x = 4 ∨ x = 5 ∨ x = 6 ∨ x = 7
          ∨ x = 8 ∨ x = 9)%N as Hcases by lia.
  repeat destruct Hcases as [->|Hcases]; [done..|by subst].
Qed.

Lemma string_app_assoc (s1 s2 s3 : string) :
  (s1 +:+ s2) +:+ s3 = s1 +:+ (s2 +:+ s3).
Proof.
  induction s1 as [|c s1 IH]; [done|].
  change (String c ((s1 +:+ s2) +:+ s3) = String c (s1 +:+ s2 +:+ s3)).
  by rewrite IH.
Qed.

(** The digits are written in front of what has been written. *)
Lemma pretty_N_go_app x s : pretty_N_go x s = pretty_N_go x "" +:+ s.
Proof.
  revert s. induction (N.lt_wf_0 x) as [x _ IH]; intros s.
  assert (x = 0 ∨ 0 < x)%N as [->|Hx] by lia; [done|].
  assert (x `div` 10 < x)%N as Hlt by (by apply N.div_lt).
  rewrite (pretty_N_go_step x s), (pretty_N_go_step x "") by done.
  rewrite (IH _ Hlt (String _ s)), (IH _ Hlt (String _ "")).
  by rewrite string_app_assoc.
Qed.

Lemma list_ascii_of_string_app s1 s2 :
  String.list_ascii_of_string (s1 +:+ s2) =
  String.list_ascii_of_string s1 ++ String.list_ascii_of_string s2.
Proof.
  induction s1 as [|c s1 IH]; [done|].
  change (c :: String.list_ascii_of_string (s1 +:+ s2) =
          c :: String.list_ascii_of_string s1 ++ String.list_ascii_of_string s2).
  by rewrite IH.
Qed.

(** The digits of a number are digits, and their value is the
    number. *)
Lemma pretty_N_go_digits x :
  let ds := String.list_ascii_of_string (pretty_N_go x "") in
  Forall (λ c, isdigit c = true) ds ∧ int_of_digits ds = Z.of_N x.
Proof.
  induction (N.lt_wf_0 x) as [x _ IH].
  assert (x = 0 ∨ 0 < x)%N as [->|Hx] by lia; [by split|].
  rewrite pretty_N_go_step, pretty_N_go_app, list_ascii_of_string_app by done.
  destruct (IH (x `div` 10)%N ltac:(by apply N.div_lt)) as [Hds Hval].
  destruct (pretty_N_char_digit (x `mod` 10)%N) as [Hc Hd].
  { by apply N.mod_lt. }
  cbv zeta. simpl. split; [apply Forall_app; by repeat constructor|].
  rewrite int_of_digits_snoc, Hval, Hd.
  rewrite (N.div_mod x 10) at 3 by done. lia.
Qed.

Lemma pretty_N_digits x :
  let ds := String.list_ascii_of_string (pretty x) in
  Forall (λ c, isdigit c = true) ds ∧ ds ≠ [] ∧ int_of_digits ds = Z.of_N x.
Proof.
  unfold pretty, pretty_N. case_decide as Hx.
  { subst. split_and!; [by repeat constructor|done..]. }
  destruct (pretty_N_go_digits x) as [Hds Hval]. cbv zeta.
  split_and!; [done| |done]. intros Hnil. rewrite Hnil in Hval.
  unfold int_of_digits in Hval. simpl in Hval. lia.
Qed.

(** [int] of digits that stand alone: no white space to strip, no sign,
    no underscore. *)
Lemma int_digits_digits ds b :
  Forall (λ c, isdigit c = true) ds → ds ≠ [] ∨ b = true →
  int_digits ds b = Some ds.
Proof.
  intros Hds. revert b. induction Hds as [|c ds Hc _ IH]; intros b Hb.
  { by destruct Hb as [?| ->]. }
  simpl. rewrite Hc. by rewrite IH by auto.
Qed.

(** A numeral has no white space to strip. *)
Lemma strip_no_space cs :
  Forall (λ c, int_isspace c = false) cs → strip int_isspace cs = cs.
Proof.
  assert (∀ l, Forall (λ c, int_isspace c = false) l →
               dropwhile int_isspace l = l) as Hstop.
  { destruct 1 as [|c l Hc _]; [done|]. simpl. by rewrite Hc. }
  intros Hcs. unfold strip. rewrite (Hstop cs Hcs), (Hstop (reverse cs)).
  - apply reverse_involutive.
  - by apply Forall_reverse.
Qed.

(** A numeral that starts with a digit has no sign. *)
Lemma no_sign c cs : isdigit c = true → int_sign (c :: cs) = (1, c :: cs).
Proof. intros Hc. unfold int_sign. by repeat case_decide; subst. Qed.

Lemma py_int_digits s :
  let ds := String.list_ascii_of_string s in
  Forall (λ c, isdigit c = true) ds → ds ≠ [] →
  py_int s = Return (int_of_digits ds) ∧
  py_int ("-" +:+ s) = Return (- int_of_digits ds).
Proof.
  intros ds Hds Hne.
  assert (Forall (λ c, int_isspace c = false) ds) as Hsp.
  { eapply Forall_impl; [exact Hds|]. apply isdigit_not_int_isspace. }
  assert (int_digits ds false = Some ds) as Hdigits
    by (apply int_digits_digits; auto).
  unfold py_int. split.
  - fold ds. cbv zeta. rewrite (strip_no_space ds Hsp).
    destruct ds as [|c ds'] eqn:Hcs; [done|].
    rewrite (no_sign c ds') by (by apply Forall_cons in Hds as [? _]).
    rewrite Hdigits. f_equal; lia.
  - change (String.list_ascii_of_string ("-" +:+ s)) with ("-"%char :: ds).
    cbv zeta. rewrite (strip_no_space ("-"%char :: ds)) by (by constructor).
    simpl. rewrite Hdigits. f_equal; lia.
Qed.

(** [int(str(n)) == n]. *)
Lemma py_int_str_int (n : Z) : py_int (str_int n) = Return n.
Proof.
  destruct n as [|p|p]; [done|..];
    destruct (pretty_N_digits (Npos p)) as (Hds & Hne & Hval).
  - change (str_int (Zpos p)) with (pretty (Npos p)).
    destruct (py_int_digits (pretty (Npos p)) Hds Hne) as [-> _].
    by rewrite Hval.
  - change (str_int (Zneg p)) with ("-" +:+ pretty (Npos p)).
    destruct (py_int_digits (pretty (Npos p)) Hds Hne) as [_ ->].
    by rewrite Hval.
Qed.

End decimal.

(** * [strip]

    What [strip] returns is what is left between the white space at the
    two ends, and has none at its own ends. *)

Section strip.
Context (p : ascii → bool).
Implicit Types (cs m w : list ascii).

(** The ends of [m] are no white space. *)
Definition stripped m : Prop :=
  (∀ c, head m = Some c → p c = false) ∧ (∀ c, last m = Some c → p c = false).

Lemma strip_stripped cs : stripped (strip p cs).
Proof.
  unfold strip, stripped. set (rest := dropwhile p cs).
  set (d := dropwhile p (reverse rest)). split; intros c Hc.
  - destruct (reverse d) as [|c' m] eqn:Hm; [done|]. simplify_eq/=.
    apply (head_dropwhile p cs). fold rest.
    rewrite <-(reverse_involutive rest), <-(takewhile_dropwhile p (reverse rest)).
    fold d. by rewrite reverse_app, Hm.
  - rewrite last_reverse in Hc. by apply (head_dropwhile p (reverse rest)).
Qed.

Lemma strip_split cs :
  ∃ w1 w2, cs = w1 ++ strip p cs ++ w2 ∧
    Forall (λ c, p c = true) w1 ∧ Forall (λ c, p c = true) w2.
Proof.
  exists (takewhile p cs), (reverse (takewhile p (reverse (dropwhile p cs)))).
  split_and!; [|apply Forall_takewhile|apply Forall_reverse, Forall_takewhile].
  unfold strip. rewrite <-reverse_app, takewhile_dropwhile, reverse_involutive.
  by rewrite takewhile_dropwhile.
Qed.

Lemma strip_app w1 m w2 :
  Forall (λ c, p c = true) w1 → Forall (λ c, p c = true) w2 → stripped m →
  strip p (w1 ++ m ++ w2) = m.
Proof.
  intros Hw1 Hw2 [Hhead Hlast]. unfold strip. destruct m as [|c m].
  { simpl. by rewrite (proj2 (takewhile_all p (w1 ++ w2) ltac:(by apply Forall_app))). }
  destruct (takewhile_app p w1 ((c :: m) ++ w2) Hw1) as [_ ->].
  { intros c' [= <-]. by apply Hhead. }
  rewrite reverse_app.
  destruct (takewhile_app p (reverse w2) (reverse (c :: m))) as [_ ->].
  - by apply Forall_reverse.
  - intros c'. rewrite head_reverse. apply Hlast.
  - apply reverse_involutive.
Qed.

End strip.

(** * The literals that [int] reads

    The language of [int] on a string, stated without the scanner: white
    space, an optional sign, decimal digits with single underscores
    between them, white space.  [int_body cs ds] relates the characters
    between the sign and the white space to their digits. *)

Inductive int_body : list ascii → list ascii → Prop :=
| int_body_digit c : isdigit c = true → int_body [c] [c]
| int_body_cons c cs ds :
    isdigit c = true → int_body cs ds → int_body (c :: cs) (c :: ds)
| int_body_underscore c cs ds :
    isdigit c = true → int_body cs ds →
    int_body (c :: "_"%char :: cs) (c :: ds).

(** The sign and its factor. *)
Inductive signed : list ascii → Z → Prop :=
| signed_none : signed [] 1
| signed_plus : signed ["+"%char] 1
| signed_minus : signed ["-"%char] (-1).

(** [int_literal cs n]: the characters [cs] are a literal of [n]. *)
Inductive int_literal : list ascii → Z → Prop :=
| IntLiteral w1 sg k body ds w2 :
    Forall (λ c, int_isspace c = true) w1 →
    Forall (λ c, int_isspace c = true) w2 →
    signed sg k → int_body body ds →
    int_literal (w1 ++ sg ++ body ++ w2) (k * int_of_digits ds).

Section literal.
Implicit Types (cs ds body : list ascii) (c : ascii) (n k : Z).

Lemma int_body_head cs ds :
  int_body cs ds → ∃ c cs', cs = c :: cs' ∧ isdigit c = true.
Proof. destruct 1; eauto. Qed.

Lemma int_body_last cs ds :
  int_body cs ds → ∃ c, last cs = Some c ∧ isdigit c = true.
Proof.
  induction 1 as [c Hc|c cs ds Hc Hb (c' & Hl & Hc')|c cs ds Hc Hb (c' & Hl & Hc')].
  - by exists c.
  - exists c'. split; [|done]. destruct Hb; by rewrite ?last_cons, ?Hl in *.
  - exists c'. split; [|done]. destruct Hb; by rewrite ?last_cons, ?Hl in *.
Qed.

(** What [int_digits] accepts after a digit: the end, more of the body,
    or an underscore and more of the body. *)
Definition int_rest cs ds : Prop :=
  (cs = [] ∧ ds = []) ∨ int_body cs ds ∨
  ∃ cs', cs = "_"%char :: cs' ∧ int_body cs' ds.

Lemma int_body_rest c cs ds :
  isdigit c = true → int_rest cs ds → int_body (c :: cs) (c :: ds).
Proof.
  intros Hc [[-> ->]|[?|(cs' & -> & ?)]]; by constructor.
Qed.

Lemma int_body_inv cs ds :
  int_body cs ds →
  ∃ c cs' ds', cs = c :: cs' ∧ ds = c :: ds' ∧ isdigit c = true ∧ int_rest cs' ds'.
Proof.
  destruct 1 as [c Hc|c cs ds Hc Hb|c cs ds Hc Hb]; eexists _, _, _;
    (split_and!; [done..|]); unfold int_rest; eauto.
Qed.

Lemma int_body_not_digit c cs ds : isdigit c = false → ¬ int_body (c :: cs) ds.
Proof. intros Hc (c' & cs' & [= <- <-] & ?)%int_body_head. congruence. Qed.

Lemma int_rest_cons c cs ds :
  int_rest (c :: cs) ds ↔
  int_body (c :: cs) ds ∨ (c = "_"%char ∧ int_body cs ds).
Proof.
  unfold int_rest. split.
  - intros [[? _]|[?|(cs' & [= -> ->] & ?)]]; [done|by left|by right].
  - intros [?|[-> ?]]; [by right; left|right; right; eauto].
Qed.

Lemma int_rest_nil ds : int_rest [] ds ↔ ds = [].
Proof.
  unfold int_rest. split; [|by left].
  intros [[_ ->]|[(? & ? & ? & _)%int_body_head|(? & ? & _)]]; done.
Qed.

(** A digit is read, whatever came before it. *)
Lemma int_digits_digit c cs b ds :
  isdigit c = true →
  (∀ ds', int_digits cs true = Some ds' ↔ int_rest cs ds') →
  int_digits (c :: cs) b = Some ds ↔ int_body (c :: cs) ds.
Proof.
  intros Hc IH. simpl. rewrite Hc, fmap_Some. split.
  - intros (ds' & Hds & ->). by apply int_body_rest, IH.
  - intros (c' & cs' & ds' & [= <- <-] & -> & _ & Hrest)%int_body_inv.
    exists ds'. by rewrite IH.
Qed.

Lemma int_digits_body cs ds :
  (int_digits cs false = Some ds ↔ int_body cs ds) ∧
  (int_digits cs true = Some ds ↔ int_rest cs ds).
Proof.
  revert ds. induction cs as [|c cs IH]; intros ds.
  { rewrite int_rest_nil. simpl. split; [|split; [by intros [= <-]|by intros ->]].
    split; [done|]. by intros (? & ? & ? & _)%int_body_head. }
  rewrite int_rest_cons. destruct (isdigit c) eqn:Hc.
  - rewrite !(int_digits_digit c cs _ ds Hc (λ ds', proj2 (IH ds'))).
    split; [done|]. split; [by left|].
    intros [?|[-> _]]; [done|]. by vm_compute in Hc.
  - pose proof (int_body_not_digit c cs ds Hc) as Hno.
    simpl. rewrite Hc. case_bool_decide as Hu; simpl.
    + rewrite (proj1 (IH ds)). split; [split; [done|by intros ?%Hno]|].
      split; [by right|by intros [?%Hno|[_ ?]]].
    + split; (split; [done|]); [by intros ?%Hno|by intros [?%Hno|[? _]]].
Qed.

(** The sign that [int_sign] splits off. *)
Lemma int_sign_signed sg k body ds :
  signed sg k → int_body body ds → int_sign (sg ++ body) = (k, body).
Proof.
  intros Hsg (c & cs & -> & Hc)%int_body_head.
  destruct Hsg; [by apply no_sign|done..].
Qed.

Lemma int_sign_split cs k body :
  int_sign cs = (k, body) → ∃ sg, cs = sg ++ body ∧ signed sg k.
Proof.
  unfold int_sign. destruct cs as [|c cs].
  { intros [= <- <-]. exists []. split; [done|constructor]. }
  repeat case_decide; subst; intros [= <- <-].
  - exists ["-"%char]. split; [done|constructor].
  - exists ["+"%char]. split; [done|constructor].
  - exists []. split; [done|constructor].
Qed.

(** A sign and a body have no white space at their ends. *)
Lemma literal_stripped sg k body ds :
  signed sg k → int_body body ds → stripped int_isspace (sg ++ body).
Proof.
  intros Hsg Hbody.
  destruct (int_body_head _ _ Hbody) as (c & cs & -> & Hc).
  destruct (int_body_last _ _ Hbody) as (c' & Hl & Hc').
  split; intros x.
  - destruct Hsg; intros [= <-]; [by apply isdigit_not_int_isspace|done..].
  - rewrite last_app, Hl. intros [= <-]. by apply isdigit_not_int_isspace.
Qed.

(** [int] returns [n] exactly on the literals of [n]. *)
Lemma py_int_literal (s : string) n :
  py_int s = Return n ↔ int_literal (String.list_ascii_of_string s) n.
Proof.
  unfold py_int. split.
  - destruct (strip_split int_isspace (String.list_ascii_of_string s))
      as (w1 & w2 & Hcs & Hw1 & Hw2).
    destruct (int_sign _) as [k body] eqn:Hsign.
    apply int_sign_split in Hsign as (sg & Hm & Hsg).
    destruct (int_digits body false) as [ds|] eqn:Hds; [|done].
    intros [= <-]. rewrite Hcs, Hm, <-(assoc_L (++)).
    constructor; [done..|]. by apply int_digits_body.
  - inversion 1 as [w1 sg k body ds w2 Hw1 Hw2 Hsg Hbody Hcs Hn].
    rewrite (assoc_L (++) sg), strip_app
      by eauto using literal_stripped.
    rewrite (int_sign_signed sg k body ds) by done.
    by rewrite (proj2 (proj1 (int_digits_body body ds))).
Qed.

(** On any other string it raises [ValueError]. *)
Lemma py_int_invalid (s : string) :
  (∀ n, ¬ int_literal (String.list_ascii_of_string s) n) →
  py_int s = Raise (ValueError ("invalid literal for int() with base 10: "
                                +:+ String.substring 0 200 (repr s))).
Proof.
  intros Hno. destruct (py_int s) as [n|e] eqn:Hint.
  { by apply py_int_literal, Hno in Hint. }
  revert Hint. unfold py_int. destruct (int_sign _) as [k body].
  destruct (int_digits body false); [done|]. by intros [= <-].
Qed.

End literal.
