(* ===== verification/Strptime.v ===== *)
(** * Timestamps: [datetime.strptime] and [timestamp]

    [parse_ts] of [simulation.py] calls
    [datetime.strptime(ts, "%Y-%m-%dT%H:%M:%S")], makes the result a UTC
    time and converts it to epoch seconds.  This file models what
    CPython (3.12) does for this one format:

    - the regular expression that [_strptime] builds from the format:
      four digits for the year; the month, day, hour, minute and second
      with one or two digits, the alternatives tried in the order of the
      library; the separators; the letter T in either case.  After a
      field of one or two digits comes a separator or the end, so the
      first alternative that matches is the one of the whole match;
    - the check that nothing remains after the match;
    - the range checks of the [datetime] constructor, on the date first;
    - the proleptic Gregorian ordinal of the date ([_ymd2ord]) and the
      seconds since 1970-01-01T00:00:00.

    The file storage simulation is written against the class
    [TimestampParser]; the instance [cpython_timestamps] gives it this
    parser.

    The lemmas show that the parser is total, that the closed formulas
    of the calendar agree with counting years and months one by one
    ([_days_before_year_succ], [_days_before_month_table]), that the
    timestamp follows the order of the times ([timestamp_mono]) within
    the bounds of the calendar ([timestamp_bounds]), and that the
    parser reads what [isoformat] writes
    ([strptime_timestamp_isoformat]). *)

From Stdlib Require Import Ascii.
From stdpp Require Import strings list pretty.
From S2P Require Import Prelude PyString.

Local Open Scope Z_scope.

(** The parser of timestamps that [parse_ts] calls: epoch seconds, or
    the exception of a string that is no timestamp. *)
Class TimestampParser := {
  strptime_timestamp : string → outcome Z
}.

Module datetime.

(** The fields of a parsed time. *)
Record fields : Type := mkFields {
  year : Z; month : Z; day : Z; hour : Z; minute : Z; second : Z
}.

(** A character as a digit within a range of digits. *)
Definition digit_in (lo hi : Z) (c : ascii) : option Z :=
  if isdigit c && bool_decide (lo ≤ digit_value c ≤ hi)
  then Some (digit_value c) else None.

(** One alternative of two digits, the first in [lo1..hi1] and the
    second in [lo2..hi2], and one of a single digit in [lo..hi]: the
    value and the rest of the input. *)
Definition two_digits (lo1 hi1 lo2 hi2 : Z) (cs : list ascii) :
    option (Z * list ascii) :=
  match cs with
  | c1 :: c2 :: cs =>
    match digit_in lo1 hi1 c1, digit_in lo2 hi2 c2 with
    | Some d1, Some d2 => Some (10 * d1 + d2, cs)
    | _, _ => None
    end
  | _ => None
  end.

Definition one_digit (lo hi : Z) (cs : list ascii) : option (Z * list ascii) :=
  match cs with
  | c :: cs => (λ d, (d, cs)) <$> digit_in lo hi c
  | _ => None
  end.

(** The first alternative that matches. *)
Fixpoint first_of (alts : list (list ascii → option (Z * list ascii)))
    (cs : list ascii) : option (Z * list ascii) :=
  match alts with
  | [] => None
  | alt :: alts =>
    match alt cs with
    | Some r => Some r
    | None => first_of alts cs
    end
  end.

(** The directives of the format. *)
Definition directive_Y (cs : list ascii) : option (Z * list ascii) :=
  match cs with
  | c1 :: c2 :: c3 :: c4 :: cs =>
    if forallb isdigit [c1; c2; c3; c4]
    then Some (int_of_digits [c1; c2; c3; c4], cs) else None
  | _ => None
  end.

Definition directive_m : list ascii → option (Z * list ascii) :=
  first_of [two_digits 1 1 0 2; two_digits 0 0 1 9; one_digit 1 9].

Definition space_digit (cs : list ascii) : option (Z * list ascii) :=
  match cs with
  | " "%char :: cs => one_digit 1 9 cs
  | _ => None
  end.

Definition directive_d : list ascii → option (Z * list ascii) :=
  first_of [two_digits 3 3 0 1; two_digits 1 2 0 9; two_digits 0 0 1 9;
            one_digit 1 9; space_digit].

Definition directive_H : list ascii → option (Z * list ascii) :=
  first_of [two_digits 2 2 0 3; two_digits 0 1 0 9; one_digit 0 9].

Definition directive_M : list ascii → option (Z * list ascii) :=
  first_of [two_digits 0 5 0 9; one_digit 0 9].

Definition directive_S : list ascii → option (Z * list ascii) :=
  first_of [two_digits 6 6 0 1; two_digits 0 5 0 9; one_digit 0 9].

(** A literal character of the format; letters match in either case. *)
Definition literal (c : ascii) (cs : list ascii) : option (list ascii) :=
  match cs with
  | c' :: cs => if bool_decide (lower_char c' = lower_char c) then Some cs else None
  | [] => None
  end.

(** The match of the whole format: the fields and what remains. *)
Definition match_format (cs : list ascii) : option (fields * list ascii) :=
  '(y, cs) ← directive_Y cs;
  cs ← literal "-" cs;
  '(m, cs) ← directive_m cs;
  cs ← literal "-" cs;
  '(d, cs) ← directive_d cs;
  cs ← literal "T" cs;
  '(h, cs) ← directive_H cs;
  cs ← literal ":" cs;
  '(mi, cs) ← directive_M cs;
  cs ← literal ":" cs;
  '(s, cs) ← directive_S cs;
  Some (mkFields y m d h mi s, cs).

(** The calendar of [datetime]. *)
Definition _is_leap (y : Z) : bool :=
  bool_decide (y `mod` 4 = 0 ∧ (y `mod` 100 ≠ 0 ∨ y `mod` 400 = 0)).

Definition _days_before_year (y : Z) : Z :=
  let y := y - 1 in y * 365 + y `div` 4 - y `div` 100 + y `div` 400.

Definition _days_in_month (y m : Z) : Z :=
  if bool_decide (m = 2) then (if _is_leap y then 29 else 28)
  else if bool_decide (m = 4 ∨ m = 6 ∨ m = 9 ∨ m = 11) then 30 else 31.

(** The days of the year before the first of month [m]. *)
Definition _days_before_month (y m : Z) : Z :=
  foldr (λ k acc, _days_in_month y k + acc) 0 (seqZ 1 (m - 1)).

Definition _ymd2ord (y m d : Z) : Z :=
  _days_before_year y + _days_before_month y m + d.

(** The checks of the constructor, in its order. *)
Definition check_fields (f : fields) : outcome fields :=
  if negb (bool_decide (1 ≤ year f ≤ 9999)) then
    Raise (ValueError ("year " +:+ pretty (year f) +:+ " is out of range"))
  else if negb (bool_decide (1 ≤ day f ≤ _days_in_month (year f) (month f))) then
    Raise (ValueError "day is out of range for month")
  else if negb (bool_decide (0 ≤ second f ≤ 59)) then
    Raise (ValueError "second must be in 0..59")
  else Return f.

(** The seconds from 1970-01-01T00:00:00 to a checked time. *)
Definition timestamp (f : fields) : Z :=
  (_ymd2ord (year f) (month f) (day f) - _ymd2ord 1970 1 1) * 86400
  + hour f * 3600 + minute f * 60 + second f.

Definition time_format : string := "%Y-%m-%dT%H:%M:%S".

(** [int(datetime.strptime(ts, time_format)
          .replace(tzinfo=timezone.utc).timestamp())]. *)
Definition strptime_timestamp (ts : string) : outcome Z :=
  match match_format (String.list_ascii_of_string ts) with
  | None =>
    Raise (ValueError ("time data " +:+ repr ts +:+ " does not match format "
                       +:+ repr time_format))
  | Some (f, []) =>
    match check_fields f with
    | Return f => Return (timestamp f)
    | Raise e => Raise e
    end
  | Some (_, rest) =>
    Raise (ValueError ("unconverted data remains: "
                       +:+ String.string_of_list_ascii rest))
  end.

(** ** The calendar, for the statements below *)

(** A date of the calendar. *)
Definition valid_date (y m d : Z) : Prop :=
  1 ≤ m ≤ 12 ∧ 1 ≤ d ≤ _days_in_month y m.

(** A time of the calendar. *)
Definition valid (f : fields) : Prop :=
  valid_date (year f) (month f) (day f) ∧
  0 ≤ hour f ≤ 23 ∧ 0 ≤ minute f ≤ 59 ∧ 0 ≤ second f ≤ 59.

(** The seconds of the time of day. *)
Definition time_of_day (f : fields) : Z :=
  hour f * 3600 + minute f * 60 + second f.

(** [f] comes before [f']: an earlier date, or the same date and an
    earlier time of day. *)
Definition earlier (f f' : fields) : Prop :=
  year f < year f' ∨
  (year f = year f' ∧
   (month f < month f' ∨
    (month f = month f' ∧
     (day f < day f' ∨ (day f = day f' ∧ time_of_day f < time_of_day f'))))).

(** The first and the last second of the calendar. *)
Definition timestamp_min : Z := -62135596800.
Definition timestamp_max : Z := 253402300799.

(** The character of a digit, and a number in two and in four digits. *)
Definition digit_char (d : Z) : ascii := ascii_of_N (Z.to_N (48 + d)).

Definition pad2 (n : Z) : list ascii :=
  [digit_char (n `div` 10); digit_char (n `mod` 10)].

Definition pad4 (n : Z) : list ascii :=
  pad2 (n `div` 100) ++ pad2 (n `mod` 100).

(** [datetime.isoformat] of a time without microseconds. *)
Definition isoformat (f : fields) : string :=
  String.string_of_list_ascii
    (pad4 (year f) ++ "-"%char :: pad2 (month f) ++ "-"%char :: pad2 (day f) ++
     "T"%char :: pad2 (hour f) ++ ":"%char :: pad2 (minute f) ++
     ":"%char :: pad2 (second f)).

(** * The parser is total *)

(** The parser returns a time or raises [ValueError]. *)
Lemma strptime_timestamp_total (ts : string) :
  (∃ t, strptime_timestamp ts = Return t) ∨
  (∃ msg, strptime_timestamp ts = Raise (ValueError msg)).
Proof.
  unfold strptime_timestamp, check_fields.
  destruct (match_format _) as [[f [|c rest]]|]; [|right; by eexists..].
  repeat (destruct (negb _); [right; by eexists|]). left. by eexists.
Qed.

(** * The calendar *)

Lemma _days_before_year_succ y :
  _days_before_year (y + 1) =
  _days_before_year y + (if _is_leap y then 366 else 365).
Proof.
  unfold _days_before_year, _is_leap. replace (y + 1 - 1) with (y - 1 + 1) by lia.
  case_bool_decide as Hleap; Z.div_mod_to_equations; lia.
Qed.

Lemma _days_in_month_bounds y m : 28 ≤ _days_in_month y m ≤ 31.
Proof. unfold _days_in_month. repeat case_bool_decide; destruct (_is_leap y); lia. Qed.

Lemma _days_before_month_succ y m :
  1 ≤ m → _days_before_month y (m + 1) = _days_before_month y m + _days_in_month y m.
Proof.
  intros Hm. unfold _days_before_month.
  replace (m + 1 - 1) with ((m - 1) + 1) by lia.
  rewrite seqZ_app by lia. rewrite foldr_app.
  replace (1 + (m - 1)) with m by lia. change (seqZ m 1) with [m]. simpl.
  generalize (seqZ 1 (m - 1)). intros l. induction l as [|k l IH]; simpl; lia.
Qed.

Lemma _days_before_month_table y m :
  1 ≤ m ≤ 12 →
  _days_before_month y m =
  nth (Z.to_nat m) [-1; 0; 31; 59; 90; 120; 151; 181; 212; 243; 273; 304; 334] 0
  + (if bool_decide (2 < m) && _is_leap y then 1 else 0).
Proof.
  intros Hm. assert (m ∈ seqZ 1 12) as Hin by (apply elem_of_seqZ; lia).
  unfold _days_before_month, _days_in_month.
  repeat (apply elem_of_cons in Hin as [->|Hin]; [by destruct (_is_leap y)|]).
  by apply elem_of_nil in Hin.
Qed.

(** A function on the integers that does not decrease from one integer
    to the next is monotone. *)
Lemma Z_mono_succ (f : Z → Z) lo a b :
  (∀ n, lo ≤ n → f n ≤ f (n + 1)) → lo ≤ a → a ≤ b → f a ≤ f b.
Proof.
  intros Hf Ha Hab. replace b with (a + Z.of_nat (Z.to_nat (b - a))) by lia.
  induction (Z.to_nat (b - a)) as [|n IH]; [by rewrite Z.add_0_r|].
  etrans; [exact IH|]. replace (a + Z.of_nat (S n)) with (a + Z.of_nat n + 1) by lia.
  apply Hf. lia.
Qed.

Lemma _days_before_year_mono y y' :
  y ≤ y' → _days_before_year y ≤ _days_before_year y'.
Proof.
  apply (Z_mono_succ _days_before_year y); [|done].
  intros n _. rewrite _days_before_year_succ. destruct (_is_leap n); lia.
Qed.

Lemma _days_before_month_mono y m m' :
  1 ≤ m → m ≤ m' → _days_before_month y m ≤ _days_before_month y m'.
Proof.
  intros Hm. apply (Z_mono_succ (_days_before_month y) 1); [|done].
  intros n Hn. rewrite _days_before_month_succ by done.
  pose proof (_days_in_month_bounds y n). lia.
Qed.

Lemma _days_before_month_nonneg y m : 0 ≤ _days_before_month y m.
Proof.
  unfold _days_before_month. induction (seqZ 1 (m - 1)) as [|k l IH]; simpl; [done|].
  pose proof (_days_in_month_bounds y k). lia.
Qed.

(** The days of a year are those of its twelve months. *)
Lemma _days_before_month_13 y :
  _days_before_month y 13 = if _is_leap y then 366 else 365.
Proof. unfold _days_before_month, _days_in_month. by destruct (_is_leap y). Qed.

(** The ordinal of a date falls within its year. *)
Lemma _ymd2ord_bounds y m d :
  valid_date y m d →
  _days_before_year y < _ymd2ord y m d ≤ _days_before_year (y + 1).
Proof.
  intros [Hm Hd]. unfold _ymd2ord. rewrite _days_before_year_succ, <-_days_before_month_13.
  pose proof (_days_before_month_nonneg y m).
  pose proof (_days_before_month_mono y (m + 1) 13 ltac:(lia) ltac:(lia)) as Hle.
  rewrite _days_before_month_succ in Hle by lia. lia.
Qed.

(** The ordinal follows the order of the dates. *)
Lemma _ymd2ord_mono y m d y' m' d' :
  valid_date y m d → valid_date y' m' d' →
  y < y' ∨ (y = y' ∧ (m < m' ∨ (m = m' ∧ d < d'))) →
  _ymd2ord y m d < _ymd2ord y' m' d'.
Proof.
  intros Hv Hv' [Hy|[<- [Hm|[<- Hd]]]].
  - pose proof (_ymd2ord_bounds y m d Hv). pose proof (_ymd2ord_bounds y' m' d' Hv').
    pose proof (_days_before_year_mono (y + 1) y' ltac:(lia)). lia.
  - destruct Hv as [? ?], Hv' as [? ?]. unfold _ymd2ord.
    pose proof (_days_before_month_mono y (m + 1) m' ltac:(lia) ltac:(lia)) as Hle.
    rewrite _days_before_month_succ in Hle by lia. lia.
  - unfold _ymd2ord. lia.
Qed.

Lemma time_of_day_bounds f : valid f → 0 ≤ time_of_day f < 86400.
Proof. intros (_ & ? & ? & ?). unfold time_of_day. lia. Qed.

(** The timestamp follows the order of the times. *)
Lemma timestamp_mono f f' :
  valid f → valid f' → earlier f f' → timestamp f < timestamp f'.
Proof.
  intros Hf Hf' Hlt. pose proof (time_of_day_bounds f Hf).
  pose proof (time_of_day_bounds f' Hf'). destruct Hf as [Hd _], Hf' as [Hd' _].
  pose proof (_ymd2ord_mono _ _ _ _ _ _ Hd Hd') as Hord.
  unfold earlier, timestamp, time_of_day in *.
  destruct Hlt as [?|[Hy [?|[Hm [?|[Hday ?]]]]]];
    [specialize (Hord ltac:(tauto)); lia..|].
  rewrite Hy, Hm, Hday. lia.
Qed.

(** ** What the parser returns *)

Lemma digit_in_range lo hi c d : digit_in lo hi c = Some d → lo ≤ d ≤ hi.
Proof.
  unfold digit_in. destruct (isdigit c); simpl; [|done].
  case_bool_decide; [|done]. by intros [= <-].
Qed.

Lemma two_digits_range lo1 hi1 lo2 hi2 cs v rest :
  two_digits lo1 hi1 lo2 hi2 cs = Some (v, rest) →
  10 * lo1 + lo2 ≤ v ≤ 10 * hi1 + hi2.
Proof.
  destruct cs as [|c1 [|c2 cs]]; simpl; [done..|].
  destruct (digit_in lo1 hi1 c1) as [d1|] eqn:H1; [|done].
  destruct (digit_in lo2 hi2 c2) as [d2|] eqn:H2; [|done].
  apply digit_in_range in H1, H2. intros [= <- _]. lia.
Qed.

Lemma one_digit_range lo hi cs v rest :
  one_digit lo hi cs = Some (v, rest) → lo ≤ v ≤ hi.
Proof.
  destruct cs as [|c cs]; simpl; [done|].
  destruct (digit_in lo hi c) as [d|] eqn:H1; [|done].
  apply digit_in_range in H1. by intros [= <- _].
Qed.

Lemma space_digit_range cs v rest :
  space_digit cs = Some (v, rest) → 1 ≤ v ≤ 9.
Proof.
  destruct cs as [|c cs]; simpl; [done|]. repeat case_match; try done.
  apply one_digit_range.
Qed.

(** The result of the first alternative that matches is in the range
    of one of the alternatives. *)
Lemma first_of_range alts lo hi cs v rest :
  Forall (λ alt, ∀ v rest, alt cs = Some (v, rest) → lo ≤ v ≤ hi) alts →
  first_of alts cs = Some (v, rest) → lo ≤ v ≤ hi.
Proof.
  induction 1 as [|alt alts Halt _ IH]; simpl; [done|].
  destruct (alt cs) as [[v' rest']|] eqn:Hcs; [|done].
  intros [= <- <-]. by eapply Halt.
Qed.

(** The range of an alternative of a directive. *)
Ltac alt_range :=
  let H := fresh in
  intros ? ? H;
  first [apply two_digits_range in H | apply one_digit_range in H
        | apply space_digit_range in H];
  lia.

Ltac directive_range :=
  apply first_of_range; repeat (apply Forall_cons_2; [alt_range|]);
  apply Forall_nil_2.

Lemma directive_Y_range cs v rest :
  directive_Y cs = Some (v, rest) → 0 ≤ v ≤ 9999.
Proof.
  destruct cs as [|c1 [|c2 [|c3 [|c4 cs]]]]; simpl; [done..|].
  destruct (isdigit c1) eqn:H1, (isdigit c2) eqn:H2, (isdigit c3) eqn:H3,
    (isdigit c4) eqn:H4; simpl; try done.
  intros [= <- _]. apply digit_value_nonneg in H1, H2, H3, H4.
  unfold int_of_digits. simpl. lia.
Qed.

Lemma directive_m_range cs v rest : directive_m cs = Some (v, rest) → 1 ≤ v ≤ 12.
Proof. directive_range. Qed.

Lemma directive_d_range cs v rest : directive_d cs = Some (v, rest) → 1 ≤ v ≤ 31.
Proof. directive_range. Qed.

Lemma directive_H_range cs v rest : directive_H cs = Some (v, rest) → 0 ≤ v ≤ 23.
Proof. directive_range. Qed.

Lemma directive_M_range cs v rest : directive_M cs = Some (v, rest) → 0 ≤ v ≤ 59.
Proof. directive_range. Qed.

Lemma directive_S_range cs v rest : directive_S cs = Some (v, rest) → 0 ≤ v ≤ 61.
Proof. directive_range. Qed.

(** The fields of a match are in the ranges of the directives. *)
Lemma match_format_range cs f rest :
  match_format cs = Some (f, rest) →
  0 ≤ year f ≤ 9999 ∧ 1 ≤ month f ≤ 12 ∧ 1 ≤ day f ≤ 31 ∧
  0 ≤ hour f ≤ 23 ∧ 0 ≤ minute f ≤ 59 ∧ 0 ≤ second f ≤ 61.
Proof.
  unfold match_format. intros H.
  repeat first
    [ progress simplify_option_eq
    | match goal with
      | H : context [let '(_, _) := ?p in _] |- _ => destruct p
      end ].
  repeat match goal with
         | H : _ = Some (_, _) |- _ =>
           first [apply directive_Y_range in H | apply directive_m_range in H
                 | apply directive_d_range in H | apply directive_H_range in H
                 | apply directive_M_range in H | apply directive_S_range in H]
         end.
  done.
Qed.

(** A time that the parser returns is a time of the calendar in the
    years 1 to 9999. *)
Lemma strptime_timestamp_valid ts t :
  strptime_timestamp ts = Return t →
  ∃ f, valid f ∧ 1 ≤ year f ≤ 9999 ∧ t = timestamp f.
Proof.
  unfold strptime_timestamp, check_fields.
  destruct (match_format _) as [[f [|c rest]]|] eqn:Hm; [|done..].
  apply match_format_range in Hm.
  repeat (case_bool_decide; simpl; [|done]). intros [= <-].
  exists f. unfold valid, valid_date. lia.
Qed.

Lemma timestamp_bounds f :
  valid f → 1 ≤ year f ≤ 9999 → timestamp_min ≤ timestamp f ≤ timestamp_max.
Proof.
  intros Hf Hy. pose proof (time_of_day_bounds f Hf) as Ht.
  destruct Hf as [Hd _]. apply _ymd2ord_bounds in Hd.
  pose proof (_days_before_year_mono 1 (year f) ltac:(lia)) as Hlo.
  pose proof (_days_before_year_mono (year f + 1) 10000 ltac:(lia)) as Hhi.
  unfold timestamp, time_of_day in *.
  change (_days_before_year 1) with 0 in Hlo.
  change (_days_before_year 10000) with 3652059 in Hhi.
  change (_ymd2ord 1970 1 1) with 719163.
  unfold timestamp_min, timestamp_max. lia.
Qed.

(** ** The parser on the output of [isoformat] *)

(** Case analysis on an integer of a range. *)
Ltac Z_range_cases n lo len :=
  let Hin := fresh in
  assert (n ∈ seqZ lo len) as Hin by (apply elem_of_seqZ; lia);
  repeat (apply elem_of_cons in Hin as [->|Hin]; [reflexivity|]);
  by apply elem_of_nil in Hin.

Lemma digit_char_value d :
  0 ≤ d ≤ 9 → isdigit (digit_char d) = true ∧ digit_value (digit_char d) = d.
Proof.
  intros Hd. assert (d ∈ seqZ 0 10) as Hin by (apply elem_of_seqZ; lia).
  repeat (apply elem_of_cons in Hin as [->|Hin]; [done|]).
  by apply elem_of_nil in Hin.
Qed.

Lemma directive_Y_pad4 y rest :
  0 ≤ y ≤ 9999 → directive_Y (pad4 y ++ rest) = Some (y, rest).
Proof.
  intros Hy. unfold pad4, pad2. cbn [app directive_Y forallb].
  destruct (digit_char_value ((y `div` 100) `div` 10)) as [-> H1];
    [Z.div_mod_to_equations; lia|].
  destruct (digit_char_value ((y `div` 100) `mod` 10)) as [-> H2];
    [Z.div_mod_to_equations; lia|].
  destruct (digit_char_value ((y `mod` 100) `div` 10)) as [-> H3];
    [Z.div_mod_to_equations; lia|].
  destruct (digit_char_value ((y `mod` 100) `mod` 10)) as [-> H4];
    [Z.div_mod_to_equations; lia|].
  simpl. f_equal. f_equal. unfold int_of_digits. simpl.
  rewrite H1, H2, H3, H4. Z.div_mod_to_equations. lia.
Qed.

Lemma directive_m_pad2 m rest :
  1 ≤ m ≤ 12 → directive_m (pad2 m ++ rest) = Some (m, rest).
Proof. intros Hm. Z_range_cases m 1 12. Qed.

Lemma directive_d_pad2 d rest :
  1 ≤ d ≤ 31 → directive_d (pad2 d ++ rest) = Some (d, rest).
Proof. intros Hd. Z_range_cases d 1 31. Qed.

Lemma directive_H_pad2 h rest :
  0 ≤ h ≤ 23 → directive_H (pad2 h ++ rest) = Some (h, rest).
Proof. intros Hh. Z_range_cases h 0 24. Qed.

Lemma directive_M_pad2 m rest :
  0 ≤ m ≤ 59 → directive_M (pad2 m ++ rest) = Some (m, rest).
Proof. intros Hm. Z_range_cases m 0 60. Qed.

Lemma directive_S_pad2 s rest :
  0 ≤ s ≤ 59 → directive_S (pad2 s ++ rest) = Some (s, rest).
Proof. intros Hs. Z_range_cases s 0 60. Qed.

Lemma literal_cons c rest : literal c (c :: rest) = Some rest.
Proof. unfold literal. by rewrite bool_decide_eq_true_2. Qed.

(** One field of the format and the separator after it. *)
Ltac field_parsed lem :=
  rewrite lem by lia; cbn [mbind option_bind];
  rewrite literal_cons; cbn [mbind option_bind].

Lemma match_format_isoformat f :
  valid f → 0 ≤ year f ≤ 9999 →
  match_format (String.list_ascii_of_string (isoformat f)) = Some (f, []).
Proof.
  intros ([? ?] & ? & ? & ?) ?. pose proof (_days_in_month_bounds (year f) (month f)).
  unfold isoformat, match_format. rewrite String.list_ascii_of_string_of_list_ascii.
  field_parsed directive_Y_pad4. field_parsed directive_m_pad2.
  field_parsed directive_d_pad2. field_parsed directive_H_pad2.
  field_parsed directive_M_pad2.
  rewrite <-(app_nil_r (pad2 (second f))), directive_S_pad2 by done.
  by destruct f.
Qed.

(** The parser reads what [isoformat] writes. *)
Lemma strptime_timestamp_isoformat f :
  valid f → 1 ≤ year f ≤ 9999 →
  strptime_timestamp (isoformat f) = Return (timestamp f).
Proof.
  intros Hf Hy. unfold strptime_timestamp, check_fields.
  rewrite match_format_isoformat by (done || lia).
  destruct Hf as ([? ?] & ? & ? & ?). by rewrite !bool_decide_eq_true_2.
Qed.

(** A time that the parser returns is within the calendar. *)
Lemma strptime_timestamp_bounds ts t :
  strptime_timestamp ts = Return t → timestamp_min ≤ t ≤ timestamp_max.
Proof.
  intros (f & Hf & Hy & ->)%strptime_timestamp_valid. by apply timestamp_bounds.
Qed.

End datetime.

#[export] Instance cpython_timestamps : TimestampParser :=
  {| strptime_timestamp := datetime.strptime_timestamp |}.
