(* ===== verification/FileStorage.v ===== *)
(** * The file storage simulation

    Model of [src/practice_assessments/file_storage/simulation.py]:
    the function [simulate_coding_framework] with the functions nested
    in it.

    - The variables of the enclosing function that the nested functions
      share ([db_files], [rollback_mode], [out]) are the fields of the
      record [state]; a nested function is a computation in the monad
      [M state].
    - [db_files] is a Python [dict], which keeps its keys in the order
      of their first insertion: it is an association list ([dict_get],
      [dict_set]), since [search] iterates over it and the first size
      that does not parse is the one reported.
    - The regular expression [_SIZE_RE] is the scanner [_SIZE_RE_match];
      [size_re_matches] is the language of the expression, and the two
      are proved to agree.
    - [list.sort] is [merge_sort] on the order of the sort key: two
      entries with equal keys are equal, so the stable sort of Python
      and this one return the same list.
    - [parse_ts] calls [datetime.strptime]; the model takes the parser
      of timestamps as the operation of the class [TimestampParser] of
      [Strptime.v], and the examples take CPython's.
    - An operation is the list of its strings; reading a missing
      position raises [IndexError] as in Python. *)

From Stdlib Require Import Ascii.
From stdpp Require Import strings list sorting.
From S2P Require Import Prelude PyString Strptime.

Local Open Scope Z_scope.
Local Open Scope py_scope.

(** ** Dictionaries in insertion order *)

Section dict.
Context {V : Type}.

(** [d.get(k)]. *)
Fixpoint dict_get (d : list (string * V)) (k : string) : option V :=
  match d with
  | [] => None
  | (k', v) :: d => if decide (k' = k) then Some v else dict_get d k
  end.

(** [d[k] = v]: a stored key keeps its position, a new one goes last. *)
Fixpoint dict_set (d : list (string * V)) (k : string) (v : V) :
    list (string * V) :=
  match d with
  | [] => [(k, v)]
  | (k', v') :: d =>
    if decide (k' = k) then (k, v) :: d else (k', v') :: dict_set d k v
  end.

(** The keys are distinct: what makes the list a dictionary. *)
Definition dict_ok (d : list (string * V)) : Prop := NoDup d.*1.

Implicit Types (d : list (string * V)) (k : string) (v : V).

Lemma dict_get_Some d k v : dict_get d k = Some v → (k, v) ∈ d.
Proof.
  induction d as [|[k' v'] d IH]; simpl; [done|].
  case_decide; [intros [= ->]; subst; by left|right; auto].
Qed.

Lemma dict_get_None d k : dict_get d k = None ↔ k ∉ d.*1.
Proof.
  induction d as [|[k' v'] d IH]; simpl; [by split; [intros _ ?%elem_of_nil|]|].
  rewrite not_elem_of_cons. case_decide; subst; [by split; [|intros []]|].
  rewrite IH. by split; [|intros []].
Qed.

Lemma dict_get_elem_of d k v : dict_ok d → (k, v) ∈ d → dict_get d k = Some v.
Proof.
  unfold dict_ok. induction d as [|[k' v'] d IH]; simpl; [by intros _ ?%elem_of_nil|].
  intros [Hk' Hd]%NoDup_cons [[= -> ->]|Hin]%elem_of_cons.
  - by rewrite decide_True.
  - rewrite decide_False; [by apply IH|]. intros ->. apply Hk'.
    apply list_elem_of_fmap. by exists (k, v).
Qed.

Lemma dict_get_set_eq d k v : dict_get (dict_set d k v) k = Some v.
Proof.
  induction d as [|[k' v'] d IH]; simpl; [by rewrite decide_True|].
  case_decide; simpl; [by rewrite decide_True|by rewrite decide_False].
Qed.

Lemma dict_get_set_ne d k k' v :
  k ≠ k' → dict_get (dict_set d k v) k' = dict_get d k'.
Proof.
  intros Hne. induction d as [|[k0 v0] d IH]; simpl; [by rewrite decide_False|].
  destruct (decide (k0 = k)) as [->|Hk]; simpl.
  - by destruct (decide (k = k')).
  - by destruct (decide (k0 = k')).
Qed.

(** A stored key keeps its place; a new key goes to the end. *)
Lemma dict_set_keys d k v :
  (dict_set d k v).*1 = if decide (k ∈ d.*1) then d.*1 else d.*1 ++ [k].
Proof.
  induction d as [|[k' v'] d IH]; [done|]. cbn [dict_set].
  destruct (decide (k' = k)) as [->|Hne]; rewrite !fmap_cons; cbn [fst].
  - rewrite decide_True; [done|by left].
  - rewrite IH. destruct (decide (k ∈ d.*1)) as [Hin|Hin].
    + rewrite decide_True; [done|by right].
    + rewrite decide_False; [done|]. rewrite not_elem_of_cons. by split.
Qed.

Lemma dict_set_ok d k v : dict_ok d → dict_ok (dict_set d k v).
Proof.
  unfold dict_ok. rewrite dict_set_keys. case_decide; [done|].
  intros Hd. apply NoDup_app. split_and!; [done| |apply NoDup_singleton].
  by intros k' Hk' ->%list_elem_of_singleton.
Qed.

(** What holds of every stored value holds after an assignment of a
    value of which it holds. *)
Lemma dict_set_Forall (P : V → Prop) d k v :
  Forall (λ item, P item.2) d → P v → Forall (λ item, P item.2) (dict_set d k v).
Proof.
  intros Hd Hv. induction Hd as [|[k' v'] d Hk' Hd IH]; cbn [dict_set].
  - by constructor.
  - case_decide; constructor; auto.
Qed.

End dict.

Module simulation.

Record FileObj : Type := mkFileObj {
  size : string;
  created_at : Z;
  ttl_seconds : option Z
}.

#[export] Instance FileObj_eq_dec : EqDecision FileObj.
Proof. solve_decision. Defined.

(** The variables of [simulate_coding_framework]. *)
Record state : Type := mkState {
  db_files : list (string * FileObj);
  rollback_mode : bool;
  out : list string
}.

Definition set_db_files (f : list (string * FileObj) → list (string * FileObj))
    (s : state) : state :=
  mkState (f (db_files s)) (rollback_mode s) (out s).
Definition set_rollback_mode (f : bool → bool) (s : state) : state :=
  mkState (db_files s) (f (rollback_mode s)) (out s).
Definition set_out (f : list string → list string) (s : state) : state :=
  mkState (db_files s) (rollback_mode s) (f (out s)).

Arguments set_db_files f !s /.
Arguments set_rollback_mode f !s /.
Arguments set_out f !s /.

(** The state at the start of the loop over the operations. *)
Definition initial : state := mkState [] false [].

(** *** [convert_file_size] *)

(** [_SIZE_RE.match(s)]: the groups 1 and 2 of a match, [None] where
    the expression does not match.  The classes of white space, digits
    and letters are disjoint, so the greedy scan is the only match. *)
Definition _SIZE_RE_match (s : string) : option (list ascii * list ascii) :=
  let cs := dropwhile isspace (String.list_ascii_of_string s) in
  let digits := takewhile isdigit cs in
  let cs := dropwhile isspace (dropwhile isdigit cs) in
  let letters := takewhile isalpha cs in
  let cs := dropwhile isspace (dropwhile isalpha cs) in
  match digits, cs with
  | _ :: _, [] => Some (digits, letters)
  | _, _ => None
  end.

Definition convert_file_size (size_str : string) : outcome Z :=
  match _SIZE_RE_match size_str with
  | None => Raise (ValueError ("Invalid size: " +:+ repr size_str))
  | Some (digits, letters) =>
    let value := int_of_digits digits in
    let unit := lower (String.string_of_list_ascii letters) in
    if bool_decide (unit = "kb" ∨ unit = "k") then Return (value * 1024)
    else if bool_decide (unit = "mb" ∨ unit = "m") then
      Return (value * 1024 * 1024)
    else if bool_decide (unit = "b" ∨ unit = "") then Return value
    else Raise (ValueError ("Unknown size unit: " +:+ repr size_str))
  end.

(** *** [is_alive] *)

Definition is_alive (at_ts : Z) (obj : FileObj) : bool :=
  match ttl_seconds obj with
  | None => true
  | Some ttl => bool_decide (at_ts < created_at obj + ttl)
  end.

Arguments is_alive : simpl never.

(** *** The core operations *)

Section operations.
Context {tp : TimestampParser}.

Definition parse_ts (ts : string) : M state Z :=
  lift_outcome (strptime_timestamp ts).

(** [db_files[name]]: [KeyError] for a missing name. *)
Definition db_files_getitem (name : string) : M state FileObj :=
  let* db := gets db_files in lift_option KeyError (dict_get db name).

Definition upload (at_ts : Z) (name size : string) (ttl : option Z) :
    M state unit :=
  let* db := gets db_files in
  let* duplicate :=
    if bool_decide (name ∈ db.*1) then
      let* obj := db_files_getitem name in ret (is_alive at_ts obj)
    else ret false in
  if duplicate then
    raise (RuntimeError ("File " +:+ name +:+ " already exists"))
  else
    modify (set_db_files (λ d, dict_set d name (mkFileObj size at_ts ttl))).

Definition get (at_ts : Z) (name : string) : M state (option FileObj) :=
  let* obj := gets (λ s, dict_get (db_files s) name) in
  match obj with
  | None => ret None
  | Some o => if negb (is_alive at_ts o) then ret None else ret (Some o)
  end.

Definition copy (at_ts : Z) (src dest : string) : M state unit :=
  let* src_obj := get at_ts src in
  match src_obj with
  | None =>
    raise (RuntimeError ("Source files " +:+ src +:+ " does not exist."))
  | Some o =>
    modify (set_db_files (λ d,
      dict_set d dest (mkFileObj (size o) (created_at o) (ttl_seconds o))))
  end.

(** The order of the sort key [(-size, name)] on the pairs
    [(name, size)]. *)
Definition sized_le (a b : string * Z) : Prop :=
  - a.2 < - b.2 ∨ (- a.2 = - b.2 ∧ String.le a.1 b.1).

#[export] Instance sized_le_dec : RelDecision sized_le.
Proof. intros a b. unfold sized_le. apply _. Defined.

(** The loop of [search] that collects the names with their sizes; the
    first size that does not parse ends it with [ValueError]. *)
Fixpoint search_sized (at_ts : Z) (prefix : string)
    (items : list (string * FileObj)) : outcome (list (string * Z)) :=
  match items with
  | [] => Return []
  | (name, obj) :: items =>
    if startswith name prefix && is_alive at_ts obj then
      match convert_file_size (size obj) with
      | Raise e => Raise e
      | Return n =>
        match search_sized at_ts prefix items with
        | Raise e => Raise e
        | Return sized => Return ((name, n) :: sized)
        end
      end
    else search_sized at_ts prefix items
  end.

Definition search (at_ts : Z) (prefix : string) (alphabetical_only : bool) :
    M state (list string) :=
  let* db := gets db_files in
  if alphabetical_only then
    let names :=
      (filter (λ item, startswith item.1 prefix && is_alive at_ts item.2) db).*1 in
    let names := merge_sort String.le names in
    ret (take 10 names)
  else
    let* sized := lift_outcome (search_sized at_ts prefix db) in
    let sized := merge_sort sized_le sized in
    ret ((take 10 sized).*1).

Definition rollback (ts_str : string) : M state unit :=
  modify (set_rollback_mode (λ _, true)) ;;
  let* t := parse_ts ts_str in
  modify (set_db_files (fmap (λ item,
    (item.1, mkFileObj (size item.2) t (ttl_seconds item.2))))).

(** *** The dispatcher *)

(** [op[i]]. *)
Definition getitem (op : list string) (i : nat) : M state string :=
  lift_option IndexError (op !! i).

(** [out.append(line)]. *)
Definition out_append (line : string) : M state unit :=
  modify (set_out (λ o, o ++ [line])).

(** The body of the loop: one operation. *)
Definition dispatch (op : list string) : M state unit :=
  let* cmd := getitem op 0 in
  if decide (cmd = "FILE_UPLOAD") then
    let* name := getitem op 1 in
    let* size := getitem op 2 in
    upload 0 name size None ;;
    out_append ("uploaded " +:+ name)
  else if decide (cmd = "FILE_GET") then
    let* name := getitem op 1 in
    let* obj := get 0 name in
    out_append (if obj is None then "file not found" else "got " +:+ name)
  else if decide (cmd = "FILE_COPY") then
    let* src := getitem op 1 in
    let* dest := getitem op 2 in
    copy 0 src dest ;;
    out_append ("copied " +:+ src +:+ " to " +:+ dest)
  else if decide (cmd = "FILE_SEARCH") then
    let* prefix := getitem op 1 in
    let* names := search 0 prefix false in
    out_append ("found [" +:+ join ", " names +:+ "]")
  else if decide (cmd = "FILE_UPLOAD_AT") then
    let* ts_str := getitem op 1 in
    let* name := getitem op 2 in
    let* size := getitem op 3 in
    let* ttl :=
      if decide (length op = 5%nat) then
        let* s := getitem op 4 in
        let* n := lift_outcome (py_int s) in ret (Some n)
      else ret None in
    let* at_ts := parse_ts ts_str in
    upload at_ts name size ttl ;;
    out_append ("uploaded at " +:+ name)
  else if decide (cmd = "FILE_GET_AT") then
    let* ts_str := getitem op 1 in
    let* name := getitem op 2 in
    let* at_ts := parse_ts ts_str in
    let* obj := get at_ts name in
    out_append (if obj is None then "file not found" else "got at " +:+ name)
  else if decide (cmd = "FILE_COPY_AT") then
    let* ts_str := getitem op 1 in
    let* src := getitem op 2 in
    let* dest := getitem op 3 in
    let* at_ts := parse_ts ts_str in
    copy at_ts src dest ;;
    out_append ("copied at " +:+ src +:+ " to " +:+ dest)
  else if decide (cmd = "FILE_SEARCH_AT") then
    let* ts_str := getitem op 1 in
    let* prefix := getitem op 2 in
    let* at_ts := parse_ts ts_str in
    let* mode := gets rollback_mode in
    let* names := search at_ts prefix mode in
    out_append ("found at [" +:+ join ", " names +:+ "]")
  else if decide (cmd = "ROLLBACK") then
    let* ts_str := getitem op 1 in
    rollback ts_str ;;
    out_append ("rollback to " +:+ ts_str)
  else raise (RuntimeError ("Unknown operation: " +:+ cmd)).

(** The loop over the operations. *)
Fixpoint run (list_of_lists : list (list string)) : M state unit :=
  match list_of_lists with
  | [] => ret tt
  | op :: list_of_lists => dispatch op ;; run list_of_lists
  end.

Definition simulate_coding_framework (list_of_lists : list (list string)) :
    outcome (list string) :=
  fst ((run list_of_lists ;; gets out) initial).

End operations.

(** * [convert_file_size] *)

(** The language of [_SIZE_RE]: from the start to the end of the
    string, white space, one digit or more (group 1), white space,
    letters (group 2), white space. *)
Definition size_re_matches (s : string) (digits letters : list ascii) : Prop :=
  ∃ w1 w2 w3,
    String.list_ascii_of_string s = w1 ++ digits ++ w2 ++ letters ++ w3 ∧
    Forall (λ c, isspace c = true) w1 ∧
    Forall (λ c, isspace c = true) w2 ∧
    Forall (λ c, isspace c = true) w3 ∧
    Forall (λ c, isdigit c = true) digits ∧ digits ≠ [] ∧
    Forall (λ c, isalpha c = true) letters.

Section size_re.
Implicit Types (cs ds ls w : list ascii) (c : ascii).

(** A list that starts with a digit, a letter or nothing stops the scan
    of white space, and so on for the other classes. *)
Lemma stops_head (p q : ascii → bool) cs cs' :
  (∀ c, q c = true → p c = false) →
  Forall (λ c, q c = true) cs → cs ≠ [] →
  ∀ c, head (cs ++ cs') = Some c → p c = false.
Proof.
  intros Hpq Hcs Hne c. destruct cs as [|c' cs]; [done|]. simpl.
  intros [= ->]. apply Hpq. by apply Forall_cons in Hcs as [? _].
Qed.

Lemma stops_Forall (p : ascii → bool) cs :
  Forall (λ c, p c = false) cs → ∀ c, head cs = Some c → p c = false.
Proof. intros Hcs c. destruct cs as [|c' cs]; [done|]. intros [= ->]. by inversion Hcs. Qed.

(** The scan after the digits: white space, letters, white space. *)
Lemma scan_tail w2 ls w3 :
  Forall (λ c, isspace c = true) w2 → Forall (λ c, isspace c = true) w3 →
  Forall (λ c, isalpha c = true) ls →
  let cs := dropwhile isspace (w2 ++ ls ++ w3) in
  takewhile isalpha cs = ls ∧
  dropwhile isspace (dropwhile isalpha cs) = [].
Proof.
  intros Hw2 Hw3 Hls. destruct (decide (ls = [])) as [->|Hne]; simpl.
  - by rewrite (proj2 (takewhile_all isspace (w2 ++ w3) ltac:(by apply Forall_app))).
  - destruct (takewhile_app isspace w2 (ls ++ w3) Hw2) as [_ ->].
    { eapply stops_head; [apply isalpha_not_isspace|done..]. }
    destruct (takewhile_app isalpha ls w3 Hls) as [-> ->].
    { apply stops_Forall. eapply Forall_impl; [exact Hw3|].
      apply isspace_not_isalpha. }
    split; [done|]. by apply takewhile_all.
Qed.

Lemma size_re_match_complete s ds ls :
  size_re_matches s ds ls → _SIZE_RE_match s = Some (ds, ls).
Proof.
  intros (w1 & w2 & w3 & Hs & Hw1 & Hw2 & Hw3 & Hds & Hne & Hls).
  unfold _SIZE_RE_match. rewrite Hs.
  destruct (takewhile_app isspace w1 (ds ++ w2 ++ ls ++ w3) Hw1) as [_ ->].
  { eapply stops_head; [apply isdigit_not_isspace|done..]. }
  destruct (takewhile_app isdigit ds (w2 ++ ls ++ w3) Hds) as [-> ->].
  { apply stops_Forall. rewrite !Forall_app. split_and!.
    - eapply Forall_impl; [exact Hw2|]. apply isspace_not_isdigit.
    - eapply Forall_impl; [exact Hls|]. apply isalpha_not_isdigit.
    - eapply Forall_impl; [exact Hw3|]. apply isspace_not_isdigit. }
  destruct (scan_tail w2 ls w3 Hw2 Hw3 Hls) as [-> ->].
  by destruct ds.
Qed.

Lemma size_re_match_sound s ds ls :
  _SIZE_RE_match s = Some (ds, ls) → size_re_matches s ds ls.
Proof.
  unfold _SIZE_RE_match.
  set (cs0 := String.list_ascii_of_string s).
  set (cs1 := dropwhile isspace cs0). set (cs2 := dropwhile isdigit cs1).
  set (cs3 := dropwhile isspace cs2). set (cs4 := dropwhile isalpha cs3).
  destruct (takewhile isdigit cs1) as [|d ds'] eqn:Hds; [done|].
  destruct (dropwhile isspace cs4) eqn:Hend; [|done]. intros [= <- <-].
  exists (takewhile isspace cs0), (takewhile isspace cs2), (takewhile isspace cs4).
  split_and!; try apply Forall_takewhile; [|rewrite <-Hds; apply Forall_takewhile|done].
  rewrite <-(app_nil_r (takewhile isspace cs4)), <-Hend, <-Hds.
  rewrite (takewhile_dropwhile isspace cs4).
  unfold cs4. rewrite (takewhile_dropwhile isalpha cs3).
  unfold cs3. rewrite (takewhile_dropwhile isspace cs2).
  unfold cs2. rewrite (takewhile_dropwhile isdigit cs1).
  unfold cs1. by rewrite (takewhile_dropwhile isspace cs0).
Qed.

(** The value of a size is not negative. *)
Lemma convert_file_size_nonneg size_str n :
  convert_file_size size_str = Return n → 0 ≤ n.
Proof.
  unfold convert_file_size.
  destruct (_SIZE_RE_match size_str) as [[ds ls]|] eqn:Hm; [|done].
  apply size_re_match_sound in Hm as (_ & _ & _ & _ & _ & _ & _ & Hds & _).
  pose proof (int_of_digits_nonneg ds Hds).
  repeat case_bool_decide; intros [= <-]; lia.
Qed.

(** It raises nothing but [ValueError]. *)
Lemma convert_file_size_raises size_str e :
  convert_file_size size_str = Raise e → ∃ msg, e = ValueError msg.
Proof.
  unfold convert_file_size. destruct (_SIZE_RE_match size_str) as [[ds ls]|].
  - repeat case_bool_decide; intros [= <-]; eauto.
  - intros [= <-]; eauto.
Qed.

End size_re.

(** * Files and their lifetime *)

(** The file stored under [name] that is alive at [at_ts]: what [get]
    returns. *)
Definition alive_get (db : list (string * FileObj)) (at_ts : Z)
    (name : string) : option FileObj :=
  match dict_get db name with
  | Some o => if is_alive at_ts o then Some o else None
  | None => None
  end.

(** Reduce the projections and assignments of a state. *)
Ltac state_simpl :=
  cbn [db_files rollback_mode out set_db_files set_rollback_mode set_out] in *.

Section lifetime.
Implicit Types (o : FileObj) (t : Z).

(** A file alive at some time is alive at every earlier time; one that
    has expired stays expired. *)
Lemma is_alive_mono t t' o : t' ≤ t → is_alive t o = true → is_alive t' o = true.
Proof.
  unfold is_alive. destruct (ttl_seconds o); [|done].
  rewrite !bool_decide_eq_true. lia.
Qed.

Lemma is_alive_None t size created :
  is_alive t (mkFileObj size created None) = true.
Proof. done. Qed.

Lemma is_alive_Some t size created ttl :
  is_alive t (mkFileObj size created (Some ttl)) = true ↔ t < created + ttl.
Proof. unfold is_alive. simpl. by rewrite bool_decide_eq_true. Qed.

Lemma alive_get_Some db t name o :
  alive_get db t name = Some o ↔ dict_get db name = Some o ∧ is_alive t o = true.
Proof.
  unfold alive_get. destruct (dict_get db name) as [o'|]; [|by split; [|intros []]].
  destruct (is_alive t o') eqn:Ho; split; try done.
  - by intros [= ->].
  - by intros [[= ->] _].
  - intros [[= ->] ?]. congruence.
Qed.

Lemma alive_get_set_eq db t name o :
  alive_get (dict_set db name o) t name = if is_alive t o then Some o else None.
Proof. unfold alive_get. by rewrite dict_get_set_eq. Qed.

Lemma alive_get_set_ne db t name name' o :
  name ≠ name' → alive_get (dict_set db name o) t name' = alive_get db t name'.
Proof. intros Hne. unfold alive_get. by rewrite dict_get_set_ne. Qed.

End lifetime.

(** * The core operations *)

Section operations_spec.
Context {tp : TimestampParser}.
Implicit Types (s : state) (o : FileObj) (name src dest : string) (t at_ts : Z).

Lemma get_run at_ts name s :
  get at_ts name s = (Return (alive_get (db_files s) at_ts name), s).
Proof.
  unfold get, alive_get, bind, gets. simpl.
  destruct (dict_get (db_files s) name) as [o|]; [|done].
  by destruct (is_alive at_ts o).
Qed.

(** [upload] refuses a name whose file is alive at [at_ts], and leaves
    everything as it was. *)
Lemma upload_duplicate at_ts name size ttl s o :
  alive_get (db_files s) at_ts name = Some o →
  upload at_ts name size ttl s =
    (Raise (RuntimeError ("File " +:+ name +:+ " already exists")), s).
Proof.
  intros [Ho Halive]%alive_get_Some. unfold upload, bind, gets. simpl.
  rewrite bool_decide_eq_true_2.
  - unfold db_files_getitem, bind, gets. simpl. rewrite Ho. simpl.
    by rewrite Halive.
  - apply dict_get_Some in Ho. apply list_elem_of_fmap. by exists (name, o).
Qed.

(** Otherwise it stores the file, in the place of an expired file of
    that name if there is one. *)
Lemma upload_fresh at_ts name size ttl s :
  alive_get (db_files s) at_ts name = None →
  upload at_ts name size ttl s =
    (Return tt,
     set_db_files (λ d, dict_set d name (mkFileObj size at_ts ttl)) s).
Proof.
  intros Hnone. unfold upload, bind, gets. simpl. case_bool_decide as Hin.
  - unfold db_files_getitem, bind, gets. simpl. unfold alive_get in Hnone.
    destruct (dict_get (db_files s) name) as [o|] eqn:Ho.
    + simpl. by destruct (is_alive at_ts o).
    + by apply dict_get_None in Ho.
  - done.
Qed.

Lemma copy_missing at_ts src dest s :
  alive_get (db_files s) at_ts src = None →
  copy at_ts src dest s =
    (Raise (RuntimeError ("Source files " +:+ src +:+ " does not exist.")), s).
Proof. intros Hnone. unfold copy, bind. by rewrite get_run, Hnone. Qed.

Lemma copy_present at_ts src dest s o :
  alive_get (db_files s) at_ts src = Some o →
  copy at_ts src dest s = (Return tt, set_db_files (λ d, dict_set d dest o) s).
Proof.
  intros Ho. unfold copy, bind. rewrite get_run, Ho. by destruct o.
Qed.

Lemma rollback_run ts_str t s :
  strptime_timestamp ts_str = Return t →
  rollback ts_str s =
    (Return tt,
     mkState ((λ item, (item.1, mkFileObj (size item.2) t (ttl_seconds item.2)))
                <$> db_files s) true (out s)).
Proof.
  intros Ht. unfold rollback, bind, modify, parse_ts, lift_outcome. simpl.
  by rewrite Ht.
Qed.

End operations_spec.

(** * [search] *)

(** The files that [search] considers: those whose name starts with the
    prefix and that are alive. *)
Definition matching (at_ts : Z) (prefix : string)
    (db : list (string * FileObj)) : list (string * FileObj) :=
  filter (λ item, startswith item.1 prefix && is_alive at_ts item.2) db.

(** The sort key is a total order on the pairs of a name and a size. *)
#[export] Instance sized_le_trans : Transitive sized_le.
Proof.
  intros [n1 z1] [n2 z2] [n3 z3]. unfold sized_le. simpl.
  intros [?|[? H12]] [?|[? H23]]; try (left; lia).
  right. split; [lia|]. by etrans.
Qed.

#[export] Instance sized_le_total : Total sized_le.
Proof.
  intros [n1 z1] [n2 z2]. unfold sized_le. simpl.
  destruct (Z.lt_trichotomy z1 z2) as [?|[->|?]]; [right; left; lia| |left; left; lia].
  destruct (total String.le n1 n2); [left|right]; by right.
Qed.

#[export] Instance sized_le_antisymm : AntiSymm eq sized_le.
Proof.
  intros [n1 z1] [n2 z2]. unfold sized_le. simpl.
  intros [?|[? H12]] [?|[? H21]]; try lia.
  f_equal; [by apply (anti_symm String.le)|lia].
Qed.

(** The key puts the larger size first, and among equal sizes the name
    that comes first in the order of strings. *)
Lemma sized_le_largest_first (a b : string * Z) :
  sized_le a b ↔ b.2 < a.2 ∨ (b.2 = a.2 ∧ String.le a.1 b.1).
Proof.
  unfold sized_le. split; (intros [?|[? ?]]; [left; lia|right; split; [lia|done]]).
Qed.

Section search_spec.
Context {tp : TimestampParser}.
Implicit Types (s : state) (db : list (string * FileObj)) (at_ts : Z).
Implicit Types (prefix name : string).

Lemma matching_cons at_ts prefix name o db :
  matching at_ts prefix ((name, o) :: db) =
  if startswith name prefix && is_alive at_ts o
  then (name, o) :: matching at_ts prefix db
  else matching at_ts prefix db.
Proof.
  unfold matching. rewrite filter_cons. simpl.
  by destruct (startswith name prefix && is_alive at_ts o).
Qed.

(** The loop returns the matching files with the values of their
    sizes, when every such size has a value. *)
Lemma search_sized_Return at_ts prefix db sized :
  search_sized at_ts prefix db = Return sized ↔
  Forall2 (λ item sz, sz.1 = item.1 ∧
                      convert_file_size (size item.2) = Return sz.2)
    (matching at_ts prefix db) sized.
Proof.
  revert sized. induction db as [|[name o] db IH]; intros sized; simpl.
  { split; [intros [= <-]; constructor|by intros ->%Forall2_nil_inv_l]. }
  rewrite matching_cons.
  destruct (startswith name prefix && is_alive at_ts o); [|apply IH].
  destruct (convert_file_size (size o)) as [n|e] eqn:Hn.
  - destruct (search_sized at_ts prefix db) as [sized'|e] eqn:Hrest.
    + split.
      * intros [= <-]. constructor; [done|by apply IH].
      * intros ([n' z] & sized'' & [Heq Hz] & Hall & ->)%Forall2_cons_inv_l.
        simpl in *. apply IH in Hall. rewrite Hn in Hz. by simplify_eq.
    + split; [done|].
      intros (sz & sized'' & _ & Hall & ->)%Forall2_cons_inv_l.
      by apply IH in Hall.
  - split; [done|].
    intros (sz & sized'' & [_ Hz] & _)%Forall2_cons_inv_l. simpl in *. congruence.
Qed.

(** It raises the error of the first matching file whose size has no
    value. *)
Lemma search_sized_Raise at_ts prefix db e :
  search_sized at_ts prefix db = Raise e →
  ∃ item, item ∈ matching at_ts prefix db ∧
          convert_file_size (size item.2) = Raise e.
Proof.
  induction db as [|[name o] db IH]; simpl; [done|]. rewrite matching_cons.
  destruct (startswith name prefix && is_alive at_ts o).
  - destruct (convert_file_size (size o)) as [n|e'] eqn:Hn.
    + destruct (search_sized at_ts prefix db); [done|]. intros [= ->].
      destruct IH as (item & ? & ?); [done|]. exists item. split; [by right|done].
    + intros [= ->]. exists (name, o). split; [by left|done].
  - intros (item & ? & ?)%IH. by exists item.
Qed.

(** In the alphabetical mode of a rollback, [search] returns the ten
    first names of the matching files, and nothing is raised. *)
Lemma search_alphabetical at_ts prefix s :
  ∃ names,
    search at_ts prefix true s = (Return names, s) ∧
    top_k String.le 10 (matching at_ts prefix (db_files s)).*1 names.
Proof.
  eexists. split; [reflexivity|]. apply top_k_merge_sort; apply _.
Qed.

(** Otherwise it returns the names of the ten first matching files by
    size, largest first, and by name among equal sizes. *)
Lemma search_by_size at_ts prefix s sized :
  search_sized at_ts prefix (db_files s) = Return sized →
  ∃ res,
    search at_ts prefix false s = (Return res.*1, s) ∧
    top_k sized_le 10 sized res.
Proof.
  intros Hsized. exists (take 10 (merge_sort sized_le sized)). split.
  - unfold search, bind, gets, lift_outcome. simpl. by rewrite Hsized.
  - apply top_k_merge_sort; apply _.
Qed.

(** When every matching size has a value the loop returns, with the
    pairs of the names and these values. *)
Lemma search_by_size_valid at_ts prefix s :
  Forall (λ item, ∃ n, convert_file_size (size item.2) = Return n)
    (matching at_ts prefix (db_files s)) →
  ∃ sized res,
    Forall2 (λ item sz, sz.1 = item.1 ∧
                        convert_file_size (size item.2) = Return sz.2)
      (matching at_ts prefix (db_files s)) sized ∧
    search at_ts prefix false s = (Return res.*1, s) ∧
    top_k sized_le 10 sized res.
Proof.
  intros Hall. destruct (search_sized at_ts prefix (db_files s)) as [sized|e] eqn:Hs.
  - destruct (search_by_size at_ts prefix s sized Hs) as (res & ? & ?).
    exists sized, res. by rewrite <-search_sized_Return.
  - apply search_sized_Raise in Hs as (item & Hitem & Hraise).
    rewrite Forall_forall in Hall. destruct (Hall item Hitem) as [n Hn]. congruence.
Qed.

(** The pairs are those of the matching files, one for one. *)
Lemma sized_matching (items : list (string * FileObj)) sized :
  Forall2 (λ item sz, sz.1 = item.1 ∧
                      convert_file_size (size item.2) = Return sz.2)
    items sized →
  ∀ a, a ∈ sized →
    ∃ o, (a.1, o) ∈ items ∧ convert_file_size (size o) = Return a.2.
Proof.
  intros H2 a [i Hi]%list_elem_of_lookup.
  destruct (Forall2_lookup_r _ _ _ _ _ H2 Hi) as ([name o] & Hitem & Hname & Hsz).
  simpl in *. exists o. split; [|done]. rewrite Hname.
  by apply (list_elem_of_lookup_2 _ i).
Qed.

Lemma matching_sized (items : list (string * FileObj)) sized :
  Forall2 (λ item sz, sz.1 = item.1 ∧
                      convert_file_size (size item.2) = Return sz.2)
    items sized →
  ∀ name o n, (name, o) ∈ items → convert_file_size (size o) = Return n →
    (name, n) ∈ sized.
Proof.
  intros H2 name o n [i Hi]%list_elem_of_lookup Hn.
  destruct (Forall2_lookup_l _ _ _ _ _ H2 Hi) as ([name' n'] & Hsz & Hname & Hval).
  simpl in *. assert (n' = n) as -> by congruence. subst name'.
  by apply (list_elem_of_lookup_2 _ i).
Qed.

Lemma search_invalid_size at_ts prefix s e :
  search_sized at_ts prefix (db_files s) = Raise e →
  search at_ts prefix false s = (Raise e, s).
Proof.
  intros Hsized. unfold search, bind, gets, lift_outcome. simpl.
  by rewrite Hsized.
Qed.

End search_spec.

(** * The dispatcher *)

(** What every step keeps: the names stay distinct, and the rollback
    mode, once set, stays set. *)
Definition keeps (s s' : state) : Prop :=
  (dict_ok (db_files s) → dict_ok (db_files s')) ∧
  (rollback_mode s = true → rollback_mode s' = true).

(** A computation that writes no line of output, whether it returns or
    raises; one that writes one line when it returns and none when it
    raises. *)
Definition quiet {A} (c : M state A) : Prop :=
  ∀ s, wp c (λ _ s', keeps s s' ∧ out s' = out s)
            (λ _ s', keeps s s' ∧ out s' = out s) s.

Definition speaks (c : M state unit) : Prop :=
  ∀ s, wp c (λ _ s', keeps s s' ∧ ∃ line, out s' = out s ++ [line])
            (λ _ s', keeps s s' ∧ out s' = out s) s.

Create HintDb sim discriminated.

Section dispatcher.
Context {tp : TimestampParser}.
Implicit Types (s : state) (op : list string).

Lemma keeps_refl s : keeps s s.
Proof. by split. Qed.

Lemma keeps_trans s1 s2 s3 : keeps s1 s2 → keeps s2 s3 → keeps s1 s3.
Proof. intros [??] [??]. split; auto. Qed.

Lemma quiet_ret {A} (a : A) : quiet (ret a).
Proof. intros s. split; [apply keeps_refl|done]. Qed.

Lemma quiet_raise {A} e : quiet (raise (A:=A) e).
Proof. intros s. split; [apply keeps_refl|done]. Qed.

Lemma quiet_gets {A} (f : state → A) : quiet (gets f).
Proof. intros s. split; [apply keeps_refl|done]. Qed.

Lemma quiet_lift_option {A} e (o : option A) : quiet (lift_option e o).
Proof. destruct o; [apply quiet_ret|apply quiet_raise]. Qed.

Lemma quiet_lift_outcome {A} (o : outcome A) : quiet (lift_outcome o).
Proof. intros s. unfold wp, lift_outcome. destruct o; (split; [apply keeps_refl|done]). Qed.

Lemma quiet_bind {A B} (c : M state A) (k : A → M state B) :
  quiet c → (∀ a, quiet (k a)) → quiet (bind c k).
Proof.
  intros Hc Hk s. apply wp_bind. eapply wp_mono; [apply Hc| |done].
  intros a s' [Hkeeps Hout]. eapply wp_mono; [apply Hk|..];
    intros ? s'' [? ->]; eauto using keeps_trans.
Qed.

Lemma quiet_bind_speaks {A} (c : M state A) (k : A → M state unit) :
  quiet c → (∀ a, speaks (k a)) → speaks (bind c k).
Proof.
  intros Hc Hk s. apply wp_bind. eapply wp_mono; [apply Hc| |done].
  intros a s' [Hkeeps Hout]. eapply wp_mono; [apply Hk|..].
  - intros ? s'' [? [line ->]]. rewrite Hout. eauto using keeps_trans.
  - intros ? s'' [? ->]. eauto using keeps_trans.
Qed.

Lemma quiet_if {A} `{Decision P} (c1 c2 : M state A) :
  quiet c1 → quiet c2 → quiet (if decide P then c1 else c2).
Proof. by case_decide. Qed.

Lemma speaks_if `{Decision P} (c1 c2 : M state unit) :
  speaks c1 → speaks c2 → speaks (if decide P then c1 else c2).
Proof. by case_decide. Qed.

Lemma speaks_raise e : speaks (raise e).
Proof. intros s. split; [apply keeps_refl|done]. Qed.

Lemma speaks_out_append line : speaks (out_append line).
Proof. intros s. split; [by split|by exists line]. Qed.

(** A change of [db_files] that keeps the names distinct. *)
Lemma quiet_set_db_files f :
  (∀ d, dict_ok d → dict_ok (f d)) → quiet (modify (set_db_files f)).
Proof. intros Hf s. split; [|done]. split; [apply Hf|done]. Qed.

Lemma quiet_upload at_ts name size ttl : quiet (upload at_ts name size ttl).
Proof.
  intros s. unfold wp.
  destruct (alive_get (db_files s) at_ts name) as [o|] eqn:Ho.
  - rewrite (upload_duplicate _ _ _ _ _ o Ho). split; [apply keeps_refl|done].
  - rewrite (upload_fresh _ _ _ _ _ Ho). split; [|done].
    split; [apply dict_set_ok|done].
Qed.

Lemma quiet_get at_ts name : quiet (get at_ts name).
Proof. intros s. unfold wp. rewrite get_run. split; [apply keeps_refl|done]. Qed.

Lemma quiet_copy at_ts src dest : quiet (copy at_ts src dest).
Proof.
  intros s. unfold wp.
  destruct (alive_get (db_files s) at_ts src) as [o|] eqn:Ho.
  - rewrite (copy_present _ _ _ _ o Ho). split; [|done].
    split; [apply dict_set_ok|done].
  - rewrite (copy_missing _ _ _ _ Ho). split; [apply keeps_refl|done].
Qed.

Lemma quiet_search at_ts prefix mode : quiet (search at_ts prefix mode).
Proof.
  unfold search. apply quiet_bind; [apply quiet_gets|]. intros db.
  destruct mode; [apply quiet_ret|].
  apply quiet_bind; [apply quiet_lift_outcome|]. intros ?. apply quiet_ret.
Qed.

Lemma quiet_rollback ts_str : quiet (rollback ts_str).
Proof.
  intros s. unfold wp, rollback, bind, modify, parse_ts, lift_outcome. simpl.
  destruct (strptime_timestamp ts_str) as [t|e]; simpl.
  - split; [|done]. split; [|done]. unfold dict_ok. simpl.
    by rewrite <-list_fmap_compose.
  - split; [by split|done].
Qed.

End dispatcher.

#[export] Hint Resolve quiet_ret quiet_raise quiet_gets quiet_lift_option
  quiet_lift_outcome quiet_upload quiet_get quiet_copy quiet_search
  quiet_rollback speaks_raise speaks_out_append : sim.
#[export] Hint Resolve quiet_bind quiet_bind_speaks quiet_if speaks_if | 10 : sim.

Section run.
Context {tp : TimestampParser}.
Implicit Types (s : state) (op : list string) (ops : list (list string)).

Lemma quiet_getitem op i : quiet (getitem op i).
Proof. unfold getitem. auto with sim. Qed.

Lemma quiet_parse_ts ts : quiet (parse_ts ts).
Proof. unfold parse_ts. auto with sim. Qed.

(** One operation writes one line when it returns, and none when it
    raises. *)
Lemma dispatch_speaks op : speaks (dispatch op).
Proof.
  unfold dispatch. pose proof quiet_getitem. pose proof quiet_parse_ts.
  auto 30 with sim.
Qed.

(** The loop writes one line per operation. *)
Lemma run_out ops s :
  wp (run ops)
    (λ _ s', keeps s s' ∧ ∃ lines,
       out s' = out s ++ lines ∧ length lines = length ops)
    (λ _ s', keeps s s') s.
Proof.
  revert s. induction ops as [|op ops IH]; intros s; simpl.
  { split; [apply keeps_refl|]. exists []. by rewrite app_nil_r. }
  apply wp_bind. eapply wp_mono; [apply dispatch_speaks|..].
  - intros [] s1 [Hkeeps [line Hline]]. eapply wp_mono; [apply IH|..].
    + intros [] s2 [Hkeeps2 (lines & -> & Hlen)]. split; [by eapply keeps_trans|].
      exists (line :: lines). rewrite Hline, <-app_assoc. simpl. by rewrite Hlen.
    + intros e s2 ?. by eapply keeps_trans.
  - by intros e s1 [? _].
Qed.

End run.

(** * The contract of the simulation *)

(** The operations of the dispatcher. *)
Definition commands : list string :=
  ["FILE_UPLOAD"; "FILE_GET"; "FILE_COPY"; "FILE_SEARCH"; "FILE_UPLOAD_AT";
   "FILE_GET_AT"; "FILE_COPY_AT"; "FILE_SEARCH_AT"; "ROLLBACK"].

(** A run used in the examples: an upload without a lifetime, one with
    a lifetime of an hour, and a copy. *)
Definition sample_ops : list (list string) :=
  [["FILE_UPLOAD"; "foo.txt"; "100kb"];
   ["FILE_UPLOAD_AT"; "2021-07-01T12:00:00"; "bar.txt"; "2mb"; "3600"];
   ["FILE_COPY"; "foo.txt"; "foo2.txt"]].

Definition sample : state :=
  Eval vm_compute in snd (run (tp:=cpython_timestamps) sample_ops initial).

(** A state with a file whose size has no value. *)
Definition sample_bad : state :=
  Eval vm_compute in
    snd (run (tp:=cpython_timestamps) [["FILE_UPLOAD"; "a.txt"; "1gb"]] initial).

Section contract.
Context {tp : TimestampParser}.
Implicit Types (s : state) (o : FileObj) (name src dest prefix : string).
Implicit Types (t at_ts : Z) (ops : list (list string)).

(** When [simulate_coding_framework] returns, it returns one line
    of output for each operation. *)
Theorem simulate_one_line_per_operation ops lines :
  simulate_coding_framework ops = Return lines → length lines = length ops.
Proof.
  unfold simulate_coding_framework, bind. pose proof (run_out ops initial) as Hrun.
  unfold wp in Hrun. destruct (run ops initial) as [[[]|e] s']; [|done].
  destruct Hrun as [_ (lines' & Hout & Hlen)]. simpl in *.
  intros [= <-]. by rewrite Hout.
Qed.

(** The association list stays a dictionary, with distinct names, in
    every state that the loop reaches and in the one where an exception
    ends it: what [dict_set] and the loop of [rollback] give, whatever
    the operations do with them. *)
Lemma run_keeps_names_distinct ops :
  dict_ok (db_files (run ops initial).2).
Proof.
  pose proof (run_out ops initial) as Hrun. unfold wp in Hrun.
  destruct (run ops initial) as [[[]|e] s']; simpl.
  - destruct Hrun as [[Hok _] _]. apply Hok. constructor.
  - destruct Hrun as [Hok _]. apply Hok. constructor.
Qed.

(** The rollback mode is never reset: after a [ROLLBACK] every
    later [FILE_SEARCH_AT] is alphabetical. *)
Theorem rollback_mode_latches ops s :
  rollback_mode s = true → rollback_mode (run ops s).2 = true.
Proof.
  intros Hmode. pose proof (run_out ops s) as Hrun. unfold wp in Hrun.
  destruct (run ops s) as [[[]|e] s']; simpl.
  - destruct Hrun as [[_ Hlatch] _]. by apply Hlatch.
  - destruct Hrun as [_ Hlatch]. by apply Hlatch.
Qed.

(** C29: the scanner [_SIZE_RE_match] returns the groups of a match of
    the regular expression [_SIZE_RE], and [None] exactly for the
    strings that the expression does not match. *)
Theorem size_re_match_correct (size_str : string) ds ls :
  _SIZE_RE_match size_str = Some (ds, ls) ↔ size_re_matches size_str ds ls.
Proof. split; [apply size_re_match_sound|apply size_re_match_complete]. Qed.

(** [convert_file_size] returns a number that is not negative, or
    raises [ValueError]; it raises nothing else. *)
Theorem convert_file_size_total (size_str : string) :
  (∃ n, convert_file_size size_str = Return n ∧ 0 ≤ n) ∨
  (∃ msg, convert_file_size size_str = Raise (ValueError msg)).
Proof.
  destruct (convert_file_size size_str) as [n|e] eqn:Hc.
  - left. exists n. split; [done|]. by eapply convert_file_size_nonneg.
  - right. apply convert_file_size_raises in Hc as [msg ->]. by exists msg.
Qed.

(** C24: after an [upload] that returns, [get] of the name at a time
    [t] returns the uploaded file if [t] is within its lifetime and
    [None] otherwise; the other names are as before. *)
Theorem upload_then_get at_ts name size ttl s s' t :
  upload at_ts name size ttl s = (Return tt, s') →
  get t name s' =
    (Return (if is_alive t (mkFileObj size at_ts ttl)
             then Some (mkFileObj size at_ts ttl) else None), s') ∧
  ∀ name', name' ≠ name → (get t name' s').1 = (get t name' s).1.
Proof.
  destruct (alive_get (db_files s) at_ts name) as [o|] eqn:Ho.
  { by rewrite (upload_duplicate _ _ _ _ _ o Ho). }
  rewrite (upload_fresh _ _ _ _ _ Ho). intros [= <-]. split.
  - rewrite get_run. simpl. by rewrite alive_get_set_eq.
  - intros name' Hne. rewrite !get_run. simpl. by rewrite alive_get_set_ne.
Qed.

(** C25: [upload] raises [RuntimeError] exactly when a file of that name
    is alive at the time of the upload, and then changes nothing; a name
    whose file has expired can be uploaded again. *)
Theorem upload_refuses_live_duplicate at_ts name size ttl s :
  upload at_ts name size ttl s =
    (Raise (RuntimeError ("File " +:+ name +:+ " already exists")), s) ↔
  ∃ o, alive_get (db_files s) at_ts name = Some o.
Proof.
  split.
  - destruct (alive_get (db_files s) at_ts name) as [o|] eqn:Ho; [by eauto|].
    by rewrite (upload_fresh _ _ _ _ _ Ho).
  - intros [o Ho]. by apply upload_duplicate with o.
Qed.

(** C26: [copy] of a file that is alive stores under the destination a
    file with the size, the creation time and the lifetime of the
    source, whatever was stored there, and [get] at that time returns
    it. *)
Theorem copy_then_get at_ts src dest s o :
  alive_get (db_files s) at_ts src = Some o →
  ∃ s', copy at_ts src dest s = (Return tt, s') ∧
        get at_ts dest s' = (Return (Some o), s').
Proof.
  intros Ho. eexists. split; [by apply copy_present|].
  rewrite get_run. simpl. rewrite alive_get_set_eq.
  apply alive_get_Some in Ho as [_ ->]. done.
Qed.

(** [copy] of a name with no file alive raises [RuntimeError] and
    changes nothing. *)
Theorem copy_missing_source_raises at_ts src dest s :
  alive_get (db_files s) at_ts src = None →
  copy at_ts src dest s =
    (Raise (RuntimeError ("Source files " +:+ src +:+ " does not exist.")), s).
Proof. intros Hnone. by apply copy_missing. Qed.

(** C23: in rollback mode [search] raises nothing and returns the ten
    first names, in the order of strings, of the files that are alive
    and whose name starts with the prefix. *)
Theorem search_alphabetical_top10 at_ts prefix s :
  ∃ names,
    search at_ts prefix true s = (Return names, s) ∧
    top_k String.le 10 (matching at_ts prefix (db_files s)).*1 names.
Proof. destruct (search_alphabetical at_ts prefix s) as (names & ? & ?). eauto. Qed.

(** C22: when the size of every matching file has a value, [search]
    returns the names of the ten first matching files by size, largest
    first, and by name among files of one size. *)
Theorem search_by_size_top10 at_ts prefix s :
  Forall (λ item, ∃ n, convert_file_size (size item.2) = Return n)
    (matching at_ts prefix (db_files s)) →
  ∃ sized res,
    Forall2 (λ item sz, sz.1 = item.1 ∧
                        convert_file_size (size item.2) = Return sz.2)
      (matching at_ts prefix (db_files s)) sized ∧
    search at_ts prefix false s = (Return res.*1, s) ∧
    top_k sized_le 10 sized res.
Proof. apply search_by_size_valid. Qed.

(** C21: [search] by size lists the largest files first.  When the size
    of every matching file has a value, the result has ten names or
    those of all matching files, each with the value of the size of a
    matching file of that name; of two names of the result the first
    has the larger size, or the same size and the name that is not
    greater in the order of strings; and a matching file that is left
    out is not larger than any file of the result, and does not come
    before it by name when their sizes are equal. *)
Theorem search_largest_first at_ts prefix s :
  Forall (λ item, ∃ n, convert_file_size (size item.2) = Return n)
    (matching at_ts prefix (db_files s)) →
  ∃ res : list (string * Z),
    search at_ts prefix false s = (Return res.*1, s) ∧
    length res = (10 `min` length (matching at_ts prefix (db_files s)))%nat ∧
    Forall (λ a, ∃ o, (a.1, o) ∈ matching at_ts prefix (db_files s) ∧
                      convert_file_size (size o) = Return a.2) res ∧
    (∀ i j a b, (i < j)%nat → res !! i = Some a → res !! j = Some b →
       b.2 < a.2 ∨ (b.2 = a.2 ∧ String.le a.1 b.1)) ∧
    (∀ a name o n, a ∈ res →
       (name, o) ∈ matching at_ts prefix (db_files s) →
       convert_file_size (size o) = Return n → (name, n) ∉ res →
       n < a.2 ∨ (n = a.2 ∧ String.le a.1 name)).
Proof.
  intros (sized & res & Hsized & Hrun & Htop)%search_by_size_valid.
  exists res. split_and!; [done|..].
  - destruct Htop as (_ & _ & _ & ->). by rewrite (Forall2_length _ _ _ Hsized).
  - apply Forall_forall. intros a Ha%(top_k_elem_of _ _ _ _ _ Htop).
    by apply (sized_matching _ _ Hsized).
  - intros i j a b Hij Ha Hb. apply sized_le_largest_first.
    by apply (top_k_lookup _ _ _ _ _ _ _ _ Htop Hij).
  - intros a name o n Ha Ho Hn Hout.
    apply (sized_le_largest_first a (name, n)).
    apply (top_k_cut _ _ _ _ _ _ Htop Ha); [|done].
    by apply (matching_sized _ _ Hsized name o).
Qed.

(** When the size of a matching file has no value, [search] by size
    raises [ValueError], though [upload] has accepted the file. *)
Theorem search_invalid_size_raises at_ts prefix s item msg :
  item ∈ matching at_ts prefix (db_files s) →
  convert_file_size (size item.2) = Raise (ValueError msg) →
  ∃ msg', search at_ts prefix false s = (Raise (ValueError msg'), s).
Proof.
  intros Hitem Hraise.
  destruct (search_sized at_ts prefix (db_files s)) as [sized|e] eqn:Hs.
  - apply search_sized_Return in Hs.
    apply list_elem_of_lookup in Hitem as [i Hi].
    destruct (Forall2_lookup_l _ _ _ _ _ Hs Hi) as (sz & _ & _ & Hsz). congruence.
  - pose proof Hs as (item' & _ & [msg' ->]%convert_file_size_raises)%search_sized_Raise.
    exists msg'. by apply search_invalid_size.
Qed.

(** The result of an alphabetical [search] does not depend on the
    order in which the files were stored. *)
Theorem search_order_independent at_ts prefix s s' :
  db_files s ≡ₚ db_files s' →
  (search at_ts prefix true s).1 = (search at_ts prefix true s').1.
Proof.
  intros Hdb.
  destruct (search_alphabetical at_ts prefix s) as (names & -> & Htop).
  destruct (search_alphabetical at_ts prefix s') as (names' & -> & Htop').
  simpl. f_equal. eapply (top_k_unique String.le); [|exact Htop|exact Htop'].
  unfold matching. by rewrite Hdb.
Qed.

(** C27: [rollback] to a time [t] makes [t] the creation time of every
    file and sets the rollback mode; names, sizes and lifetimes are
    unchanged, so a file is then alive at [t'] exactly when
    [t' < t + ttl]. *)
Theorem rollback_resets_lifetimes ts_str t s :
  strptime_timestamp ts_str = Return t →
  ∃ s', rollback ts_str s = (Return tt, s') ∧ rollback_mode s' = true ∧
    Forall2 (λ item item',
      item'.1 = item.1 ∧ size item'.2 = size item.2 ∧
      ttl_seconds item'.2 = ttl_seconds item.2 ∧ created_at item'.2 = t)
      (db_files s) (db_files s').
Proof.
  intros Ht. eexists. split; [by apply rollback_run|]. split; [done|]. simpl.
  apply Forall2_fmap_r, Forall_Forall2_diag, Forall_true. by intros [name o].
Qed.

(** An operation that is none of the nine commands raises
    [RuntimeError] and changes nothing. *)
Theorem unknown_operation_raises cmd args s :
  cmd ∉ commands →
  dispatch (cmd :: args) s =
    (Raise (RuntimeError ("Unknown operation: " +:+ cmd)), s).
Proof.
  intros Hcmd. unfold dispatch, bind, getitem. simpl.
  repeat match goal with
  | |- context [decide (cmd = ?c)] =>
    destruct (decide (cmd = c)) as [Heq|_];
      [exfalso; apply Hcmd; rewrite Heq; unfold commands;
       rewrite !elem_of_cons; tauto|]
  end.
  done.
Qed.

(** C40: a file with a lifetime, uploaded at some time, is found by the
    operations without a time for as long as its expiry time is
    positive: they take the time to be 0 and so ignore the expiry. *)
Theorem untimed_get_ignores_expiry at_ts name size ttl s s' :
  0 < at_ts + ttl →
  upload at_ts name size (Some ttl) s = (Return tt, s') →
  get 0 name s' = (Return (Some (mkFileObj size at_ts (Some ttl))), s').
Proof.
  intros Hpos Hup. destruct (upload_then_get _ _ _ _ _ _ 0 Hup) as [-> _].
  by rewrite (proj2 (is_alive_Some 0 size at_ts ttl) Hpos).
Qed.

End contract.

(** C39: [parse_ts] on CPython's [strptime] changes nothing; it returns
    the epoch seconds of a time between the first second of the year 1
    and the last of the year 9999, or raises [ValueError]. *)
Theorem parse_ts_total (ts : string) (s : state) :
  (∃ t, parse_ts (tp:=cpython_timestamps) ts s = (Return t, s) ∧
        datetime.timestamp_min ≤ t ≤ datetime.timestamp_max) ∨
  (∃ msg, parse_ts (tp:=cpython_timestamps) ts s = (Raise (ValueError msg), s)).
Proof.
  unfold parse_ts, lift_outcome. simpl.
  destruct (datetime.strptime_timestamp_total ts) as [[t Ht]|[msg ->]]; [|eauto].
  left. exists t. rewrite Ht. eauto using datetime.strptime_timestamp_bounds.
Qed.

(** C37: [parse_ts] reads the timestamp that [isoformat] writes for a
    time of the calendar, and returns its epoch seconds. *)
Theorem parse_ts_isoformat (f : datetime.fields) (s : state) :
  datetime.valid f → 1 ≤ datetime.year f ≤ 9999 →
  parse_ts (tp:=cpython_timestamps) (datetime.isoformat f) s =
    (Return (datetime.timestamp f), s).
Proof.
  intros Hf Hy. unfold parse_ts, lift_outcome. simpl.
  by rewrite datetime.strptime_timestamp_isoformat.
Qed.

(** C38: the times that [parse_ts] returns follow the calendar: of two
    timestamps, the one of the earlier time has the smaller value, so a
    file is alive at the times before its expiry and at no later
    time. *)
Theorem parse_ts_chronological (f f' : datetime.fields) (s : state) t t' :
  datetime.valid f → datetime.valid f' →
  1 ≤ datetime.year f ≤ 9999 → 1 ≤ datetime.year f' ≤ 9999 →
  parse_ts (tp:=cpython_timestamps) (datetime.isoformat f) s = (Return t, s) →
  parse_ts (tp:=cpython_timestamps) (datetime.isoformat f') s = (Return t', s) →
  datetime.earlier f f' → t < t'.
Proof.
  intros Hf Hf' Hy Hy'. unfold parse_ts, lift_outcome. simpl.
  rewrite !datetime.strptime_timestamp_isoformat by done.
  intros [= <-] [= <-]. by apply datetime.timestamp_mono.
Qed.

(** A size that [convert_file_size] rejects is accepted by
    [FILE_UPLOAD] and ends the simulation at the first [FILE_SEARCH]
    that matches the file. *)
Theorem invalid_size_aborts_search :
  simulate_coding_framework (tp:=cpython_timestamps)
    [["FILE_UPLOAD"; "a.txt"; "1gb"]; ["FILE_GET"; "a.txt"]] =
    Return ["uploaded a.txt"; "got a.txt"] ∧
  simulate_coding_framework (tp:=cpython_timestamps)
    [["FILE_UPLOAD"; "a.txt"; "1gb"]; ["FILE_SEARCH"; "a"]] =
    Raise (ValueError "Unknown size unit: '1gb'").
Proof. split; by vm_compute. Qed.

(** ** The theorems at work on CPython's timestamps *)

Lemma simulate_one_line_per_operation_witness :
  length ["uploaded foo.txt"; "uploaded at bar.txt"; "copied foo.txt to foo2.txt"]
  = length sample_ops.
Proof.
  apply (simulate_one_line_per_operation (tp:=cpython_timestamps)).
  by vm_compute.
Defined.

Lemma rollback_mode_latches_witness :
  rollback_mode
    (run (tp:=cpython_timestamps) sample_ops
       (set_rollback_mode (λ _, true) sample)).2 = true.
Proof. by apply rollback_mode_latches. Defined.

Lemma upload_then_get_witness :
  get 1625140900 "new.txt"
    (set_db_files (λ d, dict_set d "new.txt" (mkFileObj "1kb" 1625140800 (Some 60)))
       sample) =
    (Return (if is_alive 1625140900 (mkFileObj "1kb" 1625140800 (Some 60))
             then Some (mkFileObj "1kb" 1625140800 (Some 60)) else None),
     set_db_files (λ d, dict_set d "new.txt" (mkFileObj "1kb" 1625140800 (Some 60)))
       sample) ∧
  ∀ name', name' ≠ "new.txt" →
    (get 1625140900 name'
       (set_db_files (λ d, dict_set d "new.txt" (mkFileObj "1kb" 1625140800 (Some 60)))
          sample)).1 =
    (get 1625140900 name' sample).1.
Proof.
  apply (upload_then_get 1625140800 "new.txt" "1kb" (Some 60) sample).
  by vm_compute.
Defined.

Lemma copy_then_get_witness :
  ∃ s', copy 0 "bar.txt" "foo.txt" sample = (Return tt, s') ∧
        get 0 "foo.txt" s' =
          (Return (Some (mkFileObj "2mb" 1625140800 (Some 3600))), s').
Proof. apply (copy_then_get). by vm_compute. Defined.

Lemma copy_missing_source_raises_witness :
  copy 1625144400 "bar.txt" "baz.txt" sample =
    (Raise (RuntimeError "Source files bar.txt does not exist."), sample).
Proof.
  apply (copy_missing_source_raises 1625144400 "bar.txt").
  by vm_compute.
Defined.

Lemma search_by_size_top10_witness :
  ∃ sized res,
    Forall2 (λ item sz, sz.1 = item.1 ∧
                        convert_file_size (size item.2) = Return sz.2)
      (matching 0 "" (db_files sample)) sized ∧
    search 0 "" false sample = (Return res.*1, sample) ∧
    top_k sized_le 10 sized res.
Proof.
  apply (search_by_size_top10).
  repeat (apply Forall_cons_2; [eexists; by vm_compute|]). apply Forall_nil_2.
Defined.

Lemma search_largest_first_witness :
  ∃ res : list (string * Z),
    search 0 "" false sample = (Return res.*1, sample) ∧
    length res = (10 `min` length (matching 0 "" (db_files sample)))%nat ∧
    Forall (λ a, ∃ o, (a.1, o) ∈ matching 0 "" (db_files sample) ∧
                      convert_file_size (size o) = Return a.2) res ∧
    (∀ i j a b, (i < j)%nat → res !! i = Some a → res !! j = Some b →
       b.2 < a.2 ∨ (b.2 = a.2 ∧ String.le a.1 b.1)) ∧
    (∀ a name o n, a ∈ res →
       (name, o) ∈ matching 0 "" (db_files sample) →
       convert_file_size (size o) = Return n → (name, n) ∉ res →
       n < a.2 ∨ (n = a.2 ∧ String.le a.1 name)).
Proof.
  apply (search_largest_first).
  repeat (apply Forall_cons_2; [eexists; by vm_compute|]). apply Forall_nil_2.
Defined.

(** The file of two megabytes comes before the two of a hundred
    kilobytes, which are in the order of their names. *)
Example search_sample_largest_first :
  search 0 "" false sample = (Return ["bar.txt"; "foo.txt"; "foo2.txt"], sample).
Proof. by vm_compute. Qed.

Lemma search_invalid_size_raises_witness :
  ∃ msg', search 0 "a" false sample_bad =
            (Raise (ValueError msg'), sample_bad).
Proof.
  apply (search_invalid_size_raises 0 "a" sample_bad
           ("a.txt", mkFileObj "1gb" 0 None) "Unknown size unit: '1gb'").
  - by left.
  - by vm_compute.
Defined.

Lemma search_order_independent_witness :
  (search 0 "foo" true sample).1 =
  (search 0 "foo" true
     (set_db_files reverse sample)).1.
Proof.
  apply (search_order_independent). simpl.
  by rewrite reverse_Permutation.
Defined.

Lemma rollback_resets_lifetimes_witness :
  ∃ s', rollback (tp:=cpython_timestamps) "2021-07-01T12:00:00" sample = (Return tt, s') ∧
    rollback_mode s' = true ∧
    Forall2 (λ item item',
      item'.1 = item.1 ∧ size item'.2 = size item.2 ∧
      ttl_seconds item'.2 = ttl_seconds item.2 ∧ created_at item'.2 = 1625140800)
      (db_files sample) (db_files s').
Proof.
  apply (rollback_resets_lifetimes (tp:=cpython_timestamps)). by vm_compute.
Defined.

Lemma unknown_operation_raises_witness :
  dispatch (tp:=cpython_timestamps) ["FILE_DELETE"; "foo.txt"] sample =
    (Raise (RuntimeError "Unknown operation: FILE_DELETE"), sample).
Proof.
  apply (unknown_operation_raises (tp:=cpython_timestamps) "FILE_DELETE").
  unfold commands. rewrite !not_elem_of_cons. split_and!; try done.
  apply not_elem_of_nil.
Defined.

Lemma parse_ts_isoformat_witness :
  parse_ts (tp:=cpython_timestamps) "2021-07-01T12:00:00" sample =
    (Return 1625140800, sample).
Proof.
  apply (parse_ts_isoformat (datetime.mkFields 2021 7 1 12 0 0) sample);
    by vm_compute.
Defined.

Lemma parse_ts_chronological_witness : 1625140800 < 1625144400.
Proof.
  apply (parse_ts_chronological (datetime.mkFields 2021 7 1 12 0 0)
           (datetime.mkFields 2021 7 1 13 0 0) sample);
    try by vm_compute.
  unfold datetime.earlier, datetime.time_of_day. simpl. lia.
Defined.

Lemma untimed_get_ignores_expiry_witness :
  get 0 "new.txt"
    (set_db_files (λ d, dict_set d "new.txt" (mkFileObj "1kb" 1625140800 (Some 60)))
       sample) =
    (Return (Some (mkFileObj "1kb" 1625140800 (Some 60))),
     set_db_files (λ d, dict_set d "new.txt" (mkFileObj "1kb" 1625140800 (Some 60)))
       sample).
Proof.
  apply (untimed_get_ignores_expiry 1625140800 "new.txt" "1kb" 60 sample);
    [lia|by vm_compute].
Defined.

End simulation.
