(* ===== verification/FileStore.v ===== *)
(** * The file store as a state machine

    A specification of [simulate_coding_framework] that forgets how the
    simulation is written, and the proof that the simulation implements
    it.

    - The operations of the input are decoded into the type [command],
      one constructor for each word that the dispatcher knows;
      [decode] reads the arguments, [exec] is the branch of the
      dispatcher for a decoded command, and [dispatch_decode] proves
      that the dispatcher is the one after the other.  [lifetime] is
      [int(op[4])], and [lifetime_literal] says on which strings it has
      a value.
    - Module [FileStore] is the specification.  Its state, [store], is
      a finite map from names to files and the flag of the alphabetical
      mode: the order of insertion is gone.  [step] is the transition
      relation, one rule for each command, whose premises say when the
      command succeeds; [found] is the result of a search, stated with
      [top_k] on the files of the map in any order.  [steps] is a run.
    - [abs] maps a state of the simulation to the store it stands for.
      [exec_refines_step] proves that a command that returns has taken
      a step and written its line, and that a command that raises had
      no step; [run_refines_steps] and [simulate_refines_store] lift
      this to the loop and to the whole function.  The store is
      deterministic ([step_deterministic]), so the lines of output are
      those of the one run of the store. *)

From Stdlib Require Import Ascii.
From stdpp Require Import gmap strings list sorting.
From S2P Require Import Prelude PyString Strptime FileStorage.

Local Open Scope Z_scope.
Local Open Scope py_scope.

Import simulation.

(** * Commands *)

(** The operations that the dispatcher knows, with their arguments. *)
Inductive command : Type :=
  | FILE_UPLOAD (name size : string)
  | FILE_GET (name : string)
  | FILE_COPY (src dest : string)
  | FILE_SEARCH (prefix : string)
  | FILE_UPLOAD_AT (ts name size : string) (ttl : option string)
  | FILE_GET_AT (ts name : string)
  | FILE_COPY_AT (ts src dest : string)
  | FILE_SEARCH_AT (ts prefix : string)
  | ROLLBACK (ts : string).

(** The reads [op[i]] of the dispatcher: the command of an operation,
    [IndexError] for a missing argument, [RuntimeError] for an unknown
    word.  Arguments after those that the command reads are ignored;
    [FILE_UPLOAD_AT] has a lifetime when the operation has five
    strings. *)
Definition decode (op : list string) : outcome command :=
  match op with
  | [] => Raise IndexError
  | cmd :: args =>
    if decide (cmd = "FILE_UPLOAD") then
      match args with
      | name :: size :: _ => Return (FILE_UPLOAD name size)
      | _ => Raise IndexError
      end
    else if decide (cmd = "FILE_GET") then
      match args with
      | name :: _ => Return (FILE_GET name)
      | _ => Raise IndexError
      end
    else if decide (cmd = "FILE_COPY") then
      match args with
      | src :: dest :: _ => Return (FILE_COPY src dest)
      | _ => Raise IndexError
      end
    else if decide (cmd = "FILE_SEARCH") then
      match args with
      | prefix :: _ => Return (FILE_SEARCH prefix)
      | _ => Raise IndexError
      end
    else if decide (cmd = "FILE_UPLOAD_AT") then
      match args with
      | [ts; name; size; ttl] => Return (FILE_UPLOAD_AT ts name size (Some ttl))
      | ts :: name :: size :: _ => Return (FILE_UPLOAD_AT ts name size None)
      | _ => Raise IndexError
      end
    else if decide (cmd = "FILE_GET_AT") then
      match args with
      | ts :: name :: _ => Return (FILE_GET_AT ts name)
      | _ => Raise IndexError
      end
    else if decide (cmd = "FILE_COPY_AT") then
      match args with
      | ts :: src :: dest :: _ => Return (FILE_COPY_AT ts src dest)
      | _ => Raise IndexError
      end
    else if decide (cmd = "FILE_SEARCH_AT") then
      match args with
      | ts :: prefix :: _ => Return (FILE_SEARCH_AT ts prefix)
      | _ => Raise IndexError
      end
    else if decide (cmd = "ROLLBACK") then
      match args with
      | ts :: _ => Return (ROLLBACK ts)
      | _ => Raise IndexError
      end
    else Raise (RuntimeError ("Unknown operation: " +:+ cmd))
  end.

Section exec.
Context {tp : TimestampParser}.

(** The lifetime of [FILE_UPLOAD_AT]: [int(op[4])], or [None]. *)
Definition lifetime (ttl : option string) : outcome (option Z) :=
  match ttl with
  | None => Return None
  | Some s =>
    match py_int s with
    | Return n => Return (Some n)
    | Raise e => Raise e
    end
  end.

(** The branch of the dispatcher for a command. *)
Definition exec (c : command) : M state unit :=
  match c with
  | FILE_UPLOAD name size =>
    upload 0 name size None ;;
    out_append ("uploaded " +:+ name)
  | FILE_GET name =>
    let* obj := get 0 name in
    out_append (if obj is None then "file not found" else "got " +:+ name)
  | FILE_COPY src dest =>
    copy 0 src dest ;;
    out_append ("copied " +:+ src +:+ " to " +:+ dest)
  | FILE_SEARCH prefix =>
    let* names := search 0 prefix false in
    out_append ("found [" +:+ join ", " names +:+ "]")
  | FILE_UPLOAD_AT ts name size ttl =>
    let* ttl :=
      match ttl with
      | Some s => let* n := lift_outcome (py_int s) in ret (Some n)
      | None => ret None
      end in
    let* at_ts := parse_ts ts in
    upload at_ts name size ttl ;;
    out_append ("uploaded at " +:+ name)
  | FILE_GET_AT ts name =>
    let* at_ts := parse_ts ts in
    let* obj := get at_ts name in
    out_append (if obj is None then "file not found" else "got at " +:+ name)
  | FILE_COPY_AT ts src dest =>
    let* at_ts := parse_ts ts in
    copy at_ts src dest ;;
    out_append ("copied at " +:+ src +:+ " to " +:+ dest)
  | FILE_SEARCH_AT ts prefix =>
    let* at_ts := parse_ts ts in
    let* mode := gets rollback_mode in
    let* names := search at_ts prefix mode in
    out_append ("found at [" +:+ join ", " names +:+ "]")
  | ROLLBACK ts =>
    rollback ts ;;
    out_append ("rollback to " +:+ ts)
  end.

(** The dispatcher decodes the operation and executes the command:
    reading the arguments first changes nothing. *)
Lemma dispatch_decode (op : list string) (s : state) :
  dispatch op s = (let* c := lift_outcome (decode op) in exec c) s.
Proof.
  destruct op as [|cmd args]; [done|].
  unfold dispatch, decode, bind at 1. cbn [getitem lookup list_lookup lift_option ret].
  repeat match goal with
         | |- context [decide (cmd = ?c)] => destruct (decide (cmd = c)) as [->|?]
         end; try reflexivity;
    by destruct args as [|a1 [|a2 [|a3 [|a4 [|a5 rest]]]]].
Qed.
End exec.

(** * The lifetime of an upload *)

(** C36: the lifetime of a [FILE_UPLOAD_AT] is read by [int]:
    [int(op[4])] returns [n] exactly when the string is a literal of
    [n], that is white space (tab to carriage return, the space, and
    the codes 133 and 160; not the separators 28 to 31), an optional
    sign, decimal digits with single underscores between them, and white
    space; on every other string it raises [ValueError] with the
    message of [int]. *)
Theorem lifetime_literal (s : string) :
  (∀ n, lifetime (Some s) = Return (Some n) ↔
        int_literal (String.list_ascii_of_string s) n) ∧
  ((∀ n, ¬ int_literal (String.list_ascii_of_string s) n) →
   lifetime (Some s) =
     Raise (ValueError ("invalid literal for int() with base 10: "
                        +:+ String.substring 0 200 (repr s)))).
Proof.
  unfold lifetime. split.
  - intros n. rewrite <-py_int_literal.
    destruct (py_int s); split; intros ?; by simplify_eq.
  - intros Hno. by rewrite (py_int_invalid s Hno).
Qed.

Lemma lifetime_literal_witness :
  lifetime (Some " +3_600 ") = Return (Some 3600).
Proof.
  apply (proj1 (lifetime_literal " +3_600 ") 3600).
  exact (IntLiteral [" "%char] ["+"%char] 1
           ["3"; "_"; "6"; "0"; "0"]%char ["3"; "6"; "0"; "0"]%char [" "%char]
           ltac:(by repeat constructor) ltac:(by repeat constructor)
           signed_plus ltac:(by repeat constructor)).
Defined.

(** * Dictionaries as finite maps *)

Section dict_map.
Context {V : Type}.
Implicit Types (d : list (string * V)) (k : string) (v : V).

Lemma list_to_map_dict_get d k :
  (list_to_map d : gmap string V) !! k = dict_get d k.
Proof.
  induction d as [|[k' v'] d IH]; [done|]. rewrite list_to_map_cons. simpl.
  case_decide as Hk; [subst k'; by rewrite lookup_insert_eq|].
  by rewrite lookup_insert_ne.
Qed.

Lemma list_to_map_dict_set d k v :
  (list_to_map (dict_set d k v) : gmap string V) = <[k:=v]> (list_to_map d).
Proof.
  induction d as [|[k' v'] d IH]; [done|]. cbn [dict_set].
  case_decide as Hk; rewrite !list_to_map_cons.
  - subst k'. by rewrite insert_insert_eq.
  - rewrite IH. by apply insert_insert_ne.
Qed.

End dict_map.

(** * The abstract store *)

Module FileStore.

(** The files by name, and whether a search with a timestamp is
    alphabetical. *)
Record store : Type := mkStore {
  files : gmap string FileObj;
  alphabetical : bool
}.

Definition empty : store := mkStore ∅ false.

(** The file of a name, if it is alive at [t]. *)
Definition live (st : store) (t : Z) (name : string) : option FileObj :=
  match files st !! name with
  | Some o => if is_alive t o then Some o else None
  | None => None
  end.

Definition put (st : store) (name : string) (o : FileObj) : store :=
  mkStore (<[name:=o]> (files st)) (alphabetical st).

(** Every file created anew at [t], and the alphabetical mode set. *)
Definition reset (t : Z) (st : store) : store :=
  mkStore ((λ o, mkFileObj (size o) t (ttl_seconds o)) <$> files st) true.

(** The files that a search considers, in some order. *)
Definition candidates (st : store) (t : Z) (prefix : string) :
    list (string * FileObj) :=
  matching t prefix (map_to_list (files st)).

(** A file with the value of its size. *)
Definition sized_as (item : string * FileObj) (sz : string * Z) : Prop :=
  sz.1 = item.1 ∧ convert_file_size (size item.2) = Return sz.2.

(** The result of a search: the ten first names in the order of
    strings, or the names of the ten first files by size; the latter
    exists when every candidate has a size with a value. *)
Inductive found (st : store) (t : Z) (prefix : string) :
    bool → list string → Prop :=
  | found_alphabetical names :
    top_k String.le 10 (candidates st t prefix).*1 names →
    found st t prefix true names
  | found_by_size sized res :
    Forall2 sized_as (candidates st t prefix) sized →
    top_k sized_le 10 sized res →
    found st t prefix false res.*1.

Section step.
Context {tp : TimestampParser}.

(** One command: the line it writes and the store after it.  A command
    that has no rule here fails. *)
Inductive step : store → command → string → store → Prop :=
  | step_FILE_UPLOAD st name size :
    live st 0 name = None →
    step st (FILE_UPLOAD name size) ("uploaded " +:+ name)
      (put st name (mkFileObj size 0 None))
  | step_FILE_GET st name :
    step st (FILE_GET name)
      (if live st 0 name is None then "file not found" else "got " +:+ name) st
  | step_FILE_COPY st src dest o :
    live st 0 src = Some o →
    step st (FILE_COPY src dest) ("copied " +:+ src +:+ " to " +:+ dest)
      (put st dest o)
  | step_FILE_SEARCH st prefix names :
    found st 0 prefix false names →
    step st (FILE_SEARCH prefix) ("found [" +:+ join ", " names +:+ "]") st
  | step_FILE_UPLOAD_AT st ts name size ttl n t :
    lifetime ttl = Return n →
    strptime_timestamp ts = Return t →
    live st t name = None →
    step st (FILE_UPLOAD_AT ts name size ttl) ("uploaded at " +:+ name)
      (put st name (mkFileObj size t n))
  | step_FILE_GET_AT st ts name t :
    strptime_timestamp ts = Return t →
    step st (FILE_GET_AT ts name)
      (if live st t name is None then "file not found" else "got at " +:+ name)
      st
  | step_FILE_COPY_AT st ts src dest t o :
    strptime_timestamp ts = Return t →
    live st t src = Some o →
    step st (FILE_COPY_AT ts src dest)
      ("copied at " +:+ src +:+ " to " +:+ dest) (put st dest o)
  | step_FILE_SEARCH_AT st ts prefix t names :
    strptime_timestamp ts = Return t →
    found st t prefix (alphabetical st) names →
    step st (FILE_SEARCH_AT ts prefix)
      ("found at [" +:+ join ", " names +:+ "]") st
  | step_ROLLBACK st ts t :
    strptime_timestamp ts = Return t →
    step st (ROLLBACK ts) ("rollback to " +:+ ts) (reset t st).

(** A run: the operations decoded and executed in order. *)
Inductive steps : store → list (list string) → list string → store → Prop :=
  | steps_nil st : steps st [] [] st
  | steps_cons st op c line st' ops lines st'' :
    decode op = Return c →
    step st c line st' →
    steps st' ops lines st'' →
    steps st (op :: ops) (line :: lines) st''.

End step.

(** The store that a state of the simulation stands for. *)
Definition abs (s : state) : store :=
  mkStore (list_to_map (db_files s)) (rollback_mode s).

(** * The store of a state *)

Section abs.
Implicit Types (s : state) (st : store) (o : FileObj) (t : Z).
Implicit Types (name prefix : string).

Lemma live_abs s t name : live (abs s) t name = alive_get (db_files s) t name.
Proof. unfold live, alive_get, abs. simpl. by rewrite list_to_map_dict_get. Qed.

Lemma abs_put s name o :
  abs (set_db_files (λ d, dict_set d name o) s) = put (abs s) name o.
Proof. unfold abs, put. simpl. by rewrite list_to_map_dict_set. Qed.

Lemma abs_set_out f s : abs (set_out f s) = abs s.
Proof. done. Qed.

Lemma abs_reset s t :
  abs (mkState ((λ item, (item.1, mkFileObj (size item.2) t (ttl_seconds item.2)))
                  <$> db_files s) true (out s)) = reset t (abs s).
Proof.
  unfold abs, reset. simpl. f_equal.
  apply (list_to_map_fmap (λ o, mkFileObj (size o) t (ttl_seconds o))).
Qed.

Lemma candidates_abs s t prefix :
  dict_ok (db_files s) →
  candidates (abs s) t prefix ≡ₚ matching t prefix (db_files s).
Proof.
  intros Hok. unfold candidates, matching, abs. simpl.
  by rewrite map_to_list_to_map.
Qed.

(** The sizes of a list of files are determined by the files. *)
Lemma sized_as_unique items sized sized' :
  Forall2 sized_as items sized → Forall2 sized_as items sized' → sized = sized'.
Proof.
  intros H. revert sized'. induction H as [|item [n z] items sized [Hn Hz] _ IH];
    intros sized' H'; inversion H' as [|? [n' z'] ? ? [Hn' Hz']]; simplify_eq/=; [done|].
  f_equal; [|by apply IH]. f_equal; congruence.
Qed.

Lemma sized_as_Permutation items items' sized :
  items ≡ₚ items' → Forall2 sized_as items sized →
  ∃ sized', sized ≡ₚ sized' ∧ Forall2 sized_as items' sized'.
Proof. intros Hp H. by eapply Permutation.Permutation_Forall2. Qed.

Lemma found_unique st t prefix mode names names' :
  found st t prefix mode names → found st t prefix mode names' → names = names'.
Proof.
  destruct 1 as [names H|sized res Hs H]; inversion 1 as [? H'|sized' res' Hs' H'].
  - by eapply (top_k_unique String.le).
  - rewrite (sized_as_unique _ _ _ Hs Hs') in H.
    f_equal. by eapply (top_k_unique sized_le).
Qed.

(** [search] finds what the store has, and raises where the store has
    no result. *)
Lemma search_found s t prefix mode :
  dict_ok (db_files s) →
  wp (search t prefix mode)
    (λ names s', s' = s ∧ found (abs s) t prefix mode names)
    (λ _ s', s' = s ∧ ∀ names, ¬ found (abs s) t prefix mode names) s.
Proof.
  intros Hp%(candidates_abs s t prefix). unfold wp. destruct mode.
  - destruct (search_alphabetical t prefix s) as (names & -> & Htop).
    split; [done|]. constructor.
    eapply top_k_Permutation; [|exact Htop]. by rewrite Hp.
  - destruct (search_sized t prefix (db_files s)) as [sized|e] eqn:Hsized.
    + destruct (search_by_size t prefix s sized Hsized) as (res & -> & Htop).
      split; [done|]. apply search_sized_Return in Hsized.
      destruct (sized_as_Permutation _ _ _ (symmetry Hp) Hsized)
        as (sized' & Hperm & Hsized').
      econstructor; [done|]. by eapply top_k_Permutation.
    + rewrite (search_invalid_size t prefix s e Hsized). split; [done|].
      intros names. inversion 1 as [|sized res Hs _]. subst.
      destruct (sized_as_Permutation _ _ _ Hp Hs) as (sized' & _ & Hs').
      apply search_sized_Return in Hs'. congruence.
Qed.

End abs.

(** * The simulation implements the store *)

(** What a command promises when it returns: one line, and a step of
    the store.  When it raises: no step was possible. *)
Definition enabled {tp : TimestampParser} (st : store) (c : command) : Prop :=
  ∃ line st', step st c line st'.

Definition said {tp : TimestampParser} (s : state) (c : command) :
    unit → state → Prop :=
  λ _ s', ∃ line, step (abs s) c line (abs s') ∧ out s' = out s ++ [line].

Definition refused {tp : TimestampParser} (s : state) (c : command) :
    exn → state → Prop :=
  λ _ _, ¬ enabled (abs s) c.

(** The premises of a step, with the results of one parse identified. *)
Ltac step_inv :=
  inversion 1;
  repeat match goal with
         | H1 : ?x = Return ?a, H2 : ?x = Return ?b |- _ =>
           assert (b = a) as -> by congruence; clear H2
         end;
  eauto.

(** The command of the goal has no step: every rule asks for something
    that the hypotheses exclude. *)
Ltac no_step :=
  let Hstep := fresh in
  intros (? & ? & Hstep); inversion Hstep; simplify_eq;
  rewrite ?live_abs in *; try congruence.

Section refinement.
Context {tp : TimestampParser}.
Implicit Types (s : state) (c : command) (t : Z) (name src dest : string).

Lemma wp_out_append s0 c line st' s :
  step (abs s0) c line st' → abs s = st' → out s = out s0 →
  wp (out_append line) (said s0 c) (refused s0 c) s.
Proof. intros Hstep <- Hout. exists line. simpl. by rewrite Hout. Qed.

(** The time of a command with a timestamp. *)
Lemma wp_parse_ts ts c (k : Z → M state unit) s :
  (∀ line st', step (abs s) c line st' → ∃ t, strptime_timestamp ts = Return t) →
  (∀ t, strptime_timestamp ts = Return t → wp (k t) (said s c) (refused s c) s) →
  wp (let* t := parse_ts ts in k t) (said s c) (refused s c) s.
Proof.
  intros Hc Hk. apply wp_bind. unfold wp at 1, parse_ts, lift_outcome.
  destruct (strptime_timestamp ts) as [t|e] eqn:Ht; [by apply Hk|].
  intros (line & st' & [t ?]%Hc). congruence.
Qed.

Lemma upload_refines c t name size ttl line s :
  (∀ l st', step (abs s) c l st' → live (abs s) t name = None) →
  (live (abs s) t name = None →
   step (abs s) c line (put (abs s) name (mkFileObj size t ttl))) →
  wp (upload t name size ttl ;; out_append line) (said s c) (refused s c) s.
Proof.
  intros Hc Hstep. apply wp_bind. unfold wp at 1.
  destruct (alive_get (db_files s) t name) as [o|] eqn:Ho.
  - rewrite (upload_duplicate _ _ _ _ _ o Ho).
    intros (l & st' & Hl%Hc). rewrite live_abs in Hl. congruence.
  - rewrite (upload_fresh _ _ _ _ _ Ho). rewrite <-live_abs in Ho.
    eapply wp_out_append; [by apply Hstep|apply abs_put|done].
Qed.

Lemma copy_refines c t src dest line s :
  (∀ l st', step (abs s) c l st' → ∃ o, live (abs s) t src = Some o) →
  (∀ o, live (abs s) t src = Some o → step (abs s) c line (put (abs s) dest o)) →
  wp (copy t src dest ;; out_append line) (said s c) (refused s c) s.
Proof.
  intros Hc Hstep. apply wp_bind. unfold wp at 1.
  destruct (alive_get (db_files s) t src) as [o|] eqn:Ho.
  - rewrite (copy_present _ _ _ _ o Ho). rewrite <-live_abs in Ho.
    eapply wp_out_append; [by apply Hstep|apply abs_put|done].
  - rewrite (copy_missing _ _ _ _ Ho).
    intros (l & st' & [o Hl]%Hc). rewrite live_abs in Hl. congruence.
Qed.

Lemma get_refines c t name (line : option FileObj → string) s :
  step (abs s) c (line (live (abs s) t name)) (abs s) →
  wp (let* obj := get t name in out_append (line obj)) (said s c) (refused s c) s.
Proof.
  intros Hstep. apply wp_bind. unfold wp at 1. rewrite get_run, <-live_abs.
  by eapply wp_out_append.
Qed.

Lemma search_refines c t prefix mode (line : list string → string) s :
  dict_ok (db_files s) →
  (∀ l st', step (abs s) c l st' → ∃ names, found (abs s) t prefix mode names) →
  (∀ names, found (abs s) t prefix mode names →
            step (abs s) c (line names) (abs s)) →
  wp (let* names := search t prefix mode in out_append (line names))
     (said s c) (refused s c) s.
Proof.
  intros Hok Hc Hstep. apply wp_bind.
  eapply wp_mono; [by apply search_found|..].
  - intros names s' [-> Hfound]. eapply wp_out_append; [by apply Hstep|done..].
  - intros _ s' [-> Hnone] (l & st' & [names ?]%Hc). by eapply Hnone.
Qed.

Lemma rollback_refines ts s :
  wp (rollback ts ;; out_append ("rollback to " +:+ ts))
     (said s (ROLLBACK ts)) (refused s (ROLLBACK ts)) s.
Proof.
  apply wp_bind. unfold wp at 1.
  destruct (strptime_timestamp ts) as [t|e] eqn:Ht.
  - rewrite (rollback_run ts t s Ht).
    eapply wp_out_append; [by constructor|apply abs_reset|done].
  - unfold rollback, bind, modify, parse_ts, lift_outcome. simpl. rewrite Ht.
    no_step.
Qed.

(** The lifetime of [FILE_UPLOAD_AT]. *)
Lemma lifetime_refines c ttl (k : option Z → M state unit) s :
  (∀ line st', step (abs s) c line st' → ∃ n, lifetime ttl = Return n) →
  (∀ n, lifetime ttl = Return n → wp (k n) (said s c) (refused s c) s) →
  wp (let* n :=
        match ttl with
        | Some str => let* n := lift_outcome (py_int str) in ret (Some n)
        | None => ret None
        end in k n) (said s c) (refused s c) s.
Proof.
  intros Hc Hk. apply wp_bind. destruct ttl as [str|]; [|by apply Hk].
  unfold wp at 1, bind, lift_outcome. simpl in Hc, Hk.
  destruct (py_int str) as [n|e]; [by apply Hk|].
  by intros (line & st' & [n ?]%Hc).
Qed.

(** Every command of the simulation that returns has taken a step of
    the store and written its line; a command that raises had no step
    to take. *)
Lemma exec_refines_step c s :
  dict_ok (db_files s) → wp (exec c) (said s c) (refused s c) s.
Proof.
  intros Hok.
  destruct c as [name size|name|src dest|pre|ts name size ttl|ts name
                |ts src dest|ts pre|ts]; cbn [exec].
  - apply upload_refines; [step_inv|by constructor].
  - apply (get_refines _ 0 name
      (λ obj, if obj is None then "file not found" else "got " +:+ name)).
    constructor.
  - apply copy_refines; [step_inv|by constructor].
  - apply (search_refines _ 0 pre false
      (λ names, "found [" +:+ join ", " names +:+ "]")); [done|..].
    + step_inv.
    + by constructor.
  - apply lifetime_refines; [step_inv|]. intros n Hn.
    apply wp_parse_ts; [step_inv|]. intros t Ht.
    apply upload_refines; [step_inv|by econstructor].
  - apply wp_parse_ts; [step_inv|]. intros t Ht.
    apply (get_refines _ t name
      (λ obj, if obj is None then "file not found" else "got at " +:+ name)).
    by constructor.
  - apply wp_parse_ts; [step_inv|]. intros t Ht.
    apply copy_refines; [step_inv|by econstructor].
  - apply wp_parse_ts; [step_inv|]. intros t Ht.
    apply wp_bind, wp_gets.
    apply (search_refines _ t pre (rollback_mode s)
      (λ names, "found at [" +:+ join ", " names +:+ "]")); [done|..].
    + step_inv.
    + by econstructor.
  - apply rollback_refines.
Qed.

(** The store is deterministic: a command has one step at most. *)
Lemma step_deterministic st c line1 st1 line2 st2 :
  step st c line1 st1 → step st c line2 st2 → line1 = line2 ∧ st1 = st2.
Proof.
  destruct 1; step_inv; try (split; congruence); subst;
    match goal with
    | H1 : found _ _ _ _ ?n1, H2 : found _ _ _ _ ?n2 |- _ =>
      by rewrite (found_unique _ _ _ _ _ _ H1 H2)
    end.
Qed.

Lemma steps_deterministic st ops lines1 st1 lines2 st2 :
  steps st ops lines1 st1 → steps st ops lines2 st2 →
  lines1 = lines2 ∧ st1 = st2.
Proof.
  intros H. revert lines2 st2.
  induction H as [|st op c line st' ops lines st'' Hc Hstep _ IH];
    inversion 1 as [|? ? c' line' st3 ? lines' ? Hc' Hstep' Hsteps']; [done|].
  simplify_eq. rewrite Hc in Hc'. injection Hc' as <-.
  destruct (step_deterministic _ _ _ _ _ _ Hstep Hstep') as [-> ->].
  by destruct (IH _ _ Hsteps') as [-> ->].
Qed.

(** One operation of the loop. *)
Lemma dispatch_refines_step op s :
  dict_ok (db_files s) →
  wp (dispatch op)
    (λ _ s', dict_ok (db_files s') ∧ ∃ c line,
       decode op = Return c ∧ step (abs s) c line (abs s') ∧
       out s' = out s ++ [line])
    (λ _ _, ∀ c, decode op = Return c → ¬ enabled (abs s) c) s.
Proof.
  intros Hok. pose proof (dispatch_speaks op s) as Hkeeps.
  unfold wp in *. rewrite dispatch_decode in *. unfold bind, lift_outcome in *.
  destruct (decode op) as [c|e]; [|done].
  pose proof (exec_refines_step c s Hok) as Hexec. unfold wp in Hexec.
  destruct (exec c s) as [[[]|e] s'].
  - destruct Hkeeps as [[Hok' _] _], Hexec as (line & ? & ?). eauto 10.
  - by intros ? [= <-].
Qed.

(** The loop of the simulation takes the steps of the store, one for
    each operation, and writes their lines; when it raises, the store
    has no run on these operations. *)
Lemma run_refines_steps ops s :
  dict_ok (db_files s) →
  wp (run ops)
    (λ _ s', ∃ lines, steps (abs s) ops lines (abs s') ∧ out s' = out s ++ lines)
    (λ _ _, ¬ ∃ lines st', steps (abs s) ops lines st') s.
Proof.
  revert s. induction ops as [|op ops IH]; intros s Hok; simpl.
  { exists []. split; [constructor|by rewrite app_nil_r]. }
  apply wp_bind. eapply wp_mono; [by apply dispatch_refines_step|..].
  - intros [] s1 (Hok1 & c & line & Hc & Hstep & Hout).
    eapply wp_mono; [by apply IH|..].
    + intros [] s2 (lines & Hsteps & ->). exists (line :: lines).
      split; [by econstructor|]. by rewrite Hout, <-app_assoc.
    + intros ? ? Hnone (lines & st' & Hsteps). apply Hnone.
      inversion Hsteps as [|? ? c' line' st1 ? lines' ? Hc' Hstep' Hsteps'].
      simplify_eq. rewrite Hc in Hc'. injection Hc' as <-.
      destruct (step_deterministic _ _ _ _ _ _ Hstep Hstep') as [-> <-]. eauto.
  - intros ? ? Hnone (lines & st' & Hsteps).
    inversion Hsteps; simplify_eq. eapply Hnone; [done|]. by eexists _, _.
Qed.

(** C15: [simulate_coding_framework] returns the lines of the run of the
    store from the empty store; it raises exactly when the store has
    no run on the operations. *)
Theorem simulate_refines_store ops lines :
  simulate_coding_framework ops = Return lines ↔ ∃ st, steps empty ops lines st.
Proof.
  pose proof (run_refines_steps ops initial (NoDup_nil_2 : dict_ok [])) as Hrun.
  unfold simulate_coding_framework, bind, gets, wp in *.
  destruct (run ops initial) as [[[]|e] s']; simpl.
  - destruct Hrun as (lines' & Hsteps & ->). simpl. split.
    + intros [= <-]. eauto.
    + intros [st Hsteps']. f_equal.
      by destruct (steps_deterministic _ _ _ _ _ _ Hsteps Hsteps').
  - split; [done|]. intros [st Hsteps]. destruct Hrun. eauto.
Qed.

(** C16: a step of the store is a step of the simulation: from a state
    that stands for the store, the command returns, writes the line of
    the step and reaches a state that stands for the store after it. *)
Theorem store_step_implemented c line st' s :
  dict_ok (db_files s) → step (abs s) c line st' →
  ∃ s', exec c s = (Return tt, s') ∧ abs s' = st' ∧ out s' = out s ++ [line].
Proof.
  intros Hok Hstep. pose proof (exec_refines_step c s Hok) as Hexec.
  unfold wp in Hexec. destruct (exec c s) as [[[]|e] s'].
  - destruct Hexec as (line' & Hstep' & Hout). exists s'.
    by destruct (step_deterministic _ _ _ _ _ _ Hstep Hstep') as [-> ->].
  - destruct Hexec. by eexists _, _.
Qed.

(** A command of the simulation raises exactly when the store has
    no step for it. *)
Theorem command_raises_iff_no_step c s :
  dict_ok (db_files s) →
  (∃ e s', exec c s = (Raise e, s')) ↔ ¬ enabled (abs s) c.
Proof.
  intros Hok. pose proof (exec_refines_step c s Hok) as Hexec.
  unfold wp in Hexec. destruct (exec c s) as [[[]|e] s'].
  - destruct Hexec as (line & Hstep & _). split; [by intros (? & ? & ?)|].
    intros []. by eexists _, _.
  - split; [done|eauto].
Qed.

End refinement.

Lemma simulate_refines_store_witness :
  ∃ st, steps (tp:=cpython_timestamps) empty sample_ops
          ["uploaded foo.txt"; "uploaded at bar.txt";
           "copied foo.txt to foo2.txt"] st.
Proof. apply simulate_refines_store. by vm_compute. Defined.

Lemma store_step_implemented_witness :
  ∃ s', exec (tp:=cpython_timestamps) (FILE_GET "foo.txt") sample =
          (Return tt, s') ∧
        abs s' = abs sample ∧ out s' = out sample ++ ["got foo.txt"].
Proof.
  apply (store_step_implemented (tp:=cpython_timestamps) (FILE_GET "foo.txt")).
  - compute_done.
  - apply (step_FILE_GET (abs sample) "foo.txt").
Defined.

Lemma command_raises_iff_no_step_witness :
  (∃ e s', exec (tp:=cpython_timestamps) (FILE_COPY "nope" "a") sample =
             (Raise e, s')) ↔
  ¬ enabled (tp:=cpython_timestamps) (abs sample) (FILE_COPY "nope" "a").
Proof. apply command_raises_iff_no_step. compute_done. Defined.

End FileStore.
