(* ===== verification/StoreInvariants.v ===== *)
(** * What the commands of the file store keep

    Properties of [simulate_coding_framework] that hold of every
    command, whether it returns or raises:

    - the rules [upload_outcomes], [copy_outcomes], [get_outcomes],
      [search_outcomes], [parse_ts_outcomes] and [rollback_outcomes]
      give the outcomes of the core operations, one premise for each;
    - [changes] is what a command may do to [db_files]: nothing, one
      assignment of a new file or of a copy of a live one, or the reset
      of every creation time; [exec_changes] proves that a command that
      returns has made one of these changes and that a command that
      raises has changed neither [db_files] nor [out];
    - [typed] is the annotation [created_at: int  # epoch seconds] of
      [FileObj] as an invariant: every creation time is 0, the time of
      the operations without a timestamp, or a value that [parse_ts]
      has returned; on CPython's [strptime] these are the seconds of a
      time of the calendar;
    - a file with a lifetime is dead from the end of its lifetime on:
      [FILE_GET_AT] does not find it and [FILE_UPLOAD_AT] takes its
      name;
    - [accepts] computes the premises of the rules of the store, so
      that whether a command raises is decided before it runs;
    - no run removes a file, moves a name or resets the rollback mode;
    - the runs from two states that stand for the same store have the
      same outcome ([run_same_store]): the order of insertion shows
      only in the message of an exception. *)

From stdpp Require Import gmap strings list sorting.
From S2P Require Import Prelude PyString Strptime FileStorage FileStore.

Local Open Scope Z_scope.
Local Open Scope py_scope.

Import simulation.

(** * The outcomes of the core operations *)

Section outcomes.
Context {tp : TimestampParser}.
Implicit Types (s : state) (o : FileObj) (name src dest prefix ts : string).
Implicit Types (t : Z) (E : exn → state → Prop).

Lemma upload_outcomes t name size ttl s (Q : unit → state → Prop) E :
  (alive_get (db_files s) t name = None →
   Q tt (set_db_files (λ d, dict_set d name (mkFileObj size t ttl)) s)) →
  (∀ o, alive_get (db_files s) t name = Some o →
        E (RuntimeError ("File " +:+ name +:+ " already exists")) s) →
  wp (upload t name size ttl) Q E s.
Proof.
  intros HQ HE. unfold wp.
  destruct (alive_get (db_files s) t name) as [o|] eqn:Ho.
  - rewrite (upload_duplicate _ _ _ _ _ o Ho). by eapply HE.
  - rewrite (upload_fresh _ _ _ _ _ Ho). by apply HQ.
Qed.

Lemma get_outcomes t name s (Q : option FileObj → state → Prop) E :
  Q (alive_get (db_files s) t name) s → wp (get t name) Q E s.
Proof. intros HQ. unfold wp. by rewrite get_run. Qed.

Lemma copy_outcomes t src dest s (Q : unit → state → Prop) E :
  (∀ o, alive_get (db_files s) t src = Some o →
        Q tt (set_db_files (λ d, dict_set d dest o) s)) →
  (alive_get (db_files s) t src = None →
   E (RuntimeError ("Source files " +:+ src +:+ " does not exist.")) s) →
  wp (copy t src dest) Q E s.
Proof.
  intros HQ HE. unfold wp.
  destruct (alive_get (db_files s) t src) as [o|] eqn:Ho.
  - rewrite (copy_present _ _ _ _ o Ho). by apply HQ.
  - rewrite (copy_missing _ _ _ _ Ho). by apply HE.
Qed.

(** [search] reads the files and changes nothing. *)
Lemma search_outcomes t prefix mode s (Q : list string → state → Prop) E :
  (∀ names, Q names s) → (∀ e, E e s) → wp (search t prefix mode) Q E s.
Proof.
  intros HQ HE. unfold wp, search, bind, gets, lift_outcome. simpl.
  destruct mode; [apply HQ|].
  destruct (search_sized t prefix (db_files s)); [apply HQ|apply HE].
Qed.

Lemma parse_ts_outcomes ts s (Q : Z → state → Prop) E :
  (∀ t, strptime_timestamp ts = Return t → Q t s) →
  (∀ e, strptime_timestamp ts = Raise e → E e s) →
  wp (parse_ts ts) Q E s.
Proof.
  intros HQ HE. unfold wp, parse_ts, lift_outcome.
  destruct (strptime_timestamp ts); auto.
Qed.

(** [rollback] sets the mode before it reads the timestamp: when the
    timestamp does not parse, the mode is set and the files are as they
    were. *)
Lemma rollback_outcomes ts s (Q : unit → state → Prop) E :
  (∀ t, strptime_timestamp ts = Return t →
        Q tt (mkState
                ((λ item, (item.1, mkFileObj (size item.2) t (ttl_seconds item.2)))
                   <$> db_files s) true (out s))) →
  (∀ e, strptime_timestamp ts = Raise e →
        E e (set_rollback_mode (λ _, true) s)) →
  wp (rollback ts) Q E s.
Proof.
  intros HQ HE. unfold wp.
  destruct (strptime_timestamp ts) as [t|e] eqn:Ht.
  - rewrite (rollback_run ts t s Ht). by apply HQ.
  - unfold rollback, bind, modify, parse_ts, lift_outcome. simpl.
    rewrite Ht. by apply HE.
Qed.

(** The lifetime of [FILE_UPLOAD_AT]: [int(op[4])] changes nothing. *)
Lemma lifetime_outcomes (ttl : option string) s (Q : option Z → state → Prop) E :
  (∀ n, Q n s) → (∀ e, E e s) →
  wp (match ttl with
      | Some str => let* n := lift_outcome (py_int str) in ret (Some n)
      | None => ret None
      end) Q E s.
Proof.
  intros HQ HE. destruct ttl as [str|]; [|apply HQ].
  unfold wp, bind, lift_outcome. destruct (py_int str); [apply HQ|apply HE].
Qed.

End outcomes.

(** * What a command changes *)

Section changes.
Context {tp : TimestampParser}.
Implicit Types (s : state) (o : FileObj) (name src dest prefix ts : string).
Implicit Types (t : Z) (db : list (string * FileObj)) (c : command).

(** The times that a command stores: 0 for the operations without a
    timestamp, and what [parse_ts] returns. *)
Definition epoch (t : Z) : Prop :=
  t = 0 ∨ ∃ ts, strptime_timestamp ts = Return t.

(** What a command that returns has done to [db_files]. *)
Inductive changes db : list (string * FileObj) → Prop :=
  | changes_nothing : changes db db
  | changes_upload name size t ttl :
    epoch t → alive_get db t name = None →
    changes db (dict_set db name (mkFileObj size t ttl))
  | changes_copy t src dest o :
    epoch t → alive_get db t src = Some o → changes db (dict_set db dest o)
  | changes_rollback t :
    epoch t →
    changes db ((λ item, (item.1, mkFileObj (size item.2) t (ttl_seconds item.2)))
                  <$> db).

(** The postconditions of a command: one of the changes when it
    returns; the files and the output as they were when it raises. *)
Definition changed s : unit → state → Prop :=
  λ _ s', changes (db_files s) (db_files s').

Definition unchanged s : exn → state → Prop :=
  λ _ s', db_files s' = db_files s ∧ out s' = out s.

Lemma epoch_0 : epoch 0.
Proof. by left. Qed.

Lemma epoch_parsed ts t : strptime_timestamp ts = Return t → epoch t.
Proof. right. by exists ts. Qed.

(** The line of output is written last, and writing it does not
    raise. *)
Lemma out_append_changed s0 line s :
  changes (db_files s0) (db_files s) →
  wp (out_append line) (changed s0) (unchanged s0) s.
Proof. done. Qed.

Lemma upload_changed s t name size ttl line :
  epoch t →
  wp (upload t name size ttl ;; out_append line) (changed s) (unchanged s) s.
Proof.
  intros Ht. apply wp_bind, upload_outcomes; [|done].
  intros Hfree. apply out_append_changed. by constructor.
Qed.

Lemma copy_changed s t src dest line :
  epoch t →
  wp (copy t src dest ;; out_append line) (changed s) (unchanged s) s.
Proof.
  intros Ht. apply wp_bind, copy_outcomes; [|done].
  intros o Ho. apply out_append_changed. by econstructor.
Qed.

Lemma get_changed s t name (line : option FileObj → string) :
  wp (let* obj := get t name in out_append (line obj))
     (changed s) (unchanged s) s.
Proof. apply wp_bind, get_outcomes, out_append_changed. constructor. Qed.

Lemma search_changed s t prefix mode (line : list string → string) :
  wp (let* names := search t prefix mode in out_append (line names))
     (changed s) (unchanged s) s.
Proof.
  apply wp_bind, search_outcomes; [|done].
  intros names. apply out_append_changed. constructor.
Qed.

(** A command that returns has made one of the changes; a command that
    raises has changed neither the files nor the output. *)
Lemma exec_changes c s : wp (exec c) (changed s) (unchanged s) s.
Proof.
  destruct c as [name size|name|src dest|pre|ts name size ttl|ts name
                |ts src dest|ts pre|ts]; cbn [exec].
  - apply upload_changed, epoch_0.
  - apply (get_changed s 0 name
      (λ obj, if obj is None then "file not found" else "got " +:+ name)).
  - apply copy_changed, epoch_0.
  - apply (search_changed s 0 pre false
      (λ names, "found [" +:+ join ", " names +:+ "]")).
  - apply wp_bind, lifetime_outcomes; [|done]. intros n.
    apply wp_bind, parse_ts_outcomes; [|done]. intros t Ht.
    eapply upload_changed, epoch_parsed, Ht.
  - apply wp_bind, parse_ts_outcomes; [|done]. intros t Ht.
    apply (get_changed s t name
      (λ obj, if obj is None then "file not found" else "got at " +:+ name)).
  - apply wp_bind, parse_ts_outcomes; [|done]. intros t Ht.
    eapply copy_changed, epoch_parsed, Ht.
  - apply wp_bind, parse_ts_outcomes; [|done]. intros t Ht.
    apply wp_bind, wp_gets.
    apply (search_changed s t pre (rollback_mode s)
      (λ names, "found at [" +:+ join ", " names +:+ "]")).
  - apply wp_bind, rollback_outcomes; [|done]. intros t Ht.
    apply out_append_changed. simpl. constructor. by eapply epoch_parsed.
Qed.

(** One operation of the loop: reading its arguments changes nothing. *)
Lemma dispatch_changes op s : wp (dispatch op) (changed s) (unchanged s) s.
Proof.
  unfold wp. rewrite dispatch_decode. unfold bind, lift_outcome.
  destruct (decode op) as [c|e]; [apply exec_changes|done].
Qed.

End changes.

(** * The type of the stored files *)

Section typed.
Context {tp : TimestampParser}.
Implicit Types (s : state) (db : list (string * FileObj)).

(** [created_at: int  # epoch seconds]: the creation time of every
    stored file is a time that a command stores. *)
Definition typed db : Prop := Forall (λ item, epoch (created_at item.2)) db.

Lemma typed_alive_get db t name o :
  typed db → alive_get db t name = Some o → epoch (created_at o).
Proof.
  intros Hdb [Ho%dict_get_Some _]%alive_get_Some.
  by apply (proj1 (Forall_forall _ _) Hdb (name, o)).
Qed.

(** Every change keeps the files typed. *)
Lemma changes_typed db db' : typed db → changes db db' → typed db'.
Proof.
  intros Hdb. destruct 1 as [|name size t ttl Ht _|t src dest o _ Ho|t Ht].
  - done.
  - by apply (dict_set_Forall (λ o, epoch (created_at o))).
  - apply (dict_set_Forall (λ o, epoch (created_at o))); [done|].
    by eapply typed_alive_get.
  - apply Forall_fmap, Forall_forall. by intros item _.
Qed.

(** The loop keeps the files typed, also where an exception ends it. *)
Lemma run_typed ops s :
  typed (db_files s) →
  wp (run ops) (λ _ s', typed (db_files s')) (λ _ s', typed (db_files s')) s.
Proof.
  revert s. induction ops as [|op ops IH]; intros s Hs; [done|].
  cbn [run]. apply wp_bind. eapply wp_mono; [apply dispatch_changes|..].
  - intros [] s' Hch. apply IH. by eapply changes_typed.
  - intros e s' [Hdb _]. by rewrite Hdb.
Qed.

End typed.

(** * Theorems *)

Section theorems.
Context {tp : TimestampParser}.
Implicit Types (s : state) (o : FileObj) (name size ts : string) (t n : Z).

(** C19: an operation that raises has changed neither the stored files
    nor the output: a refused upload, a copy without a source, a search
    that meets a size without a value, a timestamp or a lifetime that
    does not parse, a missing argument and an unknown operation all
    leave [db_files] and [out] as they were. *)
Theorem failed_operation_changes_nothing op s e s' :
  dispatch op s = (Raise e, s') → db_files s' = db_files s ∧ out s' = out s.
Proof.
  intros Hrun. pose proof (dispatch_changes op s) as Hwp.
  unfold wp in Hwp. by rewrite Hrun in Hwp.
Qed.

(** A value that is at hand, and a timestamp that parses. *)
Lemma bind_lift_outcome {A B} (a : A) (k : A → M state B) s :
  (let* x := lift_outcome (Return a) in k x) s = k a s.
Proof. done. Qed.

Lemma bind_parse_ts {B} ts t (k : Z → M state B) s :
  strptime_timestamp ts = Return t → (let* x := parse_ts ts in k x) s = k t s.
Proof. intros Hts. unfold bind, parse_ts, lift_outcome. by rewrite Hts. Qed.

(** A file with a lifetime is dead from the end of its lifetime on. *)
Lemma alive_get_expired s name o n t :
  dict_get (db_files s) name = Some o → ttl_seconds o = Some n →
  created_at o + n ≤ t → alive_get (db_files s) t name = None.
Proof.
  intros Ho Hn Ht. unfold alive_get, is_alive. rewrite Ho, Hn.
  by rewrite bool_decide_eq_false_2 by lia.
Qed.

(** C20: a file with a lifetime does not live for ever: at every time
    from the end of its lifetime on, [FILE_GET_AT] answers that the
    file is not found, and [FILE_UPLOAD_AT] is not refused but stores a
    new file under the name. *)
Theorem expired_file_is_dead s name o n ts t :
  dict_get (db_files s) name = Some o → ttl_seconds o = Some n →
  strptime_timestamp ts = Return t → created_at o + n ≤ t →
  dispatch ["FILE_GET_AT"; ts; name] s =
    (Return tt, set_out (λ l, l ++ ["file not found"]) s) ∧
  ∀ size,
    dispatch ["FILE_UPLOAD_AT"; ts; name; size] s =
      (Return tt,
       set_out (λ l, l ++ ["uploaded at " +:+ name])
         (set_db_files (λ d, dict_set d name (mkFileObj size t None)) s)).
Proof.
  intros Ho Hn Hts Ht.
  pose proof (alive_get_expired s name o n t Ho Hn Ht) as Hdead.
  split; [|intros size]; rewrite dispatch_decode.
  - change (decode _) with (Return (FILE_GET_AT ts name)).
    rewrite bind_lift_outcome. cbn [exec].
    rewrite (bind_parse_ts ts t) by done. unfold bind.
    by rewrite get_run, Hdead.
  - change (decode _) with (Return (FILE_UPLOAD_AT ts name size None)).
    rewrite bind_lift_outcome. cbn [exec]. unfold bind at 1. cbn [ret].
    rewrite (bind_parse_ts ts t) by done. unfold bind.
    by rewrite (upload_fresh _ _ _ _ _ Hdead).
Qed.

End theorems.

(** C18: [created_at] holds epoch seconds: in every state that the loop
    of the simulation reaches on CPython's [strptime], and in the one
    where an exception ends it, the creation time of every stored file
    is the number of seconds from 1970 to a time of the calendar between
    0001-01-01T00:00:00 and 9999-12-31T23:59:59. *)
Theorem created_at_epoch_seconds (ops : list (list string)) :
  Forall (λ item, datetime.timestamp_min ≤ created_at item.2
                  ≤ datetime.timestamp_max)
    (db_files (run (tp:=cpython_timestamps) ops initial).2).
Proof.
  pose proof (run_typed (tp:=cpython_timestamps) ops initial (Forall_nil_2 _))
    as Hrun.
  assert (typed (tp:=cpython_timestamps)
            (db_files (run (tp:=cpython_timestamps) ops initial).2)) as Ht.
  { unfold wp in Hrun. by destruct (run ops initial) as [[[]|e] s']. }
  eapply Forall_impl; [exact Ht|]. intros item [->|[ts Hts]]; [done|].
  by apply datetime.strptime_timestamp_bounds in Hts.
Qed.

Lemma failed_operation_changes_nothing_witness :
  db_files sample = db_files sample ∧ out sample = out sample.
Proof.
  apply (failed_operation_changes_nothing (tp:=cpython_timestamps)
           ["FILE_UPLOAD"; "foo.txt"; "1kb"] sample
           (RuntimeError "File foo.txt already exists") sample).
  by vm_compute.
Defined.

Lemma expired_file_is_dead_witness :
  dispatch (tp:=cpython_timestamps)
    ["FILE_GET_AT"; "2021-07-01T13:00:00"; "bar.txt"] sample =
    (Return tt, set_out (λ l, l ++ ["file not found"]) sample) ∧
  ∀ size,
    dispatch (tp:=cpython_timestamps)
      ["FILE_UPLOAD_AT"; "2021-07-01T13:00:00"; "bar.txt"; size] sample =
      (Return tt,
       set_out (λ l, l ++ ["uploaded at " +:+ "bar.txt"])
         (set_db_files
            (λ d, dict_set d "bar.txt" (mkFileObj size 1625144400 None))
            sample)).
Proof.
  apply (expired_file_is_dead (tp:=cpython_timestamps) sample "bar.txt"
           (mkFileObj "2mb" 1625140800 (Some 3600)) 3600
           "2021-07-01T13:00:00" 1625144400); by vm_compute.
Defined.

(** * When a command is refused

    The premises of the rules of the store, as a function: [accepts]
    computes whether a command has a step.  With the refinement of
    [FileStore.v] it tells, before a command runs, whether the
    simulation will raise. *)

Import FileStore.

(** [o] is a returned value. *)
Definition returns {A} (o : outcome A) : bool :=
  if o is Return _ then true else false.

(** Every file that a search by size considers has a size with a
    value. *)
Definition sizes_ok (st : store) (t : Z) (prefix : string) : bool :=
  forallb (λ item, returns (convert_file_size (size item.2)))
    (candidates st t prefix).

Section accepts.
Context {tp : TimestampParser}.
Implicit Types (st : store) (c : command) (t : Z).

(** [p] holds of the time of a timestamp that parses. *)
Definition at_time (ts : string) (p : Z → bool) : bool :=
  match strptime_timestamp ts with
  | Return t => p t
  | Raise _ => false
  end.

Definition accepts st c : bool :=
  match c with
  | FILE_UPLOAD name _ => bool_decide (live st 0 name = None)
  | FILE_GET _ => true
  | FILE_COPY src _ => bool_decide (is_Some (live st 0 src))
  | FILE_SEARCH prefix => sizes_ok st 0 prefix
  | FILE_UPLOAD_AT ts name _ ttl =>
    returns (lifetime ttl) &&
    at_time ts (λ t, bool_decide (live st t name = None))
  | FILE_GET_AT ts _ => at_time ts (λ _, true)
  | FILE_COPY_AT ts src _ =>
    at_time ts (λ t, bool_decide (is_Some (live st t src)))
  | FILE_SEARCH_AT ts prefix =>
    at_time ts (λ t, alphabetical st || sizes_ok st t prefix)
  | ROLLBACK ts => at_time ts (λ _, true)
  end.

Lemma returns_Return {A} (o : outcome A) : returns o = true ↔ ∃ a, o = Return a.
Proof. destruct o; simpl; split; [eauto|done|done|by intros [? ?]]. Qed.

Lemma at_time_spec ts p :
  at_time ts p = true ↔ ∃ t, strptime_timestamp ts = Return t ∧ p t = true.
Proof.
  unfold at_time. destruct (strptime_timestamp ts) as [t|e].
  - split; [eauto|]. by intros (? & [= <-] & ?).
  - split; [done|]. by intros (? & ? & ?).
Qed.

(** The sizes of the candidates have values exactly when the list of
    the sized candidates exists. *)
Lemma sizes_ok_sized st t prefix :
  sizes_ok st t prefix = true ↔
  ∃ sized, Forall2 sized_as (candidates st t prefix) sized.
Proof.
  unfold sizes_ok. generalize (candidates st t prefix). intros items.
  induction items as [|[name o] items IH]; simpl.
  { split; [by exists []|done]. }
  rewrite andb_true_iff, IH, returns_Return. split.
  - intros [[n Hn] [sized Hsized]]. exists ((name, n) :: sized).
    by constructor.
  - intros [sized Hsized].
    apply Forall2_cons_inv_l in Hsized as ([name' n] & sized' & [_ Hn] & ? & _).
    simpl in Hn. eauto.
Qed.

(** A search has a result exactly when it is alphabetical or the sizes
    of its candidates have values. *)
Lemma found_sizes_ok st t prefix mode :
  (∃ names, found st t prefix mode names) ↔
  mode || sizes_ok st t prefix = true.
Proof.
  destruct mode; simpl.
  - split; [done|]. intros _. eexists. constructor.
    apply (top_k_merge_sort String.le).
  - rewrite sizes_ok_sized. split.
    + intros [names Hfound]. inversion Hfound. eauto.
    + intros [sized Hsized]. eexists. econstructor; [done|].
      apply (top_k_merge_sort sized_le).
Qed.

End accepts.

Section progress.
Context {tp : TimestampParser}.
Implicit Types (st : store) (c : command) (s : state) (t : Z).

(** A step needs what [accepts] computes. *)
Lemma step_accepts st c line st' : step st c line st' → accepts st c = true.
Proof.
  destruct 1; cbn [accepts];
    rewrite ?andb_true_iff, ?at_time_spec, ?returns_Return;
    repeat match goal with
           | |- _ ∧ _ => split
           | |- ∃ _, _ => eexists
           | |- bool_decide _ = true => apply bool_decide_eq_true_2
           | |- sizes_ok _ _ _ = true =>
             apply (proj1 (found_sizes_ok _ _ _ false)); eauto
           | |- _ || sizes_ok _ _ _ = true =>
             apply (proj1 (found_sizes_ok _ _ _ _)); eauto
           end; eauto.
Qed.

(** What [accepts] computes is enough for a step. *)
Lemma accepts_step st c : accepts st c = true → enabled st c.
Proof.
  unfold enabled.
  destruct c as [name size|name|src dest|pre|ts name size ttl|ts name
                |ts src dest|ts pre|ts]; cbn [accepts];
    rewrite ?andb_true_iff, ?at_time_spec, ?returns_Return,
      ?bool_decide_eq_true.
  - intros Hfree. eexists _, _. by constructor.
  - intros _. eexists _, _. constructor.
  - intros [o Ho]. eexists _, _. by econstructor.
  - intros [names Hfound]%(proj2 (found_sizes_ok st 0 pre false)).
    eexists _, _. by econstructor.
  - intros [[n Hn] (t & Ht & Hfree%bool_decide_eq_true)].
    eexists _, _. by econstructor.
  - intros (t & Ht & _). eexists _, _. by econstructor.
  - intros (t & Ht & [o Ho]%bool_decide_eq_true). eexists _, _. by econstructor.
  - intros (t & Ht & [names Hfound]%(proj2 (found_sizes_ok _ _ _ _))).
    eexists _, _. by econstructor.
  - intros (t & Ht & _). eexists _, _. by econstructor.
Qed.

Lemma enabled_accepts st c : enabled st c ↔ accepts st c = true.
Proof.
  split; [intros (line & st' & Hstep); by eapply step_accepts|].
  apply accepts_step.
Qed.

#[export] Instance enabled_dec st c : Decision (enabled st c).
Proof.
  refine (cast_if (decide (accepts st c = true)));
    abstract (by rewrite enabled_accepts).
Defined.

(** C17: whether a command raises is known before it runs: from a state
    with distinct names, the command of the dispatcher raises exactly
    when [accepts] computes [false] on the store of the state, that is
    for a live duplicate, a source that is missing or dead, a search by
    size that meets a size without a value, and a timestamp or a
    lifetime that does not parse. *)
Theorem raises_iff_not_accepted c s :
  dict_ok (db_files s) →
  (∃ e s', exec c s = (Raise e, s')) ↔ accepts (abs s) c = false.
Proof.
  intros Hok. rewrite <-not_true_iff_false, <-enabled_accepts.
  pose proof (exec_refines_step c s Hok) as Hexec. unfold wp in Hexec.
  destruct (exec c s) as [[[]|e] s'].
  - destruct Hexec as (line & Hstep & _). split; [by intros (? & ? & ?)|].
    intros []. by eexists _, _.
  - split; [done|eauto].
Qed.

End progress.

Lemma raises_iff_not_accepted_witness :
  (∃ e s', exec (tp:=cpython_timestamps)
             (FILE_COPY_AT "2021-07-01T13:00:00" "bar.txt" "b") sample =
             (Raise e, s')) ↔
  accepts (tp:=cpython_timestamps) (abs sample)
    (FILE_COPY_AT "2021-07-01T13:00:00" "bar.txt" "b") = false.
Proof. apply raises_iff_not_accepted. compute_done. Defined.

(** * What a run never undoes *)

Section monotone.
Context {tp : TimestampParser}.
Implicit Types (s : state) (db : list (string * FileObj)).

(** No change removes a name or moves it: an assignment keeps the place
    of a stored name and puts a new one last, as a [dict] does. *)
Lemma changes_names db db' : changes db db' → db.*1 `prefix_of` db'.*1.
Proof.
  destruct 1 as [|name size t ttl _ _|t src dest o _ _|t _];
    rewrite ?dict_set_keys; try case_decide;
    try done; try by apply prefix_app_r.
  rewrite <-list_fmap_compose. reflexivity.
Qed.

Lemma run_names ops s :
  wp (run ops) (λ _ s', (db_files s).*1 `prefix_of` (db_files s').*1)
               (λ _ s', (db_files s).*1 `prefix_of` (db_files s').*1) s.
Proof.
  revert s. induction ops as [|op ops IH]; intros s; [by apply wp_ret|].
  cbn [run]. apply wp_bind. eapply wp_mono; [apply dispatch_changes|..].
  - intros [] s' Hch%changes_names.
    eapply wp_mono; [apply IH|..]; intros ? s'' ?; by etrans.
  - intros e s' [-> _]. done.
Qed.

(** C30: the simulation never forgets: no sequence of operations removes
    a stored file, not even one whose lifetime has ended, or changes
    the order of the names in [db_files], and none resets the rollback
    mode.  This holds of the state that the loop reaches and of the one
    where an exception ends it. *)
Theorem run_never_forgets (ops : list (list string)) s :
  (db_files s).*1 `prefix_of` (db_files (run ops s).2).*1 ∧
  (rollback_mode s = true → rollback_mode (run ops s).2 = true).
Proof.
  split; [|by apply rollback_mode_latches].
  pose proof (run_names ops s) as Hrun. unfold wp in Hrun.
  by destruct (run ops s) as [[[]|e] s'].
Qed.

End monotone.

(** A file that is never removed can come back: the file has expired
    at two o'clock, and after a rollback to half past one the same
    question finds it. *)
Example rollback_revives_expired_file :
  simulate_coding_framework (tp:=cpython_timestamps)
    [["FILE_UPLOAD_AT"; "2021-07-01T12:00:00"; "bar.txt"; "2mb"; "3600"];
     ["FILE_GET_AT"; "2021-07-01T14:00:00"; "bar.txt"];
     ["ROLLBACK"; "2021-07-01T13:30:00"];
     ["FILE_GET_AT"; "2021-07-01T14:00:00"; "bar.txt"]] =
  Return ["uploaded at bar.txt"; "file not found";
          "rollback to 2021-07-01T13:30:00"; "got at bar.txt"].
Proof. by vm_compute. Qed.

(** * The order of insertion is not observable

    Two states stand for the same store when their dictionaries hold
    the same files, in whatever order, and they have the same rollback
    mode; [same_store] adds that they have written the same output.
    The simulation cannot tell such states apart by what it returns:
    only the message of an exception can depend on the order, when a
    search by size meets the first of several sizes without a value. *)

Definition same_store (s1 s2 : state) : Prop :=
  dict_ok (db_files s1) ∧ dict_ok (db_files s2) ∧
  abs s1 = abs s2 ∧ out s1 = out s2.

(** The outcomes of two runs agree: both return, in states that stand
    for the same store, or both raise. *)
Definition same_outcome (r1 r2 : outcome unit * state) : Prop :=
  match r1.1, r2.1 with
  | Return _, Return _ => same_store r1.2 r2.2
  | Raise _, Raise _ => True
  | _, _ => False
  end.

#[export] Instance same_store_symmetric : Symmetric same_store.
Proof. by intros s1 s2 (? & ? & ? & ?). Qed.

#[export] Instance same_store_transitive : Transitive same_store.
Proof.
  intros s1 s2 s3 (? & ? & H12 & Ho12) (? & ? & H23 & Ho23).
  split_and!; [done..|by rewrite H12|by rewrite Ho12].
Qed.

Section order.
Context {tp : TimestampParser}.

(** A run that returns ends in a state with distinct names that has
    taken the steps of the store; a run that raises had none. *)
Lemma run_steps ops s :
  dict_ok (db_files s) →
  match run ops s with
  | (Return _, s') =>
    dict_ok (db_files s') ∧
    ∃ lines, steps (abs s) ops lines (abs s') ∧ out s' = out s ++ lines
  | (Raise _, _) => ¬ ∃ lines st', steps (abs s) ops lines st'
  end.
Proof.
  intros Hok. pose proof (run_refines_steps ops s Hok) as Hrun.
  pose proof (run_out ops s) as Hkeeps. unfold wp in *.
  destruct (run ops s) as [[[]|e] s']; [|done].
  split; [|done]. by apply Hkeeps.
Qed.

(** The runs of the same operations from two states that stand for the
    same store have the same outcome. *)
#[export] Instance run_same_store ops :
  Proper (same_store ==> same_outcome) (run ops).
Proof.
  intros s1 s2 (Hok1 & Hok2 & Habs & Hout).
  pose proof (run_steps ops s1 Hok1) as H1.
  pose proof (run_steps ops s2 Hok2) as H2. unfold same_outcome.
  rewrite Habs in H1.
  destruct (run ops s1) as [[[]|e1] s1'], (run ops s2) as [[[]|e2] s2']; simpl.
  - destruct H1 as (? & lines1 & Hsteps1 & Hout1).
    destruct H2 as (? & lines2 & Hsteps2 & Hout2).
    destruct (steps_deterministic _ _ _ _ _ _ Hsteps1 Hsteps2) as [-> ?].
    split_and!; [done..|by rewrite Hout1, Hout2, Hout].
  - destruct H1 as (_ & lines & Hsteps & _). apply H2. eauto.
  - destruct H2 as (_ & lines & Hsteps & _). apply H1. eauto.
  - done.
Qed.

(** C28: the output of the simulation does not depend on the order in
    which the files of a state were stored: from two states that stand
    for the same store and have written the same output, the same
    operations return the same lines. *)
Theorem simulation_order_independent ops s1 s2 lines :
  same_store s1 s2 →
  (run ops ;; gets out) s1 = (Return lines, (run ops s1).2) →
  (run ops ;; gets out) s2 = (Return lines, (run ops s2).2).
Proof.
  intros Hsame%(run_same_store ops). unfold same_outcome, bind, gets in *.
  destruct (run ops s1) as [[[]|e1] s1'], (run ops s2) as [[[]|e2] s2'];
    simpl in *; try done.
  destruct Hsame as (_ & _ & _ & ->). by intros [= <-].
Qed.

End order.

(** The message of the exception does depend on the order: of two files
    whose sizes have no value, the search by size names the one that
    was stored first. *)
Example search_error_depends_on_order :
  simulate_coding_framework (tp:=cpython_timestamps)
    [["FILE_UPLOAD"; "a"; "1gb"]; ["FILE_UPLOAD"; "b"; "1tb"];
     ["FILE_SEARCH"; ""]] =
    Raise (ValueError "Unknown size unit: '1gb'") ∧
  simulate_coding_framework (tp:=cpython_timestamps)
    [["FILE_UPLOAD"; "b"; "1tb"]; ["FILE_UPLOAD"; "a"; "1gb"];
     ["FILE_SEARCH"; ""]] =
    Raise (ValueError "Unknown size unit: '1tb'").
Proof. split; by vm_compute. Qed.

Lemma simulation_order_independent_witness :
  (run (tp:=cpython_timestamps) [["FILE_SEARCH"; "foo"]] ;; gets out)
    (set_db_files reverse sample) =
  (Return (out sample ++ ["found [foo.txt, foo2.txt]"]),
   (run (tp:=cpython_timestamps) [["FILE_SEARCH"; "foo"]]
      (set_db_files reverse sample)).2).
Proof.
  apply (simulation_order_independent (tp:=cpython_timestamps) _ sample).
  - unfold same_store. split_and!; [compute_done..|done].
  - by vm_compute.
Defined.
