(* ===== verification/Numerals.v ===== *)
(** * Sizes and lifetimes as numerals

    The file store reads two kinds of numbers from strings: the size of
    a file, by [convert_file_size], and the lifetime of an upload, by
    [int].  This file states what they read.

    - [unit_factor] is the table of the units of [convert_file_size];
      [convert_file_size_value] gives the result for every string of
      the language of [_SIZE_RE], and [convert_file_size_invalid] for
      every other string.
    - Python writes an integer [n] as [str_int n]; a size written as
      this numeral followed by a unit has the value [n] times the
      factor of the unit, and a lifetime written as this numeral is
      [n].
    - Examples of the lifetimes that [int] reads and of those it
      rejects; [lifetime_literal] of [FileStore.v] is the theorem. *)

From Stdlib Require Import Ascii.
From stdpp Require Import gmap strings list sorting pretty.
From S2P Require Import Prelude PyString Strptime FileStorage FileStore.

Local Open Scope Z_scope.
Local Open Scope py_scope.

Import simulation.

(** The factor of a unit in lower case: the three tests of
    [convert_file_size], in their order. *)
Definition unit_factor (unit : string) : option Z :=
  if bool_decide (unit = "kb" ∨ unit = "k") then Some 1024
  else if bool_decide (unit = "mb" ∨ unit = "m") then Some (1024 * 1024)
  else if bool_decide (unit = "b" ∨ unit = "") then Some 1
  else None.

Section sizes.
Implicit Types (size_str unit : string) (ds ls : list ascii) (n : Z).

(** The result of [convert_file_size] on a string of the language of
    [_SIZE_RE]: the value of the digits times the factor of the
    letters, whatever their case, or [ValueError] for letters that are
    no unit. *)
Lemma convert_file_size_value size_str ds ls :
  size_re_matches size_str ds ls →
  convert_file_size size_str =
    match unit_factor (lower (String.string_of_list_ascii ls)) with
    | Some f => Return (int_of_digits ds * f)
    | None => Raise (ValueError ("Unknown size unit: " +:+ repr size_str))
    end.
Proof.
  intros Hm%size_re_match_complete. unfold convert_file_size, unit_factor.
  rewrite Hm. cbv zeta. repeat case_bool_decide; f_equal; lia.
Qed.

(** On every other string it raises [ValueError]. *)
Lemma convert_file_size_invalid size_str :
  (∀ ds ls, ¬ size_re_matches size_str ds ls) →
  convert_file_size size_str =
    Raise (ValueError ("Invalid size: " +:+ repr size_str)).
Proof.
  intros Hno. unfold convert_file_size.
  destruct (_SIZE_RE_match size_str) as [[ds ls]|] eqn:Hm; [|done].
  by apply size_re_match_sound, Hno in Hm.
Qed.

(** A numeral followed by letters is in the language. *)
Lemma size_re_matches_numeral n unit :
  0 ≤ n → Forall (λ c, isalpha c = true) (String.list_ascii_of_string unit) →
  size_re_matches (str_int n +:+ unit)
    (String.list_ascii_of_string (str_int n)) (String.list_ascii_of_string unit).
Proof.
  intros Hn Hunit. exists [], [], []. rewrite list_ascii_of_string_app.
  destruct (pretty_N_digits (Z.to_N n)) as (Hds & Hne & _).
  assert (str_int n = pretty (Z.to_N n)) as ->.
  { unfold str_int. by destruct n. }
  split_and!; [by rewrite app_nil_r|done..].
Qed.

End sizes.

(** C31: [convert_file_size] reads the sizes that Python writes: for a
    number [n] that is not negative and a unit in any case of letters,
    the size written as the decimal numeral of [n] followed by the
    unit has the value [n] for [b] and no unit, [1024 n] for [k] and
    [kb], and [1024 * 1024 n] for [m] and [mb]. *)
Theorem convert_file_size_decimal (n : Z) (unit : string) (f : Z) :
  0 ≤ n →
  Forall (λ c, isalpha c = true) (String.list_ascii_of_string unit) →
  unit_factor (lower unit) = Some f →
  convert_file_size (str_int n +:+ unit) = Return (n * f).
Proof.
  intros Hn Hunit Hf.
  rewrite (convert_file_size_value _ _ _ (size_re_matches_numeral n unit Hn Hunit)).
  rewrite String.string_of_list_ascii_of_string, Hf. do 2 f_equal.
  destruct (pretty_N_digits (Z.to_N n)) as (_ & _ & Hval).
  assert (str_int n = pretty (Z.to_N n)) as -> by (unfold str_int; by destruct n).
  rewrite Hval. lia.
Qed.

(** [int(op[4])] reads the lifetime that Python writes. *)
Theorem lifetime_str_int (n : Z) : lifetime (Some (str_int n)) = Return (Some n).
Proof. unfold lifetime. by rewrite py_int_str_int. Qed.

Lemma convert_file_size_decimal_witness :
  convert_file_size (str_int 200 +:+ "Kb") = Return (200 * 1024).
Proof. apply convert_file_size_decimal; [lia|by repeat constructor|done]. Defined.

(** A separator before the digits is white space for [_SIZE_RE] and
    not for [int]: the string is a size and no lifetime. *)
Example separator_is_no_int_space :
  convert_file_size (String (ascii_of_N 28) "5") = Return 5 ∧
  lifetime (Some (String (ascii_of_N 28) "5")) =
    Raise (ValueError "invalid literal for int() with base 10: '\x1c5'") ∧
  lifetime (Some (String (ascii_of_N 160) "5")) = Return (Some 5).
Proof. by vm_compute. Qed.

(** A lifetime with a sign: the upload with the lifetime [-5] is
    accepted, and its file is dead at the time of the upload and alive
    ten seconds before it; [ +1_0 ] is a lifetime of ten seconds. *)
Example signed_lifetimes :
  simulate_coding_framework (tp:=cpython_timestamps)
    [["FILE_UPLOAD_AT"; "2021-07-01T12:00:00"; "a.txt"; "1kb"; "-5"];
     ["FILE_GET_AT"; "2021-07-01T12:00:00"; "a.txt"];
     ["FILE_GET_AT"; "2021-07-01T11:59:50"; "a.txt"];
     ["FILE_UPLOAD_AT"; "2021-07-01T12:00:00"; "a.txt"; "2kb"; " +1_0 "];
     ["FILE_GET_AT"; "2021-07-01T12:00:09"; "a.txt"];
     ["FILE_GET_AT"; "2021-07-01T12:00:10"; "a.txt"]] =
  Return ["uploaded at a.txt"; "file not found"; "got at a.txt";
          "uploaded at a.txt"; "got at a.txt"; "file not found"].
Proof. by vm_compute. Qed.
